(* ===== verification/_CoqProject ===== *)
-Q . S2P
Prelude.v
Types.v
Heap.v
DeepCopy.v
World.v
GoStd.v
Codec.v
GoTime.v
Sim.v
NetIP.v
URL.v
Networks.v
Libs.v
Conditions.v
PatchBase.v
Common.v
FileLock.v
Credentials.v
Installer.v
InputData.v
Webhook.v
Host.v
Reconciler.v
SpokeStatus.v
Progress.v
Monitor.v
Watches.v
ImageServer.v
Manager.v
TLS.v
Startup.v
System.v
Layers.v
Hosts.v
Locks.v
Images.v
