(* ===== verification/Prelude.v ===== *)
(** * A model of the image-based-install-operator, and its correctness

    The operator installs single-node OpenShift clusters from a disk image that
    is already on the host.  A user creates an ImageClusterInstall (ICI); the
    operator builds a configuration ISO for the cluster, serves it over HTTP,
    attaches it to the BareMetalHost with a DataImage, boots the host, and
    watches the new ("spoke") cluster until it is installed.  This library
    translates the Go code of the repository (everything under api/, controllers/,
    internal/ and cmd/ but the mocks of the tests) into executable definitions and
    proves what the operator promises.

    ** The program's parts and the files that model them

    Foundations
    - [Prelude]: Go values (errors with [%w] chains, nil slices and maps, panics,
      map iteration order), programs over calls to an environment, [exec], [wp]
      and their rules, and the tactics of the library.
    - [Types]: api/v1alpha1/imageclusterinstall_types.go, and the fields of the
      third-party objects the operator reads or writes.
    - [Heap]: Go memory (pointers, slices as views of arrays, maps), the patterns
      of generated copying code, what a structure in memory represents, and rules
      for programs that leave a part of the memory alone.
    - [World]: the environment of the controllers: one constructor of [call] for
      every request to the API server, file-system call, lock, clock and random
      source, and call of the installer's asset store, with its answer type.
    - [GoStd], [Codec], [GoTime], [NetIP], [URL]: the functions of Go's standard
      library the code computes with, translated from their behaviour.  [GoStd]:
      strings and path/filepath.  [Codec]: encoding/base64, UTF-8, encoding/json
      as far as a pull secret is decoded with it, and the verb [%q]; what is
      printed is read back ([Codec.base64_decode_encode],
      [Codec.json_parse_print]).  [GoTime]: ParseDuration and Duration.String,
      inverse to each other on whole seconds ([GoTime.ParseDuration_String]).
      [NetIP]: ParseIP, ParseCIDR and Contains, where addresses and networks are
      128-bit numbers and [Contains] is equality of the prefixes
      ([NetIP.contains_in_network]).  [URL]: net/url (Parse, JoinPath, String).
    - [Libs]: the class [GoLibs] of the pure functions of third-party packages
      (SSH keys, image references, YAML, the JSON text of third-party structs and
      of errors).  No law is assumed of them; a theorem that needs one names it
      as a hypothesis.
    - [Sim]: one concrete environment (an API server with stored objects, a file
      system, a clock), used by the witnesses only.

    Components
    - [Networks]: machine networks and the check of the host's interfaces
      (controllers/imageclusterinstall_controller.go, internal/installer).
    - [DeepCopy]: api/v1alpha1/zz_generated.deepcopy.go, on memory.
    - [Conditions]: controllers/conditions.go, on values; [PatchBase]: its update
      of a condition, and the base of its patches, on memory.
    - [Common]: controllers/common.go, the removal of a DataImage, reboot.
    - [FileLock]: internal/filelock/filelock.go.
    - [Credentials]: internal/credentials/credentials.go.
    - [Installer]: internal/installer/installer.go and reinstall.go.
    - [InputData]: writeInputData and its helpers, the building of the ISO.
    - [Webhook]: api/v1alpha1/imageclusterinstall_webhook.go.
    - [Host]: validateConfiguration, validateHost, configureHost and the backup
      labels of the controller.
    - [Reconciler]: Reconcile of the first controller, with the finalizer, the
      cluster metadata and the restore annotations.
    - [Progress]: what a run of [Reconciler] has achieved when it ends.
    - [SpokeStatus]: internal/monitor/monitor.go.
    - [Monitor]: controllers/imageclusterinstall_monitor.go, the second controller.
    - [Watches]: the watch mappings and field indexes of the controller.
    - [ImageServer]: internal/imageserver/imageserver.go.
    - [Manager]: serviceURL and EnqueueExistingImageClusterInstall of
      cmd/manager/main.go.
    - [TLS]: internal/tlsconfig and the TLS watch of cmd/server/main.go.
    - [Startup]: both main functions.
    - [System]: the two controllers over one API server.
    - [Layers]: [System] with further shared state, as a class, and pairs of such
      layers; [Hosts]: with the DataImages, [Locks]: with the lock files of the
      configuration directories, [Images]: with the files, and then with all of
      these.

    They interact through calls ([Reconciler] composes [Host], [InputData],
    [Conditions], [Common]; [InputData] composes [FileLock], [Credentials],
    [Installer]; [Monitor] composes [SpokeStatus], [Common], [Conditions]),
    through the state of the API server (a boot time in the status starts the
    monitor, Completed stops both controllers), and through the file system (the
    ISO that [InputData] builds is the file [ImageServer] serves under the URL
    that [Reconciler] puts into the DataImage).

    ** How code becomes definitions

    A Go function is a definition of the same name.  Pure functions are Gallina
    functions; a function that talks to the outside is a program of type [io]:
    a tree whose nodes are calls and whose branches are the possible answers, in
    the order the code makes the calls.  [try], [check] and [let*] are the early
    returns on [(T, error)], on [error], and plain sequencing.  A pair of value
    and error is [result] where the code uses only one of them, a pair of both
    otherwise.  A run-time panic is [XPanic]; deferred functions run on it as
    well.  Objects that the code changes through a pointer are passed in and
    returned, also after a failed patch, when the in-memory change stays; the
    answer of a successful patch replaces the object, as the client decodes the
    response into it.  A patch call carries the object before and after the
    change, so that a theorem can say what exactly is changed; in the code the
    object before is a deep copy.  That objects can be values at all, although
    copies could share memory, is a theorem for the objects of this API: the
    generated copies share nothing ([DeepCopy.generated_copies_are_deep]), and
    conditions that are set in place do not reach the copy
    ([PatchBase.patch_base_intact]).

    Nothing is assumed about answers: every theorem holds for stale reads, lost
    races, failing calls and other writers, because each answer is arbitrary.
    Only [System], [Hosts], [Locks] and [Images], which let runs share state, fix
    what is answered: [System.api_answer] for ImageClusterInstalls (a read returns some
    version that was stored, a patch changes the stored object as a merge patch
    does), [Hosts.host_answer] for DataImages (a read returns some version that
    was stored) and for hosts (which keep their names), [Locks.flock_answer] for
    locks (a file is locked by one run at a time), [Images.file_answer] for files
    (Stat tells whether a file is there, RemoveAll removes nothing elsewhere, the
    installer leaves its output when it succeeds); everything else is answered
    arbitrarily there too.
    [exec p t r] says that [p] can make exactly the calls of the trace [t], with
    the answers there, and return [r]; theorems about all runs are stated with
    it.  [wp G p h Q] is the proof rule: every call is allowed by the guard [G]
    after the calls made so far, and results satisfy [Q].

    Instants and durations are integers of nanoseconds; the sums that occur stay
    within what the code's 64-bit durations and [time.Time] represent.  Strings
    are byte strings.  Log messages and the context argument are left out.

    ** What the theorems show

    - The order of an installation ([Reconciler]): a host is booted only for a
      live object after image, credentials, takeover and a settled DataImage; the
      DataImage is created only for a built image and at the right URL; a host is
      taken over only when it qualifies (one that was externally provisioned
      before is not checked); all three only for the host that the object refers
      to; RequirementsMet and the boot time are reported exactly then, once; the
      outcome of every run of the phases, also a panic or an error, is in the
      conditions already or is sent ([Reconciler.phases_always_reported]).
    - The end of an installation ([Reconciler], [Monitor]): Completed is reported
      only after the spoke cluster said so and the DataImage is withdrawn; a
      completed object is left alone; the DataImage is deleted, and the finalizer
      taken off, only at the end and in the right order.
    - Getting somewhere ([Progress], [Monitor]): a run of the reconciler that
      neither fails nor asks for another run has done its job or waits for a named
      object.  A round of the monitor ends after at most 27 requests, and an
      installation that is not reported as completed always gets another round.
    - The composed system ([System]): an invariant over all reachable states of
      any number of interleaved runs, with stale reads, lost answers and abandoned
      runs: what a stored status claims has been done, by which controller, and
      the claims never contradict each other.
    - Whose image a host gets ([Hosts], [Images]): if no two installations refer
      to the same host, every host is booted with the image of its own
      installation ([Hosts.own_image]), and that image is served from then on
      until the installation is being deleted ([Images.own_image_served]); two that
      share a host can get the wrong one ([Hosts.shared_host_wrong_image]).
    - Who works on a configuration directory ([Locks]): one run at a time, also
      when directories are deleted and processes end in the middle
      ([Locks.one_worker_per_directory]).
    - The building of the image ([InputData], [FileLock], [Installer],
      [Credentials]): all work is done under the lock, in order, and success means
      that image and secrets are there; a reinstallation keeps the identity.
    - Decisions ([Networks], [SpokeStatus], [Webhook], [InputData]): each check
      accepts exactly the inputs it means to accept, independently of map order.
      The pull secret is checked from its text: a docker configuration as a user
      writes it is accepted.
    - Bounds ([Monitor]): the time-out of an installation is a 64-bit duration,
      whatever its annotation says, and the one that the annotation spells.
    - Interfaces between the parts ([Manager], [Webhook], [Watches],
      [ImageServer]): the URL in the DataImage is served with the very file the
      installer writes; what the webhook admits can be installed; a host event
      wakes exactly the installations it concerns.
    - Memory ([DeepCopy], [PatchBase]): deep copies are equal and share nothing,
      and the status updates on memory do what their models on values do.
    - Processes ([TLS], [Startup]): the manager starts only fully wired; the image
      server listens and stops properly under every interleaving of its threads;
      a change of the TLS settings leads to a restart, and nothing else does.
    Theorems with hypotheses come with a witness that applies them to a concrete
    run; the scenario at the end of [Reconciler] runs a whole installation up to
    the boot of the host in [Sim], that of [System] up to Completed.

    ** Fuel and bounds

    Programs are finite trees, so every run ends ([exec_run]: every environment
    leads to a result), and [within n p] bounds its calls; no loop of the operator
    is unbounded.  The system of [System] is a step relation and needs no fuel; its
    scheduler, used by the witnesses only, runs a given number of calls.
    Fuel occurs in these places:
    - [range_order], the number of entries of the map ([range_order_perm]: every
      order is a permutation, nothing is lost);
    - [strip_words], the length of the text ([strip_words_fuel]);
    - [replace_invalid], the length of the text ([replace_invalid_fuel]: more
      changes nothing);
    - [parse6_loop], eight rounds, the number of groups of an IPv6 address;
    - [json_value], twice the length of the text and one ([json_value_fuel]: more
      changes nothing);
    - [duration_loop], the length of the text ([duration_loop_fuel]);
    - [fmtInt], twenty digits, more than a 64-bit number has.

    ** What is not modelled

    - The generated mocks, which serve the tests only.
    - Deep copies of the other vendored objects (hosts, secrets): a copy is taken
      to be the same value.
    - Registration with schemes and flag parsing, pprof, logging.
    - The decision procedures of third-party packages: they are parameters; so is
      the text of an error of encoding/json.  [%q] keeps every byte from 128 on,
      as Go does for printable characters (it only occurs in error messages).
    - Reads of the two clients and of the clock return anything; conflicts are
      not modelled: patches carry no resource version, and an update that is
      refused for one is answered with an error like any other.
    - The contents of BareMetalHosts, secrets and files are not shared state: each
      run gets arbitrary answers about them, which includes what any host operator
      does.  Of the files, [Images] shares which ones there are; there Stat never
      fails for a file that is there (the code takes any failure for a missing file,
      and builds the image anew).  [Locks] takes opening and locking a file as one
      step, and so does not show what happens to a run that has opened a lock file
      while another one removes it.  The image server takes no lock (WithReadLock
      has no caller).

    ** What could follow

    The power state of the hosts as shared state of [Hosts], with an operator that
    attaches images and powers hosts on; the contents of the image files; the other
    objects (hosts, secrets) on memory. *)
From stdpp Require Import base gmap strings list pretty.
From Stdlib Require Import ZArith Lia Eqdep_dec.

Declare Scope go_scope.
Delimit Scope go_scope with go.

(** ** Go values *)

(** Error values.  [ErrStatus] is a Kubernetes [StatusError] with its reason,
    [ErrNew] any other leaf error, [ErrWrap p e] is [fmt.Errorf("<p>%w", e)]. *)
Inductive goerror :=
| ErrStatus (reason message : string)
| ErrNew (message : string)
| ErrWrap (prefix : string) (cause : goerror).

(** [(T, error)] results: Go code returns either a usable value or an error. *)
Inductive result (A : Type) :=
| Ok (a : A)
| Err (e : goerror).
Arguments Ok {A} a.
Arguments Err {A} e.

(** The way a Go call ends: normally, or with a run-time panic. *)
Inductive xres (A : Type) :=
| XRet (a : A)
| XPanic (message : string).
Arguments XRet {A} a.
Arguments XPanic {A} message.

(** A slice, [None] being the nil slice, and a string map, [None] being nil. *)
Definition slice (A : Type) : Type := option (list A).
Definition gomap (A : Type) : Type := option (gmap string A).

Definition elems {A} (s : slice A) : list A := default [] s.
Definition entries {A} (m : gomap A) : gmap string A := default ∅ m.

(** [err.Error()]. *)
Fixpoint Error (e : goerror) : string :=
  match e with
  | ErrStatus _ m => m
  | ErrNew m => m
  | ErrWrap p c => p +:+ Error c
  end.

(** [k8s.io/apimachinery/pkg/api/errors.IsNotFound], which unwraps [%w] chains. *)
Fixpoint IsNotFound (e : goerror) : bool :=
  match e with
  | ErrStatus r _ => bool_decide (r = "NotFound")
  | ErrNew _ => false
  | ErrWrap _ c => IsNotFound c
  end.

(** Instants are nanoseconds since the zero [time.Time]; durations are
    nanoseconds ([time.Duration]). *)
Definition time := Z.
Definition duration := Z.
Definition IsZeroTime (t : time) : bool := bool_decide (t = 0%Z).
Definition Second : duration := 1000000000%Z.
Definition Minute : duration := (60 * Second)%Z.
Definition Hour : duration := (60 * Minute)%Z.

(** The order in which [range] visits a map is not specified by the language.
    A run supplies a list of numbers, and [range_order] takes the next entry at
    the position the next number designates; every order is some run's order. *)
Fixpoint range_order {A} (fuel : nat) (choices : list nat) (l : list A) : list A :=
  match fuel with
  | O => []
  | S fuel' =>
      let i := match choices with [] => 0 | c :: _ => c mod length l end in
      match l !! i with
      | None => []
      | Some x => x :: range_order fuel' (tail choices) (delete i l)
      end
  end.

Definition range_map {A} (choices : list nat) (m : gmap string A) : list (string * A) :=
  range_order (length (map_to_list m)) choices (map_to_list m).

(** ** Programs that interact with their environment *)

Section prog.
Context {call : Type} {answer : call → Type}.

(** A program either returns or makes a call to code outside the repository
    (the API server, the file system, the clock, ...) and continues with the
    answer.  Nothing is assumed about answers. *)
Inductive prog (R : Type) :=
| Ret (r : R)
| Act (a : call) (k : answer a → prog R).
Arguments Ret {R} r.
Arguments Act {R} a k.

Fixpoint prog_bind {A B} (f : A → prog B) (p : prog A) : prog B :=
  match p with
  | Ret r => f r
  | Act a k => Act a (λ x, prog_bind f (k x))
  end.

Definition perform (a : call) : prog (answer a) := Act a Ret.

(** One call with the answer it received. *)
Record event := Ev { ev_call : call; ev_answer : answer ev_call }.

(** [exec p t r]: [p] can make exactly the calls of [t] and return [r]. *)
Fixpoint exec {R} (p : prog R) (t : list event) (r : R) : Prop :=
  match p with
  | Ret r' => t = [] ∧ r = r'
  | Act a k => ∃ x t', t = Ev a x :: t' ∧ exec (k x) t' r
  end.

(** [wp G p h Q]: started after the history [h], every call [a] that [p] makes
    is allowed by [G] after the history so far, and [p] returns values that
    satisfy [Q], whatever the environment answers. *)
Fixpoint wp {R} (G : list event → call → Prop) (p : prog R) (h : list event)
    (Q : R → list event → Prop) : Prop :=
  match p with
  | Ret r => Q r h
  | Act a k => G h a ∧ ∀ x, wp G (k x) (h ++ [Ev a x]) Q
  end.

(** [emits P p]: all calls of [p] satisfy [P]. *)
Fixpoint emits {R} (P : call → Prop) (p : prog R) : Prop :=
  match p with
  | Ret _ => True
  | Act a k => P a ∧ ∀ x, emits P (k x)
  end.

(** [within n p]: whatever the environment answers, [p] makes at most [n] calls. *)
Fixpoint within {R} (n : nat) (p : prog R) {struct p} : Prop :=
  match p with
  | Ret _ => True
  | Act a k => match n with O => False | S n' => ∀ x, within n' (k x) end
  end.

(** Executing a program against a concrete environment with state [W]. *)
Fixpoint run {W R} (handle : ∀ a : call, W → answer a * W) (p : prog R) (w : W)
    : list event * R * W :=
  match p with
  | Ret r => ([], r, w)
  | Act a k =>
      let '(x, w') := handle a w in
      let '(t, r, w'') := run handle (k x) w' in
      (Ev a x :: t, r, w'')
  end.
End prog.

Arguments prog {call} answer R.
Arguments Ret {call answer R} r.
Arguments Act {call answer R} a k.
Arguments event {call} answer.

#[export] Instance prog_mret {call} (answer : call → Type) : MRet (prog answer) :=
  λ R r, Ret r.
#[export] Instance prog_mbind {call} (answer : call → Type) : MBind (prog answer) :=
  λ A B f p, prog_bind f p.

(** Go's early-return idioms: [let*] sequences, [try] branches on a
    [(T, error)] answer, [check] on an [error]. *)
Notation "'let*' x := p 'in' q" := (prog_bind (λ x, q) p)
  (at level 10, x pattern, p at level 100, q at level 200,
   format "'let*'  x  :=  p  'in' '//' q") : go_scope.
Notation "'try' x := p 'else' e => r 'in' q" :=
  (prog_bind (λ res, match res with Ok x => q | Err e => r end) p)
  (at level 10, x pattern, e name, p at level 100, r at level 200, q at level 200,
   format "'try'  x  :=  p  'else'  e  =>  r  'in' '//' q") : go_scope.
Notation "'check' p 'else' e => r 'in' q" :=
  (prog_bind (λ res, match res with None => q | Some e => r end) p)
  (at level 10, e name, p at level 100, r at level 200, q at level 200,
   format "'check'  p  'else'  e  =>  r  'in' '//' q") : go_scope.

#[export] Instance goerror_eq_dec : EqDecision goerror.
Proof. solve_decision. Defined.
#[export] Instance result_eq_dec {A} `{EqDecision A} : EqDecision (result A).
Proof. solve_decision. Defined.
#[export] Instance xres_eq_dec {A} `{EqDecision A} : EqDecision (xres A).
Proof. solve_decision. Defined.

(** ** Generic lemmas *)

Create HintDb ibi.

Section prog_lemmas.
Context {call : Type} {answer : call → Type}.
Implicit Types (h t : list (event answer)).

Lemma prog_bind_assoc_exec {A B} (f : A → prog answer B) p t r :
  exec (prog_bind f p) t r ↔
  ∃ t1 t2 a, t = t1 ++ t2 ∧ exec p t1 a ∧ exec (f a) t2 r.
Proof.
  revert t. induction p as [a|c k IH]; intros t; simpl.
  - split; [intros H; by exists [], t, a | intros (?&?&?&->&[-> ->]&?); done].
  - setoid_rewrite IH. split.
    + intros (x&t'&->&t1&t2&a&->&?&?). exists (Ev c x :: t1), t2, a.
      repeat split; eauto.
    + intros (t1&t2&a&->&(x&t'&->&?)&?). exists x, (t' ++ t2). split; [done|].
      exists t', t2, a. eauto.
Qed.

Lemma wp_bind {A B} G (f : A → prog answer B) p h Q :
  wp G (prog_bind f p) h Q ↔ wp G p h (λ a h', wp G (f a) h' Q).
Proof.
  revert h. induction p as [a|c k IH]; intros h; simpl; [done|].
  by setoid_rewrite IH.
Qed.

Lemma wp_mono {R} (G G' : list (event answer) → call → Prop) (p : prog answer R) h Q Q' :
  (∀ h' a, G h' a → G' h' a) → (∀ r h', Q r h' → Q' r h') →
  wp G p h Q → wp G' p h Q'.
Proof.
  intros HG HQ. revert h. induction p as [r|c k IH]; intros h; simpl; [auto|].
  intros [??]; split; [auto|]. intros x. by apply IH.
Qed.

Lemma wp_wand {R} G (p : prog answer R) h Q Q' :
  wp G p h Q → (∀ r h', Q r h' → Q' r h') → wp G p h Q'.
Proof. intros H ?. by eapply wp_mono. Qed.

(** What [wp] promises about every run. *)
Lemma wp_exec {R} G (p : prog answer R) h Q t r :
  wp G p h Q → exec p t r →
  Q r (h ++ t) ∧ ∀ t1 ev t2, t = t1 ++ ev :: t2 → G (h ++ t1) (ev_call ev).
Proof.
  revert h t. induction p as [r'|c k IH]; intros h t; simpl.
  - intros HQ [-> ->]. rewrite app_nil_r. split; [done|].
    intros [|??] ?? [=].
  - intros [HG Hk] (x&t'&->&He).
    destruct (IH x _ _ (Hk x) He) as [HQ HG']. split.
    { by rewrite <- app_assoc in HQ. }
    intros [|e t1] ev t2 [= <- Heq].
    { simpl. by rewrite app_nil_r. }
    specialize (HG' _ _ _ Heq). by rewrite <- app_assoc in HG'.
Qed.

(** Executing against a concrete environment is one of the executions. *)
Lemma run_exec {W R} (handle : ∀ a : call, W → answer a * W) (p : prog answer R) w t r w' :
  run handle p w = (t, r, w') → exec p t r.
Proof.
  revert w t. induction p as [r0|c k IH]; intros w t; simpl.
  - by intros [= <- <- <-].
  - destruct (handle c w) as [x w1]. destruct (run handle (k x) w1) as [[t' r'] w2] eqn:E.
    intros [= <- <- <-]. eauto.
Qed.

Lemma exec_run {W R} (handle : ∀ a : call, W → answer a * W) (p : prog answer R) w :
  exec p (run handle p w).1.1 (run handle p w).1.2.
Proof. destruct (run handle p w) as [[t r] w'] eqn:E. by eapply run_exec. Qed.

Lemma emits_bind {A B} P (f : A → prog answer B) p :
  emits P p → (∀ a, emits P (f a)) → emits P (prog_bind f p).
Proof.
  intros Hp Hf. induction p as [a|c k IH]; simpl in *; [auto|].
  destruct Hp; split; auto.
Qed.

Lemma emits_mono {A} (P P' : call → Prop) (p : prog answer A) :
  (∀ a, P a → P' a) → emits P p → emits P' p.
Proof.
  intros HP. induction p as [a|c k IH]; simpl; [done|].
  intros [??]; split; auto.
Qed.

Lemma emits_exec {R} P (p : prog answer R) t r :
  emits P p → exec p t r → Forall (λ ev, P (ev_call ev)) t.
Proof.
  revert t. induction p as [r'|c k IH]; intros t; simpl.
  - by intros _ [-> _].
  - intros [? Hk] (x&t'&->&?). constructor; eauto.
Qed.

Lemma within_mono {A} n m (p : prog answer A) : n ≤ m → within n p → within m p.
Proof.
  revert n m. induction p as [a|c k IH]; intros [|n] [|m] Hle; simpl; try done; [lia|].
  intros H x. eapply IH; [|apply H]. lia.
Qed.

(** What follows may rely on what the first part can return. *)
Lemma within_bind_exec {A B} n m (f : A → prog answer B) p :
  within n p → (∀ t a, exec p t a → within m (f a)) → within (n + m) (prog_bind f p).
Proof.
  intros Hp Hf. revert n Hp. induction p as [a|c k IH]; intros n Hp; simpl in *.
  - eapply within_mono; [|by eapply Hf]. lia.
  - destruct n as [|n]; [done|]. intros x. apply IH; [|done]. intros t a He. apply (Hf (Ev c x :: t)). by eexists _, _.
Qed.

Lemma within_bind {A B} n m (f : A → prog answer B) p :
  within n p → (∀ a, within m (f a)) → within (n + m) (prog_bind f p).
Proof. intros ? ?. by apply within_bind_exec. Qed.

Lemma within_exec {R} n (p : prog answer R) t r : within n p → exec p t r → length t ≤ n.
Proof.
  revert n t. induction p as [r'|c k IH]; intros n t; simpl.
  - intros _ [-> _]. simpl. lia.
  - destruct n as [|n]; [done|]. intros Hk (x&t'&->&He). simpl. apply (IH x n t') in He; [lia|auto].
Qed.

Lemma returns_any {R} (p : prog answer R) h : wp (λ _ _, True) p h (λ _ _, True).
Proof. revert h. induction p as [r|a k IH]; intros h; simpl; [done|]. split; [done|]. intros x. apply IH. Qed.

(** A subprogram whose calls are all harmless for [G] only extends the history. *)
Lemma wp_emits {R} (G : list (event answer) → call → Prop) P (p : prog answer R) h :
  emits P p → (∀ h' a, P a → G h' a) →
  wp G p h (λ _ h', ∃ t, h' = h ++ t ∧ Forall (λ ev, P (ev_call ev)) t).
Proof.
  intros Hp HG. revert h. induction p as [r|c k IH]; intros h; simpl in *.
  - exists []. by rewrite app_nil_r.
  - destruct Hp as [Hc Hk]. split; [auto|]. intros x.
    eapply wp_wand; [by apply IH|]. simpl. intros _ h' (t&->&Ht).
    exists (Ev c x :: t). rewrite <- app_assoc. split; [done|]. by constructor.
Qed.
(** Histories only grow. *)
Lemma wp_prefix {R} G (p : prog answer R) h Q :
  wp G p h Q → wp G p h (λ r h', Q r h' ∧ ∃ t, h' = h ++ t).
Proof.
  revert h. induction p as [r|c k IH]; intros h; simpl.
  - intros ?. split; [done|]. exists []. by rewrite app_nil_r.
  - intros [? Hk]; split; [done|]. intros x. eapply wp_wand; [by apply IH|].
    intros r h' [? [t ->]]. split; [done|]. exists (Ev c x :: t). by rewrite <- app_assoc.
Qed.

Lemma wp_and {R} G G' (p : prog answer R) h Q Q' :
  wp G p h Q → wp G' p h Q' →
  wp (λ h' a, G h' a ∧ G' h' a) p h (λ r h', Q r h' ∧ Q' r h').
Proof.
  revert h. induction p as [r|c k IH]; intros h; simpl; [done|].
  intros [??] [??]; split; [done|]. intros x. by apply IH.
Qed.

(** From a footprint and a specification of the complete runs. *)
Lemma wp_intro {R} (G : list (event answer) → call → Prop) P (p : prog answer R) h Q :
  emits P p → (∀ h' a, P a → G h' a) → (∀ t r, exec p t r → Q r (h ++ t)) → wp G p h Q.
Proof.
  intros Hp HG. revert h. induction p as [r|c k IH]; intros h HQ; simpl in *.
  - rewrite <- (app_nil_r h). by apply HQ.
  - destruct Hp as [Hc Hk]. split; [auto|]. intros x. apply IH; [done|].
    intros t r He. rewrite <- app_assoc. apply HQ. by exists x, t.
Qed.

(** Every program comes to an end, whatever it is answered. *)
Lemma exec_total {R} (p : prog answer R) : (∀ a, inhabited (answer a)) → ∃ t r, exec p t r.
Proof.
  intros Hinh. induction p as [r|c k IH]; [by exists [], r|].
  destruct (Hinh c) as [x]. destruct (IH x) as (t&r&H). exists (Ev c x :: t), r. by exists x, t.
Qed.

Lemma returns_of_wp {R} (G : list (event answer) → call → Prop) (p : prog answer R) h Q : wp G p h Q → wp (λ _ _, True) p h Q.
Proof. intros H. by eapply wp_mono; [| |exact H]. Qed.

(** [wp] is exactly what all runs satisfy. *)
Lemma wp_of_exec {R} G (p : prog answer R) h Q :
  (∀ a, inhabited (answer a)) →
  (∀ t r, exec p t r → Q r (h ++ t) ∧ ∀ t1 ev t2, t = t1 ++ ev :: t2 → G (h ++ t1) (ev_call ev)) →
  wp G p h Q.
Proof.
  intros Hinh. revert h. induction p as [r|c k IH]; intros h H; simpl.
  - rewrite <- (app_nil_r h). by apply H.
  - split.
    + destruct (exec_total (Act c k) Hinh) as (t&r&x&t'&->&He).
      destruct (H (Ev c x :: t') r) as [_ HG]; [by exists x, t'|].
      specialize (HG [] _ _ eq_refl). by rewrite app_nil_r in HG.
    + intros x. apply IH. intros t r He. destruct (H (Ev c x :: t) r) as [HQ HG]; [by exists x, t|].
      rewrite <- app_assoc. split; [done|]. intros t1 ev t2 ->.
      rewrite <- app_assoc. by apply (HG (Ev c x :: t1) ev t2).
Qed.

(** An invariant of the history that the calls of a subprogram keep. *)
Lemma wp_stable {R} (G : list (event answer) → call → Prop) (I : list (event answer) → Prop)
    P (p : prog answer R) h :
  emits P p → (∀ h' a x, I h' → P a → I (h' ++ [Ev a x])) →
  (∀ h' a, I h' → P a → G h' a) → I h → wp G p h (λ _ h', I h').
Proof.
  intros Hp HI HG. revert h. induction p as [r|c k IH]; intros h Hh; simpl in *; [done|].
  destruct Hp as [Hc Hk]. split; [auto|]. intros x. by apply IH; auto.
Qed.

(** The same for a subprogram with a specification of its own. *)
Lemma wp_invariant {R} (G : list (event answer) → call → Prop) (I : list (event answer) → Prop)
    (p : prog answer R) h Q :
  wp G p h Q → (∀ h' a x, I h' → G h' a → I (h' ++ [Ev a x])) → I h →
  wp (λ h' a, G h' a ∧ I h') p h (λ r h', Q r h' ∧ I h').
Proof.
  intros Hp HI. revert h Hp. induction p as [r|c k IH]; intros h Hp Hh; simpl in *; [done|].
  destruct Hp as [Hc Hk]. split; [done|]. intros x. apply IH; [done|]. by apply HI.
Qed.

(** A run that starts with a given event. *)
Lemma exec_cons {R} `{EqDecision call} a (k : answer a → prog answer R) x t r :
  exec (Act a k) (Ev a x :: t) r ↔ exec (k x) t r.
Proof.
  split; [|intros H; by exists x, t]. intros (y&t'&[= H ->]&He).
  apply inj_pair2_eq_dec in H as ->; [done|]. intros b c. apply decide, _.
Qed.
End prog_lemmas.

Lemma range_order_perm {A} fuel choices (l : list A) :
  length l ≤ fuel → range_order fuel choices l ≡ₚ l.
Proof.
  revert choices l. induction fuel as [|fuel IH]; intros choices l Hl; simpl.
  - by destruct l; simpl in *; [|lia].
  - set (i := match choices with [] => 0 | c :: _ => c mod length l end).
    destruct (l !! i) as [x|] eqn:Hi.
    + etrans; [|symmetry; by apply delete_Permutation]. constructor.
      apply IH. apply lookup_lt_Some in Hi as Hlt. rewrite length_delete; [lia|].
      by exists x.
    + apply lookup_ge_None in Hi. destruct l as [|y l]; [done|].
      exfalso. subst i. destruct choices as [|c ?]; simpl in Hi; [lia|].
      pose proof (Nat.mod_upper_bound c (S (length l)) ltac:(lia)).
      simpl in *. lia.
Qed.

Lemma range_map_perm {A} choices (m : gmap string A) :
  range_map choices m ≡ₚ map_to_list m.
Proof. by apply range_order_perm. Qed.

Lemma elem_of_range_map {A} choices (m : gmap string A) k v :
  (k, v) ∈ range_map choices m ↔ m !! k = Some v.
Proof. by rewrite range_map_perm, elem_of_map_to_list. Qed.

Lemma split_at {A} (l : list A) k x : l !! k = Some x → l = take k l ++ x :: drop (S k) l.
Proof. intros. by rewrite take_drop_middle. Qed.

(** The position of the first element that satisfies [f], and the split there. *)
Definition position {A} (f : A → bool) (l : list A) : option nat :=
  fst <$> list_find (λ x, f x = true) l.

Lemma position_split {A} (f : A → bool) (l : list A) k :
  position f l = Some k → ∃ l1 x l2, l = l1 ++ x :: l2 ∧ f x = true.
Proof.
  unfold position. intros ([k' x]&(Hl&Hf&_)%list_find_Some&->)%fmap_Some.
  eexists _, x, _. split; [by apply split_at|done].
Qed.

Lemma existsb_elem {A} (f : A → bool) l : existsb f l = true ↔ ∃ x, x ∈ l ∧ f x = true.
Proof. rewrite existsb_exists. by setoid_rewrite list_elem_of_In. Qed.

Lemma existsb_cons {A} (f : A → bool) x l : existsb f (x :: l) = f x || existsb f l.
Proof. done. Qed.

(** [returns p h Q]: the runs of [p] after [h] return values that satisfy [Q],
    whatever they call. *)
Abbreviation returns := (wp (λ _ _, True)).

(** ** Proof automation *)

(** Case analysis on every boolean test, option and result in the goal. *)
Ltac case_goal :=
  match goal with
  | |- context [match ?x with _ => _ end] =>
      lazymatch x with
      | context [match _ with _ => _ end] => fail
      | _ => let H := fresh "Hc" in destruct x eqn:H
      end
  end.

(** Turns boolean hypotheses into propositions. *)
Ltac bools :=
  repeat match goal with
  | H : _ && _ = true |- _ => apply andb_true_iff in H as [??]
  | H : _ || _ = false |- _ => apply orb_false_iff in H as [??]
  | H : negb _ = true |- _ => apply negb_true_iff in H
  | H : negb _ = false |- _ => apply negb_false_iff in H
  | H : bool_decide _ = true |- _ => apply bool_decide_eq_true_1 in H
  | H : bool_decide _ = false |- _ => apply bool_decide_eq_false_1 in H
  end.

(** Membership in a history that has been extended. *)
Ltac hist :=
  lazymatch goal with
  | |- _ ∈ _ ++ _ => first [ assumption | apply elem_of_app; right; hist | apply elem_of_app; left; hist ]
  | |- _ ∈ _ :: _ => first [ apply list_elem_of_here | apply list_elem_of_further; hist ]
  | |- _ => assumption
  end.

(** One call of a program under [wp]. *)
Ltac wp_call := cbn [wp prog_bind perform]; split; [|intros ?].

(** Uses the specification [H] of the program at the head of a bind; the new
    history is presented as an extension of the old one. *)
Ltac wp_use H := rewrite wp_bind; eapply wp_wand; [apply wp_prefix; apply H|].

(** Runs the calls of a program whose guards [solve] by [tac]. *)
Ltac wp_run tac :=
  repeat first
    [ progress cbn [wp prog_bind perform]
    | split; [solve [tac]|intros ?]
    | case_goal ].

(** Footprint goals: calls by [tac], sequencing by the bind rule, branches. *)
Ltac emits_run tac :=
  repeat first
    [ progress cbn [emits prog_bind perform]
    | exact I
    | split; [solve [tac]|intros ?]
    | solve [auto with ibi nocore]
    | apply emits_bind; [solve [auto with ibi nocore]|intros ?]
    | case_goal ].

(** Counts the calls of a program along every path. *)
Ltac within_run :=
  repeat first
    [ progress cbn [within prog_bind perform]
    | exact I
    | intros ?
    | case_goal ].

(** Inversion of executions: calls, returns, sequencing and branches. *)
Ltac exec_inv :=
  repeat match goal with
  | H : exec (prog_bind _ (perform _)) _ _ |- _ => cbn [exec prog_bind perform] in H
  | H : exec (perform _) _ _ |- _ => cbn [exec perform] in H
  | H : exec (Ret _) _ _ |- _ => cbn [exec] in H; destruct H as [??]
  | H : exec (Act _ _) _ _ |- _ => cbn [exec] in H
  | H : ∃ x t', _ = Ev _ x :: t' ∧ exec _ _ _ |- _ => destruct H as (?&?&?&?)
  | H : ∃ x t', _ = Ev _ x :: t' ∧ _ |- _ => destruct H as (?&?&?&?)
  | H : _ = [] ∧ _ = _ |- _ => destruct H as [??]
  | H : exec (prog_bind _ _) _ _ |- _ => apply prog_bind_assoc_exec in H as (?&?&?&?&?&?)
  | H : exec (match ?x with _ => _ end) _ _ |- _ => destruct x eqn:?
  | H : exec (let '(_, _) := ?x in _) _ _ |- _ => destruct x eqn:?
  end.
