(* ===== verification/Types.v ===== *)
(** * Data model: the API objects the operator reads and writes

    [ImageClusterInstall] follows [api/v1alpha1/imageclusterinstall_types.go]
    field by field.  The objects of other operators (BareMetalHost, DataImage,
    ClusterDeployment, ...) carry the fields this operator reads or writes.
    Go pointers are [option]s, slices and maps whose nil-ness the code observes
    are [slice]s and [gomap]s, instants are [time]s. *)
From stdpp Require Import base gmap strings list.
From Stdlib Require Import ZArith.
From S2P Require Import Prelude.

(** ** Meta data *)

(** [types.NamespacedName]. *)
Record NamespacedName := mkKey { key_Namespace : string; key_Name : string }.

(** [metav1.OwnerReference]. *)
Record OwnerReference := mkOwner {
  or_APIVersion : string;
  or_Kind : string;
  or_Name : string;
  or_UID : string;
  or_BlockOwnerDeletion : option bool;
  or_Controller : option bool;
}.

(** [metav1.ObjectMeta]. *)
Record ObjectMeta := mkMeta {
  om_Name : string;
  om_Namespace : string;
  om_UID : string;
  om_Labels : gomap string;
  om_Annotations : gomap string;
  om_Finalizers : list string;
  om_OwnerReferences : list OwnerReference;
  om_CreationTimestamp : time;
  om_DeletionTimestamp : time;
}.

(** The meta data of a freshly built object literal. *)
Definition new_meta (name ns : string) : ObjectMeta :=
  mkMeta name ns "" None None [] [] 0%Z 0%Z.

Definition set_Labels (l : gomap string) (m : ObjectMeta) : ObjectMeta :=
  mkMeta (om_Name m) (om_Namespace m) (om_UID m) l (om_Annotations m) (om_Finalizers m)
    (om_OwnerReferences m) (om_CreationTimestamp m) (om_DeletionTimestamp m).
Definition set_Annotations (a : gomap string) (m : ObjectMeta) : ObjectMeta :=
  mkMeta (om_Name m) (om_Namespace m) (om_UID m) (om_Labels m) a (om_Finalizers m)
    (om_OwnerReferences m) (om_CreationTimestamp m) (om_DeletionTimestamp m).
Definition set_Finalizers (f : list string) (m : ObjectMeta) : ObjectMeta :=
  mkMeta (om_Name m) (om_Namespace m) (om_UID m) (om_Labels m) (om_Annotations m) f
    (om_OwnerReferences m) (om_CreationTimestamp m) (om_DeletionTimestamp m).
Definition set_OwnerReferences (o : list OwnerReference) (m : ObjectMeta) : ObjectMeta :=
  mkMeta (om_Name m) (om_Namespace m) (om_UID m) (om_Labels m) (om_Annotations m)
    (om_Finalizers m) o (om_CreationTimestamp m) (om_DeletionTimestamp m).

(** ** Cluster install conditions ([hivev1.ClusterInstallCondition]) *)

(** [corev1.ConditionStatus]. *)
Inductive ConditionStatus := ConditionTrue | ConditionFalse | ConditionUnknown.

(** [hivev1.ClusterInstallConditionType]: the types this operator uses, and any
    other string a condition of the object may carry. *)
Inductive ConditionType :=
| ClusterInstallRequirementsMet
| ClusterInstallCompleted
| ClusterInstallFailed
| ClusterInstallStopped
| OtherConditionType (s : string).

Record Condition := mkCondition {
  c_Type : ConditionType;
  c_Status : ConditionStatus;
  c_LastProbeTime : time;
  c_LastTransitionTime : time;
  c_Reason : string;
  c_Message : string;
}.

(** ** ImageClusterInstall *)

Record BareMetalHostReference := mkBMHRef { bmhref_Name : string; bmhref_Namespace : string }.

(** [Proxy]. *)
Record Proxy := mkProxy { HTTPProxy : string; HTTPSProxy : string; NoProxy : string }.

(** [Metadata] of the packages [aws], [azure] and [gcp] of hive, and
    [hivev1.ClusterPlatformMetadata]. *)
Record AWSMetadata := mkAWSMetadata { HostedZoneRole : option string }.
Record AzureMetadata := mkAzureMetadata { ResourceGroupName : option string }.
Record GCPMetadata := mkGCPMetadata { NetworkProjectID : option string }.
Record ClusterPlatformMetadata := mkPlatform {
  AWS : option AWSMetadata;
  Azure : option AzureMetadata;
  GCP : option GCPMetadata;
}.

(** [hivev1.ClusterMetadata]; local object references are their names. *)
Record ClusterMetadata := mkClusterMetadata {
  ClusterID : string;
  InfraID : string;
  AdminKubeconfigSecretRef : string;
  AdminPasswordSecretRef : option string;
  MetadataJSONSecretRef : option string;
  Platform : option ClusterPlatformMetadata;
}.

(** [apicfgv1.ImageDigestMirrors]. *)
Record ImageDigestMirrors := mkIDM {
  idm_Source : string;
  idm_Mirrors : slice string;
  idm_MirrorSourcePolicy : string;
}.

(** [ImageClusterInstallSpec]; a [MachineNetworkEntry] is its CIDR. *)
Record ICISpec := mkICISpec {
  ClusterDeploymentRef : option string;
  ImageSetRef : string;
  Spec_ClusterMetadata : option ClusterMetadata;
  NodeIP : string;
  Hostname : string;
  SSHKey : string;
  ImageDigestSources : slice ImageDigestMirrors;
  CABundleRef : option string;
  ExtraManifestsRefs : slice string;
  Spec_BareMetalHostRef : option BareMetalHostReference;
  MachineNetwork : string;
  MachineNetworks : slice string;
  Spec_Proxy : option Proxy;
  AdditionalNTPSources : slice string;
}.

(** [ImageClusterInstallStatus]. *)
Record ICIStatus := mkICIStatus {
  Conditions : list Condition;
  InstallRestarts : Z;
  Status_BareMetalHostRef : option BareMetalHostReference;
  BootTime : time;
}.

Record ImageClusterInstall := mkICI {
  ici_Meta : ObjectMeta;
  ici_Spec : ICISpec;
  ici_Status : ICIStatus;
}.

Definition set_ici_Meta (m : ObjectMeta) (i : ImageClusterInstall) : ImageClusterInstall :=
  mkICI m (ici_Spec i) (ici_Status i).
Definition set_Conditions (cs : list Condition) (i : ImageClusterInstall) : ImageClusterInstall :=
  let st := ici_Status i in
  mkICI (ici_Meta i) (ici_Spec i)
    (mkICIStatus cs (InstallRestarts st) (Status_BareMetalHostRef st) (BootTime st)).
Definition set_Status_BareMetalHostRef (r : option BareMetalHostReference)
    (i : ImageClusterInstall) : ImageClusterInstall :=
  let st := ici_Status i in
  mkICI (ici_Meta i) (ici_Spec i)
    (mkICIStatus (Conditions st) (InstallRestarts st) r (BootTime st)).
Definition set_BootTime (t : time) (i : ImageClusterInstall) : ImageClusterInstall :=
  let st := ici_Status i in
  mkICI (ici_Meta i) (ici_Spec i)
    (mkICIStatus (Conditions st) (InstallRestarts st) (Status_BareMetalHostRef st) t).
Definition set_Spec_ClusterMetadata_spec (cm : option ClusterMetadata) (s : ICISpec) : ICISpec :=
  mkICISpec (ClusterDeploymentRef s) (ImageSetRef s) cm (NodeIP s) (Hostname s) (SSHKey s)
    (ImageDigestSources s) (CABundleRef s) (ExtraManifestsRefs s) (Spec_BareMetalHostRef s)
    (MachineNetwork s) (MachineNetworks s) (Spec_Proxy s) (AdditionalNTPSources s).
Definition set_Spec_ClusterMetadata (cm : option ClusterMetadata)
    (i : ImageClusterInstall) : ImageClusterInstall :=
  mkICI (ici_Meta i) (set_Spec_ClusterMetadata_spec cm (ici_Spec i)) (ici_Status i).

(** ** BareMetalHost and DataImage ([metal3.io/v1alpha1]) *)

Record NIC := mkNIC { nic_MAC : string; nic_IP : string }.

Record BareMetalHost := mkBMH {
  bmh_Meta : ObjectMeta;
  bmh_Online : bool;
  bmh_ExternallyProvisioned : bool;
  bmh_AutomatedCleaningMode : string;
  bmh_PreprovisioningNetworkDataName : string;
  bmh_ProvisioningState : string;
  bmh_HardwareDetails : option (list NIC);
  bmh_PoweredOn : bool;
}.

Definition CleaningModeDisabled : string := "disabled".
Definition StateAvailable : string := "available".
Definition StateExternallyProvisioned : string := "externally provisioned".

Definition set_bmh_Meta (m : ObjectMeta) (b : BareMetalHost) : BareMetalHost :=
  mkBMH m (bmh_Online b) (bmh_ExternallyProvisioned b) (bmh_AutomatedCleaningMode b)
    (bmh_PreprovisioningNetworkDataName b) (bmh_ProvisioningState b) (bmh_HardwareDetails b)
    (bmh_PoweredOn b).
Definition set_Online (o : bool) (b : BareMetalHost) : BareMetalHost :=
  mkBMH (bmh_Meta b) o (bmh_ExternallyProvisioned b) (bmh_AutomatedCleaningMode b)
    (bmh_PreprovisioningNetworkDataName b) (bmh_ProvisioningState b) (bmh_HardwareDetails b)
    (bmh_PoweredOn b).
Definition set_ExternallyProvisioned (e : bool) (b : BareMetalHost) : BareMetalHost :=
  mkBMH (bmh_Meta b) (bmh_Online b) e (bmh_AutomatedCleaningMode b)
    (bmh_PreprovisioningNetworkDataName b) (bmh_ProvisioningState b) (bmh_HardwareDetails b)
    (bmh_PoweredOn b).
Definition set_AutomatedCleaningMode (c : string) (b : BareMetalHost) : BareMetalHost :=
  mkBMH (bmh_Meta b) (bmh_Online b) (bmh_ExternallyProvisioned b) c
    (bmh_PreprovisioningNetworkDataName b) (bmh_ProvisioningState b) (bmh_HardwareDetails b)
    (bmh_PoweredOn b).

Record DataImage := mkDataImage {
  di_Meta : ObjectMeta;
  di_URL : string;
  di_AttachedImageURL : string;
}.

(** ** ClusterDeployment, ClusterImageSet, Secret, ConfigMap *)

Record ClusterInstallLocalReference := mkCIRef {
  ciref_Group : string;
  ciref_Version : string;
  ciref_Kind : string;
  ciref_Name : string;
}.

Record ClusterDeployment := mkCD {
  cd_Meta : ObjectMeta;
  cd_ClusterName : string;
  cd_BaseDomain : string;
  cd_PullSecretRef : option string;
  cd_ClusterInstallRef : option ClusterInstallLocalReference;
}.

Record ClusterImageSet := mkCIS { cis_Meta : ObjectMeta; cis_ReleaseImage : string }.

(** Secret data are byte strings; reading a nil map finds no key. *)
Record Secret := mkSecret {
  secret_Meta : ObjectMeta;
  secret_Data : gomap string;
  secret_Type : string;
}.

Record ConfigMap := mkConfigMap { cm_Meta : ObjectMeta; cm_Data : gmap string string }.

(** ** Objects of the installed (spoke) cluster *)

Record ClusterOperatorStatusCondition := mkCVCondition {
  cv_Type : string;
  cv_Status : string;
  cv_LastTransitionTime : time;
  cv_Reason : string;
  cv_Message : string;
}.

Record NodeCondition := mkNodeCondition {
  nc_Type : string;
  nc_Status : string;
  nc_Reason : string;
  nc_Message : string;
}.

Record Node := mkNode { node_Name : string; node_Conditions : list NodeCondition }.

(** ** Reconcile results *)

(** [ctrl.Result]. *)
Record Result := mkResult { Requeue : bool; RequeueAfter : duration }.
Definition res0 : Result := mkResult false 0%Z.
Definition requeue_after (d : duration) : Result := mkResult false d.

(** [Result.IsZero]. *)
Definition IsZero (r : Result) : bool :=
  negb (Requeue r) && bool_decide (RequeueAfter r = 0%Z).

(** ** Decidable equality *)

#[export] Instance NamespacedName_eq_dec : EqDecision NamespacedName.
Proof. solve_decision. Defined.
#[export] Instance OwnerReference_eq_dec : EqDecision OwnerReference.
Proof. solve_decision. Defined.
#[export] Instance gomap_eq_dec {A} `{EqDecision A} : EqDecision (gomap A).
Proof. unfold gomap. solve_decision. Defined.
#[export] Instance slice_eq_dec {A} `{EqDecision A} : EqDecision (slice A).
Proof. unfold slice. solve_decision. Defined.
#[export] Instance time_eq_dec : EqDecision time := Z.eq_dec.
#[export] Instance duration_eq_dec : EqDecision duration := Z.eq_dec.
#[export] Instance ObjectMeta_eq_dec : EqDecision ObjectMeta.
Proof. solve_decision. Defined.
#[export] Instance ConditionStatus_eq_dec : EqDecision ConditionStatus.
Proof. solve_decision. Defined.
#[export] Instance ConditionType_eq_dec : EqDecision ConditionType.
Proof. solve_decision. Defined.
#[export] Instance Condition_eq_dec : EqDecision Condition.
Proof. solve_decision. Defined.
#[export] Instance BareMetalHostReference_eq_dec : EqDecision BareMetalHostReference.
Proof. solve_decision. Defined.
#[export] Instance Proxy_eq_dec : EqDecision Proxy.
Proof. solve_decision. Defined.
#[export] Instance ClusterPlatformMetadata_eq_dec : EqDecision ClusterPlatformMetadata.
Proof.
  assert (EqDecision AWSMetadata) by solve_decision. assert (EqDecision AzureMetadata) by solve_decision.
  assert (EqDecision GCPMetadata) by solve_decision. solve_decision.
Defined.
#[export] Instance ClusterMetadata_eq_dec : EqDecision ClusterMetadata.
Proof. solve_decision. Defined.
#[export] Instance ImageDigestMirrors_eq_dec : EqDecision ImageDigestMirrors.
Proof. solve_decision. Defined.
#[export] Instance ICISpec_eq_dec : EqDecision ICISpec.
Proof. solve_decision. Defined.
#[export] Instance ICIStatus_eq_dec : EqDecision ICIStatus.
Proof. solve_decision. Defined.
#[export] Instance ImageClusterInstall_eq_dec : EqDecision ImageClusterInstall.
Proof. solve_decision. Defined.
#[export] Instance Result_eq_dec : EqDecision Result.
Proof. solve_decision. Defined.
#[export] Instance DataImage_eq_dec : EqDecision DataImage.
Proof. solve_decision. Defined.
#[export] Instance Secret_eq_dec : EqDecision Secret.
Proof. solve_decision. Defined.
