(* ===== verification/Heap.v ===== *)
(** * Go memory

    A store of typed cells for the code whose meaning depends on sharing: pointers,
    slices (views of arrays), maps.  A structure is a plain value; what its
    pointers, slices and maps refer to is in cells.  A representation [rep M A]
    reads the value of type [A] that the structure of type [M] stands for, and
    [copies] says that a program makes a copy that shares nothing. *)
From stdpp Require Import base gmap strings list.
From Stdlib Require Import ZArith Lia.
From S2P Require Import Prelude.

Module Heap.

Abbreviation loc := positive.
Abbreviation pointer := (option loc).

(** A slice: the elements from [sl_off] on of an array. *)
Record slice_header := mkSlice { sl_array : loc; sl_off : nat; sl_len : nat; sl_cap : nat }.
Abbreviation go_slice := (option slice_header).

Section heap.
Context {cell : Type}.
Abbreviation heap := (gmap loc cell).

(** Types of which there are cells, with the zero value of the language. *)
Class Storable (T : Type) := {
  to_cell : T → cell;
  of_cell : cell → option T;
  zero : T;
  of_to_cell x : of_cell (to_cell x) = Some x;
}.

(** ** Programs; [None] is a panic (nil dereference, index out of range). *)

Definition GoM (R : Type) : Type := heap → option (R * heap).
Definition ret {R} (r : R) : GoM R := λ h, Some (r, h).
Definition bind {A B} (p : GoM A) (f : A → GoM B) : GoM B :=
  λ h, match p h with Some (a, h') => f a h' | None => None end.
Definition panic {R} : GoM R := λ _, None.

#[local] Notation "'let+' x := p 'in' q" := (bind p (λ x, q))
  (at level 10, x pattern, p at level 100, q at level 200).

Definition lookup_cell {T} `{Storable T} (h : heap) (l : loc) : option T := c ← h !! l; of_cell c.

Definition new {T} `{Storable T} (x : T) : GoM loc :=
  λ h, let l := fresh (dom h) in Some (l, <[l := to_cell x]> h).
Definition read {T} `{Storable T} (l : loc) : GoM T :=
  λ h, match lookup_cell h l with Some x => Some (x, h) | None => None end.
Definition write {T} `{Storable T} (l : loc) (x : T) : GoM unit :=
  λ h, match lookup_cell (T := T) h l with Some _ => Some (tt, <[l := to_cell x]> h) | None => None end.

(** An element of an array, which is a [T] pointer in Go. *)
Definition read_elem {T} `{Storable (list T)} (p : loc * nat) : GoM T :=
  let+ xs := read p.1 in
  match xs !! p.2 with Some x => ret x | None => panic end.
Definition write_elem {T} `{Storable (list T)} (p : loc * nat) (x : T) : GoM unit :=
  let+ xs := read (T := list T) p.1 in
  if bool_decide (p.2 < length xs)%nat then write p.1 (<[p.2 := x]> xs) else panic.

(** [&s[i]] of a slice. *)
Definition elem (s : slice_header) (i : nat) : GoM (loc * nat) :=
  if bool_decide (i < sl_len s)%nat then ret (sl_array s, sl_off s + i)%nat else panic.

(** [make([]T, n)] *)
Definition make_slice {T} `{Storable (list T)} (z : T) (n : nat) : GoM slice_header :=
  let+ l := new (replicate n z) in ret (mkSlice l 0 n n).

(** [append(s, x)]: in place if there is room, else into a new array with some
    room to spare. *)
Definition append {T} `{Storable (list T)} (z : T) (extra : nat) (s : go_slice) (x : T) : GoM go_slice :=
  match s with
  | None => let+ l := new (x :: replicate extra z) in ret (Some (mkSlice l 0 1 (S extra)))
  | Some s =>
      let n := sl_len s in
      if bool_decide (n < sl_cap s)%nat then
        let+ _ := write_elem (sl_array s, sl_off s + n)%nat x in
        ret (Some (mkSlice (sl_array s) (sl_off s) (S n) (sl_cap s)))
      else
        let+ xs := read (T := list T) (sl_array s) in
        let+ l := new (take n (drop (sl_off s) xs) ++ x :: replicate extra z) in
        ret (Some (mkSlice l 0 (S n) (S n + extra)))
  end.

(** ** The copying patterns of generated code *)

(** [if in != nil { out = new(T); in.DeepCopyInto(out) }], where [into] computes
    what is written into [out]. *)
Definition copy_pointer {T} `{Storable T} (into : T → GoM T) (p : pointer) : GoM pointer :=
  match p with
  | None => ret None
  | Some l =>
      let+ out := new (zero (T := T)) in
      let+ x := read l in
      let+ y := into x in
      let+ _ := write out y in
      ret (Some out)
  end.

(** The loop over a slice that copies element by element: [in[i].DeepCopyInto(&out[i])]. *)
Fixpoint copy_loop {T} `{Storable (list T)} (into : T → GoM T) (src dst : slice_header) (i n : nat) : GoM unit :=
  match n with
  | O => ret tt
  | S n' =>
      let+ p := elem src i in
      let+ x := read_elem p in
      let+ y := into x in
      let+ q := elem dst i in
      let+ _ := write_elem q y in
      copy_loop into src dst (S i) n'
  end.
Definition copy_slice {T} `{Storable (list T)} (z : T) (into : T → GoM T) (s : go_slice) : GoM go_slice :=
  match s with
  | None => ret None
  | Some src =>
      let+ dst := make_slice z (sl_len src) in
      let+ _ := copy_loop into src dst 0 (sl_len src) in
      ret (Some dst)
  end.

(** [out = make([]T, len(in)); copy(out, in)] *)
Definition copy_elements {T} `{Storable (list T)} (z : T) (s : go_slice) : GoM go_slice :=
  match s with
  | None => ret None
  | Some src =>
      let+ dst := make_slice z (sl_len src) in
      let+ xs := read (T := list T) (sl_array src) in
      let+ _ := write (sl_array dst) (take (sl_len src) (drop (sl_off src) xs)) in
      ret (Some dst)
  end.

(** [out = make(map[string]V, len(in)); for key, val := range in { out[key] = val }],
    in the order of the run. *)
Fixpoint insert_loop {V} `{Storable (gmap string V)} (out : loc) (kvs : list (string * V)) : GoM unit :=
  match kvs with
  | [] => ret tt
  | (k, v) :: rest =>
      let+ m := read (T := gmap string V) out in
      let+ _ := write out (<[k := v]> m) in
      insert_loop out rest
  end.
Definition copy_map {V} `{Storable (gmap string V)} (choices : list nat) (p : pointer) : GoM pointer :=
  match p with
  | None => ret None
  | Some l =>
      let+ out := new (∅ : gmap string V) in
      let+ m := read (T := gmap string V) l in
      let+ _ := insert_loop out (range_map choices m) in
      ret (Some out)
  end.

(** ** Representations *)

(** The value that a structure stands for, if the cells it needs are there. *)
Record rep (M A : Type) := Rep {
  load : heap → M → option A;
  load_mono h h' m a : h ⊆ h' → load h m = Some a → load h' m = Some a;
}.
Arguments load {M A} _ _ _.
Arguments load_mono {M A} _ _ _ _ _ _ _.

Definition value_rep {A} : rep A A := Rep A A (λ _ a, Some a) (λ _ _ _ _ _ H, H).

Lemma lookup_cell_mono {T} `{Storable T} h h' l (x : T) :
  h ⊆ h' → lookup_cell h l = Some x → lookup_cell h' l = Some x.
Proof.
  unfold lookup_cell. intros Hh (c&Hc&Hx)%bind_Some. apply bind_Some. exists c. split; [|done].
  by eapply lookup_weaken.
Qed.

Lemma mapM_mono {A B} (f g : A → option B) l k :
  (∀ x y, f x = Some y → g x = Some y) → mapM f l = Some k → mapM g l = Some k.
Proof. rewrite !mapM_Some. intros Hfg Hl. eapply Forall2_impl; [exact Hl|]. simpl. auto. Qed.

Program Definition pointer_rep {M A} `{Storable M} (r : rep M A) : rep pointer (option A) :=
  Rep _ _ (λ h p, match p with
                  | None => Some None
                  | Some l => x ← lookup_cell (T := M) h l; a ← load r h x; Some (Some a)
                  end) _.
Next Obligation.
  intros M A ? r h h' [l|] a Hh; [|done]. intros (x&Hx&(b&Hb&[= <-])%bind_Some)%bind_Some.
  apply bind_Some. exists x. split; [by eapply lookup_cell_mono|]. apply bind_Some. exists b.
  split; [by eapply load_mono|done].
Qed.

(** The elements that a slice shows; its capacity lies within the array. *)
Definition slice_elements {M} `{Storable (list M)} (h : heap) (s : slice_header) : option (list M) :=
  xs ← lookup_cell (T := list M) h (sl_array s);
  if bool_decide (sl_len s ≤ sl_cap s)%nat && bool_decide (sl_off s + sl_cap s ≤ length xs)%nat
  then Some (take (sl_len s) (drop (sl_off s) xs)) else None.

Program Definition slice_rep {M A} `{Storable (list M)} (r : rep M A) : rep go_slice (slice A) :=
  Rep _ _ (λ h s, match s with
                  | None => Some None
                  | Some s => xs ← slice_elements (M := M) h s; l ← mapM (load r h) xs; Some (Some l)
                  end) _.
Next Obligation.
  intros M A ? r h h' [s|] a Hh; [|done]. intros (xs&Hx&(l&Hl&[= <-])%bind_Some)%bind_Some.
  apply bind_Some. exists xs. split.
  - unfold slice_elements in *. apply bind_Some in Hx as (ys&Hy&Hx). apply bind_Some. exists ys.
    split; [by eapply lookup_cell_mono|done].
  - apply bind_Some. exists l. split; [|done]. eapply mapM_mono; [|exact Hl]. intros x y. by apply load_mono.
Qed.

Program Definition map_rep {V} `{Storable (gmap string V)} : rep pointer (gomap V) :=
  Rep _ _ (λ h p, match p with
                  | None => Some None
                  | Some l => m ← lookup_cell (T := gmap string V) h l; Some (Some m)
                  end) _.
Next Obligation.
  intros V ? h h' [l|] a Hh; [|done]. intros (x&Hx&[= <-])%bind_Some.
  apply bind_Some. exists x. split; [by eapply lookup_cell_mono|done].
Qed.

(** ** Programs that leave a part of the memory alone *)

(** Started with the cells [f] of its own beside [h], the program ends well, has
    left [h] as it was, and its result and its own cells satisfy [Q]. *)
Definition runs {X} (c : GoM X) (h f : heap) (Q : X → heap → Prop) : Prop :=
  f ##ₘ h → ∃ x f', c (f ∪ h) = Some (x, f' ∪ h) ∧ f' ##ₘ h ∧ Q x f'.

Lemma runs_ret {X} (x : X) h f Q : Q x f → runs (ret x) h f Q.
Proof. intros HQ Hf. by exists x, f. Qed.

Lemma runs_bind {X Y} (p : GoM X) (k : X → GoM Y) h f Q :
  runs p h f (λ x f', runs (k x) h f' Q) → runs (bind p k) h f Q.
Proof.
  intros Hp Hf. destruct (Hp Hf) as (x&f'&Hx&Hf'&Hk). destruct (Hk Hf') as (y&g&Hy&Hg&HQ).
  exists y, g. unfold bind. by rewrite Hx.
Qed.

Lemma runs_wand {X} (p : GoM X) h f (Q Q' : X → heap → Prop) :
  runs p h f Q → (∀ x f', f' ##ₘ h → Q x f' → Q' x f') → runs p h f Q'.
Proof. intros Hp HQ Hf. destruct (Hp Hf) as (x&f'&?&?&?). exists x, f'. auto. Qed.

Lemma runs_new {T} `{Storable T} (x : T) h f (Q : loc → heap → Prop) :
  (∀ l, f !! l = None → h !! l = None → Q l (<[l := to_cell x]> f)) → runs (new x) h f Q.
Proof.
  intros HQ Hf. unfold new. set (l := fresh (dom (f ∪ h))).
  assert (Hl : l ∉ dom (f ∪ h)) by apply is_fresh.
  apply not_elem_of_dom, lookup_union_None in Hl as [Hl1 Hl2].
  exists l, (<[l := to_cell x]> f). rewrite insert_union_l. split_and!; [done| |by apply HQ].
  by apply map_disjoint_insert_l_2.
Qed.

Lemma runs_read {T} `{Storable T} l (x : T) h f (Q : T → heap → Prop) :
  lookup_cell (f ∪ h) l = Some x → Q x f → runs (read l) h f Q.
Proof. intros Hl HQ Hf. exists x, f. unfold read. by rewrite Hl. Qed.

Lemma runs_read_kept {T} `{Storable T} l (x : T) h f (Q : T → heap → Prop) :
  lookup_cell h l = Some x → Q x f → runs (read l) h f Q.
Proof.
  intros Hl HQ Hf. apply (runs_read l x); [|done..]. eapply lookup_cell_mono; [|exact Hl].
  by apply map_union_subseteq_r.
Qed.

Lemma lookup_cell_insert {T} `{Storable T} l (x : T) f : lookup_cell (<[l := to_cell x]> f) l = Some x.
Proof. unfold lookup_cell. rewrite lookup_insert_eq. apply of_to_cell. Qed.

Lemma runs_read_own {T} `{Storable T} l (x : T) h f (Q : T → heap → Prop) :
  Q x (<[l := to_cell x]> f) → runs (read l) h (<[l := to_cell x]> f) Q.
Proof.
  intros HQ Hf. apply (runs_read l x); [|done..]. eapply lookup_cell_mono; [|apply lookup_cell_insert].
  apply map_union_subseteq_l.
Qed.

Lemma runs_write_own {T} `{Storable T} l (x y : T) h f (Q : unit → heap → Prop) :
  Q tt (<[l := to_cell y]> f) → runs (write l y) h (<[l := to_cell x]> f) Q.
Proof.
  intros HQ Hf. exists tt, (<[l := to_cell y]> f). unfold write.
  rewrite (lookup_cell_mono (<[l := to_cell x]> f) _ l x) by (try apply map_union_subseteq_l; apply lookup_cell_insert).
  rewrite insert_union_l, insert_insert_eq. split_and!; [done| |done].
  apply map_disjoint_insert_l in Hf as [??]. by apply map_disjoint_insert_l_2.
Qed.

(** ** Copies *)

(** [c] makes a copy: wherever the argument represents a value, the result
    represents the same value, and does so by the new cells alone; no old cell
    changes. *)
Definition copies {M A} (r : rep M A) (c : M → GoM M) : Prop :=
  ∀ h m a, load r h m = Some a → runs (c m) h ∅ (λ m' g, load r g m' = Some a).

Lemma runs_copies {M A} (r : rep M A) c m a h f Q :
  copies r c → load r h m = Some a →
  (∀ m' g, g ##ₘ f → f ⊆ g ∪ f → load r g m' = Some a → Q m' (g ∪ f)) → runs (c m) h f Q.
Proof.
  intros Hc Hm HQ Hf. assert (Hm' : load r (f ∪ h) m = Some a).
  { eapply load_mono; [|exact Hm]. by apply map_union_subseteq_r. }
  destruct (Hc _ _ _ Hm') as (m'&g&Hrun&Hg&Hl); [apply map_disjoint_empty_l|].
  rewrite (left_id_L ∅ (∪)) in Hrun. apply map_disjoint_union_r in Hg as [Hgf Hgh].
  exists m', (g ∪ f). rewrite Hrun. rewrite (assoc_L (∪)). split_and!; [done| |].
  - by apply map_disjoint_union_l.
  - apply HQ; [done|by apply map_union_subseteq_r|done].
Qed.

(** The same with what a structure copier needs: the value loads from now on. *)
Lemma runs_field {M A} (r : rep M A) c m a h f Q :
  copies r c → load r h m = Some a →
  (∀ m' f', f ⊆ f' → load r f' m' = Some a → Q m' f') → runs (c m) h f Q.
Proof.
  intros Hc Hm HQ. eapply runs_copies; [done..|]. intros m' g _ Hf Hl. apply HQ; [done|].
  eapply load_mono; [|exact Hl]. apply map_union_subseteq_l.
Qed.

Lemma copies_ret {A} : copies (value_rep (A := A)) ret.
Proof. intros h m a [= ->]. by apply runs_ret. Qed.

Lemma copies_pointer {M A} `{Storable M} (r : rep M A) into :
  copies r into → copies (pointer_rep r) (copy_pointer into).
Proof.
  intros Hi h [l|] a Hl; [|injection Hl as <-; by apply runs_ret].
  apply bind_Some in Hl as (x&Hx&(b&Hb&[= <-])%bind_Some). unfold copy_pointer.
  apply runs_bind, runs_new. intros out _ _. apply runs_bind. eapply runs_read_kept; [exact Hx|].
  apply runs_bind. eapply runs_copies; [exact Hi|exact Hb|]. intros y g Hg _ Hy. apply runs_bind.
  rewrite insert_empty in Hg |- *. apply map_disjoint_singleton_r in Hg.
  rewrite (map_union_comm g) by by apply map_disjoint_singleton_r.
  rewrite <- insert_union_singleton_l. apply runs_write_own, runs_ret. apply bind_Some. exists y.
  split; [apply lookup_cell_insert|]. apply bind_Some. exists b. split; [|done].
  eapply load_mono; [|exact Hy]. by apply insert_subseteq.
Qed.

Lemma slice_elements_full {M} `{Storable (list M)} h l (xs : list M) :
  lookup_cell h l = Some xs → slice_elements h (mkSlice l 0 (length xs) (length xs)) = Some xs.
Proof.
  intros Hl. unfold slice_elements. simpl. rewrite Hl. simpl. rewrite !bool_decide_eq_true_2 by lia.
  cbn [andb]. by rewrite drop_0, firstn_all.
Qed.

Lemma mapM_values {A} (xs l : list A) : mapM (λ x, Some x) xs = Some l ↔ l = xs.
Proof.
  rewrite mapM_Some. split; [|intros ->; by induction xs; constructor]. induction 1; congruence.
Qed.

Lemma copies_elements {A} `{Storable (list A)} (z : A) : copies (slice_rep value_rep) (copy_elements z).
Proof.
  intros h [s|] a Hl; [|injection Hl as <-; by apply runs_ret].
  apply bind_Some in Hl as (xs&Hx&(l&Hm&[= <-])%bind_Some).
  assert (l = xs) as -> by by apply mapM_values in Hm.
  unfold slice_elements in Hx. apply bind_Some in Hx as (ys&Hy&Hx). destruct (_ && _) eqn:Hb; [|done].
  injection Hx as Hx. bools. unfold copy_elements, make_slice. apply runs_bind, runs_bind, runs_new.
  intros d _ _. apply runs_ret, runs_bind. eapply runs_read_kept; [exact Hy|]. simpl.
  apply runs_bind, runs_write_own, runs_ret. apply bind_Some. exists xs. split.
  - rewrite Hx. assert (length xs = sl_len s) as <- by (rewrite <- Hx, length_take, length_drop; lia).
    apply slice_elements_full, lookup_cell_insert.
  - apply bind_Some. exists xs. split; [by apply mapM_values|done].
Qed.

(** The loop over a slice: [ys] is done, and loads by the cells [f]; the elements
    of [src] from position [length ys] on are to be copied. *)
Lemma runs_copy_loop {M A} `{Storable (list M)} (r : rep M A) z into src d xs as_ h :
  copies r into → slice_elements h src = Some xs → mapM (load r h) xs = Some as_ →
  let dst := mkSlice d 0 (length xs) (length xs) in
  ∀ n ys bs f,
    (length ys + n = length xs)%nat → mapM (load r f) ys = Some bs → bs = take (length ys) as_ →
    f !! d = None → h !! d = None →
    runs (copy_loop into src dst (length ys) n) h (<[d := to_cell (ys ++ replicate n z)]> f)
      (λ _ f', ∃ ys' g, f' = <[d := to_cell ys']> g ∧ g !! d = None ∧ length ys' = length xs ∧
                        mapM (load r g) ys' = Some as_).
Proof.
  intros Hi Hx Has dst n. pose proof Has as Hlen%mapM_Some%Forall2_length.
  unfold slice_elements in Hx. apply bind_Some in Hx as (arr&Harr&Hx). destruct (_ && _) eqn:Hb; [|done].
  injection Hx as Hx. bools. assert (Hn : length xs = sl_len src) by (rewrite <- Hx, length_take, length_drop; lia).
  induction n as [|n IH]; intros ys bs f Hys Hbs -> Hf Hh; cbn [copy_loop].
  - apply runs_ret. exists ys, f. rewrite app_nil_r, Hbs, take_ge by lia. split_and!; [done|done|lia|done].
  - destruct (lookup_lt_is_Some_2 xs (length ys)) as [x Hxi]; [lia|].
    destruct (lookup_lt_is_Some_2 as_ (length ys)) as [a Ha]; [lia|].
    pose proof Has as Hlx%mapM_Some. destruct (Forall2_lookup_l _ _ _ _ _ Hlx Hxi) as (a'&Ha'&Hla).
    assert (a' = a) as -> by congruence.
    assert (Hai : arr !! (sl_off src + length ys)%nat = Some x).
    { rewrite <- Hx, lookup_take_Some, lookup_drop in Hxi. by destruct Hxi. }
    apply runs_bind. unfold elem at 1. rewrite bool_decide_eq_true_2 by lia. apply runs_ret, runs_bind.
    unfold read_elem. cbn [fst snd]. apply runs_bind. eapply runs_read_kept; [exact Harr|]. rewrite Hai.
    apply runs_ret, runs_bind. eapply runs_copies; [exact Hi|exact Hla|]. intros y g Hg _ Hy.
    apply map_disjoint_insert_r in Hg as [Hgd Hgf]. rewrite <- insert_union_r by done.
    apply runs_bind. unfold elem. rewrite bool_decide_eq_true_2 by (simpl; lia). apply runs_ret, runs_bind.
    unfold write_elem. cbn [fst snd sl_array sl_off dst Nat.add]. apply runs_bind, runs_read_own.
    rewrite bool_decide_eq_true_2 by (rewrite length_app, length_replicate; lia). apply runs_write_own.
    rewrite insert_app_r_alt, Nat.sub_diag by lia. cbn [replicate insert list_insert].
    change (y :: replicate n z) with ([y] ++ replicate n z). rewrite (assoc_L (++)).
    replace (S (length ys)) with (length (ys ++ [y])) by (rewrite length_app; simpl; lia).
    eapply IH; [rewrite length_app; simpl; lia| |reflexivity|by apply lookup_union_None|done].
    apply mapM_Some. rewrite length_app, Nat.add_comm. cbn [length Nat.add].
    rewrite (take_S_r _ _ a) by done. apply Forall2_app; [|constructor; [|constructor]].
    + apply mapM_Some. eapply mapM_mono; [|exact Hbs]. intros u v. apply load_mono. by apply map_union_subseteq_r.
    + eapply load_mono; [|exact Hy]. apply map_union_subseteq_l.
Qed.

Lemma copies_slice {M A} `{Storable (list M)} (r : rep M A) z into :
  copies r into → copies (slice_rep r) (copy_slice z into).
Proof.
  intros Hi h [s|] a Hl; [|injection Hl as <-; by apply runs_ret].
  apply bind_Some in Hl as (xs&Hx&(l&Hm&[= <-])%bind_Some). unfold copy_slice, make_slice.
  assert (Hn : sl_len s = length xs).
  { unfold slice_elements in Hx. apply bind_Some in Hx as (arr&_&Hx). destruct (_ && _) eqn:Hb; [|done].
    injection Hx as <-. bools. rewrite length_take, length_drop. lia. }
  apply runs_bind, runs_bind, runs_new. intros d Hd Hh. apply runs_ret, runs_bind. rewrite Hn.
  eapply runs_wand; [apply (runs_copy_loop r z into s d xs l h Hi Hx Hm (length xs) [] [] ∅); done|].
  intros _ f' _ (ys&g&->&Hg&Hlen&Hys). apply runs_ret. apply bind_Some. exists ys. split.
  - rewrite <- Hlen. apply slice_elements_full, lookup_cell_insert.
  - apply bind_Some. exists l. split; [|done]. eapply mapM_mono; [|exact Hys]. intros u v. apply load_mono.
    by apply insert_subseteq.
Qed.

Lemma runs_insert_loop {V} `{Storable (gmap string V)} out kvs (m : gmap string V) h f :
  runs (insert_loop out kvs) h (<[out := to_cell m]> f)
    (λ _ f', f' = <[out := to_cell (foldl (λ m kv, <[kv.1 := kv.2]> m) m kvs)]> f).
Proof.
  revert m. induction kvs as [|[k v] kvs IH]; intros m; cbn [insert_loop foldl fst snd]; [by apply runs_ret|].
  apply runs_bind, runs_read_own, runs_bind, runs_write_own, IH.
Qed.

Lemma foldl_insert {V} (kvs : list (string * V)) (m : gmap string V) :
  NoDup kvs.*1 → (∀ k, k ∈ kvs.*1 → m !! k = None) →
  foldl (λ m kv, <[kv.1 := kv.2]> m) m kvs = list_to_map kvs ∪ m.
Proof.
  revert m. induction kvs as [|[k v] kvs IH]; intros m Hnd Hm; csimpl; [by rewrite (left_id_L ∅ (∪))|].
  apply NoDup_cons in Hnd as [Hk Hnd]. rewrite IH; [|done|].
  - rewrite <- insert_union_r, insert_union_l; [done|]. by apply not_elem_of_list_to_map_1.
  - intros k' Hk'. rewrite lookup_insert_ne; [apply Hm; by right|]. intros ->. done.
Qed.

Lemma copies_map {V} `{Storable (gmap string V)} choices : copies map_rep (copy_map (V := V) choices).
Proof.
  intros h [l|] a Hl; [|injection Hl as <-; by apply runs_ret].
  apply bind_Some in Hl as (m&Hm&[= <-]). unfold copy_map. apply runs_bind, runs_new. intros out _ _.
  apply runs_bind. eapply runs_read_kept; [exact Hm|]. apply runs_bind.
  eapply runs_wand; [apply runs_insert_loop|]. intros _ f' _ ->. apply runs_ret. apply bind_Some. exists m.
  split; [|done]. rewrite lookup_cell_insert. f_equal.
  rewrite foldl_insert; [| |by intros; apply lookup_empty].
  - rewrite (right_id_L ∅ (∪)), (list_to_map_proper _ (map_to_list m)), list_to_map_to_list; [done| |].
    + rewrite range_map_perm. apply NoDup_fst_map_to_list.
    + apply range_map_perm.
  - rewrite range_map_perm. apply NoDup_fst_map_to_list.
Qed.

(** ** Writing to the cells of one's own *)

Lemma lookup_cell_own {T} `{Storable T} l (x : T) h f :
  lookup_cell f l = Some x → lookup_cell (f ∪ h) l = Some x.
Proof. apply lookup_cell_mono, map_union_subseteq_l. Qed.

Lemma runs_read_mine {T} `{Storable T} l (x : T) h f (Q : T → heap → Prop) :
  lookup_cell f l = Some x → Q x f → runs (read l) h f Q.
Proof. intros Hl HQ. by apply (runs_read l x), HQ; apply lookup_cell_own. Qed.

Lemma lookup_cell_is_Some {T} `{Storable T} l (x : T) f : lookup_cell f l = Some x → is_Some (f !! l).
Proof. intros (c&Hc&_)%bind_Some. by exists c. Qed.

Lemma runs_write_mine {T} `{Storable T} l (x y : T) h f (Q : unit → heap → Prop) :
  lookup_cell f l = Some x → Q tt (<[l := to_cell y]> f) → runs (write l y) h f Q.
Proof.
  intros Hl HQ Hf. exists tt, (<[l := to_cell y]> f). unfold write. rewrite (lookup_cell_own l x) by done.
  rewrite insert_union_l. split_and!; [done| |done]. apply map_disjoint_insert_l_2; [|done].
  apply lookup_cell_is_Some in Hl as [c Hc]. by eapply map_disjoint_Some_l.
Qed.

(** A representation that does not look at cells of the kind [P]. *)
Definition blind {M A} (P : cell → Prop) (r : rep M A) : Prop :=
  ∀ h l c c' m, h !! l = Some c → P c → P c' → load r (<[l := c']> h) m = load r h m.

Definition no_cell {T} `{Storable T} (P : cell → Prop) : Prop := ∀ c, P c → of_cell (T := T) c = None.

Lemma lookup_cell_other {T} `{Storable T} P h l c c' l' :
  no_cell (T := T) P → h !! l = Some c → P c → P c' →
  lookup_cell (T := T) (<[l := c']> h) l' = lookup_cell h l'.
Proof.
  intros HP Hl Hc Hc'. unfold lookup_cell. destruct (decide (l = l')) as [->|Hne].
  - rewrite lookup_insert_eq, Hl. simpl. by rewrite !HP.
  - by rewrite lookup_insert_ne.
Qed.

Lemma blind_value {A} P : blind P (value_rep (A := A)).
Proof. by intros h l c c' m. Qed.
Lemma blind_pointer {M A} `{Storable M} P (r : rep M A) :
  no_cell (T := M) P → blind P r → blind P (pointer_rep r).
Proof.
  intros HP Hr h l c c' [l'|] Hl Hc Hc'; [|done]. cbn [load pointer_rep].
  rewrite (lookup_cell_other P h l c c') by done. destruct (lookup_cell h l') as [x|]; simpl; [|done].
  by rewrite (Hr h l c c').
Qed.
Lemma blind_slice {M A} `{Storable (list M)} P (r : rep M A) :
  no_cell (T := list M) P → blind P r → blind P (slice_rep r).
Proof.
  intros HP Hr h l c c' [s|] Hl Hc Hc'; [|done]. cbn [load slice_rep]. unfold slice_elements.
  rewrite (lookup_cell_other P h l c c') by done. destruct (lookup_cell h (sl_array s)) as [x|]; simpl; [|done].
  destruct (_ && _); simpl; [|done]. f_equal. apply mapM_ext. intros m. by apply (Hr h l c c').
Qed.
Lemma blind_map {V} `{Storable (gmap string V)} P :
  no_cell (T := gmap string V) P → blind P (map_rep (V := V)).
Proof.
  intros HP h l c c' [l'|] Hl Hc Hc'; [|done]. cbn [load map_rep]. by rewrite (lookup_cell_other P h l c c').
Qed.

(** What is represented without looking at cells of the kind [P] stays as it is. *)
Definition preserves (P : cell → Prop) (f f' : heap) : Prop :=
  ∀ M A (r : rep M A) m a, blind P r → load r f m = Some a → load r f' m = Some a.

Lemma preserves_refl P f : preserves P f f.
Proof. by intros M A r m a. Qed.
Lemma preserves_trans P f g k : preserves P f g → preserves P g k → preserves P f k.
Proof. intros Hf Hg M A r m a Hr Hl. by apply Hg, Hf. Qed.
Lemma preserves_write P f l c c' : f !! l = Some c → P c → P c' → preserves P f (<[l := c']> f).
Proof. intros Hl Hc Hc' M A r m a Hr Hm. by rewrite (Hr f l c c'). Qed.
Lemma preserves_grow P f f' : f ⊆ f' → preserves P f f'.
Proof. intros Hf M A r m a _. by apply load_mono. Qed.

(** *** Elements of a slice *)

Section slices.
Context {T : Type} `{Storable (list T)} (P : cell → Prop) (arrays : ∀ xs : list T, P (to_cell xs))
  (arrays_only : ∀ c (xs : list T), of_cell c = Some xs → c = to_cell xs).

Lemma slice_elements_array f s (xs : list T) :
  slice_elements f s = Some xs →
  ∃ ys, lookup_cell f (sl_array s) = Some ys ∧ f !! sl_array s = Some (to_cell ys) ∧
    xs = take (sl_len s) (drop (sl_off s) ys) ∧ length xs = sl_len s ∧
    (sl_len s ≤ sl_cap s)%nat ∧ (sl_off s + sl_cap s ≤ length ys)%nat.
Proof.
  unfold slice_elements. intros (ys&Hy&Hx)%bind_Some. destruct (_ && _) eqn:Hb; [|done]. injection Hx as <-. bools.
  exists ys. split_and!; try done; [|rewrite length_take, length_drop; lia].
  apply bind_Some in Hy as (c&Hc&Hy). by rewrite <- (arrays_only c ys).
Qed.

Lemma runs_elem s i h f (Q : loc * nat → heap → Prop) :
  (i < sl_len s)%nat → Q (sl_array s, sl_off s + i)%nat f → runs (elem s i) h f Q.
Proof. intros Hi HQ. unfold elem. rewrite bool_decide_eq_true_2 by done. by apply runs_ret. Qed.

Lemma runs_read_slice s (xs : list T) k x h f (Q : T → heap → Prop) :
  slice_elements f s = Some xs → xs !! k = Some x → Q x f →
  runs (read_elem (sl_array s, sl_off s + k)%nat) h f Q.
Proof.
  intros (ys&Hy&_&->&_)%slice_elements_array Hk HQ. unfold read_elem. cbn [fst snd].
  apply runs_bind. eapply runs_read_mine; [exact Hy|]. rewrite lookup_take_Some, lookup_drop in Hk.
  destruct Hk as [-> _]. by apply runs_ret.
Qed.

Lemma runs_write_slice s (xs : list T) k x h f (Q : unit → heap → Prop) :
  slice_elements f s = Some xs → (k < length xs)%nat →
  (∀ f', slice_elements f' s = Some (<[k := x]> xs) → preserves P f f' → Q tt f') →
  runs (write_elem (sl_array s, sl_off s + k)%nat x) h f Q.
Proof.
  intros (ys&Hy&Hc&->&Hlen&Hcap&Hoff)%slice_elements_array Hk HQ. rewrite Hlen in Hk.
  unfold write_elem. cbn [fst snd]. apply runs_bind. eapply runs_read_mine; [exact Hy|].
  rewrite bool_decide_eq_true_2 by lia. eapply runs_write_mine; [exact Hy|]. apply HQ.
  - unfold slice_elements. rewrite lookup_cell_insert. simpl. rewrite length_insert, !bool_decide_eq_true_2 by lia.
    cbn [andb]. rewrite drop_insert_ge by lia. replace (sl_off s + k - sl_off s)%nat with k by lia. by rewrite take_insert_lt by lia.
  - by eapply preserves_write.
Qed.

(** [append] behaves like [++], in place or not. *)
Lemma runs_append z extra (s : go_slice) (l : slice T) x h f (Q : go_slice → heap → Prop) :
  load (slice_rep (M := T) value_rep) f s = Some l →
  (∀ s' f', load (slice_rep (M := T) value_rep) f' s' = Some (Some (elems l ++ [x])) → preserves P f f' → Q s' f') →
  runs (append z extra s x) h f Q.
Proof.
  intros Hl HQ. assert (Hload : ∀ f' s' xs, slice_elements f' s' = Some xs →
    load (slice_rep (M := T) value_rep) f' (Some s') = Some (Some xs)).
  { intros f' s' xs Hx. cbn [load slice_rep]. rewrite Hx. simpl. apply bind_Some. exists xs.
    split; [by apply mapM_values|done]. }
  destruct s as [s|]; cbn [append].
  - cbn [load slice_rep] in Hl. apply bind_Some in Hl as (xs&Hx&(k&Hk%mapM_values&[= <-])%bind_Some). subst k.
    apply slice_elements_array in Hx as (ys&Hy&Hc&->&Hlen&Hcap&Hoff). cbn [elems default] in HQ.
    case_bool_decide as Hroom.
    + apply runs_bind. unfold write_elem. cbn [fst snd]. apply runs_bind. eapply runs_read_mine; [exact Hy|].
      rewrite bool_decide_eq_true_2 by lia. eapply runs_write_mine; [exact Hy|]. apply runs_ret, HQ.
      * apply Hload. unfold slice_elements. cbn [sl_array sl_off sl_len sl_cap]. rewrite lookup_cell_insert. simpl.
        rewrite length_insert, !bool_decide_eq_true_2 by lia. cbn [andb]. f_equal.
        rewrite drop_insert_ge by lia. replace (sl_off s + sl_len s - sl_off s)%nat with (sl_len s) by lia.
        rewrite (take_S_r _ _ x) by (apply list_lookup_insert_eq; rewrite length_drop; lia).
        by rewrite take_insert_ge by lia.
      * by eapply preserves_write.
    + apply runs_bind. eapply runs_read_mine; [exact Hy|]. apply runs_bind, runs_new. intros a Ha _.
      apply runs_ret, HQ.
      * apply Hload. unfold slice_elements. cbn [sl_array sl_off sl_len sl_cap]. rewrite lookup_cell_insert. simpl.
        rewrite length_app, Hlen. cbn [length]. rewrite length_replicate, !bool_decide_eq_true_2 by lia.
        cbn [andb]. f_equal. rewrite drop_0.
        change (x :: replicate extra z) with ([x] ++ replicate extra z). rewrite (assoc_L (++)).
        apply take_app_length'. rewrite length_app, Hlen. simpl. lia.
      * by apply preserves_grow, insert_subseteq.
  - injection Hl as <-. apply runs_bind, runs_new. intros a Ha _. apply runs_ret, HQ.
    + apply Hload. unfold slice_elements. cbn [sl_array sl_off sl_len sl_cap]. rewrite lookup_cell_insert. simpl.
      rewrite length_replicate, !bool_decide_eq_true_2 by lia. done.
    + by apply preserves_grow, insert_subseteq.
Qed.
End slices.
End heap.

Arguments load {cell M A} _ _ _.
Arguments load_mono {cell M A} _ _ _ _ _ _ _.
Arguments Rep {cell} M A _ _.

Module Notations.
Notation "'let+' x := p 'in' q" := (bind p (λ x, q))
  (at level 10, x pattern, p at level 100, q at level 200) : go_scope.
End Notations.
End Heap.
