(* ===== verification/DeepCopy.v ===== *)
(** * Deep copies ([api/v1alpha1/zz_generated.deepcopy.go])

    The objects of this API as they lie in memory, and the generated functions
    that copy them, with those of the vendored types they call.  Everywhere else in
    this library objects are immutable values; here it is shown that a deep copy
    is the same value and shares no memory with the original. *)
From stdpp Require Import base gmap strings list.
From Stdlib Require Import Ascii ZArith Lia.
From S2P Require Import Prelude Types Heap.
Local Open Scope go_scope.

Module DeepCopy.
Import Heap Heap.Notations.

(** ** Structures in memory

    A LocalObjectReference, a MachineNetworkEntry and an ImageMirror are their one
    string.  Every field of the vendored structures is there. *)

Record OwnerReferenceMem := mkOwnerMem {
  owm_APIVersion : string;
  owm_Kind : string;
  owm_Name : string;
  owm_UID : string;
  owm_BlockOwnerDeletion : pointer;
  owm_Controller : pointer;
}.

Record FieldsV1Mem := mkFieldsMem { fvm_Raw : go_slice }.

Record ManagedFieldsEntryMem := mkManagedMem {
  mfm_Manager : string;
  mfm_Operation : string;
  mfm_APIVersion : string;
  mfm_Time : pointer;
  mfm_FieldsType : string;
  mfm_FieldsV1 : pointer;
  mfm_Subresource : string;
}.

Record ObjectMetaMem := mkMetaMem {
  omm_Name : string;
  omm_GenerateName : string;
  omm_Namespace : string;
  omm_SelfLink : string;
  omm_UID : string;
  omm_ResourceVersion : string;
  omm_Generation : Z;
  omm_Labels : pointer;
  omm_Annotations : pointer;
  omm_Finalizers : go_slice;
  omm_OwnerReferences : go_slice;
  omm_CreationTimestamp : time;
  omm_DeletionTimestamp : pointer;
  omm_DeletionGracePeriodSeconds : pointer;
  omm_ManagedFields : go_slice;
}.

Record AWSMetadataMem := mkAWSMem { awm_HostedZoneRole : pointer }.
Record AzureMetadataMem := mkAzureMem { azm_ResourceGroupName : pointer }.
Record GCPMetadataMem := mkGCPMem { gcm_NetworkProjectID : pointer }.
Record ClusterPlatformMetadataMem := mkPlatformMem {
  cpm_AWS : pointer;
  cpm_Azure : pointer;
  cpm_GCP : pointer;
}.

Record ClusterMetadataMem := mkClusterMetadataMem {
  cmm_ClusterID : string;
  cmm_InfraID : string;
  cmm_AdminKubeconfigSecretRef : string;
  cmm_AdminPasswordSecretRef : pointer;
  cmm_MetadataJSONSecretRef : pointer;
  cmm_Platform : pointer;
}.

Record ImageDigestMirrorsMem := mkIDMMem {
  idmm_Source : string;
  idmm_Mirrors : go_slice;
  idmm_MirrorSourcePolicy : string;
}.

Record ICISpecMem := mkICISpecMem {
  spm_ClusterDeploymentRef : pointer;
  spm_ImageSetRef : string;
  spm_ClusterMetadata : pointer;
  spm_NodeIP : string;
  spm_Hostname : string;
  spm_SSHKey : string;
  spm_ImageDigestSources : go_slice;
  spm_CABundleRef : pointer;
  spm_ExtraManifestsRefs : go_slice;
  spm_BareMetalHostRef : pointer;
  spm_MachineNetwork : string;
  spm_MachineNetworks : go_slice;
  spm_Proxy : pointer;
  spm_AdditionalNTPSources : go_slice;
}.

Record ICIStatusMem := mkICIStatusMem {
  stm_Conditions : go_slice;
  stm_InstallRestarts : Z;
  stm_BareMetalHostRef : pointer;
  stm_BootTime : time;
}.

Record TypeMeta := mkTypeMeta { tm_Kind : string; tm_APIVersion : string }.

Record ICIMem := mkICIMem {
  icm_TypeMeta : TypeMeta;
  icm_Meta : ObjectMetaMem;
  icm_Spec : ICISpecMem;
  icm_Status : ICIStatusMem;
}.

Record ListMetaMem := mkListMetaMem {
  lmm_SelfLink : string;
  lmm_ResourceVersion : string;
  lmm_Continue : string;
  lmm_RemainingItemCount : pointer;
}.

(** [ImageClusterInstallList]. *)
Record ICIListMem := mkICIListMem {
  ilm_TypeMeta : TypeMeta;
  ilm_Meta : ListMetaMem;
  ilm_Items : go_slice;
}.

(** What pointers, slices and maps refer to. *)
Inductive cell :=
| CBool (b : bool)
| CInt (z : Z) (* also an instant *)
| CString (s : string)
| CBareMetalHostReference (r : BareMetalHostReference)
| CProxy (p : Proxy)
| CClusterMetadata (m : ClusterMetadataMem)
| CPlatform (m : ClusterPlatformMetadataMem)
| CAWS (m : AWSMetadataMem)
| CAzure (m : AzureMetadataMem)
| CGCP (m : GCPMetadataMem)
| CFieldsV1 (f : FieldsV1Mem)
| CSpec (s : ICISpecMem)
| CStatus (s : ICIStatusMem)
| CICI (i : ICIMem)
| CICIList (l : ICIListMem)
| CStrings (l : list string)
| CBytes (l : list ascii)
| CManaged (l : list ManagedFieldsEntryMem)
| CMirrors (l : list ImageDigestMirrorsMem)
| COwners (l : list OwnerReferenceMem)
| CConditions (l : list Condition)
| CItems (l : list ICIMem)
| CMap (m : gmap string string).

Definition zero_owner := mkOwnerMem "" "" "" "" None None.
Definition zero_managed := mkManagedMem "" "" "" None "" None "".
Definition zero_meta := mkMetaMem "" "" "" "" "" "" 0%Z None None None None 0%Z None None None.
Definition zero_metadata := mkClusterMetadataMem "" "" "" None None None.
Definition zero_mirrors := mkIDMMem "" None "".
Definition zero_spec := mkICISpecMem None "" None "" "" "" None None None None "" None None None.
Definition zero_status := mkICIStatusMem None 0%Z None 0%Z.
(* fills a new array before its elements are copied *)
Definition zero_condition := mkCondition (OtherConditionType "") ConditionUnknown 0%Z 0%Z "" "".
Definition zero_ici := mkICIMem (mkTypeMeta "" "") zero_meta zero_spec zero_status.
Definition zero_list := mkICIListMem (mkTypeMeta "" "") (mkListMetaMem "" "" "" None) None.

(** The cells of a type. *)
Definition cells {T} (put : T → cell) (get : cell → option T) (z : T) (H : ∀ x, get (put x) = Some x)
    : Storable (cell := cell) T :=
  {| to_cell := put; of_cell := get; zero := z; of_to_cell := H |}.
#[export] Instance bool_cells : Storable bool :=
  cells CBool (λ c, match c with CBool x => Some x | _ => None end) false (λ _, eq_refl).
#[export] Instance int_cells : Storable Z :=
  cells CInt (λ c, match c with CInt x => Some x | _ => None end) 0%Z (λ _, eq_refl).
#[export] Instance string_cells : Storable string :=
  cells CString (λ c, match c with CString x => Some x | _ => None end) "" (λ _, eq_refl).
#[export] Instance host_cells : Storable BareMetalHostReference :=
  cells CBareMetalHostReference (λ c, match c with CBareMetalHostReference x => Some x | _ => None end) (mkBMHRef "" "") (λ _, eq_refl).
#[export] Instance proxy_cells : Storable Proxy :=
  cells CProxy (λ c, match c with CProxy x => Some x | _ => None end) (mkProxy "" "" "") (λ _, eq_refl).
#[export] Instance metadata_cells : Storable ClusterMetadataMem :=
  cells CClusterMetadata (λ c, match c with CClusterMetadata x => Some x | _ => None end) zero_metadata (λ _, eq_refl).
#[export] Instance platform_cells : Storable ClusterPlatformMetadataMem :=
  cells CPlatform (λ c, match c with CPlatform x => Some x | _ => None end) (mkPlatformMem None None None) (λ _, eq_refl).
#[export] Instance aws_cells : Storable AWSMetadataMem :=
  cells CAWS (λ c, match c with CAWS x => Some x | _ => None end) (mkAWSMem None) (λ _, eq_refl).
#[export] Instance azure_cells : Storable AzureMetadataMem :=
  cells CAzure (λ c, match c with CAzure x => Some x | _ => None end) (mkAzureMem None) (λ _, eq_refl).
#[export] Instance gcp_cells : Storable GCPMetadataMem :=
  cells CGCP (λ c, match c with CGCP x => Some x | _ => None end) (mkGCPMem None) (λ _, eq_refl).
#[export] Instance fields_cells : Storable FieldsV1Mem :=
  cells CFieldsV1 (λ c, match c with CFieldsV1 x => Some x | _ => None end) (mkFieldsMem None) (λ _, eq_refl).
#[export] Instance spec_cells : Storable ICISpecMem :=
  cells CSpec (λ c, match c with CSpec x => Some x | _ => None end) zero_spec (λ _, eq_refl).
#[export] Instance status_cells : Storable ICIStatusMem :=
  cells CStatus (λ c, match c with CStatus x => Some x | _ => None end) zero_status (λ _, eq_refl).
#[export] Instance ici_cells : Storable ICIMem :=
  cells CICI (λ c, match c with CICI x => Some x | _ => None end) zero_ici (λ _, eq_refl).
#[export] Instance list_cells : Storable ICIListMem :=
  cells CICIList (λ c, match c with CICIList x => Some x | _ => None end) zero_list (λ _, eq_refl).
#[export] Instance strings_cells : Storable (list string) :=
  cells CStrings (λ c, match c with CStrings x => Some x | _ => None end) [] (λ _, eq_refl).
#[export] Instance bytes_cells : Storable (list ascii) :=
  cells CBytes (λ c, match c with CBytes x => Some x | _ => None end) [] (λ _, eq_refl).
#[export] Instance managed_cells : Storable (list ManagedFieldsEntryMem) :=
  cells CManaged (λ c, match c with CManaged x => Some x | _ => None end) [] (λ _, eq_refl).
#[export] Instance mirrors_cells : Storable (list ImageDigestMirrorsMem) :=
  cells CMirrors (λ c, match c with CMirrors x => Some x | _ => None end) [] (λ _, eq_refl).
#[export] Instance owners_cells : Storable (list OwnerReferenceMem) :=
  cells COwners (λ c, match c with COwners x => Some x | _ => None end) [] (λ _, eq_refl).
#[export] Instance conditions_cells : Storable (list Condition) :=
  cells CConditions (λ c, match c with CConditions x => Some x | _ => None end) [] (λ _, eq_refl).
#[export] Instance items_cells : Storable (list ICIMem) :=
  cells CItems (λ c, match c with CItems x => Some x | _ => None end) [] (λ _, eq_refl).
#[export] Instance map_cells : Storable (gmap string string) :=
  cells CMap (λ c, match c with CMap x => Some x | _ => None end) ∅ (λ _, eq_refl).

Abbreviation GoM := (Heap.GoM (cell := cell)).
Abbreviation rep := (Heap.rep (cell := cell)).

(** ** The generated functions

    [DeepCopyInto(out)] is the function that computes what it leaves in [out]: the
    structure itself is assigned first, then the fields that refer to memory are
    replaced, in this order.  [DeepCopy] allocates the structure and fills it. *)

(** [if in == nil { return nil }; out := new(T); in.DeepCopyInto(out); return out] *)
Definition DeepCopy_of {T} `{Storable (cell := cell) T} (DeepCopyInto : T → GoM T) (inp : pointer) : GoM pointer :=
  copy_pointer DeepCopyInto inp.

Section functions.
(* the order in which the run visits maps *)
Context (choices : list nat).

(* vendored types *)
Definition OwnerReference_DeepCopyInto (inn : OwnerReferenceMem) : GoM OwnerReferenceMem :=
  let+ controller := copy_pointer (T := bool) ret (owm_Controller inn) in
  let+ block := copy_pointer (T := bool) ret (owm_BlockOwnerDeletion inn) in
  ret (mkOwnerMem (owm_APIVersion inn) (owm_Kind inn) (owm_Name inn) (owm_UID inn) block controller).

Definition FieldsV1_DeepCopyInto (inn : FieldsV1Mem) : GoM FieldsV1Mem :=
  let+ raw := copy_elements "000"%char (fvm_Raw inn) in
  ret (mkFieldsMem raw).

Definition ManagedFieldsEntry_DeepCopyInto (inn : ManagedFieldsEntryMem) : GoM ManagedFieldsEntryMem :=
  let+ at_ := copy_pointer (T := Z) ret (mfm_Time inn) in
  let+ fields := copy_pointer FieldsV1_DeepCopyInto (mfm_FieldsV1 inn) in
  ret (mkManagedMem (mfm_Manager inn) (mfm_Operation inn) (mfm_APIVersion inn) at_ (mfm_FieldsType inn) fields
         (mfm_Subresource inn)).

Definition ObjectMeta_DeepCopyInto (inn : ObjectMetaMem) : GoM ObjectMetaMem :=
  let+ deletion := copy_pointer (T := Z) ret (omm_DeletionTimestamp inn) in
  let+ grace := copy_pointer (T := Z) ret (omm_DeletionGracePeriodSeconds inn) in
  let+ labels := copy_map (V := string) choices (omm_Labels inn) in
  let+ annotations := copy_map (V := string) choices (omm_Annotations inn) in
  let+ owners := copy_slice zero_owner OwnerReference_DeepCopyInto (omm_OwnerReferences inn) in
  let+ finalizers := copy_elements "" (omm_Finalizers inn) in
  let+ managed := copy_slice zero_managed ManagedFieldsEntry_DeepCopyInto (omm_ManagedFields inn) in
  ret (mkMetaMem (omm_Name inn) (omm_GenerateName inn) (omm_Namespace inn) (omm_SelfLink inn) (omm_UID inn)
         (omm_ResourceVersion inn) (omm_Generation inn) labels annotations finalizers owners
         (omm_CreationTimestamp inn) deletion grace managed).

Definition ListMeta_DeepCopyInto (inn : ListMetaMem) : GoM ListMetaMem :=
  let+ remaining := copy_pointer (T := Z) ret (lmm_RemainingItemCount inn) in
  ret (mkListMetaMem (lmm_SelfLink inn) (lmm_ResourceVersion inn) (lmm_Continue inn) remaining).

Definition AWSMetadata_DeepCopyInto (inn : AWSMetadataMem) : GoM AWSMetadataMem :=
  let+ role := copy_pointer (T := string) ret (awm_HostedZoneRole inn) in ret (mkAWSMem role).
Definition AzureMetadata_DeepCopyInto (inn : AzureMetadataMem) : GoM AzureMetadataMem :=
  let+ group := copy_pointer (T := string) ret (azm_ResourceGroupName inn) in ret (mkAzureMem group).
Definition GCPMetadata_DeepCopyInto (inn : GCPMetadataMem) : GoM GCPMetadataMem :=
  let+ project := copy_pointer (T := string) ret (gcm_NetworkProjectID inn) in ret (mkGCPMem project).

Definition ClusterPlatformMetadata_DeepCopyInto (inn : ClusterPlatformMetadataMem) : GoM ClusterPlatformMetadataMem :=
  let+ aws := copy_pointer AWSMetadata_DeepCopyInto (cpm_AWS inn) in
  let+ azure := copy_pointer AzureMetadata_DeepCopyInto (cpm_Azure inn) in
  let+ gcp := copy_pointer GCPMetadata_DeepCopyInto (cpm_GCP inn) in
  ret (mkPlatformMem aws azure gcp).

Definition ClusterMetadata_DeepCopyInto (inn : ClusterMetadataMem) : GoM ClusterMetadataMem :=
  let+ password := copy_pointer (T := string) ret (cmm_AdminPasswordSecretRef inn) in
  let+ json := copy_pointer (T := string) ret (cmm_MetadataJSONSecretRef inn) in
  let+ platform := copy_pointer ClusterPlatformMetadata_DeepCopyInto (cmm_Platform inn) in
  ret (mkClusterMetadataMem (cmm_ClusterID inn) (cmm_InfraID inn) (cmm_AdminKubeconfigSecretRef inn) password json
         platform).

Definition ImageDigestMirrors_DeepCopyInto (inn : ImageDigestMirrorsMem) : GoM ImageDigestMirrorsMem :=
  let+ mirrors := copy_elements "" (idmm_Mirrors inn) in
  ret (mkIDMMem (idmm_Source inn) mirrors (idmm_MirrorSourcePolicy inn)).

Definition ClusterInstallCondition_DeepCopyInto (inn : Condition) : GoM Condition := ret inn.

(* the types of this API *)
Definition BareMetalHostReference_DeepCopyInto (inn : BareMetalHostReference) : GoM BareMetalHostReference := ret inn.
Definition BareMetalHostReference_DeepCopy := DeepCopy_of BareMetalHostReference_DeepCopyInto.

Definition MachineNetworkEntry_DeepCopyInto (inn : string) : GoM string := ret inn.
Definition MachineNetworkEntry_DeepCopy := DeepCopy_of MachineNetworkEntry_DeepCopyInto.

Definition Proxy_DeepCopyInto (inn : Proxy) : GoM Proxy := ret inn.
Definition Proxy_DeepCopy := DeepCopy_of Proxy_DeepCopyInto.

Definition ImageClusterInstallSpec_DeepCopyInto (inn : ICISpecMem) : GoM ICISpecMem :=
  let+ cd := copy_pointer (T := string) ret (spm_ClusterDeploymentRef inn) in
  let+ metadata := copy_pointer ClusterMetadata_DeepCopyInto (spm_ClusterMetadata inn) in
  let+ sources := copy_slice zero_mirrors ImageDigestMirrors_DeepCopyInto (spm_ImageDigestSources inn) in
  let+ ca := copy_pointer (T := string) ret (spm_CABundleRef inn) in
  let+ manifests := copy_elements "" (spm_ExtraManifestsRefs inn) in
  let+ host := copy_pointer (T := BareMetalHostReference) ret (spm_BareMetalHostRef inn) in
  let+ networks := copy_elements "" (spm_MachineNetworks inn) in
  let+ proxy := copy_pointer (T := Proxy) ret (spm_Proxy inn) in
  let+ ntp := copy_elements "" (spm_AdditionalNTPSources inn) in
  ret (mkICISpecMem cd (spm_ImageSetRef inn) metadata (spm_NodeIP inn) (spm_Hostname inn) (spm_SSHKey inn)
         sources ca manifests host (spm_MachineNetwork inn) networks proxy ntp).
Definition ImageClusterInstallSpec_DeepCopy := DeepCopy_of ImageClusterInstallSpec_DeepCopyInto.

Definition ImageClusterInstallStatus_DeepCopyInto (inn : ICIStatusMem) : GoM ICIStatusMem :=
  let+ conditions := copy_slice zero_condition ClusterInstallCondition_DeepCopyInto (stm_Conditions inn) in
  let+ host := copy_pointer (T := BareMetalHostReference) ret (stm_BareMetalHostRef inn) in
  ret (mkICIStatusMem conditions (stm_InstallRestarts inn) host (stm_BootTime inn)).
Definition ImageClusterInstallStatus_DeepCopy := DeepCopy_of ImageClusterInstallStatus_DeepCopyInto.

Definition ImageClusterInstall_DeepCopyInto (inn : ICIMem) : GoM ICIMem :=
  let+ meta := ObjectMeta_DeepCopyInto (icm_Meta inn) in
  let+ spec := ImageClusterInstallSpec_DeepCopyInto (icm_Spec inn) in
  let+ status := ImageClusterInstallStatus_DeepCopyInto (icm_Status inn) in
  ret (mkICIMem (icm_TypeMeta inn) meta spec status).
Definition ImageClusterInstall_DeepCopy := DeepCopy_of ImageClusterInstall_DeepCopyInto.

Definition ImageClusterInstallList_DeepCopyInto (inn : ICIListMem) : GoM ICIListMem :=
  let+ meta := ListMeta_DeepCopyInto (ilm_Meta inn) in
  let+ items := copy_slice zero_ici ImageClusterInstall_DeepCopyInto (ilm_Items inn) in
  ret (mkICIListMem (ilm_TypeMeta inn) meta items).
Definition ImageClusterInstallList_DeepCopy := DeepCopy_of ImageClusterInstallList_DeepCopyInto.

(** A [runtime.Object]: a typed pointer, which is not nil, or nil. *)
Inductive object := ImageClusterInstallObject (l : loc) | ImageClusterInstallListObject (l : loc).

Definition ImageClusterInstall_DeepCopyObject (inp : pointer) : GoM (option object) :=
  let+ c := ImageClusterInstall_DeepCopy inp in
  match c with Some l => ret (Some (ImageClusterInstallObject l)) | None => ret None end.
Definition ImageClusterInstallList_DeepCopyObject (inp : pointer) : GoM (option object) :=
  let+ c := ImageClusterInstallList_DeepCopy inp in
  match c with Some l => ret (Some (ImageClusterInstallListObject l)) | None => ret None end.
End functions.

(** ** What the structures stand for *)

(** Loads of fields, one after the other, keep what they found in a larger memory. *)
Ltac load_fields :=
  intros; cbn beta zeta in *;
  repeat match goal with
  | H : mbind _ _ = Some _ |- _ => apply bind_Some in H as (?&?&H)
  end;
  repeat (apply bind_Some; eexists; split; [eapply load_mono; eassumption|]); done.

Program Definition owner_rep : rep OwnerReferenceMem OwnerReference :=
  Rep _ _ (λ h m,
    block ← load (pointer_rep (M := bool) value_rep) h (owm_BlockOwnerDeletion m);
    controller ← load (pointer_rep (M := bool) value_rep) h (owm_Controller m);
    Some (mkOwner (owm_APIVersion m) (owm_Kind m) (owm_Name m) (owm_UID m) block controller)) _.
Next Obligation. load_fields. Qed.

(** [metav1.FieldsV1] and [metav1.ManagedFieldsEntry], and the fields of
    [metav1.ObjectMeta] that are not in the model's [ObjectMeta], because no code of
    the operator looks at them. *)
Record ManagedFieldsEntry := mkManaged {
  mf_Manager : string;
  mf_Operation : string;
  mf_APIVersion : string;
  mf_Time : option time;
  mf_FieldsType : string;
  mf_FieldsV1 : option (slice ascii);
  mf_Subresource : string;
}.
Record UnusedMeta := mkUnused {
  um_GenerateName : string;
  um_SelfLink : string;
  um_ResourceVersion : string;
  um_Generation : Z;
  um_DeletionGracePeriodSeconds : option Z;
  um_ManagedFields : slice ManagedFieldsEntry;
}.

Program Definition fields_rep : rep FieldsV1Mem (slice ascii) :=
  Rep _ _ (λ h m, load (slice_rep (M := ascii) value_rep) h (fvm_Raw m)) _.
Next Obligation. intros. by eapply load_mono. Qed.

Program Definition managed_rep : rep ManagedFieldsEntryMem ManagedFieldsEntry :=
  Rep _ _ (λ h m,
    at_ ← load (pointer_rep (M := Z) value_rep) h (mfm_Time m);
    fields ← load (pointer_rep fields_rep) h (mfm_FieldsV1 m);
    Some (mkManaged (mfm_Manager m) (mfm_Operation m) (mfm_APIVersion m) at_ (mfm_FieldsType m) fields
            (mfm_Subresource m))) _.
Next Obligation. load_fields. Qed.

Program Definition meta_rep : rep ObjectMetaMem (UnusedMeta * ObjectMeta) :=
  Rep _ _ (λ h m,
    labels ← load (map_rep (V := string)) h (omm_Labels m);
    annotations ← load (map_rep (V := string)) h (omm_Annotations m);
    finalizers ← load (slice_rep (M := string) value_rep) h (omm_Finalizers m);
    owners ← load (slice_rep owner_rep) h (omm_OwnerReferences m);
    deletion ← load (pointer_rep (M := Z) value_rep) h (omm_DeletionTimestamp m);
    grace ← load (pointer_rep (M := Z) value_rep) h (omm_DeletionGracePeriodSeconds m);
    managed ← load (slice_rep managed_rep) h (omm_ManagedFields m);
    Some (mkUnused (omm_GenerateName m) (omm_SelfLink m) (omm_ResourceVersion m) (omm_Generation m) grace managed,
          mkMeta (omm_Name m) (omm_Namespace m) (omm_UID m) labels annotations (elems finalizers) (elems owners)
            (omm_CreationTimestamp m) (default 0%Z deletion))) _.
Next Obligation. load_fields. Qed.

(** [metav1.ListMeta]. *)
Record ListMeta := mkListMeta {
  lm_SelfLink : string;
  lm_ResourceVersion : string;
  lm_Continue : string;
  lm_RemainingItemCount : option Z;
}.
Program Definition list_meta_rep : rep ListMetaMem ListMeta :=
  Rep _ _ (λ h m,
    remaining ← load (pointer_rep (M := Z) value_rep) h (lmm_RemainingItemCount m);
    Some (mkListMeta (lmm_SelfLink m) (lmm_ResourceVersion m) (lmm_Continue m) remaining)) _.
Next Obligation. load_fields. Qed.

Program Definition aws_rep : rep AWSMetadataMem AWSMetadata :=
  Rep _ _ (λ h m,
    role ← load (pointer_rep (M := string) value_rep) h (awm_HostedZoneRole m); Some (mkAWSMetadata role)) _.
Next Obligation. load_fields. Qed.
Program Definition azure_rep : rep AzureMetadataMem AzureMetadata :=
  Rep _ _ (λ h m,
    group ← load (pointer_rep (M := string) value_rep) h (azm_ResourceGroupName m); Some (mkAzureMetadata group)) _.
Next Obligation. load_fields. Qed.
Program Definition gcp_rep : rep GCPMetadataMem GCPMetadata :=
  Rep _ _ (λ h m,
    project ← load (pointer_rep (M := string) value_rep) h (gcm_NetworkProjectID m); Some (mkGCPMetadata project)) _.
Next Obligation. load_fields. Qed.
Program Definition platform_rep : rep ClusterPlatformMetadataMem ClusterPlatformMetadata :=
  Rep _ _ (λ h m,
    aws ← load (pointer_rep aws_rep) h (cpm_AWS m);
    azure ← load (pointer_rep azure_rep) h (cpm_Azure m);
    gcp ← load (pointer_rep gcp_rep) h (cpm_GCP m);
    Some (mkPlatform aws azure gcp)) _.
Next Obligation. load_fields. Qed.

Program Definition metadata_rep : rep ClusterMetadataMem ClusterMetadata :=
  Rep _ _ (λ h m,
    password ← load (pointer_rep (M := string) value_rep) h (cmm_AdminPasswordSecretRef m);
    json ← load (pointer_rep (M := string) value_rep) h (cmm_MetadataJSONSecretRef m);
    platform ← load (pointer_rep platform_rep) h (cmm_Platform m);
    Some (mkClusterMetadata (cmm_ClusterID m) (cmm_InfraID m) (cmm_AdminKubeconfigSecretRef m) password json
            platform)) _.
Next Obligation. load_fields. Qed.

Program Definition mirrors_rep : rep ImageDigestMirrorsMem ImageDigestMirrors :=
  Rep _ _ (λ h m,
    mirrors ← load (slice_rep (M := string) value_rep) h (idmm_Mirrors m);
    Some (mkIDM (idmm_Source m) mirrors (idmm_MirrorSourcePolicy m))) _.
Next Obligation. load_fields. Qed.

Program Definition spec_rep : rep ICISpecMem ICISpec :=
  Rep _ _ (λ h m,
    cd ← load (pointer_rep (M := string) value_rep) h (spm_ClusterDeploymentRef m);
    metadata ← load (pointer_rep metadata_rep) h (spm_ClusterMetadata m);
    sources ← load (slice_rep mirrors_rep) h (spm_ImageDigestSources m);
    ca ← load (pointer_rep (M := string) value_rep) h (spm_CABundleRef m);
    manifests ← load (slice_rep (M := string) value_rep) h (spm_ExtraManifestsRefs m);
    host ← load (pointer_rep (M := BareMetalHostReference) value_rep) h (spm_BareMetalHostRef m);
    networks ← load (slice_rep (M := string) value_rep) h (spm_MachineNetworks m);
    proxy ← load (pointer_rep (M := Proxy) value_rep) h (spm_Proxy m);
    ntp ← load (slice_rep (M := string) value_rep) h (spm_AdditionalNTPSources m);
    Some (mkICISpec cd (spm_ImageSetRef m) metadata (spm_NodeIP m) (spm_Hostname m) (spm_SSHKey m)
            sources ca manifests host (spm_MachineNetwork m) networks proxy ntp)) _.
Next Obligation. load_fields. Qed.

Program Definition status_rep : rep ICIStatusMem ICIStatus :=
  Rep _ _ (λ h m,
    conditions ← load (slice_rep (M := Condition) value_rep) h (stm_Conditions m);
    host ← load (pointer_rep (M := BareMetalHostReference) value_rep) h (stm_BareMetalHostRef m);
    Some (mkICIStatus (elems conditions) (stm_InstallRestarts m) host (stm_BootTime m))) _.
Next Obligation. load_fields. Qed.

Program Definition ici_rep : rep ICIMem (TypeMeta * UnusedMeta * ImageClusterInstall) :=
  Rep _ _ (λ h m,
    meta ← load meta_rep h (icm_Meta m);
    spec ← load spec_rep h (icm_Spec m);
    status ← load status_rep h (icm_Status m);
    Some (icm_TypeMeta m, meta.1, mkICI meta.2 spec status)) _.
Next Obligation. load_fields. Qed.

Program Definition list_rep : rep ICIListMem (TypeMeta * ListMeta * slice (TypeMeta * UnusedMeta * ImageClusterInstall)) :=
  Rep _ _ (λ h m,
    meta ← load list_meta_rep h (ilm_Meta m);
    items ← load (slice_rep ici_rep) h (ilm_Items m);
    Some (ilm_TypeMeta m, meta, items)) _.
Next Obligation. load_fields. Qed.

(** ** Properties *)

Create HintDb copies.
#[export] Hint Resolve copies_ret copies_pointer copies_elements copies_slice copies_map : copies.

(** One field after the other; what was copied before stays. *)
Ltac copy_fields :=
  let h := fresh "h" in let m := fresh "m" in let a := fresh "a" in let H := fresh "H" in
  intros h m a H; cbn [load] in H;
  repeat match goal with
  | H : mbind _ _ = Some _ |- _ => apply bind_Some in H as (?&?&H)
  end;
  repeat (apply runs_bind; eapply runs_field; [eauto with copies|eassumption|];
    let f' := fresh "f" in let Hf := fresh "Hf" in
    intros ? f' Hf ?;
    repeat match goal with
    | Hl : load _ ?f _ = Some _ |- _ =>
        match type of Hf with f ⊆ _ => apply (load_mono _ _ _ _ _ Hf) in Hl end
    end; clear Hf);
  apply runs_ret; cbn [load];
  repeat (apply bind_Some; eexists; split; [eassumption|]); exact H.

Section properties.
Context (choices : list nat).

Lemma copies_owner : copies owner_rep OwnerReference_DeepCopyInto.
Proof. unfold owner_rep, OwnerReference_DeepCopyInto. copy_fields. Qed.
Hint Resolve copies_owner : copies.

Lemma copies_fields : copies fields_rep FieldsV1_DeepCopyInto.
Proof.
  intros h m a H. unfold FieldsV1_DeepCopyInto. apply runs_bind.
  eapply runs_field; [apply copies_elements|exact H|]. intros raw f' _ Hraw. by apply runs_ret.
Qed.
Hint Resolve copies_fields : copies.
Lemma copies_managed : copies managed_rep ManagedFieldsEntry_DeepCopyInto.
Proof. unfold managed_rep, ManagedFieldsEntry_DeepCopyInto. copy_fields. Qed.
Hint Resolve copies_managed : copies.
Lemma copies_meta : copies meta_rep (ObjectMeta_DeepCopyInto choices).
Proof. unfold meta_rep, ObjectMeta_DeepCopyInto. copy_fields. Qed.
Lemma copies_list_meta : copies list_meta_rep ListMeta_DeepCopyInto.
Proof. unfold list_meta_rep, ListMeta_DeepCopyInto. copy_fields. Qed.
Lemma copies_aws : copies aws_rep AWSMetadata_DeepCopyInto.
Proof. unfold aws_rep, AWSMetadata_DeepCopyInto. copy_fields. Qed.
Lemma copies_azure : copies azure_rep AzureMetadata_DeepCopyInto.
Proof. unfold azure_rep, AzureMetadata_DeepCopyInto. copy_fields. Qed.
Lemma copies_gcp : copies gcp_rep GCPMetadata_DeepCopyInto.
Proof. unfold gcp_rep, GCPMetadata_DeepCopyInto. copy_fields. Qed.
Hint Resolve copies_aws copies_azure copies_gcp : copies.
Lemma copies_platform : copies platform_rep ClusterPlatformMetadata_DeepCopyInto.
Proof. unfold platform_rep, ClusterPlatformMetadata_DeepCopyInto. copy_fields. Qed.
Hint Resolve copies_platform : copies.
Lemma copies_metadata : copies metadata_rep ClusterMetadata_DeepCopyInto.
Proof. unfold metadata_rep, ClusterMetadata_DeepCopyInto. copy_fields. Qed.
Lemma copies_mirrors : copies mirrors_rep ImageDigestMirrors_DeepCopyInto.
Proof. unfold mirrors_rep, ImageDigestMirrors_DeepCopyInto. copy_fields. Qed.
Hint Resolve copies_meta copies_list_meta copies_metadata copies_mirrors : copies.

Lemma copies_spec : copies spec_rep ImageClusterInstallSpec_DeepCopyInto.
Proof. unfold spec_rep, ImageClusterInstallSpec_DeepCopyInto. copy_fields. Qed.
Lemma copies_status : copies status_rep ImageClusterInstallStatus_DeepCopyInto.
Proof. unfold status_rep, ImageClusterInstallStatus_DeepCopyInto. copy_fields. Qed.
Hint Resolve copies_spec copies_status : copies.

Lemma copies_ici : copies ici_rep (ImageClusterInstall_DeepCopyInto choices).
Proof. unfold ici_rep, ImageClusterInstall_DeepCopyInto. copy_fields. Qed.
Hint Resolve copies_ici : copies.
Lemma copies_list : copies list_rep (ImageClusterInstallList_DeepCopyInto choices).
Proof. unfold list_rep, ImageClusterInstallList_DeepCopyInto. copy_fields. Qed.

(** A copying function does what a deep copy should: nil for nil; otherwise it does
    not panic, it only adds cells, the copy is the same value and stays so as long
    as the new cells stay, and the original is the same value as long as the old
    cells stay.  So a write to either is never seen in the other. *)
Definition deep_copy {M A} `{Storable (cell := cell) M} (r : rep M A) (copy : pointer → GoM pointer) : Prop :=
  copy None = ret None ∧
  ∀ h l a, load (pointer_rep r) h (Some l) = Some (Some a) →
    ∃ l' new, copy (Some l) h = Some (Some l', new ∪ h) ∧ new ##ₘ h ∧
      (∀ h', new ⊆ h' → load (pointer_rep r) h' (Some l') = Some (Some a)) ∧
      (∀ h', h ⊆ h' → load (pointer_rep r) h' (Some l) = Some (Some a)).

Lemma deep_copy_of {M A} `{Storable (cell := cell) M} (r : rep M A) into :
  copies r into → deep_copy r (DeepCopy_of into).
Proof.
  intros Hc. split; [done|]. intros h l a Hl.
  destruct (copies_pointer r into Hc h _ _ Hl (map_disjoint_empty_l _)) as (p&g&Hrun&Hg&Hp).
  rewrite (left_id_L ∅ (∪)) in Hrun. destruct p as [l'|]; [|discriminate Hp].
  exists l', g. split_and!; [done|done|intros h' Hh'; by eapply load_mono|intros h' Hh'; by eapply load_mono].
Qed.

(** C33: the generated copies are deep copies.  For each of the types of this API,
    [DeepCopy] of a nil pointer is nil; of a pointer to a complete value it never
    panics, allocates only new memory, and gives a pointer to an equal value that
    lives in the new memory alone, so that no later write to the original, nor to
    what the original refers to, changes the copy, and no write to the copy changes
    the original.  [DeepCopyObject] wraps exactly the pointer that [DeepCopy] gives,
    and is the nil object, not a typed nil pointer, for nil. *)
Theorem generated_copies_are_deep :
  deep_copy (M := BareMetalHostReference) value_rep BareMetalHostReference_DeepCopy ∧
  deep_copy (M := string) value_rep MachineNetworkEntry_DeepCopy ∧
  deep_copy (M := Proxy) value_rep Proxy_DeepCopy ∧
  deep_copy spec_rep ImageClusterInstallSpec_DeepCopy ∧
  deep_copy status_rep ImageClusterInstallStatus_DeepCopy ∧
  deep_copy ici_rep (ImageClusterInstall_DeepCopy choices) ∧
  deep_copy list_rep (ImageClusterInstallList_DeepCopy choices) ∧
  (∀ p h, ImageClusterInstall_DeepCopyObject choices p h =
     match ImageClusterInstall_DeepCopy choices p h with
     | Some (q, h') => Some (ImageClusterInstallObject <$> q, h') | None => None end) ∧
  (∀ p h, ImageClusterInstallList_DeepCopyObject choices p h =
     match ImageClusterInstallList_DeepCopy choices p h with
     | Some (q, h') => Some (ImageClusterInstallListObject <$> q, h') | None => None end).
Proof.
  refine (conj (deep_copy_of _ _ copies_ret) (conj (deep_copy_of _ _ copies_ret) (conj (deep_copy_of _ _ copies_ret)
    (conj (deep_copy_of _ _ copies_spec) (conj (deep_copy_of _ _ copies_status) (conj (deep_copy_of _ _ copies_ici)
    (conj (deep_copy_of _ _ copies_list) (conj _ _)))))))).
  - intros p h. unfold ImageClusterInstall_DeepCopyObject, bind. by destruct (ImageClusterInstall_DeepCopy _ _ _) as [[[]]|].
  - intros p h. unfold ImageClusterInstallList_DeepCopyObject, bind. by destruct (ImageClusterInstallList_DeepCopy _ _ _) as [[[]]|].
Qed.
End properties.
End DeepCopy.
