(* ===== verification/World.v ===== *)
(** * The environment of the operator

    Every interaction with code outside the repository is a [call]: requests to
    the Kubernetes API (through the manager's cached client, the uncached API
    reader, or the client of the installed "spoke" cluster), system calls,
    the clock, random sources, the openshift installer's asset store and the
    scheme lookup.  The answers are unconstrained: errors, stale reads, lost
    races and concurrent writers are all among them.

    [Patch]-like calls carry the object before the in-memory change (the
    argument of [client.MergeFrom]) and after it; a successful answer is the
    content of the object after the client has decoded the response into it. *)
From stdpp Require Import base gmap strings list.
From Stdlib Require Import ZArith.
From S2P Require Import Prelude Types.

(** The client a secret is read with: the cached client of the manager only
    holds labelled secrets, the API reader sees all of them. *)
Inductive client := CachedClient | NoncachedClient.

(** Field selector of a list request: [.spec.bareMetalHostRef.{name,namespace}]. *)
Inductive listfilter := AllICIs | ByBareMetalHost (name namespace : string).

(** What [os.Stat] tells apart. *)
Inductive stat_answer := StatOk | StatNotExist (e : goerror) | StatError (e : goerror).

(** [configimage.ClusterConfiguration]: the file name of the asset and the seed
    reconfiguration; the fields this program does not name are [sr_Rest]. *)
Record SeedReconfiguration := mkSeedReconfiguration {
  sr_BaseDomain : string;
  sr_ClusterName : string;
  sr_ClusterID : string;
  sr_InfraID : string;
  sr_KubeadminPasswordHash : string;
  sr_KubeconfigCryptoRetention : string;
  sr_Rest : string;
}.
Record ClusterConfiguration := mkClusterConfiguration {
  ccfg_Filename : string;
  ccfg_Config : SeedReconfiguration;
}.

(** [schema.GroupVersionKind]. *)
Record GVK := mkGVK { gvk_GroupVersion : string; gvk_Kind : string }.

Inductive call :=
(* the hub cluster *)
| GetICI (key : NamespacedName)
| GetBMH (key : NamespacedName)
| GetDataImage (key : NamespacedName)
| GetCD (key : NamespacedName)
| GetClusterImageSet (key : NamespacedName)
| GetConfigMap (key : NamespacedName)
| GetSecret (c : client) (key : NamespacedName)
| ListICI (f : listfilter)
| PatchICI (orig new : ImageClusterInstall)
| StatusPatchICI (orig new : ImageClusterInstall)
| StatusUpdateICI (new : ImageClusterInstall)
| PatchBMH (orig new : BareMetalHost)
| PatchConfigMap (orig new : ConfigMap)
| PatchSecret (orig new : Secret)
| CreateSecret (new : Secret)
| UpdateSecret (new : Secret)
| CreateDataImage (new : DataImage)
| DeleteDataImage (d : DataImage)
| GVKForObject (type_name : string)
(* the spoke cluster, reached with a kubeconfig *)
| NewClientConfigFromBytes (kubeconfig : string)
| ClientConfig (kubeconfig : string)
| NewSpokeClient (kubeconfig : string)
| SpokeGetConfigMap (kubeconfig : string) (key : NamespacedName)
| SpokeGetClusterVersion (kubeconfig : string) (name : string)
| SpokeListNodes (kubeconfig : string)
(* the operating system *)
| OsStat (path : string)
| OsMkdirAll (path : string) (mode : Z)
| OsRemoveAll (path : string)
| OsWriteFile (path data : string) (mode : Z)
| OsReadFile (path : string)
| OsMkdirTemp (dir pattern : string)
| FlockTryLock (path : string)
| FlockTryRLock (path : string)
| FlockUnlock (path : string)
| TimeNow
| MapRange
(* random sources *)
| NewUUID
| RandString (n : nat)
(* the installer's asset store *)
| FetchAndPersist (dir : string)
| NewStore (dir : string)
| FetchClusterConfiguration (dir : string)
| FetchImageBasedAdminClient (dir : string)
| FetchKubeadminPassword (dir : string).

Definition answer (a : call) : Type :=
  match a with
  | GetICI _ => result ImageClusterInstall
  | GetBMH _ => result BareMetalHost
  | GetDataImage _ => result DataImage
  | GetCD _ => result ClusterDeployment
  | GetClusterImageSet _ => result ClusterImageSet
  | GetConfigMap _ => result ConfigMap
  | GetSecret _ _ => result Secret
  | ListICI _ => result (list ImageClusterInstall)
  | PatchICI _ _ | StatusPatchICI _ _ | StatusUpdateICI _ => result ImageClusterInstall
  | PatchBMH _ _ => result BareMetalHost
  | PatchConfigMap _ _ => result ConfigMap
  | PatchSecret _ _ | CreateSecret _ | UpdateSecret _ => result Secret
  | CreateDataImage _ => result DataImage
  | DeleteDataImage _ => option goerror
  | GVKForObject _ => result GVK
  | NewClientConfigFromBytes _ | ClientConfig _ | NewSpokeClient _ => option goerror
  | SpokeGetConfigMap _ _ => result ConfigMap
  | SpokeGetClusterVersion _ _ => result (list ClusterOperatorStatusCondition)
  | SpokeListNodes _ => result (list Node)
  | OsStat _ => stat_answer
  | OsMkdirAll _ _ | OsRemoveAll _ | OsWriteFile _ _ _ => option goerror
  | OsReadFile _ | OsMkdirTemp _ _ => result string
  | FlockTryLock _ | FlockTryRLock _ => result bool
  | FlockUnlock _ => option goerror
  | TimeNow => time
  | MapRange => list nat
  | NewUUID => string
  | RandString _ => string
  | FetchAndPersist _ | NewStore _ => option goerror
  | FetchClusterConfiguration _ => result ClusterConfiguration
  | FetchImageBasedAdminClient _ | FetchKubeadminPassword _ => result string
  end.

Lemma answer_inhabited a : inhabited (answer a).
Proof.
  destruct a; constructor; first [exact None | exact (Err (ErrNew "")) | exact StatOk | exact 0%Z | exact [] | exact ""].
Qed.

(** Programs of the operator, and what they did. *)
Abbreviation io := (prog answer).
Abbreviation trace := (list (event answer)).

(** [os.IsNotExist] tells absence from other failures; a successful stat is [StatOk]. *)
Definition stat_ok (s : stat_answer) : bool :=
  match s with StatOk => true | _ => false end.

(** Calls that change the state of the hub cluster. *)
Definition hub_write (a : call) : bool :=
  match a with
  | PatchICI _ _ | StatusPatchICI _ _ | StatusUpdateICI _ | PatchBMH _ _
  | PatchConfigMap _ _ | PatchSecret _ _ | CreateSecret _ | UpdateSecret _
  | CreateDataImage _ | DeleteDataImage _ => true
  | _ => false
  end.

(** Calls that change the file system. *)
Definition fs_write (a : call) : bool :=
  match a with
  | OsMkdirAll _ _ | OsRemoveAll _ | OsWriteFile _ _ _ | OsMkdirTemp _ _
  | FetchAndPersist _ => true
  | _ => false
  end.

(** The key of an object, as [client.ObjectKeyFromObject]. *)
Definition meta_key (m : ObjectMeta) : NamespacedName :=
  mkKey (om_Namespace m) (om_Name m).

(** ** The ImageClusterInstall a run works on *)

(** The object the client decoded from an answer. *)
Definition ici_answer (ev : event answer) : option ImageClusterInstall :=
  match ev with
  | Ev a x =>
      match a return answer a → option ImageClusterInstall with
      | GetICI _ | PatchICI _ _ | StatusPatchICI _ _ =>
          λ x, match x with Ok i => Some i | Err _ => None end
      | _ => λ _, None
      end x
  end.

(** A condition of type [ty] is claimed to be true. *)
Definition claims (ty : ConditionType) (i : ImageClusterInstall) : Prop :=
  ∃ c, c ∈ Conditions (ici_Status i) ∧ c_Type c = ty ∧ c_Status c = ConditionTrue.

(** [i] is [j] up to what the reconciler changes in memory: it has the same key
    and UID and the same specification but for the cluster's metadata, claims nothing that [j] does not claim but RequirementsMet, and
    repeats a condition type only if [j] does. *)
Definition similar (i j : ImageClusterInstall) : Prop :=
  meta_key (ici_Meta i) = meta_key (ici_Meta j) ∧ om_UID (ici_Meta i) = om_UID (ici_Meta j) ∧
  set_Spec_ClusterMetadata_spec None (ici_Spec i) = set_Spec_ClusterMetadata_spec None (ici_Spec j) ∧
  (∀ ty, ty ≠ ClusterInstallRequirementsMet → claims ty i → claims ty j) ∧
  (NoDup (c_Type <$> Conditions (ici_Status j)) → NoDup (c_Type <$> Conditions (ici_Status i))).

#[export] Instance similar_preorder : PreOrder similar.
Proof.
  split; [by intros i|]. intros i j k (?&?&?&Hij&?) (?&?&?&Hjk&?).
  split_and!; [congruence..| |auto]. intros ty ? ?. auto.
Qed.

(** Objects that differ in other fields only are similar. *)
Lemma similar_conditions i j :
  meta_key (ici_Meta i) = meta_key (ici_Meta j) → om_UID (ici_Meta i) = om_UID (ici_Meta j) →
  set_Spec_ClusterMetadata_spec None (ici_Spec i) = set_Spec_ClusterMetadata_spec None (ici_Spec j) →
  Conditions (ici_Status i) = Conditions (ici_Status j) → similar i j.
Proof. unfold similar, claims. intros ??? ->. done. Qed.

(** [i] is similar to an object that was decoded before. *)
Definition known (i : ImageClusterInstall) (h : trace) : Prop :=
  ∃ j ev, ev ∈ h ∧ ici_answer ev = Some j ∧ similar i j.

Lemma known_decoded ev i h : ev ∈ h → ici_answer ev = Some i → known i h.
Proof. intros ??. by exists i, ev. Qed.

Lemma known_app i h t : known i h → known i (h ++ t).
Proof. intros (j&ev&?&?&?). exists j, ev. split; [hist|done]. Qed.

Lemma known_similar i i' h : similar i' i → known i h → known i' h.
Proof. intros Hs (j&ev&?&?&?). exists j, ev. split_and!; [done..|]. by etrans. Qed.

(** The object in the memory of a run that starts with [i]: every decoded answer
    overwrites it. *)
Definition held (i : ImageClusterInstall) (t : trace) : ImageClusterInstall :=
  fold_left (λ j ev, default j (ici_answer ev)) t i.

(** [i'] is that object, up to changes of the specification and of the other
    fields of the status. *)
Definition holds (i : ImageClusterInstall) (t : trace) (i' : ImageClusterInstall) : Prop :=
  ici_Meta i' = ici_Meta (held i t) ∧
  Conditions (ici_Status i') = Conditions (ici_Status (held i t)).

Definition answers_ici (a : call) : bool :=
  match a with GetICI _ | PatchICI _ _ | StatusPatchICI _ _ => true | _ => false end.

Lemma held_app i t1 t2 : held i (t1 ++ t2) = held (held i t1) t2.
Proof. apply fold_left_app. Qed.

Lemma holds_app i t1 i1 t2 i2 : holds i t1 i1 → holds i1 t2 i2 → holds i (t1 ++ t2) i2.
Proof.
  unfold holds. rewrite held_app. intros [Hm1 Hc1] [-> ->]. revert i1 Hm1 Hc1.
  generalize (held i t1). induction t2 as [|ev t2 IH]; intros j i1 Hm Hc; [done|].
  cbn [held fold_left]. destruct (ici_answer ev); [done|by apply IH].
Qed.

Lemma held_quiet i t : Forall (λ ev, answers_ici (ev_call ev) = false) t → held i t = i.
Proof.
  induction 1 as [|[a x] t Ha _ IH]; [done|]. cbn [held fold_left]. by destruct a.
Qed.

Lemma exec_quiet {R} (p : io R) t r i :
  emits (λ a, answers_ici a = false) p → exec p t r → held i t = i.
Proof. intros Hp He. by eapply held_quiet, (emits_exec (λ a, answers_ici a = false)). Qed.

(** A program proved under a guard that allows no such call. *)
Lemma exec_guarded {R} G (p : io R) h Q t r i :
  wp G p h Q → (∀ h a, G h a → answers_ici a = false) → exec p t r → held i t = i.
Proof.
  intros Hw HG He. apply held_quiet, Forall_forall. intros ev (t1&t2&Ht)%list_elem_of_split.
  destruct (wp_exec _ _ _ _ _ _ Hw He) as [_ Hg]. by eapply HG, Hg.
Qed.

(** ** The host of an installation *)

Definition bmh_key (ref : BareMetalHostReference) : NamespacedName :=
  mkKey (bmhref_Namespace ref) (bmhref_Name ref).

(** [b] was read under the key [k], or is the answer to a patch of such a host. *)
Inductive host_from (k : NamespacedName) (h : trace) : BareMetalHost → Prop :=
| from_get b : Ev (answer := answer) (GetBMH k) (Ok b) ∈ h → host_from k h b
| from_patch p n b : host_from k h p → Ev (answer := answer) (PatchBMH p n) (Ok b) ∈ h → host_from k h b.

Lemma host_from_app k h t b : host_from k h b → host_from k (h ++ t) b.
Proof. induction 1 as [|p n b _ IH]; [apply from_get; hist|apply (from_patch _ _ p n b); [done|hist]]. Qed.

(** [b] is the host that an object known to the run refers to. *)
Definition host_known (b : BareMetalHost) (h : trace) : Prop :=
  ∃ i ref, known i h ∧ Spec_BareMetalHostRef (ici_Spec i) = Some ref ∧ host_from (bmh_key ref) h b.

Lemma host_known_app b h t : host_known b h → host_known b (h ++ t).
Proof.
  intros (i&ref&?&?&?). exists i, ref. split_and!; [by apply known_app|done|by apply host_from_app].
Qed.

Lemma host_known_patch p n b h : host_known p h → Ev (answer := answer) (PatchBMH p n) (Ok b) ∈ h → host_known b h.
Proof. intros (i&ref&?&?&?) ?. exists i, ref. split_and!; [done..|]. by eapply from_patch. Qed.
