(* ===== verification/GoStd.v ===== *)
(** * The parts of Go's standard library the operator uses

    Byte-level models of [strings] and [path/filepath]; Go strings are byte
    strings, so [string] with its [ascii] characters as bytes. *)
From stdpp Require Import base gmap strings list.
From Stdlib Require Import ZArith Lia Ascii.
From S2P Require Import Prelude.
Local Open Scope string_scope.

(** ** package strings *)

Abbreviation bytes_of := String.list_ascii_of_string.
Abbreviation of_bytes := String.string_of_list_ascii.

(** [strings.Split(s, c)] for a one-byte separator; never empty. *)
Fixpoint split_bytes (c : ascii) (s : list ascii) : list (list ascii) :=
  match s with
  | [] => [[]]
  | x :: s' =>
      if bool_decide (x = c) then [] :: split_bytes c s'
      else match split_bytes c s' with
           | [] => [[x]]
           | w :: ws => (x :: w) :: ws
           end
  end.
Definition strings_Split (s : string) (c : ascii) : list string :=
  of_bytes <$> split_bytes c (bytes_of s).

(** [strings.Join]. *)
Fixpoint strings_Join (l : list string) (sep : string) : string :=
  match l with
  | [] => ""
  | [x] => x
  | x :: xs => x +:+ sep +:+ strings_Join xs sep
  end.

(** [strings.TrimRight(s, "c")]. *)
Fixpoint drop_leading (c : ascii) (s : list ascii) : list ascii :=
  match s with
  | [] => []
  | x :: s' => if bool_decide (x = c) then drop_leading c s' else s
  end.
Definition trim_right_bytes (c : ascii) (s : list ascii) : list ascii :=
  reverse (drop_leading c (reverse s)).

(** The UTF-8 encodings of the code points [unicode.IsSpace] accepts. *)
Definition space_runes : list (list ascii) :=
  let b := ascii_of_nat in
  (((λ n, [b n]) <$> [9; 10; 11; 12; 13; 32]) ++
  [[b 194; b 133]; [b 194; b 160]; [b 225; b 154; b 128]] ++
  ((λ n, [b 226; b 128; b n]) <$> [128; 129; 130; 131; 132; 133; 134; 135; 136; 137; 138; 168; 169; 175]) ++
  [[b 226; b 129; b 159]; [b 227; b 128; b 128]])%list.

(** Drops one of the words [ws] from the front. *)
Fixpoint strip_word (ws : list (list ascii)) (s : list ascii) : option (list ascii) :=
  match ws with
  | [] => None
  | w :: ws' => if bool_decide (take (length w) s = w) then Some (drop (length w) s)
                else strip_word ws' s
  end.
Fixpoint strip_words (fuel : nat) (ws : list (list ascii)) (s : list ascii) : list ascii :=
  match fuel with
  | O => s
  | S fuel' => match strip_word ws s with None => s | Some s' => strip_words fuel' ws s' end
  end.

(** [strings.TrimSpace]. *)
Definition strings_TrimSpace (s : string) : string :=
  let bs := bytes_of s in
  let l := strip_words (length bs) space_runes bs in
  of_bytes (reverse (strip_words (length l) (reverse <$> space_runes) (reverse l))).

(** ** package path/filepath (Unix) *)

(** The element stack of [filepath.Clean], innermost first. *)
Fixpoint clean_elems (rooted : bool) (elems : list string) (stack : list string) : list string :=
  match elems with
  | [] => stack
  | e :: es =>
      if bool_decide (e = "") || bool_decide (e = ".") then clean_elems rooted es stack
      else if bool_decide (e = "..") then
        match stack with
        | top :: stack' =>
            if bool_decide (top = "..") then clean_elems rooted es (e :: stack)
            else clean_elems rooted es stack'
        | [] => clean_elems rooted es (if rooted then [] else [e])
        end
      else clean_elems rooted es (e :: stack)
  end.

Definition is_rooted (path : string) : bool :=
  match path with String c _ => bool_decide (c = "/"%char) | EmptyString => false end.

Definition filepath_Clean (path : string) : string :=
  let body := strings_Join (reverse (clean_elems (is_rooted path) (strings_Split path "/"%char) [])) "/" in
  if is_rooted path then "/" +:+ body
  else if bool_decide (body = "") then "." else body.

(** [filepath.Join]: leading empty elements are skipped. *)
Fixpoint filepath_Join (elems : list string) : string :=
  match elems with
  | [] => ""
  | e :: es => if bool_decide (e = "") then filepath_Join es
               else filepath_Clean (strings_Join elems "/")
  end.

Arguments filepath_Clean : simpl never.
Arguments filepath_Join : simpl never.

(** [filepath.Dir]: everything up to the last separator, cleaned. *)
Definition filepath_Dir (path : string) : string :=
  let elems := strings_Split path "/"%char in
  match removelast elems with
  | [] => "."
  | ds => filepath_Clean (strings_Join ds "/" +:+ "/")
  end.

(** ** Lemmas *)

Lemma split_bytes_nonempty c s : split_bytes c s ≠ [].
Proof. destruct s as [|x s]; simpl; [done|]. case_bool_decide; [done|]. by destruct (split_bytes c s). Qed.

Lemma split_bytes_one c s : length (split_bytes c s) = 1 ↔ c ∉ s.
Proof.
  induction s as [|x s IH]; simpl; [rewrite elem_of_nil; tauto|]. rewrite elem_of_cons.
  pose proof (split_bytes_nonempty c s). case_bool_decide; simpl.
  - subst. destruct (split_bytes c s); [done|]. simpl. split; [done|tauto].
  - destruct (split_bytes c s); [done|]. simpl in *. rewrite IH. intuition congruence.
Qed.

(** A text splits into two parts exactly when it holds the separator once. *)
Lemma split_bytes_two c s :
  length (split_bytes c s) = 2 ↔ ∃ u p, s = (u ++ c :: p)%list ∧ (c ∉ u) ∧ (c ∉ p).
Proof.
  induction s as [|x s IH]; simpl.
  - split; [done|]. by intros ([|??]&?&[=]&_).
  - pose proof (split_bytes_nonempty c s). case_bool_decide as Hx; simpl.
    + subst.
      change (S (length (split_bytes c s)) = 2) with (S (length (split_bytes c s)) = S 1).
      rewrite Nat.succ_inj_wd, split_bytes_one. split.
      * intros ?. exists [], s. split_and!; [done|apply not_elem_of_nil|done].
      * intros ([|y u]&p&[= Heq]&Hu&Hp); [by subst|]. subst. exfalso. apply Hu. apply list_elem_of_here.
    + destruct (split_bytes c s) as [|w ws]; [done|]. simpl in *. rewrite IH. split.
      * intros (u&p&->&?&?). exists (x :: u), p. split_and!; [done| |done].
        rewrite elem_of_cons. intuition congruence.
      * intros ([|y u]&p&[= Heq]&Hu&Hp); [congruence|]. subst. exists u, p.
        rewrite elem_of_cons in Hu. split_and!; [done|tauto|done].
Qed.

(** *** Trimming *)

Lemma strip_word_head ws c s :
  forallb (λ w, match w with [] => false | x :: _ => negb (bool_decide (x = c)) end) ws = true →
  strip_word ws (c :: s) = None.
Proof.
  induction ws as [|[|x w] ws IH]; [done|done|]. cbn [forallb]. intros [Hx Hws]%andb_prop.
  cbn [strip_word length take]. apply negb_true_iff, bool_decide_eq_false_1 in Hx.
  rewrite bool_decide_eq_false_2 by congruence. by apply IH.
Qed.

Lemma strip_word_shorter ws s s' :
  (∀ w, w ∈ ws → w ≠ []) → strip_word ws s = Some s' → (length s' < length s)%nat.
Proof.
  induction ws as [|w ws IH]; intros Hws; cbn [strip_word]; [done|]. case_bool_decide as Hw.
  - intros [= <-]. pose proof (Hws w (list_elem_of_here _ _)). rewrite length_drop.
    destruct w as [|c w]; [done|]. destruct s; [by rewrite take_nil in Hw|]. simpl. lia.
  - apply IH. intros w' ?. apply Hws. by right.
Qed.

(** More fuel than the length of the text changes nothing. *)
Lemma strip_words_fuel ws f g s :
  (∀ w, w ∈ ws → w ≠ []) → (length s ≤ f)%nat → (length s ≤ g)%nat → strip_words f ws s = strip_words g ws s.
Proof.
  intros Hws. assert (Hnil : ∀ n, strip_words n ws [] = []).
  { intros [|n]; [done|]. cbn [strip_words]. destruct (strip_word ws []) eqn:H; [|done].
    apply strip_word_shorter in H; [simpl in H; lia|done]. }
  revert g s. induction f as [|f IH]; intros [|g] [|c s] Hf Hg; rewrite ?Hnil; simpl in Hf, Hg; try done; try lia.
  cbn [strip_words]. destruct (strip_word ws (c :: s)) as [s'|] eqn:H; [|done].
  apply strip_word_shorter in H; [|done]. simpl in H. apply IH; lia.
Qed.

(** A text in braces has nothing to trim. *)
Lemma TrimSpace_braces s :
  strings_TrimSpace (of_bytes ("{"%char :: s ++ ["}"%char])) = of_bytes ("{"%char :: s ++ ["}"%char]).
Proof.
  unfold strings_TrimSpace. rewrite String.list_ascii_of_string_of_list_ascii.
  assert (H : ∀ n ws c s, forallb (λ w, match w with [] => false | x :: _ => negb (bool_decide (x = c)) end) ws = true →
    strip_words n ws (c :: s) = c :: s).
  { intros [|n] ws c s' Hws; [done|]. cbn [strip_words]. by rewrite strip_word_head. }
  rewrite H by done. set (l := "{"%char :: _). assert (Hl : reverse l = "}"%char :: reverse s ++ ["{"%char]).
  { unfold l. by rewrite reverse_cons, reverse_snoc. }
  rewrite Hl, H by done. by rewrite <- Hl, reverse_involutive.
Qed.

(** *** Paths *)

Definition slash_free (e : string) : Prop := "/"%char ∉ bytes_of e.
Definition path_elems (p : string) : list string := strings_Split p "/"%char.

Lemma bytes_of_app a b : bytes_of (a +:+ b) = (bytes_of a ++ bytes_of b)%list.
Proof.
  induction a as [|c a IH]; [done|].
  change (String c a +:+ b) with (String c (a +:+ b)). simpl. by rewrite IH.
Qed.

Lemma bytes_of_inj a b : bytes_of a = bytes_of b → a = b.
Proof.
  intros H. rewrite <- (String.string_of_list_ascii_of_string a), H.
  apply String.string_of_list_ascii_of_string.
Qed.

Lemma of_bytes_app a b : of_bytes (a ++ b)%list = of_bytes a +:+ of_bytes b.
Proof.
  apply bytes_of_inj. by rewrite bytes_of_app, !String.list_ascii_of_string_of_list_ascii.
Qed.

Lemma split_bytes_app c a b :
  split_bytes c (a ++ c :: b)%list = (split_bytes c a ++ split_bytes c b)%list.
Proof.
  induction a as [|x a IH]; simpl; [by rewrite bool_decide_eq_true_2|].
  case_bool_decide; [by rewrite IH|]. rewrite IH.
  pose proof (split_bytes_nonempty c a). by destruct (split_bytes c a).
Qed.

Lemma split_bytes_free c s : c ∉ s → split_bytes c s = [s].
Proof.
  induction s as [|x s IH]; simpl; [done|]. rewrite not_elem_of_cons. intros [Hx Hs].
  rewrite bool_decide_eq_false_2 by congruence. by rewrite IH.
Qed.

Lemma split_bytes_elems c s : Forall (λ w, c ∉ w) (split_bytes c s).
Proof.
  induction s as [|x s IH]; simpl; [by constructor; [apply not_elem_of_nil|]|].
  case_bool_decide; [constructor; [apply not_elem_of_nil|done]|].
  destruct (split_bytes c s) as [|w ws]; [constructor; [|done]; apply not_elem_of_cons; split; [congruence|apply not_elem_of_nil]|].
  inversion IH; subst. constructor; [|done]. apply not_elem_of_cons. split; [congruence|done].
Qed.

Lemma path_elems_app a b : path_elems (a +:+ "/" +:+ b) = (path_elems a ++ path_elems b)%list.
Proof.
  unfold path_elems, strings_Split. rewrite !bytes_of_app. simpl.
  by rewrite split_bytes_app, fmap_app.
Qed.

Lemma path_elems_free e : slash_free e → path_elems e = [e].
Proof.
  intros H. unfold path_elems, strings_Split. rewrite split_bytes_free by done. simpl.
  by rewrite String.string_of_list_ascii_of_string.
Qed.

Lemma path_elems_slash_free p : Forall slash_free (path_elems p).
Proof.
  unfold path_elems, strings_Split. apply Forall_fmap. eapply Forall_impl; [apply split_bytes_elems|].
  intros w Hw. unfold compose, slash_free. by rewrite String.list_ascii_of_string_of_list_ascii.
Qed.

Lemma strings_Join_cons x l sep :
  l ≠ [] → strings_Join (x :: l) sep = x +:+ sep +:+ strings_Join l sep.
Proof. by destruct l. Qed.

Lemma string_app_assoc (a b c : string) : (a +:+ b) +:+ c = a +:+ b +:+ c.
Proof.
  apply bytes_of_inj. by rewrite !bytes_of_app, app_assoc.
Qed.

Lemma strings_Join_app x l m sep :
  m ≠ [] → strings_Join (x :: l ++ m)%list sep = strings_Join (x :: l) sep +:+ sep +:+ strings_Join m sep.
Proof.
  intros Hm. revert x. induction l as [|y l IH]; intros x.
  - by rewrite (strings_Join_cons x m).
  - rewrite !strings_Join_cons by done. change ((y :: l) ++ m)%list with (y :: l ++ m)%list.
    by rewrite IH, !string_app_assoc.
Qed.

Lemma path_elems_join l : l ≠ [] → Forall slash_free l → path_elems (strings_Join l "/") = l.
Proof.
  intros Hne Hl. induction Hl as [|x l Hx Hl IH]; [done|]. destruct l as [|y l].
  - by apply path_elems_free.
  - rewrite strings_Join_cons, path_elems_app, path_elems_free, IH by done. done.
Qed.

Lemma clean_elems_app r xs ys st :
  clean_elems r (xs ++ ys)%list st = clean_elems r ys (clean_elems r xs st).
Proof.
  revert st. induction xs as [|e xs IH]; intros st; [done|]. cbn [app clean_elems].
  repeat case_match; apply IH.
Qed.

(** Stacks that [Clean] leaves as they are. *)
Definition clean_stack (r : bool) (st : list string) : Prop :=
  clean_elems r (reverse st) [] = st ∧ Forall (λ e, e ≠ "" ∧ e ≠ "." ∧ slash_free e) st.

Lemma clean_stack_push r e st :
  clean_stack r st → clean_elems r [e] st = e :: st → e ≠ "" → e ≠ "." → slash_free e →
  clean_stack r (e :: st).
Proof.
  intros [Hst Hall] He ???. split; [|by constructor].
  by rewrite reverse_cons, clean_elems_app, Hst.
Qed.

Lemma clean_stack_pop r e st :
  clean_stack r (e :: st) → e ≠ ".." → clean_stack r st.
Proof.
  intros [Hst Hall] Hd. apply Forall_cons in Hall as [(?&?&_) Hall]. split; [|done].
  rewrite reverse_cons, clean_elems_app in Hst. cbn [clean_elems] in Hst.
  rewrite !bool_decide_eq_false_2 in Hst by done. cbn [orb] in Hst. congruence.
Qed.

Lemma clean_elems_stack r es st :
  Forall slash_free es → clean_stack r st → clean_stack r (clean_elems r es st).
Proof.
  intros Hes. revert st. induction Hes as [|e es He Hes IH]; intros st Hst; [done|]. cbn [clean_elems].
  destruct (_ || _) eqn:Hskip; [by apply IH|]. bools. case_bool_decide as Hdd.
  - subst. destruct st as [|top st].
    + apply IH. destruct r; [done|]. split; [done|]. by constructor.
    + case_bool_decide as Htop; [|apply IH; by eapply clean_stack_pop].
      apply IH, clean_stack_push; try done. subst. done.
  - apply IH, clean_stack_push; try done. cbn [clean_elems].
    by rewrite !bool_decide_eq_false_2 by done.
Qed.

(** The element stack of a path, and [Clean] as its rendering. *)
Definition path_stack (p : string) : list string := clean_elems (is_rooted p) (path_elems p) [].

Lemma path_stack_clean p : clean_stack (is_rooted p) (path_stack p).
Proof. apply clean_elems_stack; [apply path_elems_slash_free|]. split; [done|constructor]. Qed.

Lemma is_rooted_app a b : a ≠ "" → is_rooted (a +:+ b) = is_rooted a.
Proof. by destruct a. Qed.

Lemma is_rooted_free e : e ≠ "" → slash_free e → is_rooted e = false.
Proof.
  destruct e as [|c e]; [done|]. unfold slash_free. simpl. rewrite not_elem_of_cons.
  intros _ [? _]. by apply bool_decide_eq_false_2.
Qed.

Lemma join_not_rooted l :
  Forall (λ e, e ≠ "" ∧ e ≠ "." ∧ slash_free e) l → is_rooted (strings_Join l "/") = false.
Proof.
  intros [|e l' (?&_&?) Hl]; [done|]. destruct l' as [|y l'']; [by apply is_rooted_free|].
  rewrite strings_Join_cons, is_rooted_app by done. by apply is_rooted_free.
Qed.

Lemma join_nonempty l :
  Forall (λ e, e ≠ "" ∧ e ≠ "." ∧ slash_free e) l → l ≠ [] → strings_Join l "/" ≠ "".
Proof.
  intros [|e l' (?&_&?) Hl]; [done|]. intros _. destruct l' as [|y l'']; [done|].
  rewrite strings_Join_cons by done. by destruct e.
Qed.

Lemma Clean_eq p :
  filepath_Clean p =
  if is_rooted p then "/" +:+ strings_Join (reverse (path_stack p)) "/"
  else if bool_decide (path_stack p = []) then "." else strings_Join (reverse (path_stack p)) "/".
Proof.
  unfold filepath_Clean. fold (path_elems p). fold (path_stack p).
  destruct (is_rooted p) eqn:Hr; [done|]. destruct (path_stack_clean p) as [_ Hall].
  destruct (decide (path_stack p = [])) as [->|Hne]; [done|].
  rewrite (bool_decide_eq_false_2 (path_stack p = [])) by done.
  rewrite bool_decide_eq_false_2; [done|]. apply join_nonempty; [by apply Forall_reverse|].
  intros H. apply Hne. by rewrite <- (reverse_involutive (path_stack p)), H.
Qed.

Lemma Clean_nonempty p : filepath_Clean p ≠ "".
Proof.
  rewrite Clean_eq. destruct (is_rooted p); [done|]. case_bool_decide as Hne; [done|].
  destruct (path_stack_clean p) as [_ Hall]. apply join_nonempty; [by apply Forall_reverse|].
  intros H. apply Hne. by rewrite <- (reverse_involutive (path_stack p)), H.
Qed.

Lemma Clean_rooted p : is_rooted (filepath_Clean p) = is_rooted p.
Proof.
  rewrite Clean_eq. destruct (is_rooted p) eqn:Hr; [done|]. case_bool_decide; [done|].
  apply join_not_rooted. apply Forall_reverse, path_stack_clean.
Qed.

(** Cleaning loses nothing: the cleaned path has the same element stack. *)
Lemma Clean_stack p : clean_elems (is_rooted p) (path_elems (filepath_Clean p)) [] = path_stack p.
Proof.
  destruct (path_stack_clean p) as [Hst Hall]. rewrite Clean_eq.
  assert (Hfree : Forall slash_free (reverse (path_stack p))).
  { apply Forall_reverse. eapply Forall_impl; [exact Hall|]. by intros e (_&_&?). }
  destruct (is_rooted p) eqn:Hr.
  - change ("/" +:+ ?x) with ("" +:+ "/" +:+ strings_Join (reverse (path_stack p)) "/") at 1.
    rewrite path_elems_app. destruct (decide (path_stack p = [])) as [->|Hne]; [done|].
    rewrite path_elems_join; [exact Hst| |done].
    intros H. apply Hne. by rewrite <- (reverse_involutive (path_stack p)), H.
  - case_bool_decide as He; [by rewrite He|]. rewrite path_elems_join; [exact Hst| |done].
    intros H. apply He. by rewrite <- (reverse_involutive (path_stack p)), H.
Qed.

Lemma Clean_ext p q :
  is_rooted p = is_rooted q → path_stack p = path_stack q → filepath_Clean p = filepath_Clean q.
Proof. intros H1 H2. by rewrite !Clean_eq, H1, H2. Qed.

Lemma Clean_idemp p : filepath_Clean (filepath_Clean p) = filepath_Clean p.
Proof.
  apply Clean_ext; [apply Clean_rooted|]. unfold path_stack at 1.
  rewrite Clean_rooted. apply Clean_stack.
Qed.

Lemma Clean_app a b :
  a ≠ "" → filepath_Clean (filepath_Clean a +:+ "/" +:+ b) = filepath_Clean (a +:+ "/" +:+ b).
Proof.
  intros Ha. pose proof (Clean_nonempty a).
  assert (Hr : is_rooted (filepath_Clean a +:+ "/" +:+ b) = is_rooted (a +:+ "/" +:+ b))
    by (rewrite !is_rooted_app by done; apply Clean_rooted).
  apply Clean_ext; [done|]. unfold path_stack. rewrite Hr, !is_rooted_app by done.
  rewrite !path_elems_app, !clean_elems_app. by rewrite Clean_stack.
Qed.

Lemma Join_eq a l : a ≠ "" → filepath_Join (a :: l) = filepath_Clean (strings_Join (a :: l) "/").
Proof. intros Ha. unfold filepath_Join at 1. by rewrite (bool_decide_eq_false_2 (a = "")). Qed.

(** Joining in steps is joining at once. *)
Lemma Join_Join a l m :
  a ≠ "" → m ≠ [] → filepath_Join (filepath_Join (a :: l) :: m) = filepath_Join ((a :: l) ++ m)%list.
Proof.
  intros Ha Hm. rewrite (Join_eq a l) by done. rewrite (Join_eq (filepath_Clean _)) by apply Clean_nonempty.
  change ((a :: l) ++ m)%list with (a :: l ++ m)%list. rewrite (Join_eq a (l ++ m)%list) by done.
  rewrite strings_Join_cons, strings_Join_app by done. apply Clean_app.
  destruct l as [|y l]; [done|]. rewrite strings_Join_cons by done. by destruct a.
Qed.

(** Elements without [..] only extend the path: the elements of a base directory
    are a prefix of those of the joined path. *)
Lemma clean_elems_extends r es st :
  ".." ∉ es → ∃ rest, clean_elems r es st = (rest ++ st)%list ∧ ".." ∉ rest.
Proof.
  revert st. induction es as [|e es IH]; intros st Hes; [by exists []; split; [|apply not_elem_of_nil]|].
  apply not_elem_of_cons in Hes as [He Hes]. cbn [clean_elems].
  destruct (_ || _); [by apply IH|]. rewrite (bool_decide_eq_false_2 (e = "..")) by congruence.
  destruct (IH (e :: st) Hes) as (rest&->&Hrest). exists (rest ++ [e])%list.
  rewrite <- app_assoc. split; [done|]. rewrite elem_of_app, list_elem_of_singleton.
  intros [?|?]; [done|congruence].
Qed.

Lemma Join_extends a m :
  a ≠ "" → m ≠ [] → ".." ∉ path_elems (strings_Join m "/") →
  is_rooted (filepath_Join (a :: m)) = is_rooted a ∧
  ∃ rest, path_stack (filepath_Join (a :: m)) = (rest ++ path_stack a)%list ∧ ".." ∉ rest.
Proof.
  intros Ha Hm Hdd. rewrite Join_eq, strings_Join_cons by done. set (p := a +:+ "/" +:+ strings_Join m "/").
  assert (Hr : is_rooted p = is_rooted a) by (unfold p; by rewrite is_rooted_app).
  split; [by rewrite Clean_rooted|].
  assert (Hs : path_stack (filepath_Clean p) = path_stack p).
  { unfold path_stack at 1. rewrite Clean_rooted. apply Clean_stack. }
  rewrite Hs. unfold path_stack at 1. rewrite Hr. unfold p. rewrite path_elems_app, clean_elems_app.
  by apply clean_elems_extends.
Qed.

(** An element that [Clean] keeps wherever it stands. *)
Definition plain_elem (e : string) : Prop := e ≠ "" ∧ e ≠ "." ∧ e ≠ ".." ∧ slash_free e.

Lemma clean_elems_plain r es st :
  Forall plain_elem es → clean_elems r es st = (reverse es ++ st)%list.
Proof.
  intros Hes. revert st. induction Hes as [|e es (?&?&?&_) _ IH]; intros st; [done|].
  cbn [clean_elems]. rewrite !bool_decide_eq_false_2 by done. cbn [orb].
  by rewrite IH, reverse_cons, <- app_assoc.
Qed.

Lemma Join_plain_stack a m :
  a ≠ "" → m ≠ [] → Forall plain_elem m →
  is_rooted (filepath_Join (a :: m)) = is_rooted a ∧
  path_stack (filepath_Join (a :: m)) = (reverse m ++ path_stack a)%list.
Proof.
  intros Ha Hm Hp. rewrite Join_eq, strings_Join_cons by done. set (p := a +:+ "/" +:+ strings_Join m "/").
  assert (Hr : is_rooted p = is_rooted a) by (unfold p; by rewrite is_rooted_app).
  split; [by rewrite Clean_rooted|].
  unfold path_stack at 1. rewrite Clean_rooted, Clean_stack. unfold path_stack at 1. rewrite Hr. unfold p.
  rewrite path_elems_app, clean_elems_app, path_elems_join; [|done|].
  - by apply clean_elems_plain.
  - eapply Forall_impl; [exact Hp|]. by intros e (_&_&_&?).
Qed.

(** The path [p] is [d] or lies below it, as far as the names tell. *)
Definition path_inside (d p : string) : Prop :=
  is_rooted d = is_rooted p ∧ path_stack d `suffix_of` path_stack p.
#[export] Instance path_inside_dec d p : Decision (path_inside d p).
Proof. unfold path_inside. apply _. Defined.
