(* ===== verification/Codec.v ===== *)
(** * The text formats the operator decodes: base64 and JSON

    [encoding/base64] and the part of [encoding/json] that [json.Unmarshal] uses
    for the pull secret, on byte lists: a parser for JSON texts with Go's
    treatment of escapes, surrogates and invalid UTF-8, and the decoding into
    [imagePullSecret].  The last part proves that what the encoders write is
    decoded again. *)
From stdpp Require Import base gmap strings list.
From Stdlib Require Import ZArith Lia Ascii.
From S2P Require Import Prelude GoStd.
Local Open Scope string_scope.
#[local] Set Warnings "-register-all".

(** ** encoding/base64, [StdEncoding] *)

Definition base64_value (c : ascii) : option Z :=
  let n := Z.of_nat (nat_of_ascii c) in
  if ((65 <=? n) && (n <=? 90))%Z then Some (n - 65)%Z
  else if ((97 <=? n) && (n <=? 122))%Z then Some (n - 71)%Z
  else if ((48 <=? n) && (n <=? 57))%Z then Some (n + 4)%Z
  else if (n =? 43)%Z then Some 62%Z
  else if (n =? 47)%Z then Some 63%Z
  else None.

Definition byte_of_Z (z : Z) : ascii := ascii_of_N (Z.to_N (Z.land z 255)).

(** The bytes of a quantum whose first [k] of 4 sextets are significant. *)
Definition quantum_bytes (a b c d : Z) (k : nat) : list ascii :=
  let v := Z.lor (Z.shiftl a 18) (Z.lor (Z.shiftl b 12) (Z.lor (Z.shiftl c 6) d)) in
  take (k - 1) [byte_of_Z (Z.shiftr v 16); byte_of_Z (Z.shiftr v 8); byte_of_Z v].

Fixpoint base64_quanta (s : list ascii) : option (list ascii) :=
  match s with
  | [] => Some []
  | a :: b :: c :: d :: s' =>
      match base64_value a, base64_value b, base64_value c, base64_value d with
      | Some va, Some vb, Some vc, Some vd =>
          rest ← base64_quanta s'; Some (quantum_bytes va vb vc vd 4 ++ rest)%list
      | Some va, Some vb, Some vc, None =>
          if bool_decide (d = "="%char) && bool_decide (s' = [])
          then Some (quantum_bytes va vb vc 0 3) else None
      | Some va, Some vb, None, None =>
          if bool_decide (c = "="%char) && bool_decide (d = "="%char) && bool_decide (s' = [])
          then Some (quantum_bytes va vb 0 0 2) else None
      | _, _, _, _ => None
      end
  | _ => None
  end.

(** [base64.StdEncoding.DecodeString]: line breaks are ignored, padding is
    required, and nothing may follow it. *)
Definition base64_DecodeString (s : string) : option (list ascii) :=
  base64_quanta
    (filter (λ c, ¬ (c = ascii_of_nat 10 ∨ c = ascii_of_nat 13)) (bytes_of s)).

Definition base64_char (z : Z) : ascii :=
  byte_of_Z (if (z <? 26)%Z then z + 65
             else if (z <? 52)%Z then z + 71
             else if (z <? 62)%Z then z - 4
             else if (z =? 62)%Z then 43 else 47)%Z.

Definition Z_of_byte (c : ascii) : Z := Z.of_N (N_of_ascii c).

(** [base64.StdEncoding.EncodeToString]. *)
Fixpoint base64_encode (s : list ascii) : list ascii :=
  let sextet v n := base64_char (Z.land (Z.shiftr v n) 63) in
  match s with
  | [] => []
  | [a] => let v := Z.shiftl (Z_of_byte a) 16 in [sextet v 18; sextet v 12; "="; "="]%char
  | [a; b] =>
      let v := Z.lor (Z.shiftl (Z_of_byte a) 16) (Z.shiftl (Z_of_byte b) 8) in
      [sextet v 18; sextet v 12; sextet v 6; "="]%char
  | a :: b :: c :: s' =>
      let v := Z.lor (Z.shiftl (Z_of_byte a) 16) (Z.lor (Z.shiftl (Z_of_byte b) 8) (Z_of_byte c)) in
      sextet v 18 :: sextet v 12 :: sextet v 6 :: sextet v 0 :: base64_encode s'
  end%Z.

(** ** UTF-8 *)

Definition in_range (lo hi : N) (c : ascii) : bool := (lo <=? N_of_ascii c)%N && (N_of_ascii c <=? hi)%N.
Definition is_cont : ascii → bool := in_range 128 191.

(** [utf8.DecodeRune] on the non-ASCII byte [c] and what follows: the number of
    continuation bytes of the sequence; none if it is malformed. *)
Definition utf8_conts (c : ascii) (r : list ascii) : nat :=
  match r with
  | a :: r1 =>
      if in_range 194 223 c then (if is_cont a then 1 else 0)
      else
        match r1 with
        | b :: r2 =>
            if in_range 224 239 c then
              if (if in_range 224 224 c then in_range 160 191 a
                  else if in_range 237 237 c then in_range 128 159 a
                  else is_cont a) && is_cont b then 2 else 0
            else
              match r2 with
              | d :: _ =>
                  if in_range 240 244 c then
                    if (if in_range 240 240 c then in_range 144 191 a
                        else if in_range 244 244 c then in_range 128 143 a
                        else is_cont a) && is_cont b && is_cont d then 3 else 0
                  else 0
              | [] => 0
              end
        | [] => 0
        end
  | [] => 0
  end.

(** [utf8.EncodeRune] for a code point that is not a surrogate. *)
Definition utf8_encode (r : N) : list ascii :=
  if (r <? 128)%N then [ascii_of_N r]
  else if (r <? 2048)%N then [ascii_of_N (192 + r / 64); ascii_of_N (128 + r mod 64)]
  else if (r <? 65536)%N then
    [ascii_of_N (224 + r / 4096); ascii_of_N (128 + (r / 64) mod 64); ascii_of_N (128 + r mod 64)]
  else
    [ascii_of_N (240 + r / 262144); ascii_of_N (128 + (r / 4096) mod 64);
     ascii_of_N (128 + (r / 64) mod 64); ascii_of_N (128 + r mod 64)].
Definition replacement_char : list ascii := utf8_encode 65533.

(** ** JSON texts *)

(** A value as it is written: numbers as their literal, objects with their
    members in order. *)
Inductive json :=
| JNull
| JBool (b : bool)
| JNumber (literal : list ascii)
| JString (s : string)
| JArray (l : list json)
| JObject (members : list (string * json)).

Definition char_is (n : N) (c : ascii) : bool := (N_of_ascii c =? n)%N.
Definition quote_char : ascii := ascii_of_nat 34.
Definition backslash_char : ascii := ascii_of_nat 92.

Definition hex_value (c : ascii) : option N :=
  let n := N_of_ascii c in
  if in_range 48 57 c then Some (n - 48)%N
  else if in_range 97 102 c then Some (n - 87)%N
  else if in_range 65 70 c then Some (n - 55)%N
  else None.
Definition hex4 (a b c d : ascii) : option N :=
  a ← hex_value a; b ← hex_value b; c ← hex_value c; d ← hex_value d;
  Some (((a * 16 + b) * 16 + c) * 16 + d)%N.

Definition is_surrogate (r : N) : bool := (55296 <=? r)%N && (r <? 57344)%N.

(** [utf16.DecodeRune]. *)
Definition surrogate_pair (hi lo : N) : option N :=
  if (55296 <=? hi)%N && (hi <? 56320)%N && (56320 <=? lo)%N && (lo <? 57344)%N
  then Some ((hi - 55296) * 1024 + (lo - 56320) + 65536)%N else None.

(** The byte a one-letter escape stands for. *)
Definition simple_escape (e : ascii) : option ascii :=
  if char_is 34 e || char_is 92 e || char_is 47 e then Some e
  else if char_is 98 e then Some (ascii_of_nat 8)
  else if char_is 102 e then Some (ascii_of_nat 12)
  else if char_is 110 e then Some (ascii_of_nat 10)
  else if char_is 114 e then Some (ascii_of_nat 13)
  else if char_is 116 e then Some (ascii_of_nat 9)
  else None.

Definition put_bytes (l : list ascii) (r : option (list ascii * list ascii)) : option (list ascii * list ascii) :=
  match r with Some (s, rest) => Some ((l ++ s)%list, rest) | None => None end.

(** The rest of a string literal after its opening quote: the bytes it stands for
    and the text after the closing quote. *)
Fixpoint json_string (s : list ascii) : option (list ascii * list ascii) :=
  match s with
  | [] => None
  | c :: r =>
      if char_is 34 c then Some ([], r)
      else if char_is 92 c then
        match r with
        | e :: r' =>
            if char_is 117 e then
              match r' with
              | h1 :: h2 :: h3 :: h4 :: r2 =>
                  match hex4 h1 h2 h3 h4 with
                  | None => None
                  | Some u =>
                      if is_surrogate u then
                        match r2 with
                        | q :: v :: g1 :: g2 :: g3 :: g4 :: r3 =>
                            match (if char_is 92 q && char_is 117 v
                                   then lo ← hex4 g1 g2 g3 g4; surrogate_pair u lo else None) with
                            | Some cp => put_bytes (utf8_encode cp) (json_string r3)
                            | None => put_bytes replacement_char (json_string r2)
                            end
                        | _ => put_bytes replacement_char (json_string r2)
                        end
                      else put_bytes (utf8_encode u) (json_string r2)
                  end
              | _ => None
              end
            else match simple_escape e with
                 | Some b => put_bytes [b] (json_string r')
                 | None => None
                 end
        | [] => None
        end
      else if (N_of_ascii c <? 32)%N then None
      else if (N_of_ascii c <? 128)%N then put_bytes [c] (json_string r)
      else
        match utf8_conts c r, r with
        | 1, a :: r' => put_bytes [c; a] (json_string r')
        | 2, a :: b :: r' => put_bytes [c; a; b] (json_string r')
        | 3, a :: b :: d :: r' => put_bytes [c; a; b; d] (json_string r')
        | _, _ => put_bytes replacement_char (json_string r)
        end
  end.

Definition is_digit : ascii → bool := in_range 48 57.

(** The digits at the front, and the rest. *)
Fixpoint span_digits (s : list ascii) : list ascii * list ascii :=
  match s with
  | c :: r => if is_digit c then let '(ds, rest) := span_digits r in (c :: ds, rest) else ([], s)
  | [] => ([], [])
  end.

(** A number literal at the front of the text. *)
Definition json_fraction (s : list ascii) : option (list ascii * list ascii) :=
  match s with
  | c :: r =>
      if char_is 46 c then
        let '(ds, rest) := span_digits r in
        if bool_decide (ds = []) then None else Some (c :: ds, rest)
      else Some ([], s)
  | [] => Some ([], [])
  end.
Definition json_exponent (s : list ascii) : option (list ascii * list ascii) :=
  match s with
  | c :: r =>
      if char_is 101 c || char_is 69 c then
        let '(sign, r) := match r with
                          | g :: r' => if char_is 43 g || char_is 45 g then ([g], r') else ([], r)
                          | [] => ([], r)
                          end in
        let '(ds, rest) := span_digits r in
        if bool_decide (ds = []) then None else Some ((c :: sign ++ ds)%list, rest)
      else Some ([], s)
  | [] => Some ([], [])
  end.
Definition json_integer (s : list ascii) : option (list ascii * list ascii) :=
  match s with
  | c :: r => if char_is 48 c then Some ([c], r)
              else if is_digit c then Some (span_digits s) else None
  | [] => None
  end.
Definition json_number (s : list ascii) : option (list ascii * list ascii) :=
  let '(minus, s) := match s with
                     | c :: r => if char_is 45 c then ([c], r) else ([], s)
                     | [] => ([], s)
                     end in
  '(i, s) ← json_integer s; '(f, s) ← json_fraction s; '(e, s) ← json_exponent s;
  Some ((minus ++ i ++ f ++ e)%list, s).

Definition is_space (c : ascii) : bool :=
  char_is 32 c || char_is 9 c || char_is 13 c || char_is 10 c.
Fixpoint skip_space (s : list ascii) : list ascii :=
  match s with c :: r => if is_space c then skip_space r else s | [] => [] end.

(** The text after the word [w]. *)
Definition after_word (w : list ascii) (s : list ascii) : option (list ascii) :=
  if bool_decide (take (length w) s = w) then Some (drop (length w) s) else None.

(** [d] more levels of nesting are allowed ([maxNestingDepth] of the scanner). *)
Fixpoint json_value (fuel d : nat) (s : list ascii) : option (json * list ascii) :=
  match fuel with
  | O => None
  | S fuel' =>
      match skip_space s with
      | [] => None
      | c :: r =>
          if char_is 34 c then '(b, rest) ← json_string r; Some (JString (of_bytes b), rest)
          else if char_is 123 c then
            match d with
            | O => None
            | S d' =>
                match skip_space r with
                | e :: rest => if char_is 125 e then Some (JObject [], rest)
                               else '(ms, rest) ← json_members fuel' d' r; Some (JObject ms, rest)
                | [] => None
                end
            end
          else if char_is 91 c then
            match d with
            | O => None
            | S d' =>
                match skip_space r with
                | e :: rest => if char_is 93 e then Some (JArray [], rest)
                               else '(l, rest) ← json_elements fuel' d' r; Some (JArray l, rest)
                | [] => None
                end
            end
          else if char_is 116 c then rest ← after_word (bytes_of "rue") r; Some (JBool true, rest)
          else if char_is 102 c then rest ← after_word (bytes_of "alse") r; Some (JBool false, rest)
          else if char_is 110 c then rest ← after_word (bytes_of "ull") r; Some (JNull, rest)
          else '(lit, rest) ← json_number (c :: r); Some (JNumber lit, rest)
      end
  end
(** The members of an object, with the closing brace. *)
with json_members (fuel d : nat) (s : list ascii) : option (list (string * json) * list ascii) :=
  match fuel with
  | O => None
  | S fuel' =>
      match skip_space s with
      | q :: r =>
          if char_is 34 q then
            '(key, r) ← json_string r;
            match skip_space r with
            | c :: r =>
                if char_is 58 c then
                  '(v, r) ← json_value fuel' d r;
                  match skip_space r with
                  | e :: rest =>
                      if char_is 125 e then Some ([(of_bytes key, v)], rest)
                      else if char_is 44 e then
                        '(ms, rest) ← json_members fuel' d rest; Some ((of_bytes key, v) :: ms, rest)
                      else None
                  | [] => None
                  end
                else None
            | [] => None
            end
          else None
      | [] => None
      end
  end
(** The elements of an array, with the closing bracket. *)
with json_elements (fuel d : nat) (s : list ascii) : option (list json * list ascii) :=
  match fuel with
  | O => None
  | S fuel' =>
      '(v, r) ← json_value fuel' d s;
      match skip_space r with
      | e :: rest =>
          if char_is 93 e then Some ([v], rest)
          else if char_is 44 e then '(l, rest) ← json_elements fuel' d rest; Some (v :: l, rest)
          else None
      | [] => None
      end
  end.

(** The value of a whole text. *)
Definition maxNestingDepth : nat := Z.to_nat 10000.
Definition json_parse (s : string) : option json :=
  '(v, rest) ← json_value (2 * String.length s + 1) maxNestingDepth (bytes_of s);
  if bool_decide (skip_space rest = []) then Some v else None.

(** *** Numbers *)

(** The value of a digit string, on top of [acc]. *)
Fixpoint digits_value (acc : Z) (s : list ascii) : Z :=
  match s with
  | c :: r => digits_value (acc * 10 + (Z_of_byte c - 48))%Z r
  | [] => acc
  end.

(** The exponent as [strconv] reads it: digits beyond a five-digit value are
    ignored. *)
Fixpoint exponent_value (acc : Z) (s : list ascii) : Z :=
  match s with
  | c :: r => exponent_value (if (acc <? 10000)%Z then acc * 10 + (Z_of_byte c - 48) else acc)%Z r
  | [] => acc
  end.

(** [strconv.ParseFloat(literal, 64)] succeeds: the number rounds to a finite
    float64, that is, its absolute value is below 2^1024 - 2^970. *)
Definition float64_finite (literal : list ascii) : bool :=
  let s := match literal with c :: r => if char_is 45 c then r else literal | [] => literal end in
  let '(i, s) := span_digits s in
  let '(f, s) := match s with c :: r => if char_is 46 c then span_digits r else ([], s) | [] => ([], s) end in
  let e := match s with
           | _ :: c :: r => if char_is 45 c then (- exponent_value 0 r)%Z
                            else if char_is 43 c then exponent_value 0 r else exponent_value 0 (c :: r)
           | _ => 0%Z
           end in
  let m := digits_value 0 (i ++ f) in
  let x := (e - Z.of_nat (length f))%Z in
  let bound := (2 ^ 1024 - 2 ^ 970)%Z in
  if (0 <=? x)%Z then (m * 10 ^ x <? bound)%Z else (m <? bound * 10 ^ (- x))%Z.

(** ** Decoding into [imagePullSecret] *)

(** A value decodes into an [interface{}]: its numbers can be converted. *)
Fixpoint decodable (v : json) : bool :=
  match v with
  | JNumber lit => float64_finite lit
  | JArray l => forallb decodable l
  | JObject ms => forallb (λ kv, decodable kv.2) ms
  | _ => true
  end.

(** Into a [map[string]interface{}]; of members with the same name the last one
    stays. *)
Definition decode_map (v : json) : option (gmap string json) :=
  match v with
  | JNull => Some ∅
  | JObject ms => if forallb (λ kv, decodable kv.2) ms
                  then Some (foldl (λ m kv, <[kv.1 := kv.2]> m) ∅ ms) else None
  | _ => None
  end.

(** Into a [map[string]map[string]interface{}] that holds [m] already. *)
Definition decode_maps (m : gmap string (gmap string json)) (v : json) : option (gmap string (gmap string json)) :=
  match v with
  | JNull => Some ∅
  | JObject ms =>
      foldl (λ acc kv, m ← acc; a ← decode_map kv.2; Some (<[kv.1 := a]> m)) (Some m) ms
  | _ => None
  end.

(** The name of a member as [encoding/json] compares it with a field name:
    letters as capitals, the long s (U+017F) as S. *)
Fixpoint fold_name (s : list ascii) : list ascii :=
  match s with
  | [] => []
  | c :: r =>
      if in_range 97 122 c then ascii_of_N (N_of_ascii c - 32) :: fold_name r
      else match r with
           | a :: r' => if char_is 197 c && char_is 191 a then "S"%char :: fold_name r' else c :: fold_name r
           | [] => [c]
           end
  end.

Definition decode_pull_secret (v : json) : option (gmap string (gmap string json)) :=
  match v with
  | JNull => Some ∅
  | JObject ms =>
      foldl (λ acc kv, m ← acc;
        if bool_decide (fold_name (bytes_of kv.1) = bytes_of "AUTHS") then decode_maps m kv.2 else Some m)
        (Some ∅) ms
  | _ => None
  end.

(** [json.Unmarshal] into an [imagePullSecret]: its [Auths]; no value on an error. *)
Definition json_UnmarshalPullSecret (s : string) : option (gmap string (gmap string json)) :=
  v ← json_parse s; decode_pull_secret v.

(** ** fmt's %q *)

(** [strconv.Quote] of a text whose code points beyond ASCII are printable. *)
Definition hex_digit (n : N) : ascii := ascii_of_N (if (n <? 10)%N then 48 + n else 87 + n).
Definition quote_byte (c : ascii) : list ascii :=
  if char_is 34 c || char_is 92 c then [backslash_char; c]
  else if char_is 7 c then [backslash_char; "a"%char]
  else if char_is 8 c then [backslash_char; "b"%char]
  else if char_is 12 c then [backslash_char; "f"%char]
  else if char_is 10 c then [backslash_char; "n"%char]
  else if char_is 13 c then [backslash_char; "r"%char]
  else if char_is 9 c then [backslash_char; "t"%char]
  else if char_is 11 c then [backslash_char; "v"%char]
  else if in_range 0 31 c || char_is 127 c
  then [backslash_char; "x"%char; hex_digit (N_of_ascii c / 16); hex_digit (N_of_ascii c mod 16)]
  else [c].
Definition fmt_q (s : string) : string :=
  of_bytes (quote_char :: mjoin (quote_byte <$> bytes_of s) ++ [quote_char])%list.

(** ** Properties *)

(** *** base64 *)

Lemma Z_of_byte_range c : (0 <= Z_of_byte c < 256)%Z.
Proof. unfold Z_of_byte. pose proof (N_ascii_bounded c). lia. Qed.

Lemma byte_of_Z_of_byte c z : Z.land z 255 = Z_of_byte c → byte_of_Z z = c.
Proof.
  unfold byte_of_Z, Z_of_byte. intros ->. rewrite N2Z.id. apply ascii_N_embedding.
Qed.

(** Sextets are written as letters that are read back as the same number. *)
Lemma base64_value_char z : (0 <= z < 64)%Z → base64_value (base64_char z) = Some z.
Proof.
  intros [? ?]. assert (Hz : z ∈ seqZ 0 64) by (apply elem_of_seqZ; lia).
  clear H H0. revert z Hz. apply Forall_forall. apply (bool_decide_unpack _). vm_compute. exact I.
Qed.

Lemma land_63_range z : (0 <= Z.land z 63 < 64)%Z.
Proof. change 63%Z with (Z.ones 6). rewrite Z.land_ones by lia. apply Z.mod_pos_bound. lia. Qed.

Lemma testbit_above x k n : (0 <= x < 2 ^ k)%Z → (0 <= k <= n)%Z → Z.testbit x n = false.
Proof. intros ??. rewrite <- (Z.mod_small x (2 ^ k)) by lia. apply Z.mod_pow2_bits_high. lia. Qed.

Lemma Z_of_byte_above c n : (8 <= n)%Z → Z.testbit (Z_of_byte c) n = false.
Proof. intros ?. apply (testbit_above _ 8); [apply Z_of_byte_range|lia]. Qed.

(** The low byte of [x] is [c] if its bits are. *)
Lemma low_byte x c :
  (∀ n, n ∈ [0; 1; 2; 3; 4; 5; 6; 7]%Z → Z.testbit x n = Z.testbit (Z_of_byte c) n) → byte_of_Z x = c.
Proof.
  intros Hall. apply byte_of_Z_of_byte, Z.bits_inj'. intros n Hn.
  rewrite Z.land_spec. destruct (decide (n < 8)%Z).
  - rewrite (Hall n) by (rewrite !elem_of_cons; lia).
    change 255%Z with (Z.ones 8). rewrite Z.ones_spec_low by lia. apply andb_true_r.
  - rewrite Z_of_byte_above by lia. change 255%Z with (Z.ones 8).
    rewrite Z.ones_spec_high by lia. apply andb_false_r.
Qed.

(** Decides an equation between the bits of sextets and of bytes. *)
Ltac bit_step :=
  match goal with
  | |- context [Z.testbit (Z.lor ?x ?y) ?n] => rewrite (Z.lor_spec x y n)
  | |- context [Z.testbit (Z.land ?x ?y) ?n] => rewrite (Z.land_spec x y n)
  | |- context [Z.testbit (Z.shiftr ?x ?k) ?n] =>
      rewrite (Z.shiftr_spec x k n) by done; let m := eval vm_compute in (n + k)%Z in change (n + k)%Z with m
  | |- context [Z.testbit (Z.shiftl ?x ?k) ?n] =>
      first [ rewrite (Z.shiftl_spec_low x k n) by done
            | rewrite (Z.shiftl_spec_high x k n) by done;
              let m := eval vm_compute in (n - k)%Z in change (n - k)%Z with m ]
  | |- context [Z.testbit 0 ?n] => rewrite (Z.testbit_0_l n)
  | |- context [Z.testbit 63 ?n] => let b := eval vm_compute in (Z.testbit 63 n) in change (Z.testbit 63 n) with b
  | |- context [Z.testbit (Z_of_byte ?c) ?n] => rewrite (Z_of_byte_above c n) by done
  end.
Ltac bits8 :=
  apply low_byte; let n := fresh "n" in let Hn := fresh "Hn" in intros n Hn;
  repeat (apply elem_of_cons in Hn as [->|Hn]); [..|by apply elem_of_nil in Hn];
  rewrite ?Z.shiftr_0_r; repeat bit_step;
  repeat match goal with |- context [Z.testbit ?x ?n] => destruct (Z.testbit x n) end; reflexivity.

Lemma quantum_encode a b c :
  let v := Z.lor (Z.shiftl (Z_of_byte a) 16) (Z.lor (Z.shiftl (Z_of_byte b) 8) (Z_of_byte c)) in
  let s n := Z.land (Z.shiftr v n) 63 in
  quantum_bytes (s 18%Z) (s 12%Z) (s 6%Z) (s 0%Z) 4 = [a; b; c].
Proof. intros v s. unfold quantum_bytes, s, v. cbn [take Nat.sub]. 
  f_equal; [|f_equal; [|f_equal]]; bits8. Qed.

Lemma quantum_encode1 a :
  let v := Z.shiftl (Z_of_byte a) 16 in
  let s n := Z.land (Z.shiftr v n) 63 in
  quantum_bytes (s 18%Z) (s 12%Z) 0 0 2 = [a].
Proof. intros v s. unfold quantum_bytes, s, v. cbn [take Nat.sub]. f_equal. bits8. Qed.

Lemma quantum_encode2 a b :
  let v := Z.lor (Z.shiftl (Z_of_byte a) 16) (Z.shiftl (Z_of_byte b) 8) in
  let s n := Z.land (Z.shiftr v n) 63 in
  quantum_bytes (s 18%Z) (s 12%Z) (s 6%Z) 0 3 = [a; b].
Proof. intros v s. unfold quantum_bytes, s, v. cbn [take Nat.sub]. f_equal; [|f_equal]; bits8. Qed.

Lemma base64_value_sextet x : base64_value (base64_char (Z.land x 63)) = Some (Z.land x 63).
Proof. apply base64_value_char, land_63_range. Qed.

Lemma base64_quanta_encode s : base64_quanta (base64_encode s) = Some s.
Proof.
  revert s. refine (fix IH s := match s with [] => _ | [a] => _ | [a; b] => _ | a :: b :: c :: s' => _ end).
  - done.
  - cbn [base64_encode base64_quanta]. rewrite !base64_value_sextet. cbn -[quantum_bytes].
    by rewrite quantum_encode1.
  - cbn [base64_encode base64_quanta]. rewrite !base64_value_sextet. cbn -[quantum_bytes].
    by rewrite quantum_encode2.
  - cbn [base64_encode base64_quanta]. rewrite !base64_value_sextet, (IH s').
    cbn -[quantum_bytes]. by rewrite quantum_encode.
Qed.

(** What an encoder emits: letters without special meaning in a JSON string. *)
Definition plain_char (c : ascii) : bool := in_range 32 127 c && negb (char_is 34 c) && negb (char_is 92 c).

Lemma base64_char_plain x : plain_char (base64_char (Z.land x 63)) = true.
Proof.
  pose proof (land_63_range x) as Hx. assert (Hz : Z.land x 63 ∈ seqZ 0 64) by (apply elem_of_seqZ; lia).
  revert Hz. generalize (Z.land x 63). apply Forall_forall. apply (bool_decide_unpack _). vm_compute. exact I.
Qed.

Lemma base64_encode_plain s : Forall (λ c, plain_char c = true) (base64_encode s).
Proof.
  revert s. refine (fix IH s := match s with [] => _ | [a] => _ | [a; b] => _ | a :: b :: c :: s' => _ end);
    cbn [base64_encode]; repeat (apply Forall_cons; split; [first [apply base64_char_plain|done]|]); [constructor..|apply IH].
Qed.

Lemma plain_not_newline c : plain_char c = true → ¬ (c = ascii_of_nat 10 ∨ c = ascii_of_nat 13).
Proof. intros H [-> | ->]; discriminate H. Qed.

Lemma filter_all {A} (P : A → Prop) `{!∀ x, Decision (P x)} l : Forall P l → filter P l = l.
Proof. induction 1; [done|]. rewrite filter_cons_True by done. by f_equal. Qed.

Lemma base64_decode_encode s : base64_DecodeString (of_bytes (base64_encode s)) = Some s.
Proof.
  unfold base64_DecodeString. rewrite String.list_ascii_of_string_of_list_ascii.
  rewrite filter_all; [apply base64_quanta_encode|].
  eapply Forall_impl; [apply base64_encode_plain|]. apply plain_not_newline.
Qed.

(** *** JSON: writing and reading back *)

(** A compact rendering of a value without numbers. *)
Definition json_quote (s : string) : list ascii := (quote_char :: bytes_of s ++ [quote_char])%list.
Fixpoint json_print (v : json) : list ascii :=
  match v with
  | JNull => bytes_of "null"
  | JBool true => bytes_of "true"
  | JBool false => bytes_of "false"
  | JNumber lit => lit
  | JString s => json_quote s
  | JArray l =>
      "["%char :: (fix elements l := match l with
                   | [] => ["]"%char]
                   | [v] => json_print v ++ ["]"%char]
                   | v :: l' => json_print v ++ ","%char :: elements l'
                   end) l
  | JObject ms =>
      "{"%char :: (fix members ms := match ms with
                   | [] => ["}"%char]
                   | [(k, v)] => json_quote k ++ ":"%char :: json_print v ++ ["}"%char]
                   | (k, v) :: ms' => json_quote k ++ ":"%char :: json_print v ++ ","%char :: members ms'
                   end) ms
  end%list.
Definition print_members : list (string * json) → list ascii :=
  fix members ms := match ms with
    | [] => ["}"%char]
    | [(k, v)] => json_quote k ++ ":"%char :: json_print v ++ ["}"%char]
    | (k, v) :: ms' => json_quote k ++ ":"%char :: json_print v ++ ","%char :: members ms'
    end%list.
Definition print_elements : list json → list ascii :=
  fix elements l := match l with
    | [] => ["]"%char]
    | [v] => json_print v ++ ["]"%char]
    | v :: l' => json_print v ++ ","%char :: elements l'
    end%list.

(** Texts that need no escapes, and the values made of them with at most [d]
    levels of nesting. *)
Definition plain_text (s : string) : bool := forallb plain_char (bytes_of s).
Fixpoint writable (d : nat) (v : json) : bool :=
  match v, d with
  | JNull, _ | JBool _, _ => true
  | JNumber _, _ => false
  | JString s, _ => plain_text s
  | JArray _, O | JObject _, O => false
  | JArray l, S d' => forallb (writable d') l
  | JObject ms, S d' => forallb (λ kv, plain_text kv.1 && writable d' kv.2) ms
  end.

Lemma json_string_plain s rest :
  plain_text s = true → json_string (bytes_of s ++ quote_char :: rest) = Some (bytes_of s, rest).
Proof.
  unfold plain_text. generalize (bytes_of s). clear s. intros s.
  induction s as [|c s IH]; [done|]. cbn [forallb]. intros [Hc Hs]%andb_prop.
  cbn [app json_string]. unfold plain_char, in_range in Hc.
  apply andb_prop in Hc as [[[Hlo Hhi]%andb_prop Hq%negb_true_iff]%andb_prop Hb%negb_true_iff].
  rewrite Hq, Hb. apply N.leb_le in Hlo, Hhi.
  rewrite (proj2 (N.ltb_ge _ _)), (proj2 (N.ltb_lt _ _)) by lia. by rewrite IH.
Qed.

Lemma json_nested_ind (P : json → Prop) :
  P JNull → (∀ b, P (JBool b)) → (∀ lit, P (JNumber lit)) → (∀ s, P (JString s)) →
  (∀ l, Forall P l → P (JArray l)) → (∀ ms, Forall (λ kv, P kv.2) ms → P (JObject ms)) → ∀ v, P v.
Proof.
  intros Hn Hb Hlit Hs Ha Ho. fix IH 1.
  intros [| | | |l|ms]; [exact Hn|apply Hb|apply Hlit|apply Hs|apply Ha|apply Ho].
  - induction l; constructor; auto.
  - induction ms; constructor; auto.
Qed.

Definition reads_back (v : json) : Prop :=
  ∀ (d fuel : nat) rest, writable d v = true → (length (json_print v) ≤ fuel)%nat →
    json_value fuel d (json_print v ++ rest) = Some (v, rest).

Lemma skip_space_quote s : skip_space (quote_char :: s) = quote_char :: s.
Proof. done. Qed.

Lemma json_print_members ms d fuel rest :
  ms ≠ [] → Forall (λ kv, reads_back kv.2) ms →
  forallb (λ kv, plain_text kv.1 && writable d kv.2) ms = true → (length (print_members ms) ≤ fuel)%nat →
  json_members fuel d (print_members ms ++ rest) = Some (ms, rest).
Proof.
  intros Hne Hms. revert fuel. induction Hms as [|[k v] ms Hv Hms IH]; intros fuel Hw Hlen; [done|].
  cbn [forallb] in Hw. apply andb_prop in Hw as [[Hk Hwv]%andb_prop Hw]. cbn [fst snd] in *.
  assert (Hsplit : ∃ sep, print_members ((k, v) :: ms) = (json_quote k ++ ":"%char :: json_print v ++ sep)%list ∧
    ((ms = [] ∧ sep = ["}"%char]) ∨ (ms ≠ [] ∧ sep = ","%char :: print_members ms))).
  { destruct ms; eexists; (split; [reflexivity|]); [by left|by right]. }
  destruct Hsplit as (sep&Hp&Hsep). rewrite Hp in Hlen |- *. unfold json_quote in Hlen |- *.
  rewrite !length_app in Hlen. cbn [length] in Hlen. rewrite !length_app in Hlen. cbn [length] in Hlen.
  destruct fuel as [|fuel]; [lia|]. cbn [app json_members]. rewrite skip_space_quote.
  change (char_is 34 quote_char) with true. cbv iota. rewrite <- !app_assoc. cbn [app].
  rewrite json_string_plain by done. cbn [mbind option_bind].
  change (skip_space (":"%char :: ?x)) with (":"%char :: x). change (char_is 58 ":") with true. cbv iota.
  rewrite <- app_assoc, Hv by (done || lia). cbn [mbind option_bind].
  rewrite String.string_of_list_ascii_of_string.
  destruct Hsep as [[-> ->]|[Hms' ->]]; cbn [app]; [done|].
  change (skip_space (","%char :: ?x)) with (","%char :: x).
  change (char_is 125 ",") with false. change (char_is 44 ",") with true. cbv iota.
  cbn [length] in Hlen. by rewrite IH by (done || lia).
Qed.

Lemma json_print_elements l d fuel rest :
  l ≠ [] → Forall reads_back l →
  forallb (writable d) l = true → (length (print_elements l) ≤ fuel)%nat →
  json_elements fuel d (print_elements l ++ rest) = Some (l, rest).
Proof.
  intros Hne Hl. revert fuel. induction Hl as [|v l Hv Hl IH]; intros fuel Hw Hlen; [done|].
  cbn [forallb] in Hw. apply andb_prop in Hw as [Hwv Hw].
  assert (Hsplit : ∃ sep, print_elements (v :: l) = (json_print v ++ sep)%list ∧
    ((l = [] ∧ sep = ["]"%char]) ∨ (l ≠ [] ∧ sep = ","%char :: print_elements l))).
  { destruct l; eexists; (split; [reflexivity|]); [by left|by right]. }
  destruct Hsplit as (sep&Hp&Hsep). rewrite Hp in Hlen |- *. rewrite length_app in Hlen.
  assert (1 ≤ length sep)%nat by (destruct Hsep as [[_ ->]|[_ ->]]; simpl; lia).
  destruct fuel as [|fuel]; [lia|]. cbn [json_elements]. rewrite <- app_assoc, Hv by (done || lia).
  cbn [mbind option_bind]. destruct Hsep as [[-> ->]|[Hl' ->]]; cbn [app]; [done|].
  change (skip_space (","%char :: ?x)) with (","%char :: x).
  change (char_is 93 ",") with false. change (char_is 44 ",") with true. cbv iota.
  cbn [length] in Hlen. by rewrite IH by (done || lia).
Qed.

(** The first byte of a rendering is no space and no closing bracket. *)
Lemma json_print_head d v :
  writable d v = true → ∃ c r, json_print v = c :: r ∧ is_space c = false ∧ char_is 93 c = false.
Proof. destruct v as [|[]| | | |], d; intros ?; try done; by eexists _, _. Qed.

Lemma print_elements_head d v l :
  writable d v = true → ∃ c r, print_elements (v :: l) = c :: r ∧ is_space c = false ∧ char_is 93 c = false.
Proof.
  intros (c&r&Hc&?&?)%json_print_head. destruct l; cbn [print_elements]; fold print_elements;
    rewrite Hc; by eexists _, _.
Qed.

Lemma print_members_head kv ms : ∃ r, print_members (kv :: ms) = quote_char :: r.
Proof. destruct kv, ms; by eexists. Qed.

(** What is written is read back, whatever follows. *)
Lemma json_value_print v : reads_back v.
Proof.
  induction v as [|b|lit|s|l IH|ms IH] using json_nested_ind; intros d fuel rest Hw Hlen;
    destruct (json_print_head d _ Hw) as (c&r&Hc&_); (destruct fuel as [|fuel]; [rewrite Hc in Hlen; simpl in Hlen; lia|]);
    clear c r Hc; [done|by destruct b|by destruct d|..].
  - unfold json_print, json_quote. cbn [app json_value]. rewrite skip_space_quote.
    change (char_is 34 quote_char) with true. cbv iota. rewrite <- app_assoc. cbn [app].
    rewrite json_string_plain by (by destruct d). cbn [mbind option_bind].
    by rewrite String.string_of_list_ascii_of_string.
  - destruct d as [|d]; [done|].
    change (json_print (JArray l)) with ("["%char :: print_elements l) in *. cbn [app json_value].
    change (skip_space ("["%char :: ?x)) with ("["%char :: x).
    change (char_is 34 "[") with false. change (char_is 123 "[") with false.
    change (char_is 91 "[") with true. cbv iota.
    destruct l as [|v l]; [done|]. cbn [length] in Hlen. change (forallb (writable d) (v :: l) = true) in Hw.
    pose proof Hw as [Hv _]%andb_prop.
    destruct (print_elements_head _ _ l Hv) as (c&r&Hc&Hsp&Hbr). pose proof Hc as Hc'.
    apply (f_equal (λ x, skip_space (x ++ rest))) in Hc'. cbn [app skip_space] in Hc'. rewrite Hsp in Hc'.
    rewrite Hc'. rewrite Hbr. by rewrite json_print_elements by (done || lia).
  - destruct d as [|d]; [done|].
    change (json_print (JObject ms)) with ("{"%char :: print_members ms) in *. cbn [app json_value].
    change (skip_space ("{"%char :: ?x)) with ("{"%char :: x).
    change (char_is 34 "{") with false. change (char_is 123 "{") with true. cbv iota.
    destruct ms as [|kv ms]; [done|]. cbn [length] in Hlen.
    destruct (print_members_head kv ms) as (r&Hr). pose proof Hr as Hr'.
    apply (f_equal (λ x, skip_space (x ++ rest))) in Hr'. cbn [app] in Hr'. rewrite skip_space_quote in Hr'.
    rewrite Hr'. change (char_is 125 quote_char) with false. cbv iota.
    by rewrite json_print_members by (done || lia).
Qed.

Lemma length_of_bytes l : String.length (of_bytes l) = length l.
Proof. induction l; simpl; by f_equal. Qed.

Lemma json_parse_print v :
  writable maxNestingDepth v = true → json_parse (of_bytes (json_print v)) = Some v.
Proof.
  intros Hw. unfold json_parse. rewrite String.list_ascii_of_string_of_list_ascii.
  rewrite <- (app_nil_r (json_print v)) at 2. rewrite json_value_print; [done|done|].
  rewrite length_of_bytes. lia.
Qed.

(** *** The fuel of the parser is enough *)

Lemma skip_space_length s : (length (skip_space s) ≤ length s)%nat.
Proof. induction s as [|c s IH]; simpl; [done|]. destruct (is_space c); simpl; lia. Qed.

Lemma json_string_length s b r : json_string s = Some (b, r) → (length r < length s)%nat.
Proof.
  remember (length s) as n eqn:Hn. revert s b Hn. induction n as [n IH] using lt_wf_ind.
  assert (Hput : ∀ p s' b, put_bytes p (json_string s') = Some (b, r) → (length s' < n)%nat → (length r < n)%nat).
  { intros p s' b Hp Hlt. destruct (json_string s') as [[b' r']|] eqn:Hs; [|done]. injection Hp as _ <-.
    pose proof (IH _ Hlt s' b' eq_refl Hs). lia. }
  intros [|c s] b -> H; [done|]. cbn [json_string] in H. simpl in Hput |- *.
  repeat first
    [ discriminate H
    | lia
    | match type of H with Some _ = Some _ => injection H as _ <-; simpl; lia end
    | match type of H with put_bytes _ _ = _ => apply Hput in H; simpl in *; lia end
    | match type of H with context [match ?x with _ => _ end] => destruct x eqn:?; subst end ].
Qed.

Lemma span_digits_length s ds r : span_digits s = (ds, r) → (length ds + length r = length s)%nat.
Proof.
  revert ds r. induction s as [|c s IH]; intros ds r; simpl; [by intros [= <- <-]|].
  destruct (is_digit c); [|by intros [= <- <-]]. destruct (span_digits s) as [ds' r'].
  intros [= <- <-]. simpl. by rewrite (IH ds' r').
Qed.

(** What the parts of the parser consume. *)
Ltac shorten E :=
  lazymatch type of E with
  | span_digits _ = _ => apply span_digits_length in E
  | _ => idtac
  end.

(** Takes a parser's result apart at its tests and compares the lengths. *)
Ltac parse_cases H :=
  repeat first
    [ discriminate H
    | match type of H with context [match ?x with _ => _ end] =>
        lazymatch x with
        | context [match _ with _ => _ end] => fail
        | _ => let E := fresh "E" in destruct x eqn:E; shorten E
        end end
    | match type of H with context [@mbind option option_bind _ _ _ ?x] =>
        lazymatch x with
        | Some _ => fail
        | None => fail
        | _ => let E := fresh "E" in first [destruct x as [[? ?]|] eqn:E | destruct x eqn:E];
               shorten E; cbn [mbind option_bind] in H
        end end ];
  injection H as ?; subst; simpl in *; lia.

Lemma json_integer_length s i r : json_integer s = Some (i, r) → (length r < length s)%nat.
Proof.
  destruct s as [|c s]; cbn [json_integer]; [done|]. destruct (char_is 48 c); [intros [= _ <-]; simpl; lia|].
  destruct (is_digit c) eqn:Hd; [|done]. cbn [span_digits]. rewrite Hd.
  destruct (span_digits s) as [ds r'] eqn:E. apply span_digits_length in E. intros [= _ <-]. simpl. lia.
Qed.

Lemma json_fraction_length s f r : json_fraction s = Some (f, r) → (length r ≤ length s)%nat.
Proof. unfold json_fraction. intros H. parse_cases H. Qed.

Lemma json_exponent_length s e r : json_exponent s = Some (e, r) → (length r ≤ length s)%nat.
Proof. unfold json_exponent. intros H. parse_cases H. Qed.

Lemma json_number_length s n r : json_number s = Some (n, r) → (length r < length s)%nat.
Proof.
  unfold json_number. destruct (match s with [] => _ | _ :: _ => _ end) as [m s'] eqn:Hm.
  assert (length s' ≤ length s)%nat by (destruct s as [|c s]; [|destruct (char_is 45 c)]; injection Hm as _ <-; simpl; lia).
  destruct (json_integer s') as [[i s1]|] eqn:Hi; cbn [mbind option_bind]; [|done].
  destruct (json_fraction s1) as [[f s2]|] eqn:Hf; cbn [mbind option_bind]; [|done].
  destruct (json_exponent s2) as [[e s3]|] eqn:He; cbn [mbind option_bind]; [|done].
  apply json_integer_length in Hi. apply json_fraction_length in Hf. apply json_exponent_length in He.
  intros [= _ <-]. lia.
Qed.

Lemma after_word_length w s r : after_word w s = Some r → (length r ≤ length s)%nat.
Proof. unfold after_word. case_bool_decide; [|done]. intros [= <-]. rewrite length_drop. lia. Qed.

Ltac shorten E ::=
  lazymatch type of E with
  | json_string _ = Some _ => apply json_string_length in E
  | json_number _ = Some _ => apply json_number_length in E
  | after_word _ _ = Some _ => apply after_word_length in E
  | skip_space ?s = _ =>
      let Hs := fresh "Hs" in pose proof (skip_space_length s) as Hs; rewrite E in Hs
  | ?parser _ _ _ = Some _ =>
      match goal with IH : ∀ d s v r, parser _ d s = Some (v, r) → _ |- _ => apply IH in E end
  | _ => idtac
  end.

Lemma json_value_length fuel :
  (∀ d s v r, json_value fuel d s = Some (v, r) → (length r < length s)%nat) ∧
  (∀ d s v r, json_members fuel d s = Some (v, r) → (length r < length s)%nat) ∧
  (∀ d s v r, json_elements fuel d s = Some (v, r) → (length r < length s)%nat).
Proof.
  induction fuel as [|f [IHv [IHm IHe]]]; [done|].
  split; [|split]; intros d s v r H; cbn [json_value json_members json_elements] in H; parse_cases H.
Qed.

(** Takes both sides of an equation between parsers apart, at their common tests. *)
Ltac parse_both :=
  repeat first
    [ reflexivity
    | progress cbn [mbind option_bind]
    | match goal with |- context [match ?x with _ => _ end] =>
        lazymatch x with
        | context [match _ with _ => _ end] => fail
        | context [json_value] => fail | context [json_members] => fail | context [json_elements] => fail
        | _ => let E := fresh "E" in destruct x eqn:E; shorten E
        end end
    | match goal with |- context [@mbind option option_bind _ _ _ ?x] =>
        lazymatch x with
        | Some _ => fail
        | json_value _ _ _ => fail | json_members _ _ _ => fail | json_elements _ _ _ => fail
        | _ => let E := fresh "E" in first [destruct x as [[? ?]|] eqn:E | destruct x eqn:E]; shorten E
        end end
    | match goal with |- ?parser ?f ?d ?s ≫= _ = ?parser ?g ?d ?s ≫= _ =>
        match goal with IH : ∀ g d s, _ → _ → parser f d s = _ |- _ => rewrite (IH g d s) by (simpl in *; lia) end;
        let E := fresh "E" in destruct (parser g d s) as [[? ?]|] eqn:E; shorten E
      end ].

(** More fuel than twice the length of the text changes nothing. *)
Lemma json_value_fuel f :
  (∀ g d s, 2 * length s + 1 ≤ f → 2 * length s + 1 ≤ g → json_value f d s = json_value g d s)%nat ∧
  (∀ g d s, 2 * length s + 1 ≤ f → 2 * length s + 1 ≤ g → json_members f d s = json_members g d s)%nat ∧
  (∀ g d s, 2 * length s + 2 ≤ f → 2 * length s + 2 ≤ g → json_elements f d s = json_elements g d s)%nat.
Proof.
  induction f as [|f [IHv [IHm IHe]]]; [split_and!; intros; lia|].
  split; [|split]; intros [|g] d s Hf Hg; try lia; destruct (json_value_length g) as (Lv&Lm&Le);
    cbn [json_value json_members json_elements]; parse_both.
Qed.

Lemma json_parse_fuel s fuel :
  (2 * String.length s + 1 ≤ fuel)%nat →
  json_parse s =
  ('(v, rest) ← json_value fuel maxNestingDepth (bytes_of s);
   if bool_decide (skip_space rest = []) then Some v else None).
Proof.
  intros Hf. unfold json_parse.
  destruct (json_value_fuel (2 * String.length s + 1)) as [Hv _].
  assert (Hl : length (bytes_of s) = String.length s).
  { rewrite <- (String.string_of_list_ascii_of_string s) at 2. by rewrite length_of_bytes. }
  by rewrite (Hv fuel) by lia.
Qed.

(** *** A pull secret as it is written *)

(** The docker configuration with a user and a password for each registry. *)
Definition auth_text (u p : list ascii) : string := of_bytes (base64_encode (u ++ ":"%char :: p)).
Definition docker_entry (r : string * (list ascii * list ascii)) : string * json :=
  (r.1, JObject [("auth", JString (auth_text r.2.1 r.2.2))]).
Definition docker_config (registries : list (string * (list ascii * list ascii))) : json :=
  JObject [("auths", JObject (docker_entry <$> registries))].

Lemma docker_config_writable l :
  Forall (λ r, plain_text r.1 = true) l → writable maxNestingDepth (docker_config l) = true.
Proof.
  intros Hl. unfold maxNestingDepth, docker_config. replace (Z.to_nat 10000) with (3 + Z.to_nat 9997)%nat by lia.
  generalize (Z.to_nat 9997). intros n. cbn [Nat.add writable forallb fst snd].
  rewrite andb_true_r. apply andb_true_intro. split; [done|].
  induction Hl as [|r l Hr Hl IH]; [done|]. csimpl. rewrite Hr, IH, !andb_true_r. cbn [andb].
  destruct n; cbn [writable]; unfold plain_text, auth_text; rewrite String.list_ascii_of_string_of_list_ascii;
  apply forallb_forall; intros c Hc%list_elem_of_In;
  pose proof (base64_encode_plain (r.2.1 ++ ":"%char :: r.2.2)) as Hp; rewrite Forall_forall in Hp; by apply Hp.
Qed.

(** It decodes into the registries with their base64 texts. *)
Lemma decode_docker_entries l m0 :
  ∃ m, decode_maps m0 (JObject (docker_entry <$> l)) = Some m ∧
    ((l ≠ [] ∨ m0 ≠ ∅) → m ≠ ∅) ∧
    ∀ d a, m !! d = Some a → m0 !! d = Some a ∨
      ∃ u p, (d, (u, p)) ∈ l ∧ a !! "auth" = Some (JString (auth_text u p)).
Proof.
  revert m0. induction l as [|[d0 [u0 p0]] l IH]; intros m0.
  - exists m0. split; [done|]. split; [by intros [?|?]|]. auto.
  - destruct (IH (<[d0 := <["auth" := JString (auth_text u0 p0)]> ∅]> m0)) as (m&Hm&Hne&Hl).
    exists m. split; [exact Hm|]. split; [intros _; apply Hne; right; apply insert_non_empty|].
    intros d a [Hd|(u&p&?&?)]%Hl; [|right; exists u, p; split; [by right|done]].
    apply lookup_insert_Some in Hd as [[<- <-]|[_ ?]]; [|by left].
    right. exists u0, p0. split; [left|]. apply lookup_insert_eq.
Qed.

Lemma decode_docker_config l :
  ∃ m, decode_pull_secret (docker_config l) = Some m ∧ (l ≠ [] → m ≠ ∅) ∧
    ∀ d a, m !! d = Some a → ∃ u p, (d, (u, p)) ∈ l ∧ a !! "auth" = Some (JString (auth_text u p)).
Proof.
  destruct (decode_docker_entries l ∅) as (m&Hm&Hne&Hl). exists m. split; [exact Hm|]. split; [auto|].
  intros d a Ha. destruct (Hl d a Ha) as [Hd|?]; [by rewrite lookup_empty in Hd|done].
Qed.

(** A rendered configuration, as it is decoded. *)
Lemma unmarshal_docker_config l :
  Forall (λ r, plain_text r.1 = true) l →
  json_UnmarshalPullSecret (strings_TrimSpace (of_bytes (json_print (docker_config l)))) =
  decode_pull_secret (docker_config l).
Proof.
  intros Hl. set (members := (json_quote "auths" ++ ":"%char :: json_print (JObject (docker_entry <$> l)))%list).
  assert (Hp : json_print (docker_config l) = "{"%char :: members ++ ["}"%char]).
  { unfold members. rewrite <- app_assoc. done. }
  rewrite Hp, TrimSpace_braces, <- Hp. unfold json_UnmarshalPullSecret.
  by rewrite json_parse_print by (by apply docker_config_writable).
Qed.
