(* ===== verification/GoTime.v ===== *)
(** * Durations as text: [time.ParseDuration] and [Duration.String]

    Translated with their 64-bit arithmetic: the unsigned sums wrap, the limits
    are those of the code, and the fraction is computed in float64, with the
    operations of [SpecFloat].  A duration of whole seconds is read back as it was
    printed. *)
From stdpp Require Import base gmap strings list pretty.
From Stdlib Require Import ZArith Lia Ascii SpecFloat.
From S2P Require Import Prelude GoStd Codec.
Local Open Scope string_scope.

(** ** Parsing *)

Definition two63 : Z := 9223372036854775808.
Definition two64 : Z := 18446744073709551616.

(** [time.quote], bytewise: what is not printable ASCII becomes [\xNN]. *)
Definition time_quote (s : string) : string :=
  of_bytes (quote_char ::
    mjoin ((λ c, if in_range 32 127 c
                 then (if char_is 34 c || char_is 92 c then [backslash_char; c] else [c])
                 else [backslash_char; "x"%char; hex_digit (N_of_ascii c / 16); hex_digit (N_of_ascii c mod 16)])
           <$> bytes_of s) ++ [quote_char])%list.

(** [leadingInt]: [None] when the number exceeds 2^63. *)
Fixpoint leadingInt (x : Z) (s : list ascii) : option (Z * list ascii) :=
  match s with
  | c :: r =>
      if is_digit c then
        if (two63 / 10 <? x)%Z then None
        else let x' := (x * 10 + (Z_of_byte c - 48))%Z in
             if (two63 <? x')%Z then None else leadingInt x' r
      else Some (x, s)
  | [] => Some (x, [])
  end.

(** [leadingFraction]: the digits that fit, the power of ten they are to be
    divided by (as an exponent), and the rest. *)
Fixpoint leadingFraction (x : Z) (scale : nat) (overflow : bool) (s : list ascii) : Z * nat * list ascii :=
  match s with
  | c :: r =>
      if is_digit c then
        if overflow then leadingFraction x scale true r
        else if ((two63 - 1) / 10 <? x)%Z then leadingFraction x scale true r
        else let y := (x * 10 + (Z_of_byte c - 48))%Z in
             if (two63 <? y)%Z then leadingFraction x scale true r
             else leadingFraction y (S scale) false r
      else (x, scale, s)
  | [] => (x, scale, [])
  end.

(** [unitMap]; the micro sign is U+00B5 or U+03BC. *)
Definition micro1 : string := of_bytes [ascii_of_nat 194; ascii_of_nat 181; "s"%char].
Definition micro2 : string := of_bytes [ascii_of_nat 206; ascii_of_nat 188; "s"%char].
Definition unit_of (u : string) : option Z :=
  if bool_decide (u = "ns") then Some 1%Z
  else if bool_decide (u = "us") || bool_decide (u = micro1) || bool_decide (u = micro2) then Some 1000%Z
  else if bool_decide (u = "ms") then Some 1000000%Z
  else if bool_decide (u = "s") then Some Second
  else if bool_decide (u = "m") then Some Minute
  else if bool_decide (u = "h") then Some Hour
  else None.

(** float64 values: conversion from an integer, and truncation to one. *)
Definition float_of_Z (z : Z) : spec_float := binary_normalize 53 1024 z 0 false.
Definition float_trunc (f : spec_float) : Z :=
  match f with
  | S754_finite false m e => if (0 <=? e)%Z then (Zpos m * 2 ^ e)%Z else (Zpos m / 2 ^ (- e))%Z
  | _ => 0%Z
  end.

(** [scale] after [n] digits: a product of tens, each rounded. *)
Fixpoint float_scale (n : nat) : spec_float :=
  match n with
  | O => float_of_Z 1
  | S n' => SFmul 53 1024 (float_scale n') (float_of_Z 10)
  end.

(** [uint64(float64(f) * (float64(unit) / scale))]. *)
Definition fraction_of (f : Z) (unit_ : Z) (scale : nat) : Z :=
  float_trunc (SFmul 53 1024 (float_of_Z f) (SFdiv 53 1024 (float_of_Z unit_) (float_scale scale))).

Fixpoint span_unit (s : list ascii) : list ascii * list ascii :=
  match s with
  | c :: r => if char_is 46 c || is_digit c then ([], s)
              else let '(u, rest) := span_unit r in (c :: u, rest)
  | [] => ([], [])
  end.

(** The number at the front: its integer part, its fraction with the scale, and
    the rest; [None] if it is out of range or has no digits. *)
Definition leading_number (s : list ascii) : option (Z * Z * nat * list ascii) :=
  match leadingInt 0 s with
  | None => None
  | Some (v, s1) =>
      let pre := negb (Nat.eqb (length s1) (length s)) in
      match s1 with
      | c :: s2 =>
          if char_is 46 c then
            let '(f, scale, s3) := leadingFraction 0 0 false s2 in
            if negb pre && Nat.eqb (length s3) (length s2) then None else Some (v, f, scale, s3)
          else if pre then Some (v, 0%Z, 0, s1) else None
      | [] => if pre then Some (v, 0%Z, 0, []) else None
      end
  end.

(** One round of the loop: a number with its unit, in nanoseconds. *)
Definition leading_term (orig : string) (s : list ascii) : result (Z * list ascii) :=
  let invalid := Err (ErrNew ("time: invalid duration " +:+ time_quote orig)) in
  match s with
  | [] => invalid
  | c :: _ =>
      if negb (char_is 46 c || is_digit c) then invalid else
      match leading_number s with
      | None => invalid
      | Some (v, f, scale, s1) =>
          let '(u, rest) := span_unit s1 in
          if bool_decide (u = []) then Err (ErrNew ("time: missing unit in duration " +:+ time_quote orig)) else
          match unit_of (of_bytes u) with
          | None => Err (ErrNew ("time: unknown unit " +:+ time_quote (of_bytes u)
                           +:+ " in duration " +:+ time_quote orig))
          | Some unit_ =>
              if (two63 / unit_ <? v)%Z then invalid else
              let v := (v * unit_)%Z in
              let v := if (0 <? f)%Z then (v + fraction_of f unit_ scale)%Z else v in
              if (0 <? f)%Z && (two63 <? v)%Z then invalid else Ok (v, rest)
          end
      end
  end.

Fixpoint duration_loop (fuel : nat) (orig : string) (d : Z) (s : list ascii) : result Z :=
  match s, fuel with
  | [], _ => Ok d
  | _, O => Err (ErrNew "out of fuel")
  | _, S fuel' =>
      match leading_term orig s with
      | Err e => Err e
      | Ok (v, rest) =>
          let d' := ((d + v) mod two64)%Z in
          if (two63 <? d')%Z then Err (ErrNew ("time: invalid duration " +:+ time_quote orig))
          else duration_loop fuel' orig d' rest
      end
  end.

(** [Duration(d)] of an unsigned 64-bit integer, and its negation. *)
Definition int64_of (d : Z) : Z := if (two63 <=? d)%Z then (d - two64)%Z else d.

Definition time_ParseDuration (orig : string) : result duration :=
  let s := bytes_of orig in
  let '(neg, s) := match s with
                   | c :: r => if char_is 45 c then (true, r) else if char_is 43 c then (false, r) else (false, s)
                   | [] => (false, s)
                   end in
  if bool_decide (s = bytes_of "0") then Ok 0%Z else
  if bool_decide (s = []) then Err (ErrNew ("time: invalid duration " +:+ time_quote orig)) else
  match duration_loop (length s) orig 0 s with
  | Err e => Err e
  | Ok d =>
      if neg then Ok (int64_of ((- d) mod two64))
      else if (two63 - 1 <? d)%Z then Err (ErrNew ("time: invalid duration " +:+ time_quote orig))
      else Ok d
  end.

(** ** Printing *)

(** [fmtFrac]: the last [prec] digits of [v] without trailing zeros, after a
    point if any is left, and [v] without them. *)
Fixpoint fmtFrac_loop (prec : nat) (print : bool) (v : Z) (buf : list ascii) : list ascii * bool * Z :=
  match prec with
  | O => (buf, print, v)
  | S p =>
      let digit := (v mod 10)%Z in
      let print := print || negb (digit =? 0)%Z in
      fmtFrac_loop p print (v / 10)%Z (if print then ascii_of_N (48 + Z.to_N digit) :: buf else buf)
  end.
Definition fmtFrac (v : Z) (prec : nat) : list ascii * Z :=
  let '(buf, print, v) := fmtFrac_loop prec false v [] in
  (if print then "."%char :: buf else buf, v).

(** [fmtInt]: decimal digits. *)
Fixpoint fmtInt_loop (fuel : nat) (v : Z) (buf : list ascii) : list ascii :=
  match fuel with
  | O => buf
  | S fuel' =>
      if (v <=? 0)%Z then buf
      else fmtInt_loop fuel' (v / 10)%Z (ascii_of_N (48 + Z.to_N (v mod 10)) :: buf)
  end.
Definition fmtInt (v : Z) : list ascii :=
  if (v =? 0)%Z then ["0"%char] else fmtInt_loop 20 v [].

(** [Duration.String]. *)
Definition duration_String (d : duration) : string :=
  let u := Z.abs d in
  let body :=
    if (u <? Second)%Z then
      if (u =? 0)%Z then bytes_of "0s"
      else
        let '(prec, unit_) := if (u <? 1000)%Z then (0, bytes_of "ns")
                              else if (u <? 1000000)%Z then (3, bytes_of micro1)
                              else (6, bytes_of "ms") in
        let '(frac, v) := fmtFrac u prec in (fmtInt v ++ frac ++ unit_)%list
    else
      let '(frac, v) := fmtFrac u 9 in
      let secs := (fmtInt (v mod 60) ++ frac ++ ["s"%char])%list in
      let mins := (v / 60)%Z in
      if (0 <? mins)%Z then
        let m := (fmtInt (mins mod 60) ++ "m"%char :: secs)%list in
        let hours := (mins / 60)%Z in
        if (0 <? hours)%Z then (fmtInt hours ++ "h"%char :: m)%list else m
      else secs in
  of_bytes (if (d <? 0)%Z then "-"%char :: body else body).

(** ** Properties *)

(** *** Bounds *)

Lemma duration_loop_range fuel orig d s r :
  (0 <= d <= two63)%Z → duration_loop fuel orig d s = Ok r → (0 <= r <= two63)%Z.
Proof.
  revert d s. induction fuel as [|fuel IH]; intros d [|c s] Hd; cbn [duration_loop]; try done; try (by intros [= <-]).
  destruct (leading_term orig (c :: s)) as [[v rest]|]; [|done].
  destruct (Z.ltb_spec two63 ((d + v) mod two64)) as [|Hle]; [done|]. apply IH.
  split; [by apply Z.mod_pos_bound|done].
Qed.

Lemma int64_of_range z : (0 <= z < two64)%Z → (- two63 <= int64_of z < two63)%Z.
Proof. unfold int64_of, two63, two64. destruct (Z.leb_spec 9223372036854775808 z); lia. Qed.

(** What is parsed fits into 64 bits. *)
Lemma ParseDuration_range s d : time_ParseDuration s = Ok d → (- two63 <= d < two63)%Z.
Proof.
  unfold time_ParseDuration. destruct (match bytes_of s with [] => _ | _ :: _ => _ end) as [neg bs].
  case_bool_decide; [by intros [= <-]|]. case_bool_decide; [done|].
  destruct (duration_loop _ _ _ _) as [z|] eqn:Hl; [|done].
  apply duration_loop_range in Hl; [|by unfold two63; lia].
  destruct neg; [intros [= <-]; apply int64_of_range; by apply Z.mod_pos_bound|].
  destruct (Z.ltb_spec (two63 - 1) z); [done|]. intros [= <-]. unfold two63 in *. lia.
Qed.

(** *** The fuel of the loop *)

Lemma leadingInt_length x s v r : leadingInt x s = Some (v, r) → (length r ≤ length s)%nat.
Proof.
  revert x. induction s as [|c s IH]; intros x; simpl; [by intros [= _ <-]|].
  destruct (is_digit c); [|by intros [= _ <-]]. destruct (_ <? _)%Z; [done|].
  destruct (_ <? _)%Z; [done|]. intros ?%IH. lia.
Qed.

Lemma leadingFraction_length x n b s f k r : leadingFraction x n b s = (f, k, r) → (length r ≤ length s)%nat.
Proof.
  revert x n b. induction s as [|c s IH]; intros x n b; simpl; [by intros [= _ _ <-]|].
  destruct (is_digit c); [|by intros [= _ _ <-]]. destruct b; [intros ?%IH; lia|].
  destruct (_ <? _)%Z; [intros ?%IH; lia|]. destruct (_ <? _)%Z; intros ?%IH; lia.
Qed.

Lemma span_unit_length s u r : span_unit s = (u, r) → (length u + length r = length s)%nat.
Proof.
  revert u. induction s as [|c s IH]; intros u; simpl; [by intros [= <- <-]|].
  destruct (_ || _); [by intros [= <- <-]|]. destruct (span_unit s) as [u' r'].
  intros [= <- <-]. simpl. by rewrite (IH u').
Qed.

Lemma leading_number_length s v f k r : leading_number s = Some (v, f, k, r) → (length r ≤ length s)%nat.
Proof.
  unfold leading_number. destruct (leadingInt 0 s) as [[w s1]|] eqn:Hi; [|done]. apply leadingInt_length in Hi.
  destruct s1 as [|c s2]; simpl in Hi.
  - destruct (negb _); [|done]. intros [= _ _ _ <-]. simpl. lia.
  - destruct (char_is 46 c).
    + destruct (leadingFraction 0 0 false s2) as [[f' k'] s3] eqn:Hf. apply leadingFraction_length in Hf.
      destruct (_ && _); [done|]. intros [= _ _ _ <-]. lia.
    + destruct (negb _); [|done]. intros [= _ _ _ <-]. simpl. lia.
Qed.

Lemma leading_term_length orig s v r : leading_term orig s = Ok (v, r) → (length r < length s)%nat.
Proof.
  unfold leading_term. destruct s as [|c s]; [done|]. destruct (negb _); [done|].
  destruct (leading_number (c :: s)) as [[[[w f] k] s1]|] eqn:Hn; [|done]. apply leading_number_length in Hn.
  destruct (span_unit s1) as [u r'] eqn:Hu. apply span_unit_length in Hu.
  case_bool_decide as Hne; [done|]. assert (length u ≠ 0) by (by destruct u). destruct (unit_of _) as [un|]; [|done].
  destruct (_ <? _)%Z; [done|]. destruct (_ && _); [done|]. intros [= _ <-]. lia.
Qed.

(** Fuel beyond the length of the text changes nothing. *)
Lemma duration_loop_fuel f g orig d s :
  (length s ≤ f)%nat → (length s ≤ g)%nat → duration_loop f orig d s = duration_loop g orig d s.
Proof.
  revert g d s. induction f as [|f IH]; intros [|g] d [|c s] Hf Hg; simpl in Hf, Hg; try lia; try done.
  cbn [duration_loop]. destruct (leading_term orig (c :: s)) as [[v r]|] eqn:Ht; [|done].
  apply leading_term_length in Ht. simpl in Ht. destruct (_ <? _)%Z; [done|]. apply IH; lia.
Qed.

(** *** Printed numbers are read back *)

Lemma is_digit_of z : (0 <= z < 10)%Z →
  is_digit (ascii_of_N (48 + Z.to_N z)) = true ∧ (Z_of_byte (ascii_of_N (48 + Z.to_N z)) - 48 = z)%Z.
Proof.
  intros Hz. assert (Hin : z ∈ seqZ 0 10) by (apply elem_of_seqZ; lia). clear Hz. revert z Hin.
  apply Forall_forall. apply (bool_decide_unpack _). vm_compute. exact I.
Qed.

Lemma fmtInt_loop_digits fuel v buf :
  (0 <= v < 10 ^ Z.of_nat fuel)%Z →
  ∃ ds, fmtInt_loop fuel v buf = (ds ++ buf)%list ∧ Forall (λ c, is_digit c = true) ds ∧
        digits_value 0 ds = v ∧ (v ≠ 0%Z → ds ≠ []).
Proof.
  revert v buf. induction fuel as [|fuel IH]; intros v buf Hv.
  - assert (v = 0)%Z as -> by (change (10 ^ Z.of_nat 0)%Z with 1%Z in Hv; lia). exists []; split_and!; [done|constructor|done|congruence].
  - cbn [fmtInt_loop]. destruct (Z.leb_spec v 0).
    { assert (v = 0)%Z as -> by lia. exists []; split_and!; [done|constructor|done|congruence]. }
    pose proof (Z.mod_pos_bound v 10 ltac:(lia)) as Hm. destruct (is_digit_of _ Hm) as [Hd Hz].
    rewrite Nat2Z.inj_succ, Z.pow_succ_r in Hv by lia.
    destruct (IH (v / 10)%Z (ascii_of_N (48 + Z.to_N (v mod 10)) :: buf)) as (ds&->&Hds&Hval&_).
    { split; [by apply Z.div_pos; lia|]. apply Z.div_lt_upper_bound; lia. }
    exists (ds ++ [ascii_of_N (48 + Z.to_N (v mod 10))])%list. rewrite <- app_assoc.
    split_and!; [done|by apply Forall_app; split; [|constructor]| |by intros _ [??]%app_nil].
    assert (Happ : ∀ x l c, digits_value x (l ++ [c]) = (digits_value x l * 10 + (Z_of_byte c - 48))%Z).
    { clear. intros x l c. revert x. induction l as [|y l IH]; intros x; [done|]. apply IH. }
    rewrite Happ, Hval, Hz. pose proof (Z.div_mod v 10). lia.
Qed.

Lemma fmtInt_digits v :
  (0 <= v <= two63)%Z →
  ∃ ds, fmtInt v = ds ∧ Forall (λ c, is_digit c = true) ds ∧ digits_value 0 ds = v ∧ ds ≠ [].
Proof.
  intros Hv. unfold fmtInt. destruct (Z.eqb_spec v 0) as [->|Hne]; [exists ["0"%char]; split_and!; [done|by constructor|done|done]|].
  destruct (fmtInt_loop_digits 20 v []) as (ds&->&?&?&?); [unfold two63 in Hv; lia|].
  exists ds. rewrite app_nil_r. auto.
Qed.

Lemma digit_range c : is_digit c = true → (0 <= Z_of_byte c - 48 <= 9)%Z.
Proof.
  unfold is_digit, in_range, Z_of_byte. intros [H1%N.leb_le H2%N.leb_le]%andb_prop. lia.
Qed.

Lemma digits_value_ge x ds : (0 <= x)%Z → Forall (λ c, is_digit c = true) ds → (x <= digits_value x ds)%Z.
Proof.
  intros Hx Hds. revert x Hx. induction Hds as [|c ds Hc Hds IH]; intros x Hx; simpl; [done|].
  apply digit_range in Hc. specialize (IH (x * 10 + (Z_of_byte c - 48))%Z). lia.
Qed.

Lemma leadingInt_digits x ds rest :
  (0 <= x)%Z → Forall (λ c, is_digit c = true) ds → (digits_value x ds <= two63)%Z →
  (∀ c r, rest = c :: r → is_digit c = false) →
  leadingInt x (ds ++ rest) = Some (digits_value x ds, rest).
Proof.
  intros Hx Hds. revert x Hx. induction Hds as [|c ds Hc Hds IH]; intros x Hx Hle Hrest.
  - destruct rest as [|c r]; [done|]. simpl. by rewrite (Hrest c r).
  - cbn [digits_value] in Hle. cbn [app leadingInt digits_value]. rewrite Hc. apply digit_range in Hc.
    pose proof (digits_value_ge (x * 10 + (Z_of_byte c - 48)) ds ltac:(lia) Hds) as Hge.
    rewrite (proj2 (Z.ltb_ge _ _)), (proj2 (Z.ltb_ge _ _)); [apply IH; [lia|done..]|lia|].
    apply Z.div_le_lower_bound; lia.
Qed.

(** A number with its one-letter unit, and its nanoseconds. *)
Definition unit_ns (c : ascii) : Z := default 1%Z (unit_of (of_bytes [c])).
Definition term_text (t : Z * ascii) : list ascii := (fmtInt t.1 ++ [t.2])%list.
Definition term_ns (t : Z * ascii) : Z := (t.1 * unit_ns t.2)%Z.
Definition is_term (t : Z * ascii) : Prop := (t.2 = "h" ∨ t.2 = "m" ∨ t.2 = "s")%char ∧ (0 <= t.1)%Z.

(** What follows a unit: the end, or the next number. *)
Definition number_next (s : list ascii) : Prop := ∀ c r, s = c :: r → is_digit c = true.

Lemma leading_term_text orig t rest :
  is_term t → (term_ns t <= two63)%Z → number_next rest →
  leading_term orig (term_text t ++ rest) = Ok (term_ns t, rest).
Proof.
  destruct t as [v c]. intros [Hc Hv] Hle Hrest. unfold term_text, term_ns in *. cbn [fst snd] in *.
  assert (Hu : unit_of (of_bytes [c]) = Some (unit_ns c) ∧ (0 < unit_ns c)%Z ∧ is_digit c = false ∧ char_is 46 c = false)
    by (destruct Hc as [->|[->| ->]]; split_and!; reflexivity).
  destruct Hu as (Hu&Hpos&Hdig&Hdot).
  assert (Hv63 : (v <= two63 / unit_ns c)%Z) by (apply Z.div_le_lower_bound; lia).
  assert (Hle63 : (v <= two63)%Z) by nia.
  destruct (fmtInt_digits v ltac:(lia)) as (ds&->&Hds&Hval&Hne). rewrite <- app_assoc. cbn [app].
  assert (Hnum : leading_number (ds ++ c :: rest) = Some (v, 0%Z, 0, c :: rest)).
  { unfold leading_number. rewrite leadingInt_digits; [|done..|by rewrite Hval|by intros ?? [= <- <-]].
    rewrite Hdot, Hval, length_app. cbn [length].
    rewrite (proj2 (Nat.eqb_neq _ _)); [done|]. destruct ds; [done|]. simpl. lia. }
  unfold leading_term. destruct ds as [|d ds]; [done|]. cbn [app] in Hnum |- *.
  apply Forall_cons in Hds as [Hd _]. rewrite Hd, orb_true_r. cbn [negb]. rewrite Hnum.
  assert (Hspan : span_unit (c :: rest) = ([c], rest)).
  { cbn [span_unit]. rewrite Hdot, Hdig. cbn [orb]. destruct rest as [|e r]; [done|]. cbn [span_unit].
    by rewrite (Hrest e r), orb_true_r. }
  rewrite Hspan, bool_decide_eq_false_2 by done. rewrite Hu.
  rewrite (proj2 (Z.ltb_ge _ _)) by done. done.
Qed.

Definition terms_text (ts : list (Z * ascii)) : list ascii := mjoin (term_text <$> ts).
Fixpoint terms_ns (ts : list (Z * ascii)) : Z :=
  match ts with [] => 0 | t :: ts' => term_ns t + terms_ns ts' end.

Lemma term_text_digit t : is_term t → (t.1 <= two63)%Z → ∃ c r, term_text t = c :: r ∧ is_digit c = true.
Proof.
  intros [_ ?] ?. unfold term_text. destruct (fmtInt_digits t.1 ltac:(lia)) as ([|c r]&->&Hds&_&?); [done|].
  apply Forall_cons in Hds as [? _]. by eexists _, _.
Qed.

Lemma unit_ns_pos t : is_term t → (0 < unit_ns t.2)%Z.
Proof. by intros [[->|[->| ->]] _]. Qed.

Lemma terms_ns_nonneg ts : Forall is_term ts → (0 <= terms_ns ts)%Z.
Proof.
  induction 1 as [|t ts Ht _ IH]; [done|]. simpl. pose proof (unit_ns_pos t Ht). destruct Ht as [_ ?].
  unfold term_ns. nia.
Qed.

Lemma term_bound t : is_term t → (t.1 <= term_ns t)%Z.
Proof. intros Ht. pose proof (unit_ns_pos t Ht). destruct Ht as [_ ?]. unfold term_ns. nia. Qed.

Lemma duration_loop_terms orig ts fuel d :
  Forall is_term ts → (0 <= d)%Z → (d + terms_ns ts <= two63)%Z → (length (terms_text ts) ≤ fuel)%nat →
  duration_loop fuel orig d (terms_text ts) = Ok (d + terms_ns ts)%Z.
Proof.
  intros Hts. revert fuel d. induction Hts as [|t ts Ht Hts IH]; intros fuel d Hd Hle Hf.
  - cbn [terms_ns]. rewrite Z.add_0_r. by destruct fuel.
  - pose proof (terms_ns_nonneg ts Hts) as Hnn. cbn [terms_ns] in *. pose proof (term_bound t Ht) as Hb.
    change (terms_text (t :: ts)) with (term_text t ++ terms_text ts)%list in *.
    rewrite length_app in Hf.
    assert (Hnext : number_next (terms_text ts)).
    { intros c r Hcr. destruct Hts as [|t' ts' Ht' Hts']; [done|].
      change (terms_text (t' :: ts')) with (term_text t' ++ terms_text ts')%list in Hcr.
      cbn [terms_ns] in *. pose proof (terms_ns_nonneg ts' Hts'). pose proof (term_bound t' Ht').
      destruct Ht as [_ ?]. destruct (term_text_digit t' Ht' ltac:(lia)) as (c'&r'&Hc'&?).
      rewrite Hc' in Hcr. injection Hcr as <- _. done. }
    destruct (term_text_digit t Ht ltac:(destruct Ht; lia)) as (c&r&Hc&_).
    assert (1 ≤ length (term_text t))%nat by (rewrite Hc; simpl; lia).
    destruct fuel as [|fuel]; [lia|].
    pose proof (leading_term_text orig t (terms_text ts) Ht ltac:(lia) Hnext) as Hterm.
    rewrite Hc in Hterm |- *. cbn [app duration_loop] in Hterm |- *. rewrite Hterm.
    assert (0 <= term_ns t)%Z by (destruct Ht; lia).
    rewrite Z.mod_small by (unfold two63, two64 in *; lia).
    rewrite (proj2 (Z.ltb_ge _ _)) by lia. rewrite IH by lia. f_equal. lia.
Qed.

(** Trailing zeros are not printed. *)
Lemma fmtFrac_whole (prec : nat) (k : Z) buf :
  fmtFrac_loop prec false (k * 10 ^ Z.of_nat prec)%Z buf = (buf, false, k).
Proof.
  revert k. induction prec as [|p IH]; intros k.
  - cbn [fmtFrac_loop]. f_equal. change (10 ^ Z.of_nat 0)%Z with 1%Z. lia.
  - cbn [fmtFrac_loop]. rewrite Nat2Z.inj_succ, Z.pow_succ_r by lia.
    replace (k * (10 * 10 ^ Z.of_nat p))%Z with (k * 10 ^ Z.of_nat p * 10)%Z by ring.
    rewrite Z.mod_mul, Z.div_mul by lia. cbn [Z.eqb negb orb]. apply IH.
Qed.

(** A duration of whole seconds, as it is printed. *)
Definition whole_terms (k : Z) : list (Z * ascii) :=
  let mins := (k / 60)%Z in
  ((if (0 <? mins / 60)%Z then [((mins / 60)%Z, "h"%char)] else []) ++
   (if (0 <? mins)%Z then [((mins mod 60)%Z, "m"%char)] else []) ++ [((k mod 60)%Z, "s"%char)])%list.

Lemma String_whole k :
  (0 <= k)%Z → duration_String (k * Second)%Z = of_bytes (terms_text (whole_terms k)).
Proof.
  intros Hk. unfold duration_String. rewrite Z.abs_eq by (unfold Second; lia).
  rewrite (proj2 (Z.ltb_ge (k * Second) 0)) by (unfold Second; lia). f_equal.
  destruct (decide (k = 0)%Z) as [->|Hne]; [done|].
  rewrite (proj2 (Z.ltb_ge (k * Second) Second)) by (unfold Second; lia).
  unfold fmtFrac. change Second with (10 ^ Z.of_nat 9)%Z. rewrite fmtFrac_whole.
  unfold whole_terms, terms_text. destruct (Z.ltb_spec 0 (k / 60)) as [Hm|Hm].
  - destruct (0 <? k / 60 / 60)%Z; unfold term_text; csimpl; rewrite ?app_nil_r, <- ?app_assoc; done.
  - assert (k / 60 / 60 <= 0)%Z by (apply Z.div_le_upper_bound; lia).
    rewrite (proj2 (Z.ltb_ge _ _)) by done. unfold term_text. csimpl. by rewrite ?app_nil_r.
Qed.

Lemma whole_terms_ok k : (0 <= k)%Z → Forall is_term (whole_terms k) ∧ terms_ns (whole_terms k) = (k * Second)%Z.
Proof.
  intros Hk. unfold whole_terms. set (mins := (k / 60)%Z).
  assert (Hmins : (0 <= mins)%Z) by (apply Z.div_pos; lia).
  pose proof (Z.mod_pos_bound k 60 ltac:(lia)). pose proof (Z.mod_pos_bound mins 60 ltac:(lia)).
  pose proof (Z.div_mod k 60 ltac:(lia)) as Hdk. fold mins in Hdk. pose proof (Z.div_mod mins 60 ltac:(lia)) as Hdm.
  assert (0 <= mins / 60)%Z by (apply Z.div_pos; lia).
  change (terms_ns ?l) with (terms_ns l). unfold is_term.
  destruct (Z.ltb_spec 0 (mins / 60)), (Z.ltb_spec 0 mins); cbn [app terms_ns]; unfold term_ns; cbn [fst snd];
    change (unit_ns "h") with Hour; change (unit_ns "m") with Minute; change (unit_ns "s") with Second;
    (split; [repeat constructor; cbn [fst snd]; auto; lia|unfold Hour, Minute, Second in *; nia]).
Qed.

(** Durations of whole seconds survive printing and parsing. *)
Lemma ParseDuration_String k :
  (0 <= k)%Z → (k * Second < two63)%Z → time_ParseDuration (duration_String (k * Second)%Z) = Ok (k * Second)%Z.
Proof.
  intros Hk Hle. rewrite String_whole by done. destruct (whole_terms_ok k Hk) as [Hts Hns].
  set (ts := whole_terms k) in *.
  assert (Hne : ts ≠ []) by (unfold ts, whole_terms; by destruct (0 <? k / 60 / 60)%Z, (0 <? k / 60)%Z).
  assert (Hlen : (2 ≤ length (terms_text ts))%nat ∧ ∃ c r, terms_text ts = c :: r ∧ is_digit c = true).
  { clearbody ts. destruct Hts as [|t ts' Ht Hts]; [done|]. cbn [terms_ns] in Hns.
    pose proof (terms_ns_nonneg ts' Hts). pose proof (term_bound t Ht).
    destruct (fmtInt_digits t.1 ltac:(destruct Ht; lia)) as ([|c r]&Hf&Hds&_&?); [done|].
    change (terms_text (t :: ts')) with (term_text t ++ terms_text ts')%list. unfold term_text. rewrite Hf.
    split; [rewrite !length_app; simpl; lia|]. apply Forall_cons in Hds as [? _]. by eexists _, _. }
  destruct Hlen as (Hlen&c&r&Hc&Hdig).
  unfold time_ParseDuration. rewrite String.list_ascii_of_string_of_list_ascii.
  rewrite Hc. assert (char_is 45 c = false ∧ char_is 43 c = false) as [-> ->].
  { unfold is_digit, in_range, char_is in *. apply andb_prop in Hdig as [?%N.leb_le ?%N.leb_le].
    split; apply N.eqb_neq; lia. }
  rewrite <- Hc. rewrite bool_decide_eq_false_2 by (intros H; rewrite H in Hlen; simpl in Hlen; lia).
  rewrite bool_decide_eq_false_2 by (by rewrite Hc).
  rewrite duration_loop_terms by (done || lia). rewrite Z.add_0_l, Hns.
  by rewrite (proj2 (Z.ltb_ge _ _)) by lia.
Qed.
