(* ===== verification/Sim.v ===== *)
(** * A simulated environment

    One concrete environment for the calls of the operator: an API server that
    stores what is written (with the usual deletion protocol for objects with
    finalizers), a file system, an installer that produces its four files, a
    spoke cluster and a clock that advances by a second per reading.  It
    instantiates the environment in the witnesses and the scenarios; no theorem
    assumes it. *)
From stdpp Require Import base gmap strings list.
From Stdlib Require Import ZArith Lia Ascii.
From S2P Require Import Prelude Types World GoStd Codec.

Module Sim.

Record world := mkWorld {
  w_icis : list ImageClusterInstall;
  w_bmhs : list BareMetalHost;
  w_dataimages : list DataImage;
  w_cds : list ClusterDeployment;
  w_imagesets : list ClusterImageSet;
  w_configmaps : list ConfigMap;
  w_secrets : list Secret;
  w_files : gmap string string;
  w_now : time;
  w_spoke : list ClusterOperatorStatusCondition * list Node;
}.

Definition notfound : goerror := ErrStatus "NotFound" "not found".

Section store.
Context {A : Type} (meta : A → ObjectMeta).

Fixpoint lookup_obj (k : NamespacedName) (l : list A) : result A :=
  match l with
  | [] => Err notfound
  | o :: l' => if bool_decide (meta_key (meta o) = k) then Ok o else lookup_obj k l'
  end.

(** Replaces the object with the key of [o]; updating a missing object fails. *)
Fixpoint replace_obj (o : A) (l : list A) : list A :=
  match l with
  | [] => []
  | p :: l' => if bool_decide (meta_key (meta p) = meta_key (meta o)) then o :: l' else p :: replace_obj o l'
  end.
Definition write_obj (o : A) (l : list A) : result A * list A :=
  match lookup_obj (meta_key (meta o)) l with
  | Err e => (Err e, l)
  | Ok _ => (Ok o, replace_obj o l)
  end.
Definition remove_obj (k : NamespacedName) (l : list A) : list A :=
  filter (λ o, meta_key (meta o) ≠ k) l.
End store.

Definition with_icis (l : list ImageClusterInstall) (w : world) : world :=
  mkWorld l (w_bmhs w) (w_dataimages w) (w_cds w) (w_imagesets w) (w_configmaps w) (w_secrets w)
    (w_files w) (w_now w) (w_spoke w).
Definition with_bmhs (l : list BareMetalHost) (w : world) : world :=
  mkWorld (w_icis w) l (w_dataimages w) (w_cds w) (w_imagesets w) (w_configmaps w) (w_secrets w)
    (w_files w) (w_now w) (w_spoke w).
Definition with_dataimages (l : list DataImage) (w : world) : world :=
  mkWorld (w_icis w) (w_bmhs w) l (w_cds w) (w_imagesets w) (w_configmaps w) (w_secrets w)
    (w_files w) (w_now w) (w_spoke w).
Definition with_configmaps (l : list ConfigMap) (w : world) : world :=
  mkWorld (w_icis w) (w_bmhs w) (w_dataimages w) (w_cds w) (w_imagesets w) l (w_secrets w)
    (w_files w) (w_now w) (w_spoke w).
Definition with_secrets (l : list Secret) (w : world) : world :=
  mkWorld (w_icis w) (w_bmhs w) (w_dataimages w) (w_cds w) (w_imagesets w) (w_configmaps w) l
    (w_files w) (w_now w) (w_spoke w).
Definition with_files (f : gmap string string) (w : world) : world :=
  mkWorld (w_icis w) (w_bmhs w) (w_dataimages w) (w_cds w) (w_imagesets w) (w_configmaps w) (w_secrets w)
    f (w_now w) (w_spoke w).
Definition with_now (t : time) (w : world) : world :=
  mkWorld (w_icis w) (w_bmhs w) (w_dataimages w) (w_cds w) (w_imagesets w) (w_configmaps w) (w_secrets w)
    (w_files w) t (w_spoke w).

Definition with_spoke (c : list ClusterOperatorStatusCondition * list Node) (w : world) : world :=
  mkWorld (w_icis w) (w_bmhs w) (w_dataimages w) (w_cds w) (w_imagesets w) (w_configmaps w) (w_secrets w)
    (w_files w) (w_now w) c.

(** Whether [path] is [dir] or lies below it. *)
Definition under (dir path : string) : bool :=
  bool_decide (path = dir) || String.prefix (dir +:+ "/") path.

(** The files the installer leaves in its work directory. *)
Definition installed_files (dir : string) : list (string * string) :=
  [ (filepath_Join [dir; "imagebasedconfig.iso"], "iso");
    (filepath_Join [dir; "auth"; "kubeadmin-password"], "password");
    (filepath_Join [dir; "auth"; "kubeconfig"], "kubeconfig");
    (filepath_Join [dir; "cluster-configuration"; "manifest.json"], "seed") ].

Definition set_DeletionTimestamp (t : time) (m : ObjectMeta) : ObjectMeta :=
  mkMeta (om_Name m) (om_Namespace m) (om_UID m) (om_Labels m) (om_Annotations m) (om_Finalizers m)
    (om_OwnerReferences m) (om_CreationTimestamp m) t.
Definition set_CreationTimestamp (t : time) (m : ObjectMeta) : ObjectMeta :=
  mkMeta (om_Name m) (om_Namespace m) (om_UID m) (om_Labels m) (om_Annotations m) (om_Finalizers m)
    (om_OwnerReferences m) t (om_DeletionTimestamp m).

Definition delete_di (d : DataImage) (w : world) : option goerror * world :=
  match lookup_obj di_Meta (meta_key (di_Meta d)) (w_dataimages w) with
  | Err e => (Some e, w)
  | Ok o =>
      match om_Finalizers (di_Meta o) with
      | [] => (None, with_dataimages (remove_obj di_Meta (meta_key (di_Meta d)) (w_dataimages w)) w)
      | _ => (None, with_dataimages
               (replace_obj di_Meta (mkDataImage (set_DeletionTimestamp (w_now w) (di_Meta o))
                                       (di_URL o) (di_AttachedImageURL o)) (w_dataimages w)) w)
      end
  end.

Definition handle (a : call) (w : world) : answer a * world :=
  match a as a' return answer a' * world with
  | GetICI k => (lookup_obj ici_Meta k (w_icis w), w)
  | GetBMH k => (lookup_obj bmh_Meta k (w_bmhs w), w)
  | GetDataImage k => (lookup_obj di_Meta k (w_dataimages w), w)
  | GetCD k => (lookup_obj cd_Meta k (w_cds w), w)
  | GetClusterImageSet k => (lookup_obj cis_Meta k (w_imagesets w), w)
  | GetConfigMap k => (lookup_obj cm_Meta k (w_configmaps w), w)
  | GetSecret _ k => (lookup_obj secret_Meta k (w_secrets w), w)
  | ListICI _ => (Ok (w_icis w), w)
  | PatchICI _ o | StatusPatchICI _ o | StatusUpdateICI o =>
      let '(r, l) := write_obj ici_Meta o (w_icis w) in (r, with_icis l w)
  | PatchBMH _ o => let '(r, l) := write_obj bmh_Meta o (w_bmhs w) in (r, with_bmhs l w)
  | PatchConfigMap _ o => let '(r, l) := write_obj cm_Meta o (w_configmaps w) in (r, with_configmaps l w)
  | PatchSecret _ o | UpdateSecret o =>
      let '(r, l) := write_obj secret_Meta o (w_secrets w) in (r, with_secrets l w)
  | CreateSecret o => (Ok o, with_secrets (o :: w_secrets w) w)
  | CreateDataImage o =>
      let o' := mkDataImage (set_CreationTimestamp (w_now w) (di_Meta o)) (di_URL o) (di_AttachedImageURL o) in
      (Ok o', with_dataimages (o' :: w_dataimages w) w)
  | DeleteDataImage d => delete_di d w
  | GVKForObject s => (Ok (mkGVK "v1" s), w)
  | NewClientConfigFromBytes _ | ClientConfig _ | NewSpokeClient _ => (None, w)
  | SpokeGetConfigMap _ k => (Ok (mkConfigMap (new_meta (key_Name k) (key_Namespace k)) ∅), w)
  | SpokeGetClusterVersion _ _ => (Ok (w_spoke w).1, w)
  | SpokeListNodes _ => (Ok (w_spoke w).2, w)
  | OsStat p =>
      (if existsb (λ f, under p f.1) (map_to_list (w_files w)) then StatOk
       else StatNotExist (ErrNew "no such file or directory"), w)
  | OsMkdirAll p _ => (None, with_files (<[p := "dir"]> (w_files w)) w)
  | OsRemoveAll p => (None, with_files (filter (λ f, under p f.1 = false) (w_files w)) w)
  | OsWriteFile p d _ => (None, with_files (<[p := d]> (w_files w)) w)
  | OsReadFile p =>
      (match w_files w !! p with
       | Some d => Ok d
       | None => Err (ErrNew "no such file or directory")
       end, w)
  | OsMkdirTemp _ p => (Ok ("/tmp/" +:+ p), w)
  | FlockTryLock _ | FlockTryRLock _ => (Ok true, w)
  | FlockUnlock _ => (None, w)
  | TimeNow => (w_now w, with_now (w_now w + Second)%Z w)
  | MapRange => ([], w)
  | NewUUID => ("11111111-2222-3333-4444-555555555555", w)
  | RandString n => (of_bytes (replicate n "x"%char), w)
  | FetchAndPersist d =>
      (None, with_files (foldr (λ f m, <[f.1 := f.2]> m) (w_files w) (installed_files d)) w)
  | NewStore _ => (None, w)
  | FetchClusterConfiguration _ =>
      (Ok (mkClusterConfiguration "cluster-configuration/manifest.json"
             (mkSeedReconfiguration "seed" "seed" "id" "infra" "newhash" "newcrypto" "rest")), w)
  | FetchImageBasedAdminClient _ => (Ok "auth/kubeconfig", w)
  | FetchKubeadminPassword _ => (Ok "auth/kubeadmin-password", w)
  end.

(** ** Sample objects *)

(** A pull secret with one registry. *)
Definition pull_secret0 : string :=
  of_bytes (json_print (docker_config [("quay.io", (bytes_of "user", bytes_of "pass"))])).

Definition spec0 : ICISpec :=
  mkICISpec (Some "cd") "imageset" None "" "host" "" None None None
    (Some (mkBMHRef "bmh" "bmh-ns")) "" None None None.
Definition ici0 : ImageClusterInstall :=
  mkICI (mkMeta "ici" "ns" "uid" None None ["imageclusterinstall.extensions.hive.openshift.io/deprovision"]
           [] 1%Z 0%Z) spec0 (mkICIStatus [] 0%Z None 0%Z).
Definition bmh0 : BareMetalHost :=
  mkBMH (mkMeta "bmh" "bmh-ns" "bmh-uid" None None [] [] 1%Z 0%Z) false false "metadata" ""
    "available" (Some [mkNIC "aa:bb" "192.168.0.5"]) true.
Definition cd0 : ClusterDeployment :=
  mkCD (mkMeta "cd" "ns" "cd-uid" None None [] [] 1%Z 0%Z) "My_Cluster" "example.com" (Some "ps") None.
Definition secret0 (name key data : string) : Secret :=
  mkSecret (mkMeta name "ns" "s-uid" None None [] [] 1%Z 0%Z) (Some {[key := data]}) "Opaque".
Definition world0 : world :=
  mkWorld [ici0] [bmh0] [] [cd0] [mkCIS (new_meta "imageset" "ns") "quay.io/ocp/release:4"] []
    [secret0 "ps" ".dockerconfigjson" pull_secret0] ∅ (100 * Second)%Z ([], []).
(** [ici0] once its IDs are chosen. *)
Definition ici1 : ImageClusterInstall :=
  set_Spec_ClusterMetadata (Some (mkClusterMetadata "id" "infra" "cd-admin-kubeconfig"
                                    (Some "cd-admin-password") None None)) ici0.
Definition req0 : NamespacedName := mkKey "ns" "ici".

End Sim.
