(* ===== verification/NetIP.v ===== *)
(** * IP addresses and networks: [net.ParseIP], [net.ParseCIDR], [IPNet.Contains]

    An address is the list of its bytes (4 or 16, numbers below 256), as Go's
    [net.IP].  The parsers follow [netip.ParseAddr], which both functions use.
    The second half reads addresses and networks as 128-bit numbers and shows
    that [Contains] is membership by prefix. *)
From stdpp Require Import base gmap strings list.
From Stdlib Require Import ZArith Lia Ascii.
From S2P Require Import Prelude GoStd.
Local Open Scope Z_scope.

Module NetIP.

Definition code (c : ascii) : Z := Z.of_nat (nat_of_ascii c).
Definition is_digit (c : ascii) : bool := (48 <=? code c) && (code c <=? 57).

(** The value of a hexadecimal digit. *)
Definition hex_value (c : ascii) : option Z :=
  let n := code c in
  if (48 <=? n) && (n <=? 57) then Some (n - 48)
  else if (97 <=? n) && (n <=? 102) then Some (n - 87)
  else if (65 <=? n) && (n <=? 70) then Some (n - 55)
  else None.

(** [parseIPv4Fields]: [val], [digLen] and [fields] are the loop's variables,
    [prev_dot] tells whether the previous character was a dot (or there is none). *)
Fixpoint parseIPv4Fields (s : list ascii) (val : Z) (digLen : nat) (prev_dot : bool)
    (fields : list Z) : option (list Z) :=
  match s with
  | [] => if Nat.ltb (length fields) 3 then None else Some (fields ++ [val])
  | c :: s' =>
      if is_digit c then
        if Nat.eqb digLen 1 && (val =? 0) then None
        else
          let val' := val * 10 + (code c - 48) in
          if 255 <? val' then None else parseIPv4Fields s' val' (S digLen) false fields
      else if bool_decide (c = "."%char) then
        if prev_dot || bool_decide (s' = []) || Nat.eqb (length fields) 3 then None
        else parseIPv4Fields s' 0 0 true (fields ++ [val])
      else None
  end.
Definition parseIPv4 (s : list ascii) : option (list Z) := parseIPv4Fields s 0 0 true [].

(** The hexadecimal group at the front: its value, its length, and what follows.
    More than four digits make the address invalid. *)
Fixpoint hex_group (s : list ascii) (acc : Z) (off : nat) : option (Z * nat * list ascii) :=
  match s with
  | [] => Some (acc, off, [])
  | c :: s' =>
      match hex_value c with
      | None => Some (acc, off, s)
      | Some v => if Nat.ltb 3 off then None else hex_group s' (acc * 16 + v) (S off)
      end
  end.

(** The loop of [parseIPv6]; [ip] are the bytes parsed so far, [ellipsis] the
    position of the double colon.  Each iteration adds two bytes, so 8 rounds
    are all there can be.  Returns the bytes, the ellipsis and the rest. *)
Fixpoint parse6_loop (fuel : nat) (s : list ascii) (ip : list Z) (ellipsis : option nat)
    : option (list Z * option nat * list ascii) :=
  match fuel with
  | O => Some (ip, ellipsis, s)
  | S fuel' =>
      match hex_group s 0 0 with
      | None => None
      | Some (_, O, _) => None
      | Some (acc, _, rest) =>
          match rest with
          | c :: rest' =>
              if bool_decide (c = "."%char) then
                if bool_decide (ellipsis = None) && negb (Nat.eqb (length ip) 12) then None
                else if Nat.ltb 16 (length ip + 4) then None
                else match parseIPv4 s with
                     | None => None
                     | Some v4 => Some (ip ++ v4, ellipsis, [])
                     end
              else
                let ip' := ip ++ [Z.shiftr acc 8; Z.land acc 255] in
                if negb (bool_decide (c = ":"%char)) then None
                else match rest' with
                     | [] => None
                     | d :: rest'' =>
                         if bool_decide (d = ":"%char) then
                           match ellipsis with
                           | Some _ => None
                           | None =>
                               match rest'' with
                               | [] => Some (ip', Some (length ip'), [])
                               | _ => parse6_loop fuel' rest'' ip' (Some (length ip'))
                               end
                           end
                         else parse6_loop fuel' rest' ip' ellipsis
                     end
          | [] => Some (ip ++ [Z.shiftr acc 8; Z.land acc 255], ellipsis, [])
          end
      end
  end.

(** [parseIPv6] of an address without zone (a zone is refused by the callers). *)
Definition parseIPv6 (s : list ascii) : option (list Z) :=
  let '(ellipsis, s') :=
    match s with
    | a :: b :: s' => if bool_decide (a = ":"%char) && bool_decide (b = ":"%char)
                      then (Some O, s') else (None, s)
    | _ => (None, s)
    end in
  if bool_decide (ellipsis = Some O) && bool_decide (s' = []) then Some (replicate 16 0)
  else
    match parse6_loop 8 s' [] ellipsis with
    | None => None
    | Some (ip, ell, rest) =>
        if negb (bool_decide (rest = [])) then None
        else if Nat.ltb (length ip) 16 then
          match ell with
          | None => None
          | Some e => Some (take e ip ++ replicate (16 - length ip)%nat 0 ++ drop e ip)
          end
        else if bool_decide (ell = None) then Some ip else None
    end.

(** [netip.ParseAddr] for addresses without zone: the first dot or colon decides. *)
Fixpoint addr_kind (s : list ascii) : option bool :=
  match s with
  | [] => None
  | c :: s' =>
      if bool_decide (c = "."%char) then Some true
      else if bool_decide (c = ":"%char) then Some false
      else if bool_decide (c = "%"%char) then None
      else addr_kind s'
  end.
Definition ParseAddr (s : string) : option (list Z) :=
  let bs := bytes_of s in
  match addr_kind bs with
  | None => None
  | Some true => parseIPv4 bs
  | Some false => if existsb (λ c, bool_decide (c = "%"%char)) bs then None else parseIPv6 bs
  end.

(** [Addr.As16] and [IP.To4]. *)
Definition v4InV6Prefix : list Z := [0; 0; 0; 0; 0; 0; 0; 0; 0; 0; 255; 255].
Definition As16 (a : list Z) : list Z := if Nat.eqb (length a) 4 then v4InV6Prefix ++ a else a.
Definition To4 (ip : list Z) : option (list Z) :=
  if Nat.eqb (length ip) 4 then Some ip
  else if Nat.eqb (length ip) 16 && bool_decide (take 12 ip = v4InV6Prefix)
       then Some (drop 12 ip) else None.

(** [net.ParseIP]. *)
Definition ParseIP (s : string) : option (list Z) := As16 <$> ParseAddr s.

(** [dtoi]: the decimal number at the front of the mask; all of it must be one. *)
Fixpoint dtoi_loop (s : list ascii) (n : Z) : option Z :=
  match s with
  | [] => Some n
  | c :: s' =>
      if is_digit c then
        let n' := n * 10 + (code c - 48) in
        if 16777215 <=? n' then None else dtoi_loop s' n'
      else None
  end.
Definition dtoi (s : list ascii) : option Z :=
  match s with [] => None | _ => dtoi_loop s 0 end.

(** [net.CIDRMask(ones, bits)], [l] being the number of bytes. *)
Fixpoint CIDRMask (ones : Z) (l : nat) : list Z :=
  match l with
  | O => []
  | S l' =>
      if 8 <=? ones then 255 :: CIDRMask (ones - 8) l'
      else Z.land (Z.lnot (Z.shiftr 255 ones)) 255 :: CIDRMask 0 l'
  end.

(** Byte-wise conjunction of two lists of equal length. *)
Definition land_bytes (a m : list Z) : list Z := zip_with Z.land a m.

(** [IP.Mask]; [None] is the nil address of mismatching lengths. *)
Definition IP_Mask (ip mask : list Z) : option (list Z) :=
  let mask := if Nat.eqb (length mask) 16 && Nat.eqb (length ip) 4
                 && bool_decide (take 12 mask = replicate 12 255) then drop 12 mask else mask in
  let ip := if Nat.eqb (length mask) 4 && Nat.eqb (length ip) 16
               && bool_decide (take 12 ip = v4InV6Prefix) then drop 12 ip else ip in
  if Nat.eqb (length ip) (length mask) then Some (land_bytes ip mask) else None.

Record IPNet := mkIPNet { net_IP : list Z; net_Mask : list Z }.

(** The text before and after the first slash. *)
Fixpoint cut_slash (s : list ascii) : option (list ascii * list ascii) :=
  match s with
  | [] => None
  | c :: s' =>
      if bool_decide (c = "/"%char) then Some ([], s')
      else '(a, b) ← cut_slash s'; Some (c :: a, b)
  end.

(** [net.ParseCIDR]: the address and the network; [None] is any error. *)
Definition ParseCIDR (s : string) : option (list Z * IPNet) :=
  match cut_slash (bytes_of s) with
  | None => None
  | Some (addr, mask) =>
      match ParseAddr (of_bytes addr), dtoi mask with
      | Some a, Some n =>
          if 8 * Z.of_nat (length a) <? n then None
          else
            let m := CIDRMask n (length a) in
            Some (As16 a, mkIPNet (default [] (IP_Mask (As16 a) m)) m)
      | _, _ => None
      end
  end.

(** [networkNumberAndMask]. *)
Definition networkNumberAndMask (n : IPNet) : option (list Z * list Z) :=
  let ip := match To4 (net_IP n) with Some ip4 => ip4 | None => net_IP n end in
  if negb (Nat.eqb (length ip) 4) && negb (Nat.eqb (length ip) 16) then None
  else
    let m := net_Mask n in
    if Nat.eqb (length m) 4 then if Nat.eqb (length ip) 4 then Some (ip, m) else None
    else if Nat.eqb (length m) 16 then
      Some (ip, if Nat.eqb (length ip) 4 then drop 12 m else m)
    else None.

(** [IPNet.Contains]. *)
Definition Contains (n : IPNet) (ip : list Z) : bool :=
  let '(nn, m) := default ([], []) (networkNumberAndMask n) in
  let ip := match To4 ip with Some x => x | None => ip end in
  Nat.eqb (length ip) (length nn) && bool_decide (land_bytes nn m = land_bytes ip m).

(** ** Addresses as numbers *)

Definition byte_range (b : Z) : Prop := 0 <= b < 256.

(** The number a list of bytes denotes, most significant byte first. *)
Fixpoint value (bs : list Z) : Z :=
  match bs with
  | [] => 0
  | b :: bs' => b * 2 ^ (8 * Z.of_nat (length bs')) + value bs'
  end.

(** The 128-bit number of an address, IPv4 addresses being mapped to IPv6. *)
Definition address (s : string) : option Z := value <$> ParseIP s.

(** The address and the length of the prefix of a network, both of 128 bits. *)
Definition network (s : string) : option (Z * Z) :=
  '(addr, mask) ← cut_slash (bytes_of s);
  a ← ParseAddr (of_bytes addr);
  n ← dtoi mask;
  if 8 * Z.of_nat (length a) <? n then None
  else Some (value (As16 a), 8 * (16 - Z.of_nat (length a)) + n).

(** Two 128-bit numbers have the same first [n] bits. *)
Definition same_prefix (n x y : Z) : Prop := x / 2 ^ (128 - n) = y / 2 ^ (128 - n).

(** A mapped IPv4 address. *)
Definition mapped (x : Z) : Prop := same_prefix 96 x (value (v4InV6Prefix ++ [0; 0; 0; 0])).

(** The address [x] belongs to the network: it shares the prefix, and a mapped
    IPv4 address belongs only to networks of mapped IPv4 addresses. *)
Definition in_network (x : Z) (net : Z * Z) : Prop :=
  same_prefix net.2 net.1 x ∧ (mapped x → 96 <= net.2).

Lemma value_range bs : Forall byte_range bs → 0 <= value bs < 2 ^ (8 * Z.of_nat (length bs)).
Proof.
  induction 1 as [|b bs [? ?] _ IH]; cbn [value length]; [by simpl|].
  rewrite Nat2Z.inj_succ, Z.mul_succ_r, Z.pow_add_r by lia. nia.
Qed.

Lemma value_app a b : value (a ++ b) = value a * 2 ^ (8 * Z.of_nat (length b)) + value b.
Proof.
  induction a as [|x a IH]; [done|]. cbn [value app]. rewrite IH, length_app, Nat2Z.inj_add, Z.mul_add_distr_l.
  rewrite Z.pow_add_r by lia. ring.
Qed.

Lemma digits_inj m x y u v : 0 <= u < m → 0 <= v < m → x * m + u = y * m + v ↔ x = y ∧ u = v.
Proof.
  intros Hu Hv. split; [|by intros [-> ->]]. intros Heq.
  apply (Z.div_mod_unique m); [by left..|lia].
Qed.

Lemma value_inj a b :
  Forall byte_range a → Forall byte_range b → length a = length b → value a = value b → a = b.
Proof.
  intros Ha. revert b. induction Ha as [|x a _ Ha IH]; intros [|y b] Hb Hl; try done.
  apply Forall_cons in Hb as [_ Hb]. injection Hl as Hl. cbn [value]. rewrite Hl. intros Heq.
  pose proof (value_range _ Ha) as Ra. pose proof (value_range _ Hb) as Rb. rewrite Hl in Ra.
  apply digits_inj in Heq as [-> ?]; [|done..]. f_equal. by apply IH.
Qed.

(** *** Masks *)

Lemma land_bytes_app a b m n : length a = length m →
  land_bytes (a ++ b) (m ++ n) = land_bytes a m ++ land_bytes b n.
Proof. apply zip_with_app. Qed.

Lemma land_bytes_idemp a m : length a = length m → land_bytes (land_bytes a m) m = land_bytes a m.
Proof.
  unfold land_bytes. revert m. induction a as [|x a IH]; intros [|y m] Hl; simpl; try done.
  rewrite <- Z.land_assoc, Z.land_diag. f_equal. apply IH. by injection Hl.
Qed.

Lemma length_CIDRMask n l : length (CIDRMask n l) = l.
Proof. revert n. induction l as [|l IH]; intros n; [done|]. simpl. case_match; simpl; by rewrite IH. Qed.

Lemma land_zero a l : length a = l → land_bytes a (CIDRMask 0 l) = replicate l 0.
Proof.
  revert a. induction l as [|l IH]; intros [|x a] Hl; try done. simpl in *.
  change (land_bytes (x :: a) (0 :: CIDRMask 0 l) = 0 :: replicate l 0). unfold land_bytes in *. simpl.
  rewrite Z.land_0_r. f_equal. apply IH. by injection Hl.
Qed.

Lemma land_255 x : byte_range x → Z.land x 255 = x.
Proof. intros [? ?]. change 255 with (Z.ones 8). rewrite Z.land_ones, Z.mod_small by (simpl; lia). done. Qed.

(** The partial byte of a mask keeps the first [n] bits. *)
Lemma land_partial x n : byte_range x → 0 <= n < 8 →
  Z.land x (Z.land (Z.lnot (Z.shiftr 255 n)) 255) = x / 2 ^ (8 - n) * 2 ^ (8 - n).
Proof.
  intros Hx Hn. assert (Z.land (Z.lnot (Z.shiftr 255 n)) 255 = Z.shiftl (Z.ones n) (8 - n)) as ->.
  { assert (n = 0 ∨ n = 1 ∨ n = 2 ∨ n = 3 ∨ n = 4 ∨ n = 5 ∨ n = 6 ∨ n = 7) as Hc by lia.
    by repeat destruct Hc as [->|Hc]; [..|subst n]. }
  rewrite <- Z.shiftr_div_pow2, <- Z.shiftl_mul_pow2 by lia. apply Z.bits_inj'. intros i Hi.
  rewrite Z.land_spec, !Z.shiftl_spec by lia. destruct (Z.ltb_spec i (8 - n)).
  - rewrite !(Z.testbit_neg_r _ (i - (8 - n))) by lia. apply andb_false_r.
  - rewrite Z.shiftr_spec by lia. replace (i - (8 - n) + (8 - n)) with i by lia.
    destruct (Z.ltb_spec i 8).
    + rewrite Z.ones_spec_low by lia. apply andb_true_r.
    + replace (Z.testbit x i) with false; [done|]. symmetry. rewrite <- (Z.mod_small x (2 ^ 8)) by (simpl; apply Hx).
      apply Z.mod_pow2_bits_high. lia.
Qed.

Lemma div_cons x v l n : 0 <= v < 2 ^ (8 * l) → 0 <= l → 0 <= n → n <= 8 →
  (x * 2 ^ (8 * l) + v) / 2 ^ (8 * Z.succ l - n) = x / 2 ^ (8 - n).
Proof.
  intros Hv Hl Hn Hn8. replace (8 * Z.succ l - n) with (8 * l + (8 - n)) by lia.
  pose proof (Z.pow_pos_nonneg 2 (8 - n) ltac:(lia) ltac:(lia)).
  rewrite Z.pow_add_r, <- Z.div_div by lia. by rewrite Z.div_add_l, (Z.div_small v), Z.add_0_r by lia.
Qed.

(** Masked addresses are equal when the numbers have the same prefix. *)
Lemma masked_eq l a b n :
  length a = l → length b = l → Forall byte_range a → Forall byte_range b → 0 <= n <= 8 * Z.of_nat l →
  land_bytes a (CIDRMask n l) = land_bytes b (CIDRMask n l) ↔
  value a / 2 ^ (8 * Z.of_nat l - n) = value b / 2 ^ (8 * Z.of_nat l - n).
Proof.
  revert a b n. induction l as [|l IH]; intros [|x a] [|y b] n La Lb Ha Hb Hn; try done.
  apply Forall_cons in Ha as [Hx Ha], Hb as [Hy Hb]. injection La as La. injection Lb as Lb.
  cbn [value]. rewrite La, Lb, Nat2Z.inj_succ.
  pose proof (value_range a Ha) as Ra. pose proof (value_range b Hb) as Rb. rewrite La in Ra. rewrite Lb in Rb.
  cbn [CIDRMask]. destruct (Z.leb_spec 8 n).
  - unfold land_bytes in *. cbn [zip_with]. rewrite !land_255 by done.
    specialize (IH a b (n - 8) La Lb Ha Hb ltac:(lia)).
    replace (8 * Z.succ (Z.of_nat l) - n) with (8 * Z.of_nat l - (n - 8)) by lia.
    set (k := 8 * Z.of_nat l - (n - 8)) in *. assert (Hk : 0 <= k <= 8 * Z.of_nat l) by lia.
    replace (8 * Z.of_nat l) with ((8 * Z.of_nat l - k) + k) by lia.
    rewrite Z.pow_add_r, !Z.mul_assoc, !Z.div_add_l by lia.
    assert (0 <= value a / 2 ^ k < 2 ^ (8 * Z.of_nat l - k) ∧ 0 <= value b / 2 ^ k < 2 ^ (8 * Z.of_nat l - k)) as [??].
    { rewrite <- (Z.sub_add k (8 * Z.of_nat l)), Z.pow_add_r in Ra, Rb by lia.
      pose proof (Z.pow_pos_nonneg 2 k ltac:(lia) ltac:(lia)).
      split; split; [apply Z.div_pos| |apply Z.div_pos|]; try lia; apply Z.div_lt_upper_bound; lia. }
    rewrite digits_inj, <- IH by done. split; [by intros [= -> ->]|by intros [-> ->]].
  - rewrite !div_cons by lia. unfold land_bytes in *. cbn [zip_with]. rewrite !land_partial by (done || lia).
    pose proof (land_zero a l La) as Za. pose proof (land_zero b l Lb) as Zb. unfold land_bytes in *. rewrite Za, Zb.
    split; [intros [= Heq]|by intros ->]. apply Z.mul_reg_r in Heq; [done|]. apply Z.pow_nonzero; lia.
Qed.

(** *** What the parsers return *)

(** Bytes of an address. *)
Definition is_addr (a : list Z) : Prop := Forall byte_range a ∧ (length a = 4 ∨ length a = 16)%nat.

Lemma parseIPv4Fields_ok s val dl pd fields r :
  Forall byte_range fields → (length fields ≤ 3)%nat → byte_range val →
  parseIPv4Fields s val dl pd fields = Some r → Forall byte_range r ∧ length r = 4%nat.
Proof.
  assert (Hsnoc : ∀ fs v, Forall byte_range fs → byte_range v → Forall byte_range (fs ++ [v])).
  { intros. apply Forall_app. auto. }
  revert val dl pd fields. induction s as [|c s IH]; intros val dl pd fields Hf Hl Hv; cbn [parseIPv4Fields].
  - destruct (Nat.ltb_spec (length fields) 3); [done|]. intros [= <-].
    split; [auto|]. rewrite length_app. simpl. lia.
  - destruct (is_digit c) eqn:Hd.
    + destruct (_ && _); [done|]. destruct (Z.ltb_spec 255 (val * 10 + (code c - 48))); [done|].
      apply andb_true_iff in Hd as [?%Z.leb_le ?%Z.leb_le]. apply IH; [done..|]. unfold byte_range in *. lia.
    + case_bool_decide; [|done]. destruct (_ || _) eqn:Ho; [done|]. apply orb_false_iff in Ho as [_ ?%Nat.eqb_neq].
      apply IH; [auto| |by unfold byte_range]. rewrite length_app. simpl. lia.
Qed.

Lemma parseIPv4_ok s r : parseIPv4 s = Some r → Forall byte_range r ∧ length r = 4%nat.
Proof. apply parseIPv4Fields_ok; [constructor|simpl; lia|by unfold byte_range]. Qed.

Lemma hex_value_range c v : hex_value c = Some v → 0 <= v < 16.
Proof.
  unfold hex_value. repeat case_match; intros; simplify_eq;
    repeat match goal with H : (_ && _) = true |- _ => apply andb_true_iff in H as [?%Z.leb_le ?%Z.leb_le] end; lia.
Qed.

Lemma hex_group_range s acc off v n rest :
  (off ≤ 4)%nat → 0 <= acc < 16 ^ Z.of_nat off → hex_group s acc off = Some (v, n, rest) → 0 <= v < 65536.
Proof.
  assert (H4 : ∀ off x, (off ≤ 4)%nat → 0 <= x < 16 ^ Z.of_nat off → 0 <= x < 65536).
  { intros o x Ho Hx. assert (16 ^ Z.of_nat o <= 16 ^ 4) by (apply Z.pow_le_mono_r; lia). simpl in *. lia. }
  revert acc off. induction s as [|c s IH]; intros acc off Ho Ha; cbn [hex_group]; [intros [= <- _ _]; eauto|].
  destruct (hex_value c) as [d|] eqn:Hd; [|intros [= <- _ _]; eauto]. apply hex_value_range in Hd.
  destruct (Nat.ltb_spec 3 off); [done|]. apply IH; [lia|].
  rewrite Nat2Z.inj_succ, Z.pow_succ_r by lia. lia.
Qed.

Lemma group_bytes v : 0 <= v < 65536 → Forall byte_range [Z.shiftr v 8; Z.land v 255].
Proof.
  intros Hv. change 255 with (Z.ones 8). rewrite Z.land_ones, Z.shiftr_div_pow2 by lia.
  apply Forall_cons. split; [|apply Forall_singleton; by apply Z.mod_pos_bound].
  split; [apply Z.div_pos; [apply Hv|done]|]. apply Z.div_lt_upper_bound; [done|]. apply Hv.
Qed.

Lemma hex_group_ok s v n rest : hex_group s 0 0 = Some (v, n, rest) →
  Forall byte_range [Z.shiftr v 8; Z.land v 255].
Proof. intros ?%hex_group_range; [by apply group_bytes|lia|simpl; lia]. Qed.

Lemma parse6_loop_ok fuel s ip ell r ell' rest :
  Forall byte_range ip → (length ip + 2 * fuel ≤ 16)%nat → (∀ e, ell = Some e → (e ≤ length ip)%nat) →
  parse6_loop fuel s ip ell = Some (r, ell', rest) →
  Forall byte_range r ∧ (length r ≤ 16)%nat ∧ (∀ e, ell' = Some e → (e ≤ length r)%nat).
Proof.
  revert s ip ell. induction fuel as [|fuel IH]; intros s ip ell Hip Hl He; cbn [parse6_loop].
  { intros [= <- <- <-]. split_and!; [done|lia|done]. }
  destruct (hex_group s 0 0) as [[[acc [|n]] [|c rest']]|] eqn:Hg; try done; apply hex_group_ok in Hg.
  all: set (ip' := ip ++ _); assert (Hip' : Forall byte_range ip') by (by apply Forall_app);
    assert (Hl' : length ip' = (length ip + 2)%nat) by (unfold ip'; by rewrite length_app);
    assert (He' : ∀ e, ell = Some e → (e ≤ length ip')%nat) by (intros e ?%He; lia); clearbody ip'.
  - intros [= <- <- <-]. split_and!; [done|lia|done].
  - case_bool_decide.
    + destruct (_ && _); [done|]. destruct (Nat.ltb_spec 16 (length ip + 4)); [done|].
      destruct (parseIPv4 s) as [v4|] eqn:H4; [|done]. apply parseIPv4_ok in H4 as [??]. intros [= <- <- <-].
      rewrite length_app. split_and!; [by apply Forall_app|lia|intros e ?%He; lia].
    + destruct (negb _); [done|]. destruct rest' as [|d rest'']; [done|]. case_bool_decide.
      * destruct ell; [done|]. destruct rest''.
        -- intros [= <- <- <-]. split_and!; [done|lia|by intros ? [= <-]].
        -- apply IH; [done|lia|by intros ? [= <-]].
      * apply IH; [done|lia|done].
Qed.

Lemma parseIPv6_ok s r : parseIPv6 s = Some r → Forall byte_range r ∧ length r = 16%nat.
Proof.
  unfold parseIPv6. destruct (match s with [] => _ | _ => _ end) as [ell s'] eqn:Hs.
  destruct (_ && _).
  { intros Hr. assert (r = replicate 16 0) as -> by congruence.
    split; [by apply Forall_replicate; unfold byte_range|done]. }
  destruct (parse6_loop 8 s' [] ell) as [[[ip ell'] rest]|] eqn:Hp; [|done].
  apply parse6_loop_ok in Hp as (Hip&Hl&He); [|constructor|simpl; lia|].
  - destruct (negb _); [done|]. destruct (Nat.ltb_spec (length ip) 16).
    + destruct ell' as [e|]; [|done]. specialize (He e eq_refl). intros [= <-]. split.
      * repeat apply Forall_app_2; [by apply Forall_take|by apply Forall_replicate; unfold byte_range|by apply Forall_drop].
      * rewrite !length_app, length_take, length_replicate, length_drop. lia.
    + case_bool_decide; [|done]. intros [= <-]. split; [done|lia].
  - intros e ->. destruct s as [|a [|b s0]]; try done. destruct (_ && _); [|done]. by injection Hs as <- _.
Qed.

Lemma ParseAddr_ok s a : ParseAddr s = Some a → is_addr a.
Proof.
  unfold ParseAddr. destruct (addr_kind _) as [[]|]; [| |done].
  - intros [? ?]%parseIPv4_ok. split; auto.
  - destruct (existsb _ _); [done|]. intros [? ?]%parseIPv6_ok. split; auto.
Qed.

Lemma v4InV6Prefix_bytes : Forall byte_range v4InV6Prefix.
Proof. unfold v4InV6Prefix. repeat (apply Forall_cons; split; [by unfold byte_range|]). by apply Forall_nil_2. Qed.

Lemma As16_ok a : is_addr a → Forall byte_range (As16 a) ∧ length (As16 a) = 16%nat.
Proof.
  intros [Ha Hl]. unfold As16. destruct (Nat.eqb_spec (length a) 4) as [H4|]; [|split; [done|lia]].
  split; [|by rewrite length_app, H4]. apply Forall_app. by split; [apply v4InV6Prefix_bytes|].
Qed.

Lemma dtoi_loop_nonneg s n m : 0 <= n → dtoi_loop s n = Some m → 0 <= m.
Proof.
  revert n. induction s as [|c s IH]; intros n Hn; cbn [dtoi_loop]; [by intros [= <-]|].
  destruct (is_digit c) eqn:Hd; [|done]. apply andb_true_iff in Hd as [?%Z.leb_le _].
  destruct (_ <=? _); [done|]. apply IH. lia.
Qed.
Lemma dtoi_nonneg s m : dtoi s = Some m → 0 <= m.
Proof. destruct s; [done|]. apply dtoi_loop_nonneg. done. Qed.

(** *** Membership *)

Lemma app_snoc_inv n (l : list Z) : length l = S n → ∃ l' x, l = l' ++ [x] ∧ length l' = n.
Proof.
  intros Hl. destruct l as [|x l' _] using rev_ind; [done|]. rewrite length_app in Hl. simpl in Hl.
  exists l', x. split; [done|lia].
Qed.

Lemma CIDRMask_app n a b : 0 <= n →
  CIDRMask n (a + b) = CIDRMask n a ++ CIDRMask (Z.max 0 (n - 8 * Z.of_nat a)) b.
Proof.
  revert n. induction a as [|a IH]; intros n Hn; [cbn [CIDRMask app Nat.add]; f_equal; lia|].
  cbn [CIDRMask app Nat.add]. destruct (Z.leb_spec 8 n); cbn [app]; f_equal; rewrite IH by lia; do 2 f_equal; lia.
Qed.

Lemma CIDRMask_ones n l : 8 * Z.of_nat l <= n → CIDRMask n l = replicate l 255.
Proof.
  revert n. induction l as [|l IH]; intros n Hn; [done|]. cbn [CIDRMask replicate].
  destruct (Z.leb_spec 8 n); [|lia]. f_equal. apply IH. lia.
Qed.

Lemma land_ones_id h : Forall byte_range h → land_bytes h (replicate (length h) 255) = h.
Proof. unfold land_bytes. induction 1 as [|x h ? _ IH]; simpl; [done|]. by rewrite land_255, IH. Qed.

(** A mask that does not cover all bytes ends in an even byte. *)
Lemma CIDRMask_even n l : 0 <= n < 8 * Z.of_nat (S l) →
  ∃ m b, CIDRMask n (S l) = m ++ [b] ∧ length m = l ∧ Z.testbit b 0 = false.
Proof.
  intros Hn. rewrite <- Nat.add_1_r, CIDRMask_app by lia. set (k := Z.max 0 _).
  assert (Hk : 0 <= k < 8) by lia. exists (CIDRMask n l), (Z.land (Z.lnot (Z.shiftr 255 k)) 255).
  split_and!; [cbn [CIDRMask]; destruct (Z.leb_spec 8 k); [lia|done]|apply length_CIDRMask|].
  rewrite Z.land_spec, Z.lnot_spec, Z.shiftr_spec by lia. change 255 with (Z.ones 8).
  by rewrite Z.ones_spec_low by lia.
Qed.

(** The first twelve bytes of a masked address are those of the mapped addresses
    only if they were, and the mask covers them. *)
Lemma masked_v4_prefix h n : Forall byte_range h → length h = 12%nat → 0 <= n →
  land_bytes h (CIDRMask n 12) = v4InV6Prefix ↔ h = v4InV6Prefix ∧ 96 <= n.
Proof.
  intros Hh Hl Hn. destruct (Z.leb_spec 96 n) as [H96|H96].
  - rewrite CIDRMask_ones, <- Hl, land_ones_id by (done || lia). split; [done|by intros [? _]].
  - split; [|lia]. destruct (CIDRMask_even n 11) as (m&b&->&Hm&Hb); [lia|].
    destruct (app_snoc_inv 11 h) as (h'&x&->&Hl'); [done|].
    rewrite land_bytes_app by congruence. intros Heq. exfalso.
    apply (f_equal last) in Heq. change (land_bytes [x] [b]) with [Z.land x b] in Heq.
    rewrite last_snoc in Heq. injection Heq as Heq.
    apply (f_equal (λ z, Z.testbit z 0)) in Heq. rewrite Z.land_spec, Hb, andb_false_r in Heq. done.
Qed.

Lemma same_prefix_le n m x y : n <= m <= 128 → same_prefix m x y → same_prefix n x y.
Proof.
  unfold same_prefix. intros Hn Hm. replace (128 - n) with ((128 - m) + (m - n)) by lia.
  pose proof (Z.pow_pos_nonneg 2 (m - n) ltac:(lia) ltac:(lia)).
  rewrite Z.pow_add_r, <- !Z.div_div by lia. by rewrite Hm.
Qed.

Lemma same_prefix_sym n x y : same_prefix n x y → same_prefix n y x.
Proof. unfold same_prefix. congruence. Qed.

(** A 16-byte address in two parts, the second of which is an IPv4 address. *)
Lemma split_16 a : Forall byte_range a → length a = 16%nat →
  ∃ h l, a = h ++ l ∧ Forall byte_range h ∧ Forall byte_range l ∧ length h = 12%nat ∧ length l = 4%nat ∧
    To4 a = (if decide (h = v4InV6Prefix) then Some l else None).
Proof.
  intros Ha Hl. exists (take 12 a), (drop 12 a). rewrite take_drop.
  split_and!; [done|by apply Forall_take|by apply Forall_drop|rewrite length_take; lia|rewrite length_drop; lia|].
  unfold To4. rewrite Hl. simpl. by case_bool_decide; case_decide.
Qed.

Lemma prefix_split h l h' l' n :
  length l = 4%nat → length l' = 4%nat → Forall byte_range l → Forall byte_range l' → 96 <= n <= 128 →
  same_prefix n (value (h ++ l)) (value (h' ++ l')) ↔
  value h = value h' ∧ value l / 2 ^ (128 - n) = value l' / 2 ^ (128 - n).
Proof.
  intros Hl Hl' Bl Bl' Hn. unfold same_prefix. rewrite !value_app, Hl, Hl'. change (8 * Z.of_nat 4) with 32.
  pose proof (value_range _ Bl) as Rl. pose proof (value_range _ Bl') as Rl'. rewrite Hl in Rl. rewrite Hl' in Rl'.
  change (8 * Z.of_nat 4) with 32 in *. set (k := 128 - n). assert (Hk : 0 <= k <= 32) by lia.
  pose proof (Z.pow_pos_nonneg 2 k ltac:(lia) ltac:(lia)).
  replace 32 with ((32 - k) + k) in * by lia. rewrite Z.pow_add_r, !Z.mul_assoc, !Z.div_add_l by lia.
  rewrite Z.pow_add_r in Rl, Rl' by lia. apply digits_inj.
  all: split; [apply Z.div_pos; lia|apply Z.div_lt_upper_bound; lia].
Qed.

Lemma mapped_split h l : length h = 12%nat → length l = 4%nat → Forall byte_range h → Forall byte_range l →
  mapped (value (h ++ l)) ↔ h = v4InV6Prefix.
Proof.
  intros Hh Hl Bh Bl. pose proof v4InV6Prefix_bytes.
  assert (Forall byte_range (replicate 4 0)) by (apply Forall_replicate; by unfold byte_range).
  unfold mapped. change [0; 0; 0; 0] with (replicate 4 0). rewrite prefix_split by (done || lia). split.
  - intros [? _]. by apply value_inj.
  - intros ->. split; [done|]. change (128 - 96) with 32.
    pose proof (value_range _ Bl) as Rl. rewrite Hl in Rl. by rewrite Z.div_small.
Qed.

(** [Contains] for a network of IPv4 addresses, and for the others. *)
Lemma contains_v4 net x k i :
  networkNumberAndMask net = Some (land_bytes x (CIDRMask k 4), CIDRMask k 4) →
  length x = 4%nat → Forall byte_range x → 0 <= k <= 32 → Forall byte_range i → length i = 16%nat →
  Contains net i = true ↔ in_network (value i) (value (v4InV6Prefix ++ x), 96 + k).
Proof.
  intros Hnet Hx Bx Hk Bi Hi. destruct (split_16 i Bi Hi) as (h&l&->&Bh&Bl&Hh&Hl&H4).
  unfold in_network, Contains. rewrite Hnet, H4. cbn [from_option id fst snd].
  assert (Hm : length (CIDRMask k 4) = 4%nat) by apply length_CIDRMask.
  assert (Hlx : length (land_bytes x (CIDRMask k 4)) = 4%nat).
  { unfold land_bytes. rewrite length_zip_with. lia. }
  rewrite prefix_split, Hlx by (done || lia). case_decide as Hp.
  - rewrite Hl, andb_true_l, bool_decide_eq_true, land_bytes_idemp, masked_eq by (congruence || done).
    subst h. replace (128 - (96 + k)) with (8 * Z.of_nat 4 - k) by lia.
    split; [intros ?; split; [done|lia]|by intros [[_ ?] _]].
  - rewrite length_app, Hh. split; [done|]. intros [[Hv _] _]. destruct Hp. symmetry.
    by apply value_inj; [apply v4InV6Prefix_bytes|..].
Qed.

Lemma contains_v6 net x n i :
  networkNumberAndMask net = Some (land_bytes x (CIDRMask n 16), CIDRMask n 16) →
  length x = 16%nat → Forall byte_range x → 0 <= n <= 128 → Forall byte_range i → length i = 16%nat →
  ¬ (mapped (value x) ∧ 96 <= n) →
  Contains net i = true ↔ in_network (value i) (value x, n).
Proof.
  intros Hnet Hx Bx Hn Bi Hi Hv6. destruct (split_16 i Bi Hi) as (h&l&->&Bh&Bl&Hh&Hl&H4).
  unfold in_network, Contains. rewrite Hnet, H4. cbn [from_option id fst snd].
  pose proof (length_CIDRMask n 16) as Hm.
  assert (Hlx : length (land_bytes x (CIDRMask n 16)) = 16%nat).
  { unfold land_bytes. rewrite length_zip_with. lia. }
  rewrite mapped_split, Hlx by done. case_decide as Hp.
  - rewrite Hl. split; [done|]. intros [Hs Hge]. destruct Hv6. specialize (Hge Hp). split; [|done].
    subst h. unfold mapped. pose proof (same_prefix_le 96 n _ _ ltac:(lia) Hs) as Hs'.
    unfold same_prefix in *. rewrite Hs'. by apply mapped_split.
  - rewrite Hi, andb_true_l, bool_decide_eq_true, land_bytes_idemp, masked_eq by (congruence || done).
    change (8 * Z.of_nat 16) with 128. split; [intros ?; by split|by intros [? _]].
Qed.

(** The network that [ParseCIDR] builds. *)
Definition cidr_net (x : list Z) (n : Z) : IPNet :=
  let m := CIDRMask n (length x) in mkIPNet (default [] (IP_Mask (As16 x) m)) m.

Lemma length_land_mask x n : length (land_bytes x (CIDRMask n (length x))) = length x.
Proof. unfold land_bytes. rewrite length_zip_with, length_CIDRMask. lia. Qed.

Lemma cidr_net_eq x n : (length x = 4 ∨ length x = 16)%nat →
  cidr_net x n = mkIPNet (land_bytes x (CIDRMask n (length x))) (CIDRMask n (length x)).
Proof.
  intros Hx. unfold cidr_net, IP_Mask, As16. pose proof (length_CIDRMask n (length x)) as Hm.
  set (m := CIDRMask n (length x)) in *. clearbody m.
  destruct Hx as [Hx|Hx]; rewrite Hx in *; rewrite Hm; cbn [Nat.eqb andb].
  - rewrite length_app, Hx, ?Hm. change (length v4InV6Prefix + 4)%nat with 16%nat. cbn [Nat.eqb andb].
    change (take 12 (v4InV6Prefix ++ x)) with v4InV6Prefix. rewrite bool_decide_eq_true_2 by done.
    change (drop 12 (v4InV6Prefix ++ x)) with x. by rewrite ?Hm, Hx.
  - rewrite ?Hx. cbn [Nat.eqb andb]. rewrite ?Hm. cbn [Nat.eqb andb]. by rewrite ?Hx.
Qed.

Lemma networkNumberAndMask_4 x n : length x = 4%nat →
  networkNumberAndMask (cidr_net x n) = Some (land_bytes x (CIDRMask n 4), CIDRMask n 4).
Proof.
  intros Hx. rewrite cidr_net_eq by auto. unfold networkNumberAndMask, To4. cbn [net_IP net_Mask].
  pose proof (length_land_mask x n) as Hl. rewrite Hx in *.
  rewrite Hl. cbn [Nat.eqb]. by rewrite Hl, length_CIDRMask.
Qed.

Lemma networkNumberAndMask_16 h l n :
  length h = 12%nat → length l = 4%nat → Forall byte_range h → 0 <= n →
  networkNumberAndMask (cidr_net (h ++ l) n) =
  Some (if decide (h = v4InV6Prefix ∧ 96 <= n)
        then (land_bytes l (CIDRMask (n - 96) 4), CIDRMask (n - 96) 4)
        else (land_bytes (h ++ l) (CIDRMask n 16), CIDRMask n 16)).
Proof.
  intros Hh Hl Bh Hn. assert (Hx : length (h ++ l) = 16%nat) by (rewrite length_app; lia).
  rewrite cidr_net_eq by auto. unfold networkNumberAndMask, To4. cbn [net_IP net_Mask].
  pose proof (length_land_mask (h ++ l) n) as Hlm. rewrite Hx in *. rewrite Hlm. cbn [Nat.eqb andb].
  pose proof (masked_v4_prefix h n Bh Hh Hn) as Hpre.
  pose proof (CIDRMask_app n 12 4 Hn) as Ha. change (12 + 4)%nat with 16%nat in Ha.
  pose proof (length_CIDRMask n 12) as Hm12. pose proof (length_CIDRMask (Z.max 0 (n - 8 * Z.of_nat 12)) 4) as Hm4.
  assert (Hland : land_bytes (h ++ l) (CIDRMask n 16) =
    land_bytes h (CIDRMask n 12) ++ land_bytes l (CIDRMask (Z.max 0 (n - 8 * Z.of_nat 12)) 4)).
  { rewrite Ha. apply land_bytes_app. congruence. }
  assert (Hlh : length (land_bytes h (CIDRMask n 12)) = 12%nat).
  { unfold land_bytes. rewrite length_zip_with. lia. }
  assert (Hll : length (land_bytes l (CIDRMask (Z.max 0 (n - 8 * Z.of_nat 12)) 4)) = 4%nat).
  { unfold land_bytes. rewrite length_zip_with. lia. }
  rewrite (bool_decide_ext _ (h = v4InV6Prefix ∧ 96 <= n)).
  2:{ rewrite <- Hpre, Hland, take_app_length'; done. }
  case_bool_decide as Hmap; case_decide; try done.
  - rewrite Hland, drop_app_length' by done. rewrite Hll. cbn [Nat.eqb negb andb].
    rewrite length_CIDRMask. cbn [Nat.eqb]. rewrite Ha, drop_app_length' by done.
    destruct Hmap as [_ ?]. by replace (Z.max 0 (n - 8 * Z.of_nat 12)) with (n - 96) by lia.
  - rewrite Hlm. cbn [Nat.eqb negb andb]. by rewrite length_CIDRMask.
Qed.

(** [Contains] on the networks [ParseCIDR] builds is membership of numbers. *)
Lemma contains_in_network x n i :
  is_addr x → 0 <= n <= 8 * Z.of_nat (length x) → Forall byte_range i → length i = 16%nat →
  Contains (cidr_net x n) i = true ↔
  in_network (value i) (value (As16 x), 8 * (16 - Z.of_nat (length x)) + n).
Proof.
  intros [Bx [Hx|Hx]] Hn Bi Hi; unfold As16; rewrite Hx in *; cbn [Nat.eqb].
  - change (8 * (16 - Z.of_nat 4)) with 96. apply contains_v4; try done. by apply networkNumberAndMask_4.
  - change (8 * (16 - Z.of_nat 16) + n) with n. destruct (split_16 x Bx Hx) as (h&l&->&Bh&Bl&Hh&Hl&_).
    pose proof (networkNumberAndMask_16 h l n Hh Hl Bh ltac:(lia)) as Hnet.
    pose proof (mapped_split h l Hh Hl Bh Bl) as Hmap. case_decide as Hd.
    + destruct Hd as [-> ?]. pose proof (contains_v4 _ l (n - 96) i Hnet Hl Bl ltac:(lia) Bi Hi) as Hc.
      by replace (96 + (n - 96)) with n in Hc by lia.
    + apply contains_v6; try done. by rewrite Hmap.
Qed.

(** The network address is an IPv4 address exactly for networks of IPv4 addresses. *)
Lemma To4_cidr_net x n : is_addr x → 0 <= n →
  is_Some (To4 (net_IP (cidr_net x n))) ↔
  mapped (value (As16 x)) ∧ 96 <= 8 * (16 - Z.of_nat (length x)) + n.
Proof.
  intros [Bx Hx] Hn. rewrite cidr_net_eq by done. cbn [net_IP]. unfold To4. rewrite length_land_mask.
  destruct Hx as [Hx|Hx]; unfold As16; rewrite Hx; cbn [Nat.eqb andb].
  - rewrite mapped_split by (done || apply v4InV6Prefix_bytes). split; [|by eauto]. split; [done|lia].
  - destruct (split_16 x Bx Hx) as (h&l&->&Bh&Bl&Hh&Hl&_). rewrite mapped_split by done.
    change (8 * (16 - Z.of_nat 16) + n) with n. rewrite <- masked_v4_prefix by done.
    pose proof (CIDRMask_app n 12 4 Hn) as Ha. change (12 + 4)%nat with 16%nat in Ha.
    rewrite Ha, land_bytes_app by (by rewrite length_CIDRMask).
    rewrite take_app_length' by (unfold land_bytes; rewrite length_zip_with, length_CIDRMask; lia).
    case_bool_decide; split; try done; by intros [? [=]].
Qed.

(** A network of IPv4 addresses. *)
Definition ipv4_network (s : string) : Prop := ∃ net, network s = Some net ∧ mapped net.1 ∧ 96 <= net.2.

Lemma ParseCIDR_network s :
  match ParseCIDR s with
  | None => network s = None
  | Some (_, ipnet) => ∃ x n, is_addr x ∧ 0 <= n <= 8 * Z.of_nat (length x) ∧ ipnet = cidr_net x n ∧
      network s = Some (value (As16 x), 8 * (16 - Z.of_nat (length x)) + n)
  end.
Proof.
  unfold ParseCIDR, network. destruct (cut_slash _) as [[addr mask]|]; cbn [mbind option_bind]; [|done].
  destruct (ParseAddr (of_bytes addr)) as [x|] eqn:Hx; cbn [mbind option_bind]; [|done].
  destruct (dtoi mask) as [n|] eqn:Hd; cbn [mbind option_bind]; [|done].
  apply ParseAddr_ok in Hx. apply dtoi_nonneg in Hd.
  destruct (Z.ltb_spec (8 * Z.of_nat (length x)) n); [done|]. by exists x, n.
Qed.

Lemma parsed_ipv4 s :
  (∃ a net, ParseCIDR s = Some (a, net) ∧ is_Some (To4 (net_IP net))) ↔ ipv4_network s.
Proof.
  unfold ipv4_network. pose proof (ParseCIDR_network s) as Hp. destruct (ParseCIDR s) as [[a ipnet]|].
  - destruct Hp as (x&n&Hx&Hn&->&->). pose proof (To4_cidr_net x n Hx ltac:(lia)) as H4. split.
    + intros (?&?&[= _ <-]&?%H4). by eexists.
    + intros (?&[= <-]&?%H4). by eexists _, _.
  - rewrite Hp. split; [by intros (?&?&[=]&_)|by intros (?&[=]&_)].
Qed.

(** The address lies in the network exactly when both parse and the numbers say so. *)
Lemma parsed_contains s c :
  (∃ a net ip, ParseCIDR c = Some (a, net) ∧ ParseIP s = Some ip ∧ Contains net ip = true) ↔
  ∃ i net, address s = Some i ∧ network c = Some net ∧ in_network i net.
Proof.
  unfold address, ParseIP. pose proof (ParseCIDR_network c) as Hp. destruct (ParseCIDR c) as [[a ipnet]|].
  2:{ rewrite Hp. split; [by intros (?&?&?&[=]&_)|by intros (?&?&_&[=]&_)]. }
  destruct Hp as (x&n&Hx&Hn&->&->).
  destruct (ParseAddr s) as [y|] eqn:Hy; cbn [fmap option_map];
    [|by split; [intros (?&?&?&_&[=]&_)|intros (?&?&[=]&_)]].
  apply ParseAddr_ok, As16_ok in Hy as [By Hy].
  pose proof (contains_in_network x n (As16 y) Hx Hn By Hy) as Hc. split.
  - intros (?&?&?&[= _ <-]&[= <-]&?%Hc). by eexists _, _.
  - intros (?&?&[= <-]&[= <-]&?%Hc). by eexists _, _, _.
Qed.
End NetIP.
