(* ===== verification/URL.v ===== *)
(** * URLs: package [net/url]

    [url.Parse], [URL.String] and [url.JoinPath], with escaping, user information
    and the checks of the host, on byte lists.  The last part shows what they do
    with a plain service URL: nothing is lost, and a joined path of plain names is
    appended as it is. *)
From stdpp Require Import base gmap strings list.
From Stdlib Require Import ZArith Lia Ascii.
From S2P Require Import Prelude GoStd Codec NetIP.
Local Open Scope string_scope.

Abbreviation bytes := (list ascii).

Definition one_of (cs : string) (c : ascii) : bool := bool_decide (c ∈ bytes_of cs).
Definition is_alnum (c : ascii) : bool := in_range 97 122 c || in_range 65 90 c || in_range 48 57 c.

(** [strings.Cut] at a byte: what is before it, what is after it, if it occurs. *)
Fixpoint cut_byte (n : N) (s : bytes) : bytes * option bytes :=
  match s with
  | [] => ([], None)
  | c :: r => if char_is n c then ([], Some r)
              else let '(b, a) := cut_byte n r in (c :: b, a)
  end.
Definition has_byte (n : N) (s : bytes) : bool := existsb (char_is n) s.
(** The same at the last occurrence. *)
Definition cut_last (n : N) (s : bytes) : option (bytes * bytes) :=
  match cut_byte n (reverse s) with
  | (after, Some before) => Some (reverse before, reverse after)
  | _ => None
  end.

(** ** Escaping *)

Inductive encoding := encodePath | encodeUserPassword | encodeHost | encodeZone | encodeFragment.

Definition shouldEscape (c : ascii) (mode : encoding) : bool :=
  let host := match mode with encodeHost | encodeZone => true | _ => false end in
  if is_alnum c then false
  else if host && (one_of "!$&'()*+,;=:[]<>" c || char_is 34 c) then false
  else if one_of "-_.~" c then false
  else if one_of "$&+,/:;=?@" c then
    match mode with
    | encodePath => char_is 63 c
    | encodeUserPassword => one_of "@/?:" c
    | encodeFragment => false
    | encodeHost | encodeZone => true
    end
  else match mode with
       | encodeFragment => negb (one_of "!()*" c)
       | _ => true
       end.

Definition upper_hex (n : N) : ascii := ascii_of_N (if (n <? 10)%N then 48 + n else 55 + n).
Fixpoint escape (mode : encoding) (s : bytes) : bytes :=
  match s with
  | [] => []
  | c :: r =>
      if shouldEscape c mode
      then "%"%char :: upper_hex (N_of_ascii c / 16) :: upper_hex (N_of_ascii c mod 16) :: escape mode r
      else c :: escape mode r
  end.

(** [unescape]; [None] for a malformed escape or a byte the mode refuses. *)
Fixpoint unescape (mode : encoding) (s : bytes) : option bytes :=
  match s with
  | [] => Some []
  | c :: r =>
      if char_is 37 c then
        match r with
        | h1 :: h2 :: r' =>
            match hex_value h1, hex_value h2 with
            | Some a, Some b =>
                let v := ascii_of_N (a * 16 + b) in
                let percent := char_is 37 v in
                if match mode with
                   | encodeHost => (a <? 8)%N && negb percent
                   | encodeZone => negb percent && negb (char_is 32 v) && shouldEscape v encodeHost
                   | _ => false
                   end
                then None
                else r'' ← unescape mode r'; Some (v :: r'')
            | _, _ => None
            end
        | _ => None
        end
      else if match mode with
              | encodeHost | encodeZone => (N_of_ascii c <? 128)%N && shouldEscape c mode
              | _ => false
              end
      then None
      else r' ← unescape mode r; Some (c :: r')
  end.

(** [validEncoded]. *)
Definition validEncoded (mode : encoding) (s : bytes) : bool :=
  forallb (λ c, one_of "!$&'()*+,;=:@[]%" c || negb (shouldEscape c mode)) s.

(** ** URLs *)

Record URL := mkURL {
  url_Scheme : bytes;
  url_Opaque : bytes;
  url_User : option (bytes * option bytes);
  url_Host : bytes;
  url_Path : bytes;
  url_RawPath : bytes;
  url_OmitHost : bool;
  url_ForceQuery : bool;
  url_RawQuery : bytes;
  url_Fragment : bytes;
  url_RawFragment : bytes;
}.

(** A URL with a scheme and a host only. *)
Definition host_url (scheme host : bytes) : URL := mkURL scheme [] None host [] [] false false [] [] [].

Definition set_path (path raw : bytes) (u : URL) : URL :=
  mkURL (url_Scheme u) (url_Opaque u) (url_User u) (url_Host u) path raw (url_OmitHost u)
    (url_ForceQuery u) (url_RawQuery u) (url_Fragment u) (url_RawFragment u).
Definition set_fragment (f raw : bytes) (u : URL) : URL :=
  mkURL (url_Scheme u) (url_Opaque u) (url_User u) (url_Host u) (url_Path u) (url_RawPath u) (url_OmitHost u)
    (url_ForceQuery u) (url_RawQuery u) f raw.

(** The escaped form is kept only if it is not the default one. *)
Definition raw_form (mode : encoding) (decoded written : bytes) : bytes :=
  if bool_decide (escape mode decoded = written) then [] else written.
Definition escaped_form (mode : encoding) (decoded raw : bytes) : bytes :=
  if negb (bool_decide (raw = [])) && validEncoded mode raw && bool_decide (unescape mode raw = Some decoded)
  then raw else escape mode decoded.

Definition setPath (u : URL) (p : bytes) : option URL :=
  path ← unescape encodePath p; Some (set_path path (raw_form encodePath path p) u).
Definition EscapedPath (u : URL) : bytes :=
  if negb (bool_decide (url_RawPath u = [])) && validEncoded encodePath (url_RawPath u)
     && bool_decide (unescape encodePath (url_RawPath u) = Some (url_Path u))
  then url_RawPath u
  else if bool_decide (url_Path u = bytes_of "*") then bytes_of "*" else escape encodePath (url_Path u).

Definition setFragment (u : URL) (f : bytes) : option URL :=
  frag ← unescape encodeFragment f; Some (set_fragment frag (raw_form encodeFragment frag f) u).
Definition EscapedFragment (u : URL) : bytes := escaped_form encodeFragment (url_Fragment u) (url_RawFragment u).

(** [Userinfo.String]. *)
Definition userinfo_String (ui : bytes * option bytes) : bytes :=
  (escape encodeUserPassword ui.1 ++
   match ui.2 with Some p => ":"%char :: escape encodeUserPassword p | None => [] end)%list.

(** The first segment of a path holds a colon. *)
Definition colon_segment (path : bytes) : bool := has_byte 58 (cut_byte 47 path).1.

(** [URL.String]. *)
Definition url_String (u : URL) : string :=
  let scheme := if bool_decide (url_Scheme u = []) then [] else (url_Scheme u ++ [":"%char])%list in
  let body :=
    if negb (bool_decide (url_Opaque u = [])) then (scheme ++ url_Opaque u)%list else
    let no_host := bool_decide (url_Host u = []) && bool_decide (url_User u = None) in
    let authority :=
      if bool_decide (url_Scheme u = []) && no_host then []
      else if url_OmitHost u && no_host then []
      else ((if no_host && bool_decide (url_Path u = []) then [] else bytes_of "//") ++
            match url_User u with Some ui => userinfo_String ui ++ ["@"%char] | None => [] end ++
            escape encodeHost (url_Host u))%list in
    let path := EscapedPath u in
    let slash := match path with
                 | c :: _ => if negb (char_is 47 c) && negb (bool_decide (url_Host u = [])) then ["/"%char] else []
                 | [] => []
                 end in
    let front := (scheme ++ authority ++ slash)%list in
    (front ++ (if bool_decide (front = []) && colon_segment path then bytes_of "./" else []) ++ path)%list in
  let query := if url_ForceQuery u || negb (bool_decide (url_RawQuery u = [])) then "?"%char :: url_RawQuery u else [] in
  let fragment := if bool_decide (url_Fragment u = []) then [] else "#"%char :: EscapedFragment u in
  of_bytes (body ++ query ++ fragment)%list.

(** ** Parsing *)

(** [getScheme]: the scheme, possibly empty, and the rest. *)
Fixpoint scheme_loop (s : bytes) : option (bytes * bytes) :=
  match s with
  | [] => None
  | c :: r =>
      if char_is 58 c then Some ([], r)
      else if is_alnum c || one_of "+-." c then '(b, a) ← scheme_loop r; Some (c :: b, a)
      else None
  end.
Definition getScheme (s : bytes) : result (bytes * bytes) :=
  match s with
  | [] => Ok ([], [])
  | c :: _ =>
      if char_is 58 c then Err (ErrNew "missing protocol scheme")
      else if in_range 97 122 c || in_range 65 90 c
      then Ok (default ([], s) (scheme_loop s))
      else Ok ([], s)
  end.

Definition to_lower (c : ascii) : ascii := if in_range 65 90 c then ascii_of_N (N_of_ascii c + 32) else c.

Definition validOptionalPort (port : bytes) : bool :=
  match port with [] => true | c :: r => char_is 58 c && forallb is_digit r end.
Definition validUserinfo (s : bytes) : bool :=
  forallb (λ c, is_alnum c || one_of "-._:~!$&'()*+,;=%@" c) s.

(** The text between brackets: an IPv6 address, perhaps with a zone after [%25]. *)
Fixpoint cut_zone (s : bytes) : bytes * bytes :=
  match s with
  | [] => ([], [])
  | c :: r => if bool_decide (take 3 s = bytes_of "%25") then ([], s)
              else let '(b, a) := cut_zone r in (c :: b, a)
  end.
Definition valid_literal (s : bytes) : bool :=
  let '(addr, zone) := cut_byte 37 s in
  bool_decide (is_Some (NetIP.parseIPv6 addr)) && negb (bool_decide (zone = Some [])).

Definition invalid_host : goerror := ErrNew "invalid host".

(** [parseHost]; errors are told apart by their text only. *)
Definition parseHost (scheme host : bytes) : result bytes :=
  match host with
  | [] => Ok []
  | b :: inner =>
      if has_byte 91 inner then Err (ErrNew "invalid IP-literal")
      else if char_is 91 b then
        match cut_last 93 inner with
        | None => Err (ErrNew "missing ']' in host")
        | Some (hostname, port) =>
            if negb (validOptionalPort port) then Err (ErrNew ("invalid port " +:+ fmt_q (of_bytes port) +:+ " after host")) else
            let '(addr, zone) := cut_zone hostname in
            match unescape encodeHost addr, unescape encodeZone zone, unescape encodeHost port with
            | Some a, Some z, Some p =>
                if valid_literal (a ++ z)%list then Ok ("["%char :: a ++ z ++ "]"%char :: p)%list
                else Err invalid_host
            | _, _, _ => Err invalid_host
            end
        end
      else
        let first := cut_byte 58 host in
        let last := cut_last 58 host in
        let port :=
          match first.2, last with
          | Some r, Some (_, l) =>
              ":"%char :: (if bool_decide (scheme = bytes_of "postgresql") || bool_decide (scheme = bytes_of "postgres") then l else r)
          | _, _ => []
          end in
        if negb (validOptionalPort port) then Err (ErrNew ("invalid port " +:+ fmt_q (of_bytes port) +:+ " after host")) else
        match unescape encodeHost host with
        | Some h => Ok h
        | None => Err invalid_host
        end
  end.

Definition parseAuthority (scheme authority : bytes) : result (option (bytes * option bytes) * bytes) :=
  match cut_last 64 authority with
  | None => match parseHost scheme authority with Ok h => Ok (None, h) | Err e => Err e end
  | Some (userinfo, host) =>
      match parseHost scheme host with
      | Err e => Err e
      | Ok h =>
          if negb (validUserinfo userinfo) then Err (ErrNew "net/url: invalid userinfo") else
          let '(name, password) := cut_byte 58 userinfo in
          match unescape encodeUserPassword name, password with
          | Some n, None => Ok (Some (n, None), h)
          | Some n, Some p =>
              match unescape encodeUserPassword p with
              | Some p' => Ok (Some (n, Some p'), h)
              | None => Err (ErrNew "invalid URL escape")
              end
          | None, _ => Err (ErrNew "invalid URL escape")
          end
      end
  end.

(** The part after the scheme and before the query. *)
Definition parse_rest (scheme rest : bytes) (force : bool) (query : bytes) : result URL :=
  let url opaque user host omit := mkURL scheme opaque user host [] [] omit force query [] [] in
  let with_path u p := match setPath u p with Some u' => Ok u' | None => Err (ErrNew "invalid URL escape") end in
  let rooted := bool_decide (take 1 rest = bytes_of "/") in
  if negb rooted && negb (bool_decide (scheme = [])) then Ok (url rest None [] false)
  else if negb rooted && colon_segment rest
  then Err (ErrNew "first path segment in URL cannot contain colon")
  else if bool_decide (take 2 rest = bytes_of "//")
          && (negb (bool_decide (scheme = [])) || negb (bool_decide (take 3 rest = bytes_of "///")))
  then
    let '(authority, path) := cut_byte 47 (drop 2 rest) in
    match parseAuthority scheme authority with
    | Err e => Err e
    | Ok (user, host) => with_path (url [] user host false) (match path with Some p => "/"%char :: p | None => [] end)
    end
  else with_path (url [] None [] (negb (bool_decide (scheme = [])) && rooted)) rest.

Definition parse_nofrag (s : bytes) : result URL :=
  if existsb (λ c, (N_of_ascii c <? 32)%N || char_is 127 c) s
  then Err (ErrNew "net/url: invalid control character in URL")
  else if bool_decide (s = bytes_of "*") then Ok (set_path s [] (host_url [] []))
  else
    match getScheme s with
    | Err e => Err e
    | Ok (scheme, rest) =>
        let scheme := to_lower <$> scheme in
        match cut_byte 63 rest with
        | (before, Some []) => parse_rest scheme before true []
        | (before, Some query) => parse_rest scheme before false query
        | (before, None) => parse_rest scheme before false []
        end
    end.

(** [url.Parse]. *)
Definition url_Parse (rawURL : string) : result URL :=
  let '(s, frag) := cut_byte 35 (bytes_of rawURL) in
  let failed e := Err (ErrWrap ("parse " +:+ fmt_q rawURL +:+ ": ") e) in
  match parse_nofrag s with
  | Err e => Err (ErrWrap ("parse " +:+ fmt_q (of_bytes s) +:+ ": ") e)
  | Ok u =>
      match frag with
      | None | Some [] => Ok u
      | Some f => match setFragment u f with
                  | Some u' => Ok u'
                  | None => failed (ErrNew "invalid URL escape")
                  end
      end
  end.

(** [URL.JoinPath] and [url.JoinPath]; a trailing slash of the last element is
    kept. *)
Definition join_path (u : URL) (elem : list string) : option URL :=
  let base := of_bytes (EscapedPath u) in
  let p :=
    if is_rooted base then bytes_of (filepath_Join (base :: elem))
    else drop 1 (bytes_of (filepath_Join (("/" +:+ base) :: elem))) in
  let ends_slash s := bool_decide (last s = Some "/"%char) in
  let last_elem := default base (last elem) in
  let p := if ends_slash (bytes_of last_elem) && negb (ends_slash p) then (p ++ ["/"%char])%list else p in
  setPath u p.
Definition url_JoinPath (base : string) (elem : list string) : result string :=
  match url_Parse base with
  | Err e => Err e
  | Ok u =>
      match join_path u elem with
      | Some u' => Ok (url_String u')
      | None => Err (ErrNew "invalid URL escape")
      end
  end.

(** ** Properties *)

(** The characters of DNS names: they are never escaped and never separate. *)
Definition name_char (c : ascii) : bool := in_range 97 122 c || is_digit c || one_of "-." c.
Definition lower (c : ascii) : bool := in_range 97 122 c.

(** A decidable fact about characters, checked on all of them. *)
Definition all_chars : list ascii := ascii_of_nat <$> seq 0 256.
Lemma all_chars_complete c : c ∈ all_chars.
Proof.
  unfold all_chars. apply list_elem_of_fmap. exists (nat_of_ascii c). split; [by rewrite ascii_nat_embedding|].
  apply elem_of_seq. pose proof (nat_ascii_bounded c). lia.
Qed.
Lemma char_fact (P Q : ascii → bool) c :
  forallb (λ c, negb (P c) || Q c) all_chars = true → P c = true → Q c = true.
Proof.
  intros H HP. rewrite forallb_forall in H.
  specialize (H c ltac:(apply list_elem_of_In, all_chars_complete)). by rewrite HP in H.
Qed.
Lemma chars_fact (P Q : ascii → bool) s :
  forallb (λ c, negb (P c) || Q c) all_chars = true → forallb P s = true → forallb Q s = true.
Proof. rewrite !forallb_forall. intros H Hs c Hc. eapply char_fact; [|by apply Hs]. by apply forallb_forall. Qed.

Ltac by_chars := eapply chars_fact; [|eassumption]; vm_compute; reflexivity.

Lemma escape_plain mode s : forallb (λ c, negb (shouldEscape c mode)) s = true → escape mode s = s.
Proof.
  induction s as [|c s IH]; [done|]. cbn [forallb escape]. intros [->%negb_true_iff Hs]%andb_prop. by rewrite IH.
Qed.

Lemma unescape_plain mode s :
  forallb (λ c, negb (shouldEscape c mode) && negb (char_is 37 c)) s = true → unescape mode s = Some s.
Proof.
  induction s as [|c s IH]; [done|]. cbn [forallb unescape].
  intros [[He%negb_true_iff ->%negb_true_iff]%andb_prop Hs]%andb_prop.
  rewrite He, andb_false_r, (IH Hs). by destruct mode.
Qed.

Lemma cut_byte_none n s : forallb (λ c, negb (char_is n c)) s = true → cut_byte n s = (s, None).
Proof.
  induction s as [|c s IH]; [done|]. cbn [forallb cut_byte]. intros [->%negb_true_iff Hs]%andb_prop. by rewrite IH.
Qed.

Lemma cut_byte_some n c s r :
  forallb (λ c, negb (char_is n c)) s = true → char_is n c = true → cut_byte n (s ++ c :: r) = (s, Some r).
Proof.
  intros Hs Hc. induction s as [|x s IH]; cbn [app cut_byte]; [by rewrite Hc|].
  cbn [forallb] in Hs. apply andb_prop in Hs as [->%negb_true_iff Hs]. by rewrite IH.
Qed.

Lemma forallb_reverse {A} (f : A → bool) l : forallb f (reverse l) = forallb f l.
Proof.
  apply eq_bool_prop_intro. rewrite !Is_true_true, !forallb_forall.
  split; intros H x Hx; apply H; revert Hx; rewrite <- !list_elem_of_In, elem_of_reverse; done.
Qed.

Lemma cut_last_none n s : forallb (λ c, negb (char_is n c)) s = true → cut_last n s = None.
Proof. intros Hs. unfold cut_last. by rewrite cut_byte_none by (by rewrite forallb_reverse). Qed.

Lemma cut_last_some n c s r :
  forallb (λ c, negb (char_is n c)) r = true → char_is n c = true → cut_last n (s ++ c :: r) = Some (s, r).
Proof.
  intros Hr Hc. unfold cut_last. rewrite reverse_app, reverse_cons, <- app_assoc. cbn [app].
  rewrite cut_byte_some by (done || by rewrite forallb_reverse). by rewrite !reverse_involutive.
Qed.

Lemma has_byte_none n s : forallb (λ c, negb (char_is n c)) s = true → has_byte n s = false.
Proof.
  unfold has_byte. induction s as [|c s IH]; [done|]. cbn [forallb existsb].
  intros [->%negb_true_iff Hs]%andb_prop. by rewrite IH.
Qed.

(** A host as the operator writes it: a DNS name, perhaps with a port. *)
Definition plain_host (host : bytes) : Prop :=
  ∃ name port, host = (name ++ port)%list ∧ name ≠ [] ∧ forallb name_char name = true ∧
    validOptionalPort port = true.

Definition host_char (c : ascii) : bool := name_char c || char_is 58 c.

Lemma plain_host_chars host : plain_host host → forallb host_char host = true.
Proof.
  intros (name&port&->&_&Hn&Hp). rewrite forallb_app. apply andb_true_intro. split; [by_chars|].
  destruct port as [|c r]; [done|]. cbn [validOptionalPort] in Hp. apply andb_prop in Hp as [Hc Hr].
  cbn [forallb]. unfold host_char at 1. rewrite Hc, orb_true_r. by_chars.
Qed.

Lemma parseHost_plain scheme host : plain_host host → parseHost scheme host = Ok host.
Proof.
  intros Hh. pose proof (plain_host_chars _ Hh) as Hc. destruct Hh as (name&port&Heq&Hne&Hn&Hp).
  destruct host as [|b inner]; [done|]. unfold parseHost.
  assert (Hb : char_is 91 b = false ∧ has_byte 91 inner = false).
  { cbn [forallb] in Hc. apply andb_prop in Hc as [Hb Hi]. split.
    - apply negb_true_iff. revert Hb. apply (char_fact host_char (λ c, negb (char_is 91 c))). vm_compute. reflexivity.
    - apply has_byte_none. by_chars. }
  destruct Hb as [-> ->]. set (host := b :: inner) in *.
  assert (Hport : match (cut_byte 58 host).2, cut_last 58 host with
    | Some r, Some (_, l) => ":"%char :: (if bool_decide (scheme = bytes_of "postgresql")
        || bool_decide (scheme = bytes_of "postgres") then l else r)
    | _, _ => [] end = port).
  { rewrite Heq. assert (Hnc : forallb (λ c, negb (char_is 58 c)) name = true) by by_chars.
    destruct port as [|c r].
    - rewrite app_nil_r, cut_byte_none by done. done.
    - cbn [validOptionalPort] in Hp. apply andb_prop in Hp as [Hcc Hr].
      rewrite cut_byte_some, cut_last_some by (done || by_chars). cbn [snd].
      assert (c = ":"%char) as ->.
      { unfold char_is in Hcc. apply N.eqb_eq in Hcc. rewrite <- (ascii_N_embedding c), Hcc. done. }
      by destruct (_ || _). }
  rewrite Hport, Hp. cbn [negb]. rewrite unescape_plain; [done|]. by_chars.
Qed.

Lemma scheme_loop_plain scheme rest :
  forallb lower scheme = true → scheme_loop (scheme ++ ":"%char :: rest) = Some (scheme, rest).
Proof.
  induction scheme as [|x l IH]; [done|]. cbn [forallb]. intros [Hx Hl]%andb_prop. cbn [app scheme_loop].
  apply (char_fact lower (λ x, negb (char_is 58 x) && is_alnum x)) in Hx as [->%negb_true_iff ->]%andb_prop;
    [|vm_compute; reflexivity]. cbn [orb]. by rewrite (IH Hl).
Qed.

Lemma getScheme_plain scheme rest :
  scheme ≠ [] → forallb lower scheme = true → getScheme (scheme ++ ":"%char :: rest) = Ok (scheme, rest).
Proof.
  intros Hne Hs. unfold getScheme. rewrite scheme_loop_plain by done. destruct scheme as [|c l]; [done|].
  cbn [forallb app] in *. apply andb_prop in Hs as [Hx _].
  apply (char_fact lower (λ x, negb (char_is 58 x) && in_range 97 122 x)) in Hx as [->%negb_true_iff ->]%andb_prop;
    [done|vm_compute; reflexivity].
Qed.

Lemma to_lower_plain s : forallb lower s = true → to_lower <$> s = s.
Proof.
  induction s as [|x l IH]; [done|]. cbn [forallb]. intros [Hx Hl]%andb_prop. csimpl. rewrite (IH Hl). f_equal.
  unfold to_lower. apply (char_fact lower (λ x, negb (in_range 65 90 x))) in Hx as ->%negb_true_iff;
    [done|vm_compute; reflexivity].
Qed.

Lemma existsb_none {A} (f : A → bool) l : forallb (λ x, negb (f x)) l = true → existsb f l = false.
Proof.
  induction l as [|x l IH]; [done|]. cbn [forallb existsb]. intros [->%negb_true_iff Hl]%andb_prop. by apply IH.
Qed.

(** A URL of a plain scheme and host is taken apart as it was put together. *)
Lemma Parse_host_url scheme host :
  scheme ≠ [] → forallb lower scheme = true → plain_host host →
  url_Parse (of_bytes (scheme ++ bytes_of "://" ++ host)%list) = Ok (host_url scheme host).
Proof.
  intros Hne Hs Hh. pose proof (plain_host_chars _ Hh) as Hc. unfold url_Parse.
  rewrite String.list_ascii_of_string_of_list_ascii. set (s := (scheme ++ bytes_of "://" ++ host)%list).
  assert (Hall : forallb (λ c, host_char c || char_is 47 c) s = true).
  { unfold s. rewrite !forallb_app. apply andb_true_intro. split; [by_chars|].
    apply andb_true_intro. split; [done|]. by_chars. }
  rewrite cut_byte_none by by_chars. unfold parse_nofrag.
  rewrite existsb_none by by_chars.
  rewrite bool_decide_eq_false_2 by (unfold s; destruct scheme as [|? [|??]]; done).
  unfold s. cbn [bytes_of app]. rewrite getScheme_plain, to_lower_plain by done.
  rewrite cut_byte_none by (cbn [forallb]; by_chars).
  unfold parse_rest. cbn [app take drop]. rewrite !bool_decide_eq_true_2 by done.
  rewrite (bool_decide_eq_false_2 (scheme = [])) by done. cbn [negb andb orb].
  rewrite cut_byte_none by by_chars. unfold parseAuthority.
  rewrite cut_last_none by by_chars. rewrite parseHost_plain by done. done.
Qed.

(** It is also printed that way; a relative path gets its slash. *)
Lemma String_host_url scheme host path :
  scheme ≠ [] → plain_host host → is_rooted (of_bytes path) = false →
  forallb (λ c, name_char c || char_is 47 c) path = true →
  url_String (set_path path [] (host_url scheme host)) =
  of_bytes (scheme ++ bytes_of "://" ++ host ++ (if bool_decide (path = []) then [] else "/"%char :: path))%list.
Proof.
  intros Hne Hh Hroot Hp. pose proof (plain_host_chars _ Hh) as Hc.
  assert (Hhost : host ≠ []) by (destruct Hh as ([|]&?&->&?&_); done).
  unfold url_String, EscapedPath, host_url, set_path.
  cbn [url_Scheme url_Opaque url_User url_Host url_Path url_RawPath url_OmitHost url_ForceQuery url_RawQuery url_Fragment].
  rewrite (bool_decide_eq_false_2 (scheme = [])), (bool_decide_eq_false_2 (host = [])) by done.
  rewrite !(bool_decide_eq_true_2 ([] = [])) by done. cbn [negb andb orb app].
  rewrite (escape_plain encodeHost) by by_chars. rewrite (escape_plain encodePath) by by_chars.
  assert (path ≠ bytes_of "*") by (by intros ->).
  rewrite (bool_decide_eq_false_2 (path = bytes_of "*")) by done.
  rewrite bool_decide_eq_false_2 by (by destruct scheme). cbn [andb app].
  destruct path as [|c r]; [f_equal; by rewrite !app_nil_r, <- !app_assoc|].
  assert (Hc47 : char_is 47 c = false).
  { simpl in Hroot. apply bool_decide_eq_false_1 in Hroot. unfold char_is. apply N.eqb_neq. intros Heq. apply Hroot.
    by rewrite <- (ascii_N_embedding c), Heq. }
  rewrite Hc47, (bool_decide_eq_false_2 (c :: r = [])) by done. f_equal. cbn [negb andb].
  rewrite !app_nil_r, <- !app_assoc. done.
Qed.

(** Plain elements are appended to a host as they are. *)
Lemma JoinPath_plain scheme host elem path :
  scheme ≠ [] → forallb lower scheme = true → plain_host host →
  filepath_Join ("/" :: elem) = of_bytes ("/"%char :: path) → path ≠ [] → is_rooted (of_bytes path) = false →
  forallb (λ c, name_char c || char_is 47 c) path = true →
  (∃ e x c, elem = (x ++ [e])%list ∧ last (bytes_of e) = Some c ∧ c ≠ "/"%char) →
  url_JoinPath (of_bytes (scheme ++ bytes_of "://" ++ host)%list) elem =
  Ok (of_bytes (scheme ++ bytes_of "://" ++ host ++ "/"%char :: path)%list).
Proof.
  intros Hne Hs Hh Hjoin Hpath Hroot Hp (e&x&c&->&Hlast&Hc). unfold url_JoinPath.
  rewrite Parse_host_url by done. unfold join_path.
  change (of_bytes (EscapedPath (host_url scheme host))) with "". cbn [is_rooted].
  change ("/" +:+ "") with "/". rewrite Hjoin, last_snoc. cbn [default id].
  rewrite String.list_ascii_of_string_of_list_ascii. cbn [drop].
  rewrite (bool_decide_eq_false_2 (last (bytes_of e) = _)) by (rewrite Hlast; congruence). cbn [andb].
  unfold setPath. rewrite unescape_plain by by_chars. cbn [mbind option_bind]. unfold raw_form.
  rewrite escape_plain by by_chars. rewrite bool_decide_eq_true_2 by done.
  rewrite String_host_url by done. by rewrite bool_decide_eq_false_2 by done.
Qed.
