(* ===== verification/Networks.v ===== *)
(** * Machine networks

    Validation of the host's network interfaces against the machine networks of
    an ImageClusterInstall ([controllers/imageclusterinstall_controller.go]), and
    the three functions that select the effective networks. *)
From stdpp Require Import base gmap strings list.
From Stdlib Require Import ZArith Lia.
From S2P Require Import Prelude Types World GoStd NetIP Sim.
Local Open Scope go_scope.

Module Networks.

(** [fmt]'s [%v] of a string slice. *)
Definition fmt_strings (l : list string) : string := "[" +:+ strings_Join l " " +:+ "]".

Definition ipInCidr (ipAddr cidr : string) : result bool :=
  match NetIP.ParseCIDR cidr with
  | None => Err (ErrNew ("invalid CIDR address: " +:+ cidr))
  | Some (_, ipNet) =>
      match NetIP.ParseIP ipAddr with
      | None => Err (ErrNew "ip is nil")
      | Some ip => Ok (NetIP.Contains ipNet ip)
      end
  end.

(** [inCIDR, _ := ipInCidr(...)]: the value returned with an error is false. *)
Definition in_cidr (ipAddr cidr : string) : bool :=
  match ipInCidr ipAddr cidr with Ok b => b | Err _ => false end.

Definition isIPv4CIDR (cidr : string) : bool :=
  match NetIP.ParseCIDR cidr with
  | None => false
  | Some (_, ipNet) => bool_decide (is_Some (NetIP.To4 (NetIP.net_IP ipNet)))
  end.

(** [getEffectiveMachineNetworksCIDRs] of the controller. *)
Definition getEffectiveMachineNetworksCIDRs (legacyMachineNetwork : string)
    (machineNetworks : slice string) : result (list string) :=
  match elems machineNetworks with
  | first :: _ =>
      if negb (bool_decide (legacyMachineNetwork = ""))
         && negb (bool_decide (legacyMachineNetwork = first))
      then Err (ErrNew ("MachineNetwork (" +:+ legacyMachineNetwork +:+
             ") does not match the first MachineNetworks entry (" +:+ first +:+ ")"))
      else Ok (elems machineNetworks)
  | [] =>
      if negb (bool_decide (legacyMachineNetwork = "")) then Ok [legacyMachineNetwork] else Ok []
  end.

(** [getEffectiveMachineNetworks] of the webhook. *)
Definition webhook_getEffectiveMachineNetworks (legacyMachineNetwork : string)
    (machineNetworks : slice string) : list string :=
  match elems machineNetworks with
  | _ :: _ => elems machineNetworks
  | [] => if negb (bool_decide (legacyMachineNetwork = "")) then [legacyMachineNetwork] else []
  end.

(** [getEffectiveMachineNetworks] of the installer. *)
Definition getEffectiveMachineNetworks (ici : ImageClusterInstall) : list string :=
  match elems (MachineNetworks (ici_Spec ici)) with
  | _ :: _ => elems (MachineNetworks (ici_Spec ici))
  | [] =>
      if negb (bool_decide (MachineNetwork (ici_Spec ici) = "")) then [MachineNetwork (ici_Spec ici)] else []
  end.

(** The single-stack loop: some interface has an address in the network. *)
Fixpoint any_nic_in (nics : list NIC) (cidr : string) : bool :=
  match nics with
  | [] => false
  | nic :: nics' =>
      if bool_decide (nic_IP nic = "") then any_nic_in nics' cidr
      else if in_cidr (nic_IP nic) cidr then true else any_nic_in nics' cidr
  end.

(** [nicsByMAC]: the interfaces with an address, grouped by MAC, in order. *)
Definition nics_by_mac (nics : list NIC) : gmap string (list NIC) :=
  foldl (λ m nic,
    if negb (bool_decide (nic_MAC nic = "")) && negb (bool_decide (nic_IP nic = ""))
    then <[nic_MAC nic := default [] (m !! nic_MAC nic) ++ [nic]]> m else m) ∅ nics.

(** The loop over the addresses of one interface, with its two flags. *)
Fixpoint mac_dual_stack (v4 v6 : list string) (macNics : list NIC) (has4 has6 : bool) : bool :=
  match macNics with
  | [] => false
  | nic :: rest =>
      let has4' := has4 || existsb (in_cidr (nic_IP nic)) v4 in
      let has6' := has6 || existsb (in_cidr (nic_IP nic)) v6 in
      if has4' && has6' then true else mac_dual_stack v4 v6 rest has4' has6'
  end.

(** The loop over the interfaces, in the order [range] visits the map. *)
Fixpoint any_mac_dual_stack (v4 v6 : list string) (macs : list (string * list NIC)) : bool :=
  match macs with
  | [] => false
  | (_, macNics) :: rest =>
      if mac_dual_stack v4 v6 macNics false false then true else any_mac_dual_stack v4 v6 rest
  end.

Definition validateDualStackMachineNetworks (networks : list string) (nics : list NIC)
    : io (option goerror) :=
  let ipv4Networks := filter (λ n, isIPv4CIDR n = true) networks in
  let ipv6Networks := filter (λ n, ¬ isIPv4CIDR n = true) networks in
  if bool_decide (ipv4Networks = []) || bool_decide (ipv6Networks = []) then
    Ret (Some (ErrNew ("dual-stack configuration requires both IPv4 and IPv6 machine networks, got IPv4: "
           +:+ fmt_strings ipv4Networks +:+ ", IPv6: " +:+ fmt_strings ipv6Networks)))
  else
    let* choices := perform MapRange in
    if any_mac_dual_stack ipv4Networks ipv6Networks (range_map choices (nics_by_mac nics))
    then Ret None
    else Ret (Some (ErrNew ("bmh host doesn't have a nic with both IPv4 and IPv6 addresses in the provided dual-stack machineNetworks. IPv4 networks: "
           +:+ fmt_strings ipv4Networks +:+ ", IPv6 networks: " +:+ fmt_strings ipv6Networks))).

Definition validateBMHMachineNetworks (legacyMachineNetwork : string)
    (machineNetworks : slice string) (nics : list NIC) : io (option goerror) :=
  match getEffectiveMachineNetworksCIDRs legacyMachineNetwork machineNetworks with
  | Err e => Ret (Some e)
  | Ok [] => Ret None
  | Ok [network] =>
      if any_nic_in nics network then Ret None
      else Ret (Some (ErrNew ("bmh host doesn't have any nic with ip in provided machineNetwork "
             +:+ network)))
  | Ok effectiveNetworks => validateDualStackMachineNetworks effectiveNetworks nics
  end.

(** ** Properties *)

(** The interface has an address in the network, as 128-bit numbers. *)
Definition nic_in (nic : NIC) (cidr : string) : Prop :=
  ∃ i net, NetIP.address (nic_IP nic) = Some i ∧ NetIP.network cidr = Some net ∧ NetIP.in_network i net.

(** The machine networks a host must satisfy: none; one, with an address in it;
    several, with an IPv4 and an IPv6 address of one interface (by MAC) in an
    IPv4 and an IPv6 network of the list. *)
Definition networks_satisfied (networks : list string) (nics : list NIC) : Prop :=
  match networks with
  | [] => True
  | [network] => ∃ nic, nic ∈ nics ∧ nic_in nic network
  | _ =>
      ∃ nic4 nic6 n4 n6,
        nic4 ∈ nics ∧ nic6 ∈ nics ∧ nic_MAC nic4 = nic_MAC nic6 ∧ nic_MAC nic4 ≠ "" ∧
        n4 ∈ networks ∧ n6 ∈ networks ∧ NetIP.ipv4_network n4 ∧ ¬ NetIP.ipv4_network n6 ∧
        nic_in nic4 n4 ∧ nic_in nic6 n6
  end.

Lemma in_cidr_spec ip cidr :
  in_cidr ip cidr = true ↔
  ∃ i net, NetIP.address ip = Some i ∧ NetIP.network cidr = Some net ∧ NetIP.in_network i net.
Proof.
  rewrite <- NetIP.parsed_contains. unfold in_cidr, ipInCidr.
  destruct (NetIP.ParseCIDR cidr) as [[a net]|]; [|by split; [|intros (?&?&?&[=]&_)]].
  destruct (NetIP.ParseIP ip) as [i|]; [|by split; [|intros (?&?&?&_&[=]&_)]].
  split; [intros ?; by eexists _, _, _|by intros (?&?&?&[= _ <-]&[= <-]&?)].
Qed.

Lemma isIPv4CIDR_spec cidr : isIPv4CIDR cidr = true ↔ NetIP.ipv4_network cidr.
Proof.
  rewrite <- NetIP.parsed_ipv4. unfold isIPv4CIDR.
  destruct (NetIP.ParseCIDR cidr) as [[a net]|]; [|by split; [|intros (?&?&[=]&_)]].
  rewrite bool_decide_eq_true. split; [by eexists _, _|by intros (?&?&[= _ <-]&?)].
Qed.

Lemma nic_in_cidr nic cidr : nic_in nic cidr ↔ nic_IP nic ≠ "" ∧ in_cidr (nic_IP nic) cidr = true.
Proof. rewrite in_cidr_spec. split; [|by intros [_ ?]]. intros H. split; [|done]. destruct H as (?&?&Ha&_). intros He. by rewrite He in Ha. Qed.

Lemma any_nic_in_existsb nics cidr :
  any_nic_in nics cidr = existsb (λ nic, negb (bool_decide (nic_IP nic = "")) && in_cidr (nic_IP nic) cidr) nics.
Proof.
  induction nics as [|nic nics IH]; simpl; [done|]. rewrite IH.
  case_bool_decide; simpl; [done|]. by destruct (in_cidr _ _).
Qed.

Lemma any_nic_in_spec nics cidr :
  any_nic_in nics cidr = true ↔ ∃ nic, nic ∈ nics ∧ nic_in nic cidr.
Proof.
  rewrite any_nic_in_existsb, existsb_elem. setoid_rewrite nic_in_cidr.
  by setoid_rewrite andb_true_iff; setoid_rewrite negb_true_iff; setoid_rewrite bool_decide_eq_false.
Qed.

Lemma nics_by_mac_lookup nics nic :
  (∃ l, nics_by_mac nics !! nic_MAC nic = Some l ∧ nic ∈ l) ↔
  nic ∈ nics ∧ nic_MAC nic ≠ "" ∧ nic_IP nic ≠ "".
Proof.
  unfold nics_by_mac. induction nics as [|x l IH] using rev_ind; rewrite ?foldl_app; simpl.
  - rewrite lookup_empty, elem_of_nil. split; [by intros (?&[=]&_)|by intros [[] _]].
  - rewrite elem_of_app, list_elem_of_singleton.
    destruct (negb _ && negb _) eqn:Hx; bools; [|rewrite IH].
    + destruct (decide (nic_MAC x = nic_MAC nic)) as [Heq|Hne].
      * rewrite Heq, lookup_insert_eq. split.
        -- intros (l'&[= <-]&Hin). apply elem_of_app in Hin as [Hin| ->%list_elem_of_singleton]; [|auto].
           destruct (foldl _ ∅ l !! nic_MAC nic) as [l'|] eqn:Hl; simpl in Hin; [|by apply elem_of_nil in Hin].
           destruct IH as [[? ?] _]; [by exists l'|]. auto.
        -- intros [[Hin| ->] Hn]; eexists; (split; [done|]); apply elem_of_app;
             [left|right; by apply list_elem_of_singleton].
           destruct IH as [_ (l'&->&?)]; [auto|]. done.
      * rewrite lookup_insert_ne by done. rewrite IH. split; [tauto|].
        intros [[?| ->] ?]; [auto|done].
    + split; [tauto|]. intros [[?| ->] [Hm Hi]]; [auto|].
      apply andb_false_iff in Hx as [Hx|Hx]; bools; congruence.
Qed.

Lemma nics_by_mac_key nics mac l nic :
  nics_by_mac nics !! mac = Some l → nic ∈ l → nic_MAC nic = mac.
Proof.
  unfold nics_by_mac. revert l.
  induction nics as [|x r IH] using rev_ind; intros l; rewrite ?foldl_app; simpl; [by rewrite lookup_empty|].
  destruct (negb _ && negb _); [|eauto].
  destruct (decide (nic_MAC x = mac)) as [<-|Hne]; [|rewrite lookup_insert_ne by done; eauto].
  rewrite lookup_insert_eq. intros [= <-]. rewrite elem_of_app, list_elem_of_singleton.
  intros [Hin| ->]; [|done]. destruct (foldl _ ∅ r !! nic_MAC x) as [l'|] eqn:Hl; [eauto|].
  by apply elem_of_nil in Hin.
Qed.

Lemma mac_dual_stack_existsb v4 v6 nics b4 b6 :
  b4 && b6 = false →
  mac_dual_stack v4 v6 nics b4 b6 =
  (b4 || existsb (λ nic, existsb (in_cidr (nic_IP nic)) v4) nics) &&
  (b6 || existsb (λ nic, existsb (in_cidr (nic_IP nic)) v6) nics).
Proof.
  revert b4 b6. induction nics as [|nic nics IH]; intros b4 b6 Hb; simpl.
  - by destruct b4, b6.
  - clear Hb. rewrite !orb_assoc. destruct ((_ || _) && (_ || _)) eqn:Hboth at 1.
    + apply andb_true_iff in Hboth as [-> ->]. done.
    + by apply IH.
Qed.

Lemma any_mac_existsb v4 v6 macs :
  any_mac_dual_stack v4 v6 macs = existsb (λ m, mac_dual_stack v4 v6 m.2 false false) macs.
Proof. induction macs as [|[k l] macs IH]; simpl; [done|]. rewrite IH. by destruct (mac_dual_stack _ _ _ _ _). Qed.

(** The search over all interfaces does not depend on the order it is made in. *)
Lemma any_mac_dual_stack_spec v4 v6 choices nics :
  any_mac_dual_stack v4 v6 (range_map choices (nics_by_mac nics)) = true ↔
  ∃ nic4 nic6 n4 n6,
    nic4 ∈ nics ∧ nic6 ∈ nics ∧ nic_MAC nic4 = nic_MAC nic6 ∧ nic_MAC nic4 ≠ "" ∧
    n4 ∈ v4 ∧ n6 ∈ v6 ∧ nic_in nic4 n4 ∧ nic_in nic6 n6.
Proof.
  setoid_rewrite nic_in_cidr. rewrite any_mac_existsb, existsb_elem. split.
  - intros ([mac l]&Hin%elem_of_range_map&Hd). rewrite mac_dual_stack_existsb in Hd by done.
    simpl in Hd. apply andb_true_iff in Hd as [H4 H6]. apply existsb_elem in H4 as (a&Ha&Hn4), H6 as (b&Hb&Hn6).
    apply existsb_elem in Hn4 as (n4&?&?), Hn6 as (n6&?&?).
    pose proof (nics_by_mac_key _ _ _ _ Hin Ha) as Ka. pose proof (nics_by_mac_key _ _ _ _ Hin Hb) as Kb.
    destruct (nics_by_mac_lookup nics a) as [Fa _]. destruct (nics_by_mac_lookup nics b) as [Fb _].
    destruct Fa as (?&?&?); [rewrite Ka; eauto|]. destruct Fb as (?&?&?); [rewrite Kb; eauto|].
    exists a, b, n4, n6. split_and!; congruence || done.
  - intros (a&b&n4&n6&Ha&Hb&Hmac&Hne&?&?&[??]&[??]).
    destruct (nics_by_mac_lookup nics a) as [_ Fa]. destruct (nics_by_mac_lookup nics b) as [_ Fb].
    destruct Fa as (l&Hl&?); [done|]. destruct Fb as (l'&Hl'&?); [split_and!; congruence || done|].
    rewrite <- Hmac, Hl in Hl'. injection Hl' as <-. exists (nic_MAC a, l).
    split; [by apply elem_of_range_map|]. rewrite mac_dual_stack_existsb by done. simpl.
    apply andb_true_iff. split; apply existsb_elem; [exists a|exists b]; (split; [done|]);
      apply existsb_elem; [by exists n4|by exists n6].
Qed.

Lemma validateBMHMachineNetworks_accepts legacy networks nics t r :
  exec (validateBMHMachineNetworks legacy networks nics) t r →
  (r = None ↔ ∃ effective,
     getEffectiveMachineNetworksCIDRs legacy networks = Ok effective ∧ networks_satisfied effective nics).
Proof.
  unfold validateBMHMachineNetworks.
  destruct (getEffectiveMachineNetworksCIDRs legacy networks) as [ns|e];
    [|intros [_ ->]; split; [done|by intros (?&[=]&_)]].
  assert (Hsel : (∃ effective, Ok ns = Ok effective ∧ networks_satisfied effective nics)
                 ↔ networks_satisfied ns nics) by (split; [by intros (?&[= <-]&?)|eauto]).
  rewrite Hsel. destruct ns as [|n [|n' ns]].
  - by intros [_ ->].
  - pose proof (any_nic_in_spec nics n). destruct (any_nic_in nics n); intros [_ ->]; simpl; intuition done.
  - set (all := n :: n' :: ns). change (networks_satisfied all nics) with
      (∃ nic4 nic6 n4 n6, nic4 ∈ nics ∧ nic6 ∈ nics ∧ nic_MAC nic4 = nic_MAC nic6 ∧ nic_MAC nic4 ≠ "" ∧
         n4 ∈ all ∧ n6 ∈ all ∧ NetIP.ipv4_network n4 ∧ ¬ NetIP.ipv4_network n6 ∧ nic_in nic4 n4 ∧ nic_in nic6 n6).
    unfold validateDualStackMachineNetworks.
    set (v4 := filter (λ n, isIPv4CIDR n = true) all). set (v6 := filter (λ n, ¬ isIPv4CIDR n = true) all).
    assert (Hv4 : ∀ m, m ∈ v4 ↔ m ∈ all ∧ NetIP.ipv4_network m).
    { intros m. unfold v4. rewrite list_elem_of_filter, isIPv4CIDR_spec. tauto. }
    assert (Hv6 : ∀ m, m ∈ v6 ↔ m ∈ all ∧ ¬ NetIP.ipv4_network m).
    { intros m. unfold v6. rewrite list_elem_of_filter, isIPv4CIDR_spec. tauto. }
    clearbody v4 v6. destruct (_ || _) eqn:Hempty.
    + intros [_ ->]. split; [done|]. intros (?&?&n4&n6&_&_&_&_&M4&M6&F4&F6&_). exfalso.
      apply orb_true_iff in Hempty as [He|He]; bools; subst; eapply elem_of_nil; [apply Hv4|apply Hv6]; eauto.
    + intros (choices&t'&_&H). cbn [prog_bind] in H. pose proof (any_mac_dual_stack_spec v4 v6 choices nics) as Hspec.
      setoid_rewrite Hv4 in Hspec. setoid_rewrite Hv6 in Hspec.
      destruct (any_mac_dual_stack _ _ _); destruct H as [_ ->].
      * split; [intros _|done]. destruct Hspec as [(a&b&n4&n6&?&?&?&?&[??]&[??]&?&?) _]; [done|].
        by exists a, b, n4, n6.
      * split; [done|]. intros (a&b&n4&n6&?&?&?&?&?&?&?&?&?&?). destruct Hspec as [_ Hspec].
        discriminate Hspec. by exists a, b, n4, n6.
Qed.

(** C29: the verdict of [validateBMHMachineNetworks] on a host.  It accepts
    exactly when [MachineNetwork] is unset or equal to the first of the
    [MachineNetworks], and the host satisfies the effective networks: an address
    in the only network, or, for several, one interface with an address in an
    IPv4 network and an address in another network of the list.  An address is in
    a network when, as 128-bit numbers with IPv4 mapped into IPv6, they share the
    prefix, and an IPv4 address is only in networks of IPv4 addresses.  The
    result, error text included, is the same for every order in which Go may
    visit its map of interfaces. *)
Theorem validateBMHMachineNetworks_spec legacy networks nics t r :
  exec (validateBMHMachineNetworks legacy networks nics) t r →
  (r = None ↔ ∃ effective,
     getEffectiveMachineNetworksCIDRs legacy networks = Ok effective ∧ networks_satisfied effective nics) ∧
  (∀ t' r', exec (validateBMHMachineNetworks legacy networks nics) t' r' → r' = r).
Proof.
  intros He. pose proof (validateBMHMachineNetworks_accepts _ _ _ _ _ He) as Hr. split; [done|].
  intros t' r' He'. pose proof (validateBMHMachineNetworks_accepts _ _ _ _ _ He') as Hr'.
  destruct r as [e|], r' as [e'|]; [|destruct Hr as [_ Hr], Hr' as [Hr' _]; by specialize (Hr (Hr' eq_refl))
    |destruct Hr' as [_ Hr'], Hr as [Hr _]; by specialize (Hr' (Hr eq_refl))|done].
  f_equal. revert He He'. unfold validateBMHMachineNetworks, validateDualStackMachineNetworks.
  destruct (getEffectiveMachineNetworksCIDRs _ _) as [[|n [|n' ns]]|]; try (intros [_ ?] [_ ?]; congruence).
  - destruct (any_nic_in _ _); intros [_ ?] [_ ?]; congruence.
  - destruct (_ || _); [intros [_ ?] [_ ?]; congruence|].
    intros (c&?&_&H) (c'&?&_&H'). cbn [prog_bind] in *.
    destruct (any_mac_dual_stack _ _ _) in H; destruct H as [_ [=]].
    destruct (any_mac_dual_stack _ _ _) in H'; destruct H' as [_ [=]]. by subst.
Qed.

Lemma validateBMHMachineNetworks_spec_witness :
  ∃ t, exec (validateBMHMachineNetworks "" (Some ["10.0.0.0/8"; "fd00::/16"])
               [mkNIC "aa" "10.1.2.3"; mkNIC "bb" "fd00::1"; mkNIC "aa" "fd00::2"]) t None ∧
       ∃ effective, getEffectiveMachineNetworksCIDRs "" (Some ["10.0.0.0/8"; "fd00::/16"]) = Ok effective
                    ∧ networks_satisfied effective [mkNIC "aa" "10.1.2.3"; mkNIC "bb" "fd00::1"; mkNIC "aa" "fd00::2"].
Proof.
  set (p := validateBMHMachineNetworks _ _ _).
  assert (Hr : (run Sim.handle p Sim.world0).1.2 = None) by (vm_compute; reflexivity).
  pose proof (exec_run Sim.handle p Sim.world0) as Hx. rewrite Hr in Hx.
  eexists. split; [exact Hx|].
  exact (proj1 (proj1 (validateBMHMachineNetworks_spec _ _ _ _ _ Hx)) eq_refl).
Defined.

(** C30: the three functions that select the effective machine networks agree.
    The webhook's and the installer's always return the same; whenever the
    reconciler's succeeds it returns that too; and it fails exactly when both
    fields are set and [MachineNetwork] is not the first of the [MachineNetworks],
    which the other two accept. *)
Theorem effective_networks_agree ici :
  let legacy := MachineNetwork (ici_Spec ici) in
  let networks := MachineNetworks (ici_Spec ici) in
  webhook_getEffectiveMachineNetworks legacy networks = getEffectiveMachineNetworks ici ∧
  (∀ ns, getEffectiveMachineNetworksCIDRs legacy networks = Ok ns → ns = getEffectiveMachineNetworks ici) ∧
  ((∃ e, getEffectiveMachineNetworksCIDRs legacy networks = Err e) ↔
     ∃ first rest, networks = Some (first :: rest) ∧ legacy ≠ "" ∧ legacy ≠ first).
Proof.
  intros legacy networks. split; [done|].
  unfold getEffectiveMachineNetworksCIDRs, getEffectiveMachineNetworks. fold legacy networks.
  clearbody legacy networks. destruct networks as [[|first rest]|]; simpl.
  2: destruct (negb _ && negb _) eqn:Hb; bools.
  1,4: split; [intros ns; by case_bool_decide; intros [= <-]|];
    (split; [intros [e He]; by case_bool_decide|by intros (?&?&[=]&_)]).
  - split; [done|]. split; [|by eauto]. by exists first, rest.
  - split; [by intros ns [= <-]|]. split; [by intros [? [=]]|].
    intros (f&r&[= <- <-]&?&?). by rewrite !bool_decide_eq_false_2 in Hb.
Qed.

End Networks.
