(* ===== verification/Libs.v ===== *)
(** * Libraries the operator calls as pure functions

    The YAML, JSON, SSH key and image reference codecs of third-party packages
    are the fields of the class [GoLibs]: every definition that uses one takes
    the instance, and theorems that need a property of one name it as a
    hypothesis.  [StubLibs] is a concrete instance for witnesses. *)
From stdpp Require Import base gmap strings list.
From Stdlib Require Import ZArith.
From S2P Require Import Prelude Types World GoStd NetIP.

(** ** The installer's configuration types *)

Record MachinePool := mkMachinePool { mp_Name : string; mp_Replicas : Z }.
Record ImageDigestSource := mkIDS {
  ids_Source : string;
  ids_Mirrors : list string;
  ids_SourcePolicy : string;
}.

(** [installertypes.InstallConfig]: the fields [WriteInstallConfig] sets. *)
Record InstallConfig := mkInstallConfig {
  ic_APIVersion : string;
  ic_BaseDomain : string;
  ic_Name : string;
  ic_NetworkType : string;
  ic_MachineNetwork : list NetIP.IPNet;
  ic_SSHKey : string;
  ic_ControlPlane : MachinePool;
  ic_Compute : list MachinePool;
  ic_PullSecret : string;
  ic_Proxy : option Proxy;
  ic_AdditionalTrustBundle : string;
  ic_ImageDigestSources : slice ImageDigestSource;
  ic_PlatformNone : bool;
}.

(** [imagebased.Config]: the fields [WriteImageBaseConfig] sets. *)
Record ImageBasedConfig := mkImageBasedConfig {
  ibc_APIVersion : string;
  ibc_Hostname : string;
  ibc_ReleaseRegistry : string;
  ibc_AdditionalNTPSources : slice string;
  ibc_NetworkConfig : string;
  ibc_ClusterID : string;
  ibc_InfraID : string;
}.

(** ** The codecs *)

Class GoLibs := {
  (** [ssh.ParseAuthorizedKey], its error *)
  ssh_ParseAuthorizedKey : string → option goerror;
  (** [reference.Parse] and the [reference.Named] assertion: the name, if named *)
  reference_Parse : string → result (option string);
  (** [yaml.Unmarshal] into an [interface{}] and into a [map[string]any] *)
  yaml_Unmarshal : string → option goerror;
  yaml_UnmarshalMap : string → option goerror;
  (** the text of the error [json.Unmarshal] returns for a text it refuses *)
  json_error : string → goerror;
  json_UnmarshalSeedReconfiguration : string → result SeedReconfiguration;
  json_MarshalSeedReconfiguration : SeedReconfiguration → result string;
  json_MarshalConfigMap : ConfigMap → result string;
  json_MarshalInstallConfig : InstallConfig → result string;
  json_MarshalImageBasedConfig : ImageBasedConfig → result string;
}.

(** An instance that accepts everything: secrets decode to fixed values, texts
    are tagged copies of what they encode. *)
Definition StubLibs : GoLibs := {|
  ssh_ParseAuthorizedKey _ := None;
  reference_Parse s := Ok (Some s);
  yaml_Unmarshal _ := None;
  yaml_UnmarshalMap _ := None;
  json_error s := ErrNew "unexpected end of JSON input";
  json_UnmarshalSeedReconfiguration s :=
    Ok (mkSeedReconfiguration s s s s s s s);
  json_MarshalSeedReconfiguration sr := Ok (sr_Rest sr);
  json_MarshalConfigMap cm := Ok (om_Name (cm_Meta cm));
  json_MarshalInstallConfig ic := Ok (ic_Name ic);
  json_MarshalImageBasedConfig c := Ok (ibc_ClusterID c);
|}.
