(* ===== verification/Conditions.v ===== *)
(** * Status conditions of an ImageClusterInstall ([controllers/conditions.go])

    The condition list is kept as the code keeps it: a slice searched from the
    front and updated in place.  The operations that write it back take the
    in-memory object and return it as the client leaves it. *)
From stdpp Require Import base gmap strings list.
From Stdlib Require Import ZArith.
From S2P Require Import Prelude Types World GoStd Sim.
Local Open Scope go_scope.

Module Conditions.

(** Condition reasons and messages ([api/v1alpha1/imageclusterinstall_types.go]). *)
Definition ConfigurationPendingReason := "ConfigurationPending".
Definition ConfigurationFailedReason := "ConfigurationFailed".
Definition ImageCreationFailedReason := "ImageCreationFailed".
Definition ImageCreationPendingReason := "ImageCreationPending".
Definition HostConfigurationPendingReason := "HostConfigurationPending".
Definition HostConfigurationFailedReason := "HostConfigurationFailed".
Definition HostConfigurationSucceededReason := "HostConfigurationSucceeded".
Definition InstallTimedoutReason := "ClusterInstallationTimedOut".
Definition InstallTimedoutMessage := "Cluster installation is taking longer than expected".
Definition InstallInProgressReason := "ClusterInstallationInProgress".
Definition InstallInProgressMessage := "Cluster installation is in progress".
Definition InstallSucceededReason := "ClusterInstallationSucceeded".
Definition InstallSucceededMessage := "Cluster installation has succeeded".
Definition HostValidationFailedReason := "HostValidationFailed".
Definition HostValidationPendingReason := "HostValidationPending".

(** A condition literal with its time stamps left zero. *)
Definition cond_lit (ty : ConditionType) (st : ConditionStatus) (reason msg : string) : Condition :=
  mkCondition ty st 0%Z 0%Z reason msg.

Fixpoint findCondition (conditions : list Condition) (condType : ConditionType)
    : option Condition :=
  match conditions with
  | [] => None
  | c :: cs => if bool_decide (c_Type c = condType) then Some c else findCondition cs condType
  end.

(** The in-place update of an existing condition. *)
Definition overwrite_condition (now : time) (newCondition existing : Condition) : Condition :=
  mkCondition (c_Type existing) (c_Status newCondition) now
    (if bool_decide (c_Status existing = c_Status newCondition)
     then c_LastTransitionTime existing else now)
    (c_Reason newCondition) (c_Message newCondition).

(** Writing through the pointer [findCondition] returns: the first match changes. *)
Fixpoint update_first (f : Condition → Condition) (condType : ConditionType)
    (conditions : list Condition) : list Condition :=
  match conditions with
  | [] => []
  | c :: cs =>
      if bool_decide (c_Type c = condType) then f c :: cs else c :: update_first f condType cs
  end.

(** The body of [setClusterInstallCondition] at the instant [now]. *)
Definition set_condition_at (now : time) (conditions : list Condition) (newCondition : Condition)
    : list Condition * bool :=
  match findCondition conditions (c_Type newCondition) with
  | None =>
      (conditions ++
         [mkCondition (c_Type newCondition) (c_Status newCondition) now now
            (c_Reason newCondition) (c_Message newCondition)], true)
  | Some existing =>
      if bool_decide (c_Status existing = c_Status newCondition)
         && bool_decide (c_Reason existing = c_Reason newCondition)
         && bool_decide (c_Message existing = c_Message newCondition)
      then (conditions, false)
      else (update_first (overwrite_condition now newCondition) (c_Type newCondition) conditions,
            true)
  end.

Definition setClusterInstallCondition (conditions : list Condition) (newCondition : Condition)
    : io (list Condition * bool) :=
  let* now := perform TimeNow in
  Ret (set_condition_at now conditions newCondition).

(** [setClusterInstallCondition(&ici.Status.Conditions, cond)]. *)
Definition set_ici_condition (ici : ImageClusterInstall) (cond : Condition)
    : io (ImageClusterInstall * bool) :=
  let* (cs, updated) := setClusterInstallCondition (Conditions (ici_Status ici)) cond in
  Ret (set_Conditions cs ici, updated).

Definition initialConditions : list Condition :=
  [ cond_lit ClusterInstallRequirementsMet ConditionUnknown "Unknown" "Unknown";
    cond_lit ClusterInstallCompleted ConditionUnknown "Unknown" "Unknown";
    cond_lit ClusterInstallFailed ConditionUnknown "Unknown" "Unknown";
    cond_lit ClusterInstallStopped ConditionUnknown "Unknown" "Unknown" ].

Fixpoint initialize_loop (conds : list Condition) (ici : ImageClusterInstall) (needToPatch : bool)
    : io (ImageClusterInstall * bool) :=
  match conds with
  | [] => Ret (ici, needToPatch)
  | cond :: conds' =>
      match findCondition (Conditions (ici_Status ici)) (c_Type cond) with
      | None =>
          let* (ici', updated) := set_ici_condition ici cond in
          initialize_loop conds' ici' (needToPatch || updated)
      | Some _ => initialize_loop conds' ici needToPatch
      end
  end.

(** [r.Status().Patch(ctx, ici, patch)], the patch being relative to [orig]. *)
Definition status_patch (orig ici : ImageClusterInstall)
    : io (ImageClusterInstall * option goerror) :=
  try ici' := perform (StatusPatchICI orig ici) else e => Ret (ici, Some e) in
  Ret (ici', None).

Definition initializeConditions (ici : ImageClusterInstall)
    : io (ImageClusterInstall * option goerror) :=
  let* (ici', needToPatch) := initialize_loop initialConditions ici false in
  if negb needToPatch then Ret (ici', None) else status_patch ici ici'.

(** The patch error is only logged. *)
Definition setRequirementsMetCondition (ici : ImageClusterInstall) (status : ConditionStatus)
    (reason msg : string) : io ImageClusterInstall :=
  let* (ici', updated) :=
    set_ici_condition ici (cond_lit ClusterInstallRequirementsMet status reason msg) in
  if negb updated then Ret ici'
  else let* (ici'', _) := status_patch ici ici' in Ret ici''.

Definition installationTimedout (ici : ImageClusterInstall) : bool :=
  match findCondition (Conditions (ici_Status ici)) ClusterInstallFailed with
  | None => false
  | Some cond =>
      bool_decide (c_Status cond = ConditionTrue)
      && bool_decide (c_Reason cond = InstallTimedoutReason)
  end.

Definition InstallationCompleted (ici : ImageClusterInstall) : bool :=
  match findCondition (Conditions (ici_Status ici)) ClusterInstallCompleted with
  | None => false
  | Some cond => bool_decide (c_Status cond = ConditionTrue)
  end.

(** The common body of the three setters of the monitor: Completed, Stopped and
    Failed are set in this order and written back in one patch if any changed. *)
Definition set_progress_conditions (ici : ImageClusterInstall)
    (completed stopped failed : Condition) : io (ImageClusterInstall * option goerror) :=
  let* (ici1, completedUpdated) := set_ici_condition ici completed in
  let* (ici2, stoppedUpdated) := set_ici_condition ici1 stopped in
  let* (ici3, failedUpdated) := set_ici_condition ici2 failed in
  if negb completedUpdated && negb stoppedUpdated && negb failedUpdated
  then Ret (ici3, None) else status_patch ici ici3.

Definition setClusterInstallingConditions (ici : ImageClusterInstall) (message : string)
    : io (ImageClusterInstall * option goerror) :=
  set_progress_conditions ici
    (cond_lit ClusterInstallCompleted ConditionFalse InstallInProgressReason InstallInProgressMessage)
    (cond_lit ClusterInstallStopped ConditionFalse InstallInProgressReason message)
    (cond_lit ClusterInstallFailed ConditionFalse InstallInProgressReason InstallInProgressMessage).

Definition setClusterTimeoutConditions (ici : ImageClusterInstall) (timeout : string)
    : io (ImageClusterInstall * option goerror) :=
  let message := "Cluster failed to install within the timeout (" +:+ timeout +:+ ")" in
  set_progress_conditions ici
    (cond_lit ClusterInstallCompleted ConditionFalse InstallTimedoutReason message)
    (cond_lit ClusterInstallStopped ConditionFalse InstallTimedoutReason InstallTimedoutMessage)
    (cond_lit ClusterInstallFailed ConditionTrue InstallTimedoutReason message).

Definition setClusterInstalledConditions (ici : ImageClusterInstall)
    : io (ImageClusterInstall * option goerror) :=
  set_progress_conditions ici
    (cond_lit ClusterInstallCompleted ConditionTrue InstallSucceededReason InstallSucceededMessage)
    (cond_lit ClusterInstallStopped ConditionTrue InstallSucceededReason InstallSucceededMessage)
    (cond_lit ClusterInstallFailed ConditionFalse InstallSucceededReason InstallSucceededMessage).

(** ** Properties *)

(** A condition list holds each type at most once. *)
Definition wf_conditions (cs : list Condition) : Prop := NoDup (c_Type <$> cs).

(** [cs] reports [status] for [ty] with the given reason and message. *)
Definition reports (cs : list Condition) (c : Condition) : Prop :=
  ∃ c', findCondition cs (c_Type c) = Some c' ∧ c_Status c' = c_Status c
        ∧ c_Reason c' = c_Reason c ∧ c_Message c' = c_Message c.

Lemma findCondition_type cs ty c : findCondition cs ty = Some c → c_Type c = ty.
Proof. induction cs as [|d cs IH]; simpl; [done|]. case_bool_decide; naive_solver. Qed.

Lemma findCondition_Some cs ty c : findCondition cs ty = Some c → c ∈ cs ∧ c_Type c = ty.
Proof.
  induction cs as [|d cs IH]; simpl; [done|]. case_bool_decide.
  - intros [= ->]. split; [left|done].
  - intros [? ?]%IH. split; [by right|done].
Qed.

Lemma findCondition_None cs ty : findCondition cs ty = None ↔ ty ∉ c_Type <$> cs.
Proof.
  induction cs as [|d cs IH]; csimpl; [set_solver|].
  rewrite elem_of_cons. case_bool_decide; [|rewrite IH]; split; intuition congruence.
Qed.

Lemma findCondition_app cs ds ty :
  findCondition (cs ++ ds) ty =
  match findCondition cs ty with Some c => Some c | None => findCondition ds ty end.
Proof. induction cs as [|d cs IH]; simpl; [done|]. by case_bool_decide. Qed.

Lemma update_first_types f ty cs :
  (∀ c, c_Type (f c) = c_Type c) → c_Type <$> update_first f ty cs = c_Type <$> cs.
Proof.
  intros Hf. induction cs as [|c cs IH]; csimpl; [done|].
  case_bool_decide; csimpl; [by rewrite Hf|by rewrite IH].
Qed.

Lemma find_update_first f ty cs ty' :
  (∀ c, c_Type (f c) = c_Type c) →
  findCondition (update_first f ty cs) ty' =
  if bool_decide (ty = ty') then f <$> findCondition cs ty' else findCondition cs ty'.
Proof.
  intros Hf. induction cs as [|c cs IH]; simpl; [by case_bool_decide|].
  repeat case_bool_decide; subst; simpl; rewrite ?Hf; repeat case_bool_decide; congruence.
Qed.

Lemma set_condition_at_find now cs c ty :
  findCondition (set_condition_at now cs c).1 ty =
  if bool_decide (c_Type c = ty) then
    Some match findCondition cs ty with
         | None => mkCondition (c_Type c) (c_Status c) now now (c_Reason c) (c_Message c)
         | Some e => if (set_condition_at now cs c).2 then overwrite_condition now c e else e
         end
  else findCondition cs ty.
Proof.
  destruct (decide (c_Type c = ty)) as [<-|Hne].
  - rewrite (bool_decide_eq_true_2 (c_Type c = c_Type c)) by done. unfold set_condition_at.
    destruct (findCondition cs (c_Type c)) as [e|] eqn:He; [destruct (_ && _)|]; simpl; [done| |].
    + rewrite find_update_first by done. rewrite (bool_decide_eq_true_2 (c_Type c = c_Type c)) by done.
      by rewrite He.
    + rewrite findCondition_app, He. simpl. by rewrite bool_decide_eq_true_2.
  - rewrite (bool_decide_eq_false_2 _ Hne). unfold set_condition_at.
    destruct (findCondition cs (c_Type c)) as [e|] eqn:He; [destruct (_ && _)|]; simpl; [done| |].
    + rewrite find_update_first by done. by rewrite (bool_decide_eq_false_2 _ Hne).
    + rewrite findCondition_app. simpl. rewrite (bool_decide_eq_false_2 _ Hne).
      by destruct (findCondition cs ty).
Qed.

Lemma set_condition_at_wf now cs c :
  wf_conditions cs → wf_conditions (set_condition_at now cs c).1.
Proof.
  unfold wf_conditions, set_condition_at. intros Hwf.
  destruct (findCondition cs (c_Type c)) as [e|] eqn:He; simpl.
  - destruct (_ && _); simpl; [done|]. by rewrite update_first_types.
  - rewrite fmap_app. apply NoDup_app. split_and!; [done| |apply NoDup_singleton].
    intros ty Hty. simpl. rewrite list_elem_of_singleton. intros ->.
    by apply findCondition_None in He.
Qed.

Lemma set_condition_at_reports now cs c : reports (set_condition_at now cs c).1 c.
Proof.
  unfold reports. rewrite set_condition_at_find, bool_decide_eq_true_2 by done.
  eexists; split; [done|]. unfold set_condition_at.
  destruct (findCondition cs (c_Type c)) as [e|]; [|done].
  destruct (_ && _) eqn:Hsame; [|done]. simpl. by bools.
Qed.

Lemma set_condition_at_same now cs c :
  (set_condition_at now cs c).2 = false ↔ reports cs c.
Proof.
  unfold set_condition_at, reports. destruct (findCondition cs (c_Type c)) as [e|] eqn:He.
  - destruct (_ && _) eqn:Hsame; simpl; split; try done.
    + intros _. bools. eauto.
    + intros (c'&[= <-]&H1&H2&H3). by rewrite !bool_decide_eq_true_2 in Hsame by done.
  - split; [done|]. by intros (?&[=]&_).
Qed.

(** C31: [setClusterInstallCondition] is a correct upsert.  On a list without
    duplicate types it keeps that invariant; the list then reports the new
    status, reason and message for the type; every other type is untouched; the
    call reports "unchanged" exactly when the list already reported the same
    status, reason and message, and then the list is not modified; and the
    transition time moves to the current time exactly when the condition is new
    or its status changed. *)
Theorem set_condition_upsert now cs c :
  wf_conditions cs →
  let '(cs', updated) := set_condition_at now cs c in
  wf_conditions cs' ∧ reports cs' c ∧
  (∀ ty, ty ≠ c_Type c → findCondition cs' ty = findCondition cs ty) ∧
  (updated = false ↔ reports cs c) ∧ (updated = false → cs' = cs) ∧
  (∀ c', findCondition cs' (c_Type c) = Some c' →
     c_LastTransitionTime c' =
       match findCondition cs (c_Type c) with
       | Some e => if bool_decide (c_Status e = c_Status c) then c_LastTransitionTime e else now
       | None => now
       end).
Proof.
  intros Hwf. pose proof (set_condition_at_wf now cs c Hwf). pose proof (set_condition_at_reports now cs c).
  pose proof (set_condition_at_same now cs c). pose proof (set_condition_at_find now cs c) as Hfind.
  destruct (set_condition_at now cs c) as [cs' updated] eqn:Hset. simpl in *. split_and!; try done.
  - intros ty Hty. rewrite Hfind. by rewrite bool_decide_eq_false_2.
  - intros ->. unfold set_condition_at in Hset. repeat case_match; by simplify_eq.
  - intros c' Hc'. rewrite Hfind, bool_decide_eq_true_2 in Hc' by done. simplify_eq.
    unfold set_condition_at in Hset. destruct (findCondition cs (c_Type c)) as [e|]; [|done].
    destruct (_ && _) eqn:Hsame; simplify_eq; simpl; [|done].
    bools. by rewrite bool_decide_eq_true_2.
Qed.

Lemma set_condition_upsert_witness :
  (set_condition_at 7%Z [cond_lit ClusterInstallFailed ConditionFalse "a" "b"]
     (cond_lit ClusterInstallFailed ConditionTrue "a" "c")).1
  = [mkCondition ClusterInstallFailed ConditionTrue 7%Z 7%Z "a" "c"] ∧
  wf_conditions (set_condition_at 7%Z [cond_lit ClusterInstallFailed ConditionFalse "a" "b"]
     (cond_lit ClusterInstallFailed ConditionTrue "a" "c")).1.
Proof.
  split; [reflexivity|].
  assert (Hwf : wf_conditions [cond_lit ClusterInstallFailed ConditionFalse "a" "b"])
    by apply NoDup_singleton.
  apply (set_condition_upsert 7%Z _ (cond_lit ClusterInstallFailed ConditionTrue "a" "c") Hwf).
Defined.

(** ** Writing conditions back *)

Lemma set_Conditions_id ici : set_Conditions (Conditions (ici_Status ici)) ici = ici.
Proof. by destruct ici as [? ? []]. Qed.

Lemma exec_set_ici_condition ici c t r :
  exec (set_ici_condition ici c) t r →
  ∃ now, t = [Ev TimeNow now] ∧
    r = (set_Conditions (set_condition_at now (Conditions (ici_Status ici)) c).1 ici,
         (set_condition_at now (Conditions (ici_Status ici)) c).2).
Proof.
  unfold set_ici_condition, setClusterInstallCondition. intros H. exec_inv. simplify_eq/=.
  eexists; split; [done|]. by match goal with H : _ = set_condition_at _ _ _ |- _ => rewrite <- H end.
Qed.

Lemma exec_status_patch orig new t r :
  exec (status_patch orig new) t r →
  ∃ x, t = [Ev (StatusPatchICI orig new) x] ∧
       r = match x with Ok i => (i, None) | Err e => (new, Some e) end.
Proof. unfold status_patch. intros H. exec_inv; simplify_eq; eexists; by split. Qed.

(** Three upserts of different types in a row. *)
Lemma set_three_reports n1 n2 n3 cs c1 c2 c3 :
  c_Type c1 ≠ c_Type c2 → c_Type c1 ≠ c_Type c3 → c_Type c2 ≠ c_Type c3 →
  let r1 := set_condition_at n1 cs c1 in
  let r2 := set_condition_at n2 r1.1 c2 in
  let r3 := set_condition_at n3 r2.1 c3 in
  (reports r3.1 c1 ∧ reports r3.1 c2 ∧ reports r3.1 c3) ∧
  (∀ ty, ty ≠ c_Type c1 → ty ≠ c_Type c2 → ty ≠ c_Type c3 →
     findCondition r3.1 ty = findCondition cs ty) ∧
  (wf_conditions cs → wf_conditions r3.1) ∧
  (r1.2 = false → r2.2 = false → r3.2 = false →
     r3.1 = cs ∧ reports cs c1 ∧ reports cs c2 ∧ reports cs c3).
Proof.
  intros H12 H13 H23 r1 r2 r3.
  assert (Hkeep : ∀ n cs c c', c_Type c' ≠ c_Type c → reports cs c' →
            reports (set_condition_at n cs c).1 c').
  { intros n cs' c c' Hne (d&Hd&?). exists d. rewrite set_condition_at_find.
    rewrite bool_decide_eq_false_2 by congruence. done. }
  split_and!.
  - apply Hkeep; [done|]. apply Hkeep; [done|]. apply set_condition_at_reports.
  - apply Hkeep; [done|]. apply set_condition_at_reports.
  - apply set_condition_at_reports.
  - intros ty ???. unfold r3, r2, r1. rewrite !set_condition_at_find.
    by rewrite !bool_decide_eq_false_2.
  - intros ?. by repeat apply set_condition_at_wf.
  - intros F1 F2 F3.
    assert (Hid : ∀ n cs c, (set_condition_at n cs c).2 = false → (set_condition_at n cs c).1 = cs).
    { intros n cs' c. unfold set_condition_at. by repeat case_match. }
    pose proof (Hid _ _ _ F1) as E1. pose proof (Hid _ _ _ F2) as E2. pose proof (Hid _ _ _ F3) as E3.
    apply set_condition_at_same in F1, F2, F3. fold r1 in E1. fold r2 in E2. fold r3 in E3.
    rewrite E2 in F3. rewrite E1 in F2, F3. rewrite E3, E2, E1. done.
Qed.

(** The stages of an installation the monitor reports. *)
Inductive progress := Installing (message : string) | TimedOut (timeout : string) | Succeeded.

(** What each stage reports about Completed, Stopped and Failed. *)
Definition progress_report (p : progress) : Condition * Condition * Condition :=
  match p with
  | Installing m =>
      (cond_lit ClusterInstallCompleted ConditionFalse InstallInProgressReason InstallInProgressMessage,
       cond_lit ClusterInstallStopped ConditionFalse InstallInProgressReason m,
       cond_lit ClusterInstallFailed ConditionFalse InstallInProgressReason InstallInProgressMessage)
  | TimedOut t =>
      let m := "Cluster failed to install within the timeout (" +:+ t +:+ ")" in
      (cond_lit ClusterInstallCompleted ConditionFalse InstallTimedoutReason m,
       cond_lit ClusterInstallStopped ConditionFalse InstallTimedoutReason InstallTimedoutMessage,
       cond_lit ClusterInstallFailed ConditionTrue InstallTimedoutReason m)
  | Succeeded =>
      (cond_lit ClusterInstallCompleted ConditionTrue InstallSucceededReason InstallSucceededMessage,
       cond_lit ClusterInstallStopped ConditionTrue InstallSucceededReason InstallSucceededMessage,
       cond_lit ClusterInstallFailed ConditionFalse InstallSucceededReason InstallSucceededMessage)
  end.

(** The operation of the monitor for a stage. *)
Definition set_progress (p : progress) (ici : ImageClusterInstall)
    : io (ImageClusterInstall * option goerror) :=
  match p with
  | Installing m => setClusterInstallingConditions ici m
  | TimedOut t => setClusterTimeoutConditions ici t
  | Succeeded => setClusterInstalledConditions ici
  end.

Lemma set_progress_eq p ici :
  set_progress p ici =
  let '(c1, c2, c3) := progress_report p in set_progress_conditions ici c1 c2 c3.
Proof. by destruct p. Qed.

(** The object a stage writes: only conditions change, the three of the report. *)
Definition progress_written (p : progress) (old new : ImageClusterInstall) : Prop :=
  let '(c1, c2, c3) := progress_report p in
  ∃ cs, new = set_Conditions cs old ∧ reports cs c1 ∧ reports cs c2 ∧ reports cs c3 ∧
        (wf_conditions (Conditions (ici_Status old)) → wf_conditions cs) ∧
        ∀ ty, ty ≠ ClusterInstallCompleted → ty ≠ ClusterInstallStopped → ty ≠ ClusterInstallFailed →
              findCondition cs ty = findCondition (Conditions (ici_Status old)) ty.

Lemma exec_set_progress p ici t ici' err :
  exec (set_progress p ici) t (ici', err) →
  ∃ n1 n2 n3,
    (t = [Ev TimeNow n1; Ev TimeNow n2; Ev TimeNow n3] ∧ ici' = ici ∧ err = None ∧
     progress_written p ici ici) ∨
    (∃ new x, t = [Ev TimeNow n1; Ev TimeNow n2; Ev TimeNow n3; Ev (StatusPatchICI ici new) x] ∧
       progress_written p ici new ∧
       (ici', err) = match x with Ok i => (i, None) | Err e => (new, Some e) end).
Proof.
  rewrite set_progress_eq. unfold progress_written.
  assert (Hty : let '(c1, c2, c3) := progress_report p in
            c_Type c1 = ClusterInstallCompleted ∧ c_Type c2 = ClusterInstallStopped
            ∧ c_Type c3 = ClusterInstallFailed) by by destruct p.
  destruct (progress_report p) as [[c1 c2] c3]. destruct Hty as (T1&T2&T3).
  unfold set_progress_conditions. intros H. exec_inv.
  all: repeat match goal with
       | H : exec (set_ici_condition _ _) _ _ |- _ =>
           apply exec_set_ici_condition in H as (?&->&[= -> ->])
       | H : exec (status_patch _ _) _ _ |- _ => apply exec_status_patch in H as (?&->&?)
       end; simplify_eq/=.
  all: match goal with
       | |- context [Ev TimeNow ?n1 :: Ev TimeNow ?n2 :: Ev TimeNow ?n3 :: _] =>
           destruct (set_three_reports n1 n2 n3 (Conditions (ici_Status ici)) c1 c2 c3)
             as ((R1&R2&R3)&Hother&Hwf&Hsame); [congruence..|]; exists n1, n2, n3
       end.
  - left. bools. destruct Hsame as (Hcs&?&?&?); [done..|].
    assert (Heq : ∀ a b c, set_Conditions a (set_Conditions b (set_Conditions c ici)) = set_Conditions a ici)
      by done.
    rewrite Heq, Hcs, set_Conditions_id. split_and!; try done.
    exists (Conditions (ici_Status ici)). by rewrite set_Conditions_id.
  - right. do 2 eexists. split; [done|]. split; [|done].
    eexists. split; [done|]. split_and!; try done. rewrite T1, T2, T3 in Hother. auto.
Qed.

Lemma wp_set_progress p ici h :
  wp (λ _ a, a = TimeNow ∨ ∃ n, a = StatusPatchICI ici n ∧ progress_written p ici n)
    (set_progress p ici) h (λ _ _, True).
Proof.
  apply wp_of_exec; [apply answer_inhabited|]. intros t [ici' err] Hx. split; [done|].
  assert (Hall : Forall (λ ev, ev_call ev = TimeNow ∨ ∃ n, ev_call ev = StatusPatchICI ici n ∧
                                 progress_written p ici n) t).
  { apply exec_set_progress in Hx as (n1&n2&n3&[(->&_)|(new&x&->&Hw&_)]);
      repeat (apply Forall_cons; split; [simpl; by eauto|]); apply Forall_nil_2. }
  intros t1 ev t2 ->. by apply Forall_app in Hall as [_ [? _]%Forall_cons].
Qed.

(** Whatever the API server answers, each of the monitor's three status
    updates writes at most one status patch, relative to the object it was
    given; the patch changes nothing but the conditions, reports exactly the
    Completed, Stopped and Failed values of its stage, leaves all other
    conditions alone and never reports Completed and Failed as true together.
    When no patch is sent the object already reported the stage and is returned
    unchanged without error. *)
Theorem progress_report_written p ici t ici' err :
  exec (set_progress p ici) t (ici', err) →
  (∀ a x, Ev a x ∈ t → hub_write a = true →
     ∃ new, a = StatusPatchICI ici new ∧ progress_written p ici new ∧
            ¬ (InstallationCompleted new = true ∧
               ∃ f, findCondition (Conditions (ici_Status new)) ClusterInstallFailed = Some f
                    ∧ c_Status f = ConditionTrue)) ∧
  length (filter (λ ev, hub_write (ev_call ev) = true) t) ≤ 1 ∧
  (Forall (λ ev, hub_write (ev_call ev) = false) t →
     ici' = ici ∧ err = None ∧ progress_written p ici ici).
Proof.
  intros (n1&n2&n3&[(->&->&->&Hw)|(new&x&->&Hw&_)])%exec_set_progress.
  - split_and!; [|simpl; lia|done].
    intros a x Hin. repeat (apply elem_of_cons in Hin as [[= ->]|Hin]; [done|]). set_solver.
  - split_and!; [|simpl; lia|].
    + intros a y Hin ?.
      do 3 (apply elem_of_cons in Hin as [[= ->]|Hin]; [done|]).
      apply list_elem_of_singleton in Hin. apply (f_equal ev_call) in Hin. simpl in Hin. subst a.
      exists new. split_and!; [done..|]. intros [Hc (f&Hf&Hft)].
      unfold progress_written in Hw. unfold InstallationCompleted in Hc.
      destruct p; destruct Hw as (cs&->&R1&_&R3&_); simpl in *;
        destruct R1 as (d1&D1&S1&_); destruct R3 as (d3&D3&S3&_); simpl in *;
        rewrite D1 in Hc; rewrite D3 in Hf; simplify_eq; bools; congruence.
    + intros Hall. rewrite Forall_forall in Hall.
      by specialize (Hall (Ev (StatusPatchICI ici new) x) ltac:(set_solver)).
Qed.

Lemma progress_report_written_witness :
  ∃ t ici' err, exec (set_progress Succeeded Sim.ici0) t (ici', err) ∧
    length (filter (λ ev, hub_write (ev_call ev) = true) t) ≤ 1.
Proof.
  set (p := set_progress Succeeded Sim.ici0).
  pose proof (exec_run Sim.handle p Sim.world0) as Hx. rewrite (surjective_pairing (_.1.2)) in Hx.
  eexists _, _, _. split; [exact Hx|].
  exact (proj1 (proj2 (progress_report_written _ _ _ _ _ Hx))).
Defined.

Lemma initialize_loop_spec conds ici need t ici' need' :
  exec (initialize_loop conds ici need) t (ici', need') →
  Forall (λ ev, ev_call ev = TimeNow) t ∧
  ∃ added, ici' = set_Conditions (Conditions (ici_Status ici) ++ added) ici ∧
    need' = need || negb (bool_decide (added = [])) ∧
    (∀ c, c ∈ conds → findCondition (Conditions (ici_Status ici')) (c_Type c) ≠ None) ∧
    (∀ a, a ∈ added → findCondition (Conditions (ici_Status ici)) (c_Type a) = None ∧
       ∃ c, c ∈ conds ∧ c_Type a = c_Type c ∧ c_Status a = c_Status c) ∧
    (wf_conditions (Conditions (ici_Status ici)) → wf_conditions (Conditions (ici_Status ici'))).
Proof.
  revert ici need t. induction conds as [|c conds IH]; intros ici need t; cbn [initialize_loop].
  - intros [-> [= -> ->]]. split; [done|]. exists []. rewrite app_nil_r, set_Conditions_id, orb_false_r.
    split_and!; try done; set_solver.
  - destruct (findCondition (Conditions (ici_Status ici)) (c_Type c)) as [e|] eqn:He.
    + intros (Ht&added&Hici&Hneed&Hall&Hadd&Hwf)%IH. split; [done|]. exists added.
      split_and!; try done; [|intros a (?&d&?&?)%Hadd; split; [done|]; exists d; by rewrite elem_of_cons; auto].
      intros d [->|Hd]%elem_of_cons; [|auto]. rewrite Hici. simpl. by rewrite findCondition_app, He.
    + intros (t1&t2&r&->&(now&->&->)%exec_set_ici_condition&H2)%prog_bind_assoc_exec.
      simpl in H2. unfold set_condition_at in H2. rewrite He in H2. simpl in H2.
      apply IH in H2 as (Ht&added&Hici&Hneed&Hall&Hadd&Hwf). simpl in *.
      set (new := mkCondition (c_Type c) (c_Status c) now now (c_Reason c) (c_Message c)) in *.
      split; [by constructor|]. exists (new :: added). rewrite <- app_assoc in Hici. simpl in Hici.
      split_and!; [done| | | |].
      * by rewrite Hneed, orb_true_r, orb_true_l, orb_true_r.
      * intros d [->|Hd]%elem_of_cons; [|auto]. rewrite Hici. simpl.
        rewrite findCondition_app, He. simpl. by rewrite bool_decide_eq_true_2.
      * intros a [->|Ha]%elem_of_cons; [split; [done|]; exists c; by rewrite elem_of_cons; auto|].
        destruct (Hadd a Ha) as [Hnone (d&?&?)]. rewrite findCondition_app in Hnone.
        destruct (findCondition (Conditions (ici_Status ici)) (c_Type a)); [done|].
        split; [done|]. exists d. rewrite elem_of_cons. auto.
      * intros Hcs. apply Hwf. pose proof (set_condition_at_wf now _ c Hcs) as Hw.
        unfold set_condition_at in Hw. by rewrite He in Hw.
Qed.

(** [initializeConditions] sends a status patch exactly when one of the four
    condition types is missing; the patched object has all four types, keeps
    every condition that was there (value and position), adds only conditions
    of missing types with status Unknown, and has no duplicate type if the
    object had none. *)
Theorem initializeConditions_spec ici t ici' err :
  exec (initializeConditions ici) t (ici', err) →
  (∃ added new x t0,
     t = t0 ++ [Ev (StatusPatchICI ici new) x] ∧ Forall (λ ev, ev_call ev = TimeNow) t0 ∧
     new = set_Conditions (Conditions (ici_Status ici) ++ added) ici ∧ added ≠ [] ∧
     (∀ ty, ty ∈ c_Type <$> initialConditions →
        findCondition (Conditions (ici_Status new)) ty ≠ None) ∧
     (∀ a, a ∈ added → findCondition (Conditions (ici_Status ici)) (c_Type a) = None ∧
        c_Type a ∈ c_Type <$> initialConditions ∧ c_Status a = ConditionUnknown) ∧
     (wf_conditions (Conditions (ici_Status ici)) → wf_conditions (Conditions (ici_Status new))) ∧
     (ici', err) = match x with Ok i => (i, None) | Err e => (new, Some e) end)
  ∨ ((∀ ty, ty ∈ c_Type <$> initialConditions → findCondition (Conditions (ici_Status ici)) ty ≠ None) ∧
     Forall (λ ev, ev_call ev = TimeNow) t ∧ ici' = ici ∧ err = None).
Proof.
  unfold initializeConditions.
  intros (t1&t2&[new need]&->&(Ht&added&Hnew&Hneed&Hall&Hadd&Hwf)%initialize_loop_spec&H2)%prog_bind_assoc_exec.
  simpl in Hneed. subst need. rewrite negb_involutive in H2.
  assert (Hall' : ∀ ty, ty ∈ c_Type <$> initialConditions →
            findCondition (Conditions (ici_Status new)) ty ≠ None).
  { intros ty (c&->&Hc)%list_elem_of_fmap. auto. }
  case_bool_decide as Hempty.
  - subst added. rewrite app_nil_r, set_Conditions_id in Hnew. subst new. right.
    destruct H2 as [-> [= -> ->]]. by rewrite app_nil_r.
  - apply exec_status_patch in H2 as (x&->&Hr). left. exists added, new, x, t1.
    split_and!; try done. intros a Ha. destruct (Hadd a Ha) as (?&c&Hc&Hty&->).
    split_and!; [done|rewrite Hty; by apply list_elem_of_fmap_2|]. unfold initialConditions in Hc.
    repeat (apply elem_of_cons in Hc as [->|Hc]; [done|]). by apply not_elem_of_nil in Hc.
Qed.

Lemma initializeConditions_spec_witness :
  ∃ t ici' err, exec (initializeConditions Sim.ici0) t (ici', err) ∧
    ∃ new x t0, t = t0 ++ [Ev (StatusPatchICI Sim.ici0 new) x].
Proof.
  set (p := initializeConditions Sim.ici0).
  pose proof (exec_run Sim.handle p Sim.world0) as Hx. rewrite (surjective_pairing (_.1.2)) in Hx.
  eexists _, _, _. split; [exact Hx|].
  destruct (initializeConditions_spec _ _ _ _ Hx) as [(added&new&x&t0&Ht&_)|(Hall&_)].
  - exists new, x, t0. exact Ht.
  - exfalso. apply (Hall ClusterInstallFailed); [|reflexivity].
    do 2 apply list_elem_of_further. apply list_elem_of_here.
Defined.

(** ** Specifications for the reconciler *)

(** The status patch that initializes missing conditions. *)
Definition init_patch (p n : ImageClusterInstall) : Prop :=
  ∃ added, n = set_Conditions (Conditions (ici_Status p) ++ added) p ∧
    Forall (λ c, c_Status c = ConditionUnknown) added ∧
    (wf_conditions (Conditions (ici_Status p)) → wf_conditions (Conditions (ici_Status n))).

(** The status patch that reports RequirementsMet. *)
Definition requirements_patch (st : ConditionStatus) (reason msg : string) (p n : ImageClusterInstall) : Prop :=
  ∃ now, n = set_Conditions (set_condition_at now (Conditions (ici_Status p))
                               (cond_lit ClusterInstallRequirementsMet st reason msg)).1 p.

(** The conditions report [ty] as true. *)
Definition reported_true (ty : ConditionType) (ici : ImageClusterInstall) : Prop :=
  ∃ c, findCondition (Conditions (ici_Status ici)) ty = Some c ∧ c_Status c = ConditionTrue.

Lemma findCondition_wf cs c : wf_conditions cs → c ∈ cs → findCondition cs (c_Type c) = Some c.
Proof.
  unfold wf_conditions. induction cs as [|d cs IH]; csimpl; [by intros _ ?%not_elem_of_nil|].
  intros [Hd Hcs]%NoDup_cons [->|Hc]%elem_of_cons; [by rewrite bool_decide_eq_true_2|].
  rewrite bool_decide_eq_false_2; [auto|]. intros Heq. apply Hd. rewrite Heq. by apply list_elem_of_fmap_2.
Qed.

(** On a list without duplicates, what the conditions report is all they claim. *)
Lemma claims_reported ty ici :
  wf_conditions (Conditions (ici_Status ici)) → claims ty ici → reported_true ty ici.
Proof. intros Hwf (c&Hc&<-&?). exists c. split; [by apply findCondition_wf|done]. Qed.

Lemma progress_written_claims p old new :
  wf_conditions (Conditions (ici_Status old)) → progress_written p old new →
  wf_conditions (Conditions (ici_Status new)) ∧
  ¬ (claims ClusterInstallCompleted new ∧ claims ClusterInstallFailed new) ∧
  (claims ClusterInstallCompleted new → p = Succeeded).
Proof.
  intros Hwf Hw. assert (Hwf' : wf_conditions (Conditions (ici_Status new))).
  { unfold progress_written in Hw. destruct (progress_report p) as [[??]?]. destruct Hw as (cs&->&_&_&_&?&_). auto. }
  assert (Hcl : ∀ ty, claims ty new → reported_true ty new) by (intros; by apply claims_reported).
  split; [done|]. unfold progress_written in Hw.
  destruct p; destruct Hw as (cs&->&(c&Hc&Hs&_)&_&(f&Hf&Hfs&_)&_); simpl in *; split.
  all: try (intros [(c'&Hc'&?)%Hcl (f'&Hf'&?)%Hcl]; simpl in *; congruence).
  all: intros (c'&Hc'&?)%Hcl; simpl in *; congruence.
Qed.

Lemma init_patch_true ty p n : init_patch p n → reported_true ty n → reported_true ty p.
Proof.
  intros (added&->&Hu&_) (c&Hc&Ht). simpl in Hc. rewrite findCondition_app in Hc.
  destruct (findCondition (Conditions (ici_Status p)) ty) as [d|] eqn:Hd; simplify_eq; [by exists c|].
  exfalso. clear Hd. induction Hu as [|a added Ha Hu IH]; simpl in Hc; [done|].
  destruct (bool_decide _); [|auto]. injection Hc as ->. congruence.
Qed.

Lemma requirements_patch_reports st reason msg p n :
  requirements_patch st reason msg p n →
  reports (Conditions (ici_Status n)) (cond_lit ClusterInstallRequirementsMet st reason msg).
Proof. intros [now ->]. simpl. apply set_condition_at_reports. Qed.

(** [c] is reported for [ici] by the requests [t]: the conditions say it already
    and nothing is sent, or they do not and one status patch is sent, which
    changes the condition of that type only. *)
Definition reported_by (ici : ImageClusterInstall) (c : Condition) (t : trace) : Prop :=
  let cs := Conditions (ici_Status ici) in
  (reports cs c ∧ t = []) ∨
  (¬ reports cs c ∧
   ∃ cs' x, t = [Ev (StatusPatchICI ici (set_Conditions cs' ici)) x] ∧ reports cs' c ∧
     ∀ ty, ty ≠ c_Type c → findCondition cs' ty = findCondition cs ty).

Lemma exec_setRequirementsMetCondition ici st reason msg t r :
  exec (setRequirementsMetCondition ici st reason msg) t r →
  ∃ now td, t = Ev TimeNow now :: td ∧
    reported_by ici (cond_lit ClusterInstallRequirementsMet st reason msg) td.
Proof.
  unfold setRequirementsMetCondition.
  intros (t1&t2&r1&->&(now&->&->)%exec_set_ici_condition&H)%prog_bind_assoc_exec.
  exists now, t2. split; [done|]. set (c := cond_lit _ _ _ _) in *. set (cs := Conditions (ici_Status ici)) in *.
  pose proof (set_condition_at_same now cs c) as Hsame. pose proof (set_condition_at_reports now cs c) as Hrep.
  assert (Hother : ∀ ty, ty ≠ c_Type c → findCondition (set_condition_at now cs c).1 ty = findCondition cs ty).
  { intros ty Hty. rewrite set_condition_at_find, bool_decide_eq_false_2; [done|congruence]. }
  destruct (set_condition_at now cs c) as [cs' updated]. cbn [fst snd] in *. destruct updated; cbn [negb] in H.
  - apply prog_bind_assoc_exec in H as (t3&t4&r2&->&(x&->&_)%exec_status_patch&H).
    right. destruct r2 as [i e]. destruct H as [-> _]. split; [by intros ?%Hsame|]. by exists cs', x.
  - left. destruct H as [-> _]. split; [by apply Hsame|done].
Qed.

(** Both patches keep everything the object claims, and its shape. *)
Lemma elem_of_update_first f ty cs c :
  c ∈ update_first f ty cs → c ∈ cs ∨ ∃ d, c = f d ∧ c_Type d = ty.
Proof.
  induction cs as [|d cs IH]; simpl; [by left|]. case_bool_decide.
  - intros [->|?]%elem_of_cons; [right; by exists d|left; by right].
  - intros [->|[?|?]%IH]%elem_of_cons; [left; by left|left; by right|by right].
Qed.

Lemma init_patch_similar p n : init_patch p n → similar n p.
Proof.
  intros (added&->&Hu&Hwf). split_and!; [done..| |exact Hwf]. intros ty _ (c&Hc&?&Hst). simpl in Hc.
  apply elem_of_app in Hc as [?|Hc]; [by exists c|].
  rewrite Forall_forall in Hu. rewrite (Hu c Hc) in Hst. done.
Qed.

Lemma requirements_patch_similar st reason msg p n : requirements_patch st reason msg p n → similar n p.
Proof.
  intros [now ->]. split_and!; [done..| |simpl; apply set_condition_at_wf].
  intros ty Hne (c&Hc&Hty&Hst). simpl in Hc. unfold set_condition_at in Hc.
  destruct (findCondition _ _); [destruct (_ && _)|]; simpl in Hc; [by exists c| |].
  - apply elem_of_update_first in Hc as [?|(d&->&Hd)]; [by exists c|].
    cbn in Hty, Hd. congruence.
  - apply elem_of_app in Hc as [?| ->%list_elem_of_singleton]; [by exists c|]. by destruct Hne.
Qed.

Lemma emits_initialize_loop conds ici need : emits (λ a, a = TimeNow) (initialize_loop conds ici need).
Proof.
  revert ici need. induction conds as [|c conds IH]; intros ici need; cbn [initialize_loop]; [done|].
  destruct (findCondition _ _); [done|]. unfold set_ici_condition, setClusterInstallCondition.
  cbn [emits prog_bind perform]. split; [done|]. intros x. destruct (set_condition_at _ _ _). apply IH.
Qed.

Lemma wp_initializeConditions ici h :
  known ici h →
  wp (λ _ a, a = TimeNow ∨ ∃ n, a = StatusPatchICI ici n ∧ init_patch ici n)
    (initializeConditions ici) h (λ r h', known r.1 h').
Proof.
  intros Hk. unfold initializeConditions. rewrite wp_bind.
  eapply wp_intro; [apply emits_initialize_loop|by left|].
  intros t [new need] (_&added&->&_&_&Hadd&Hwf)%initialize_loop_spec.
  set (new := set_Conditions _ ici). assert (Hinit : init_patch ici new).
  { exists added. split_and!; [done| |done]. apply Forall_forall. intros a Ha.
    destruct (Hadd a Ha) as (_&c&Hc&_&->). unfold initialConditions in Hc.
    repeat (apply elem_of_cons in Hc as [->|Hc]; [done|]). by apply not_elem_of_nil in Hc. }
  assert (Hk' : ∀ t', known new (h ++ t')).
  { intros t'. eapply known_similar; [by apply init_patch_similar|by apply known_app]. }
  destruct need; cbn [negb]; [|cbn [wp]; apply Hk'].
  unfold status_patch. wp_call; [right; by exists new|].
  - destruct x as [i|e]; cbn [wp fst]; [|rewrite <- app_assoc; apply Hk'].
    eapply known_decoded; [hist|done].
Qed.

Lemma wp_setRequirementsMetCondition ici st reason msg h :
  known ici h →
  wp (λ _ a, a = TimeNow ∨ ∃ n, a = StatusPatchICI ici n ∧ requirements_patch st reason msg ici n)
    (setRequirementsMetCondition ici st reason msg) h (λ r h', known r h').
Proof.
  intros Hk. unfold setRequirementsMetCondition, set_ici_condition, setClusterInstallCondition.
  wp_call; [by left|]. destruct (set_condition_at _ _ _) as [cs updated] eqn:Hset. cbn [prog_bind].
  assert (Hp : requirements_patch st reason msg ici (set_Conditions cs ici)) by (exists x; by rewrite Hset).
  assert (Hk' : ∀ t', known (set_Conditions cs ici) (h ++ t')).
  { intros t'. eapply known_similar; [by eapply requirements_patch_similar|by apply known_app]. }
  destruct updated; cbn [negb]; [|cbn [wp]; apply Hk'].
  unfold status_patch. wp_call; [right; by eexists|].
  - destruct x0 as [i|e]; cbn [prog_bind wp]; [|rewrite <- app_assoc; apply Hk'].
    eapply known_decoded; [hist|done].
Qed.

End Conditions.
