(* ===== verification/PatchBase.v ===== *)
(** * The base of a patch ([controllers/conditions.go], in memory)

    The status updates keep a deep copy of the object, change the conditions of
    the object through pointers into its array, and send the difference as a
    patch.  Here [setClusterInstallCondition] is the code on memory; it is shown to
    do what its model on values in [Conditions] does, and to leave the copy, from
    which the patch is computed, as it was. *)
From stdpp Require Import base gmap strings list.
From Stdlib Require Import ZArith Lia.
From S2P Require Import Prelude Types Heap DeepCopy World Conditions.
Local Open Scope go_scope.

Module PatchBase.
Import Heap Heap.Notations DeepCopy.

(** ** The code *)

(** [&conditions[i]] of the first condition of the type, from position [i] on. *)
Fixpoint find_loop (s : slice_header) (condType : ConditionType) (i n : nat) : GoM (option (loc * nat)) :=
  match n with
  | O => ret None
  | S n' =>
      let+ p := elem s i in
      let+ c := read_elem p in
      if bool_decide (c_Type c = condType) then ret (Some p) else find_loop s condType (S i) n'
  end.
Definition findCondition (conditions : go_slice) (condType : ConditionType) : GoM (option (loc * nat)) :=
  match conditions with
  | None => ret None
  | Some s => find_loop s condType 0 (sl_len s)
  end.

Definition with_conditions (cs : go_slice) (i : ICIMem) : ICIMem :=
  mkICIMem (icm_TypeMeta i) (icm_Meta i) (icm_Spec i)
    (mkICIStatusMem cs (stm_InstallRestarts (icm_Status i)) (stm_BareMetalHostRef (icm_Status i))
       (stm_BootTime (icm_Status i))).

(** [setClusterInstallCondition(&ici.Status.Conditions, newCondition)] at the
    instant [now]; [append] leaves room for [extra] further elements when it
    allocates. *)
Definition setClusterInstallCondition (extra : nat) (now : time) (ici : loc) (newCondition : Condition) : GoM bool :=
  let+ i := read ici in
  let+ existingCondition := findCondition (stm_Conditions (icm_Status i)) (c_Type newCondition) in
  match existingCondition with
  | None =>
      let+ cs := append zero_condition extra (stm_Conditions (icm_Status i))
                   (mkCondition (c_Type newCondition) (c_Status newCondition) now now
                      (c_Reason newCondition) (c_Message newCondition)) in
      let+ _ := write ici (with_conditions cs i) in
      ret true
  | Some p =>
      let+ c := read_elem p in
      if bool_decide (c_Status c = c_Status newCondition) && bool_decide (c_Reason c = c_Reason newCondition)
         && bool_decide (c_Message c = c_Message newCondition)
      then ret false
      else
        let+ _ := (if negb (bool_decide (c_Status c = c_Status newCondition))
                   then write_elem p (mkCondition (c_Type c) (c_Status newCondition) (c_LastProbeTime c) now
                                        (c_Reason c) (c_Message c))
                   else ret tt) in
        let+ c := read_elem p in
        let+ _ := write_elem p (mkCondition (c_Type c) (c_Status c) now (c_LastTransitionTime c)
                                  (c_Reason newCondition) (c_Message newCondition)) in
        ret true
  end.

(** One update after the other, as the status reports do. *)
Fixpoint set_conditions (ici : loc) (steps : list (nat * time * Condition)) : GoM (list bool) :=
  match steps with
  | [] => ret []
  | (extra, now, c) :: rest =>
      let+ updated := setClusterInstallCondition extra now ici c in
      let+ more := set_conditions ici rest in
      ret (updated :: more)
  end.

(** [base := ici.DeepCopy()], which [client.MergeFrom] keeps, and the updates. *)
Definition copy_and_set (choices : list nat) (ici : loc) (steps : list (nat * time * Condition))
    : GoM (pointer * list bool) :=
  let+ base := ImageClusterInstall_DeepCopy choices (Some ici) in
  let+ updated := set_conditions ici steps in
  ret (base, updated).

(** ** Properties *)

(** The cells that an update changes: an array of conditions, or the object. *)
Definition arrays (c : cell) : Prop := ∃ l, c = CConditions l.
Definition objects (c : cell) : Prop := ∃ i, c = CICI i.
Definition touched (c : cell) : Prop := arrays c ∨ objects c.

(** Of each representation that it does not look at such cells. *)
Ltac no_cells :=
  let Hp := fresh in intros ? Hp; repeat destruct Hp as [Hp|Hp]; destruct Hp as [? ->]; reflexivity.
Create HintDb blind.
#[export] Hint Resolve blind_value blind_pointer blind_slice blind_map : blind.
#[export] Hint Extern 1 (no_cell _) => no_cells : blind.
Ltac blind_fields :=
  intros h l c c' m ???; cbn [load];
  repeat match goal with
  | |- context [load ?r (<[l := c']> h) ?x] =>
      rewrite ((ltac:(auto with blind) : blind touched r) h l c c' x) by done
  end; reflexivity.

Lemma blind_owner : blind touched owner_rep.
Proof. unfold owner_rep. blind_fields. Qed.
Lemma blind_fields_rep : blind touched fields_rep.
Proof. unfold fields_rep. blind_fields. Qed.
#[export] Hint Resolve blind_fields_rep : blind.
Lemma blind_managed : blind touched managed_rep.
Proof. unfold managed_rep. blind_fields. Qed.
Lemma blind_aws : blind touched aws_rep.
Proof. unfold aws_rep. blind_fields. Qed.
Lemma blind_azure : blind touched azure_rep.
Proof. unfold azure_rep. blind_fields. Qed.
Lemma blind_gcp : blind touched gcp_rep.
Proof. unfold gcp_rep. blind_fields. Qed.
#[export] Hint Resolve blind_managed blind_aws blind_azure blind_gcp : blind.
Lemma blind_platform : blind touched platform_rep.
Proof. unfold platform_rep. blind_fields. Qed.
#[export] Hint Resolve blind_platform : blind.
Lemma blind_metadata : blind touched metadata_rep.
Proof. unfold metadata_rep. blind_fields. Qed.
Lemma blind_mirrors : blind touched mirrors_rep.
Proof. unfold mirrors_rep. blind_fields. Qed.
#[export] Hint Resolve blind_owner blind_metadata blind_mirrors : blind.
Lemma blind_meta : blind touched meta_rep.
Proof. unfold meta_rep. blind_fields. Qed.
Lemma blind_spec : blind touched spec_rep.
Proof. unfold spec_rep. blind_fields. Qed.
#[export] Hint Resolve blind_meta blind_spec : blind.

Abbreviation object_rep := (pointer_rep ici_rep).
Abbreviation conditions_rep := (slice_rep (M := Condition) value_rep).

Lemma preserves_weaken (P Q : cell → Prop) f f' :
  (∀ c, Q c → P c) → preserves Q f f' → preserves P f f'.
Proof.
  intros HQ Hf M A r m a Hr Hm. apply Hf; [|done]. intros h l c c' x Hl Hc Hc'. by eapply Hr; eauto.
Qed.

Lemma cell_kept P f f' l (x : ICIMem) :
  no_cell (T := ICIMem) P → preserves P f f' → lookup_cell f l = Some x → lookup_cell f' l = Some x.
Proof.
  intros HP Hf Hx. pose proof (Hf _ _ (pointer_rep (M := ICIMem) value_rep) (Some l) (Some x)) as H.
  cbn [load pointer_rep] in H. rewrite Hx in H. simpl in H.
  specialize (H (blind_pointer _ _ HP (blind_value P)) eq_refl). by apply bind_Some in H as (y&Hy&[= ->]).
Qed.

(** What the object is made of: its cell, its conditions, and a rest that an update
    does not change. *)
Lemma load_object f l tm i :
  load object_rep f (Some l) = Some (Some (tm, i)) →
  ∃ x cs, lookup_cell f l = Some x ∧
    load conditions_rep f (stm_Conditions (icm_Status x)) = Some cs ∧ elems cs = Conditions (ici_Status i) ∧
    ∀ f' s' cs', preserves touched f f' → lookup_cell f' l = Some (with_conditions s' x) →
      load conditions_rep f' s' = Some cs' →
      load object_rep f' (Some l) = Some (Some (tm, set_Conditions (elems cs') i)).
Proof.
  cbn [load pointer_rep]. intros (x&Hx&(b&Hb&[= ->])%bind_Some)%bind_Some. cbn [load ici_rep] in Hb.
  apply bind_Some in Hb as (meta&Hmeta&(spec&Hspec&(status&Hstatus&[= <- <-])%bind_Some)%bind_Some).
  cbn [load status_rep] in Hstatus. apply bind_Some in Hstatus as (cs&Hcs&(host&Hhost&[= <-])%bind_Some).
  exists x, cs. split_and!; [done..|]. intros f' s' cs' Hf Hx' Hcs'.
  assert (Hkept : ∀ M A (r : rep M A) m a, blind touched r → load r f m = Some a → load r f' m = Some a) by done.
  apply bind_Some. exists (with_conditions s' x). split; [done|]. apply bind_Some. eexists. split; [|done].
  apply bind_Some. exists meta. split; [by apply Hkept; [apply blind_meta|]|].
  apply bind_Some. exists spec. split; [by apply Hkept; [apply blind_spec|]|].
  apply bind_Some. eexists. split; [|done]. apply bind_Some. exists cs'. split; [exact Hcs'|].
  apply bind_Some. exists host. split; [|done]. apply Hkept; [auto with blind|exact Hhost].
Qed.

Lemma arrays_only c (l : list Condition) : of_cell c = Some l → c = CConditions l.
Proof. destruct c; simpl; congruence. Qed.
Lemma arrays_all (l : list Condition) : arrays (to_cell l).
Proof. by exists l. Qed.

(** Which element the search finds, if any: the one the model finds, at the position
    the model updates. *)
Definition found (xs : list Condition) (s : slice_header) (ty : ConditionType) (i : nat) (r : option (loc * nat)) : Prop :=
  match r with
  | None => Conditions.findCondition (drop i xs) ty = None
  | Some p => ∃ k e, p = (sl_array s, sl_off s + (i + k))%nat ∧ xs !! (i + k)%nat = Some e ∧
      Conditions.findCondition (drop i xs) ty = Some e ∧
      ∀ g, Conditions.update_first g ty (drop i xs) = <[k := g e]> (drop i xs)
  end.

Lemma runs_find s (xs : list Condition) ty h f (Q : option (loc * nat) → _ → Prop) n i :
  slice_elements f s = Some xs → (i + n = sl_len s)%nat → (∀ r, found xs s ty i r → Q r f) →
  runs (find_loop s ty i n) h f Q.
Proof.
  intros Hs. assert (length xs = sl_len s) as Hlen by by apply (slice_elements_array arrays_only) in Hs as (?&?&?&?&?&?).
  revert Q i. induction n as [|n IH]; intros Q i Hi HQ; cbn [find_loop].
  - apply runs_ret, HQ. simpl. by rewrite drop_ge by lia.
  - destruct (lookup_lt_is_Some_2 xs i) as [e He]; [lia|]. pose proof (drop_S _ _ _ He) as Hd.
    apply runs_bind, runs_elem; [lia|]. apply runs_bind. eapply (runs_read_slice arrays_only); [exact Hs|exact He|].
    case_bool_decide as Hty.
    + apply runs_ret, HQ. exists 0%nat, e. rewrite Nat.add_0_r, Hd. simpl. by rewrite bool_decide_eq_true_2.
    + apply IH; [lia|]. intros r Hr. apply HQ. destruct r as [p|]; simpl in *; rewrite Hd; simpl.
      * destruct Hr as (k&e'&->&Hk&Hf&Hg). exists (S k), e'. replace (i + S k)%nat with (S i + k)%nat by lia.
        rewrite !bool_decide_eq_false_2 by done. split_and!; [done..|]. intros g. simpl. by rewrite Hg.
      * by rewrite bool_decide_eq_false_2.
Qed.

Lemma runs_findCondition f s cs ty h (Q : option (loc * nat) → _ → Prop) :
  load conditions_rep f s = Some cs →
  (∀ r, match s with
        | None => r = None ∧ cs = None
        | Some s => slice_elements f s = Some (elems cs) ∧ found (elems cs) s ty 0 r
        end → Q r f) →
  runs (findCondition s ty) h f Q.
Proof.
  intros Hl HQ. destruct s as [s|]; cbn [findCondition].
  - cbn [load slice_rep] in Hl. apply bind_Some in Hl as (xs&Hx&(k&Hk%mapM_values&[= <-])%bind_Some). subst k.
    eapply runs_find; [exact Hx|lia|]. intros r Hr. by apply HQ.
  - injection Hl as <-. by apply runs_ret, HQ.
Qed.

(** ** The code on memory does what its model on values does *)

Lemma with_own_conditions x : with_conditions (stm_Conditions (icm_Status x)) x = x.
Proof. by destruct x as [???[]]. Qed.

(** Writing the found element: the elements before and after stay. *)
Lemma runs_write_found s (xs : list Condition) k y l (x : ICIMem) h f (Q : unit → _ → Prop) :
  slice_elements f s = Some xs → (k < length xs)%nat → lookup_cell f l = Some x →
  (∀ f', slice_elements f' s = Some (<[k := y]> xs) → lookup_cell f' l = Some x → preserves touched f f' → Q tt f') →
  runs (write_elem (sl_array s, sl_off s + k)%nat y) h f Q.
Proof.
  intros Hs Hk Hx HQ. eapply (runs_write_slice arrays arrays_all arrays_only); [exact Hs|exact Hk|].
  intros f' Hs' Hf. apply HQ; [done| |].
  - eapply (cell_kept arrays); [no_cells|done..].
  - eapply preserves_weaken; [|exact Hf]. by left.
Qed.

(** Appending to the conditions of an object. *)
Lemma runs_append_object extra l (x : ICIMem) cs y h f (Q : bool → _ → Prop) :
  lookup_cell f l = Some x → load conditions_rep f (stm_Conditions (icm_Status x)) = Some cs →
  (∀ s f', load conditions_rep f' s = Some (Some (elems cs ++ [y])) →
     lookup_cell f' l = Some (with_conditions s x) → preserves touched f f' → Q true f') →
  runs (let+ s := append zero_condition extra (stm_Conditions (icm_Status x)) y in
        let+ _ := write l (with_conditions s x) in ret true) h f Q.
Proof.
  intros Hx Hcs HQ. apply runs_bind. eapply (runs_append arrays arrays_all arrays_only); [exact Hcs|].
  intros s f' Hs Hf. assert (Hx' : lookup_cell f' l = Some x) by (eapply (cell_kept arrays); [no_cells|done..]).
  assert (Hc : f' !! l = Some (CICI x)).
  { apply bind_Some in Hx' as (c&Hc&Hx'). destruct c; simpl in Hx'; congruence. }
  apply runs_bind. eapply runs_write_mine; [exact Hx'|]. apply runs_ret, (HQ s).
  - assert (Hb : blind objects conditions_rep) by (apply blind_slice; [no_cells|apply blind_value]).
    rewrite (Hb f' l (CICI x)); [exact Hs|done|by eexists..].
  - apply lookup_cell_insert.
  - eapply preserves_trans; [eapply preserves_weaken; [|exact Hf]; by left|].
    eapply preserves_weaken with (Q := objects); [by right|]. by eapply preserves_write; [exact Hc|eexists..].
Qed.

(** Overwriting the found element, in the two steps of the code. *)
Lemma runs_overwrite s (xs : list Condition) k e now c l (x : ICIMem) h f (Q : bool → _ → Prop) :
  slice_elements f s = Some xs → xs !! k = Some e → lookup_cell f l = Some x →
  (∀ f', slice_elements f' s = Some (<[k := Conditions.overwrite_condition now c e]> xs) →
     lookup_cell f' l = Some x → preserves touched f f' → Q true f') →
  let p := (sl_array s, sl_off s + k)%nat in
  runs (let+ _ := (if negb (bool_decide (c_Status e = c_Status c))
                   then write_elem p (mkCondition (c_Type e) (c_Status c) (c_LastProbeTime e) now
                                        (c_Reason e) (c_Message e))
                   else ret tt) in
        let+ e := read_elem p in
        let+ _ := write_elem p (mkCondition (c_Type e) (c_Status e) now (c_LastTransitionTime e)
                                  (c_Reason c) (c_Message c)) in
        ret true) h f Q.
Proof.
  intros Hs Hk Hx HQ p. pose proof (lookup_lt_Some _ _ _ Hk) as Hlt.
  set (e1 := if bool_decide (c_Status e = c_Status c) then e
             else mkCondition (c_Type e) (c_Status c) (c_LastProbeTime e) now (c_Reason e) (c_Message e)).
  apply runs_bind. eapply runs_wand with (Q := λ _ f1, slice_elements f1 s = Some (<[k := e1]> xs) ∧
    lookup_cell f1 l = Some x ∧ preserves touched f f1).
  { subst e1. case_bool_decide; cbn [negb].
    - apply runs_ret. split_and!; [by rewrite list_insert_id|done|apply preserves_refl].
    - by eapply runs_write_found. }
  intros _ f1 _ (Hs1&Hx1&Hf1). apply runs_bind. eapply (runs_read_slice arrays_only); [exact Hs1| |].
  { by apply list_lookup_insert_eq. }
  apply runs_bind. eapply runs_write_found; [exact Hs1|by rewrite length_insert|exact Hx1|].
  intros f2 Hs2 Hx2 Hf2. apply runs_ret, HQ; [|done|by eapply preserves_trans].
  rewrite Hs2, list_insert_insert_eq. do 2 f_equal. subst e1. unfold Conditions.overwrite_condition.
  by case_bool_decide as Hst; [rewrite Hst|].
Qed.

Lemma runs_set extra now l c tm i h f :
  load object_rep f (Some l) = Some (Some (tm, i)) →
  runs (setClusterInstallCondition extra now l c) h f (λ b f',
    let r := Conditions.set_condition_at now (Types.Conditions (ici_Status i)) c in
    b = r.2 ∧ load object_rep f' (Some l) = Some (Some (tm, set_Conditions r.1 i))).
Proof.
  intros Hi. destruct (load_object _ _ _ _ Hi) as (x&cs&Hx&Hcs&Hel&Hupd). rewrite <- Hel.
  unfold setClusterInstallCondition. apply runs_bind. eapply runs_read_mine; [exact Hx|]. apply runs_bind.
  eapply runs_findCondition; [exact Hcs|]. intros r Hr. unfold Conditions.set_condition_at.
  destruct (stm_Conditions (icm_Status x)) as [s|] eqn:Hsx.
  - destruct Hr as [Hs Hr]. destruct r as [p|].
    + destruct Hr as (k&e&->&Hk&Hf&Hg). cbn [Nat.add] in *. rewrite drop_0 in Hf, Hg. rewrite Hf.
      pose proof (lookup_lt_Some _ _ _ Hk) as Hlt.
      assert (Hdone : ∀ f' e', slice_elements f' s = Some (<[k := e']> (elems cs)) → lookup_cell f' l = Some x →
        preserves touched f f' → load object_rep f' (Some l) = Some (Some (tm, set_Conditions (<[k := e']> (elems cs)) i))).
      { intros f' e' Hs' Hx' Hf'. apply (Hupd f' (Some s) (Some (<[k := e']> (elems cs)))); [done| |].
        - by rewrite <- Hsx, with_own_conditions.
        - apply bind_Some. eexists. split; [exact Hs'|]. apply bind_Some. eexists. split; [by apply mapM_values|done]. }
      apply runs_bind. eapply (runs_read_slice arrays_only); [exact Hs|exact Hk|]. destruct (_ && _) eqn:Hsame.
      * apply runs_ret. split; [done|]. cbn [fst]. rewrite <- (list_insert_id (elems cs) k e) by done.
        apply Hdone; [by rewrite list_insert_id|done|apply preserves_refl].
      * eapply runs_overwrite; [exact Hs|exact Hk|exact Hx|]. intros f' Hs' Hx' Hf'. split; [done|].
        rewrite Hg. by apply Hdone.
    + cbn in Hr. rewrite drop_0 in Hr. rewrite Hr. rewrite <- Hsx. eapply runs_append_object; [exact Hx|by rewrite Hsx|].
      intros s' f' Hs' Hx' Hf'. split; [done|]. by apply (Hupd f' s' (Some _)).
  - destruct Hr as [-> ->]. rewrite <- Hsx. eapply runs_append_object; [exact Hx|by rewrite Hsx|].
    intros s' f' Hs' Hx' Hf'. split; [done|]. by apply (Hupd f' s' (Some _)).
Qed.
(** The updates on values. *)
Fixpoint set_all (cs : list Condition) (steps : list (nat * time * Condition)) : list Condition * list bool :=
  match steps with
  | [] => (cs, [])
  | (_, now, c) :: rest =>
      let r := Conditions.set_condition_at now cs c in
      let more := set_all r.1 rest in
      (more.1, r.2 :: more.2)
  end.

Lemma runs_set_conditions steps l tm i h f :
  load object_rep f (Some l) = Some (Some (tm, i)) →
  runs (set_conditions l steps) h f (λ bs f',
    let r := set_all (Types.Conditions (ici_Status i)) steps in
    bs = r.2 ∧ load object_rep f' (Some l) = Some (Some (tm, set_Conditions r.1 i))).
Proof.
  revert i f. induction steps as [|[[extra now] c] steps IH]; intros i f Hi; cbn [set_conditions set_all].
  - apply runs_ret. split; [done|]. by destruct i as [?? []].
  - apply runs_bind. eapply runs_wand; [by apply runs_set|]. intros b f1 _ [-> Hf1]. apply runs_bind.
    eapply runs_wand; [by apply IH|]. intros bs f2 _ [-> Hf2]. apply runs_ret. split; [done|]. exact Hf2.
Qed.

(** C32: the base of a patch stays what it was.  From an object that is complete in
    memory, in any memory, copying it with the generated [DeepCopy] and then setting
    any conditions of the original through pointers into its array, appending in
    place or into a new array, never panics; afterwards the copy still is the object
    as it was, the original is that object with the conditions, and the flags of
    what changed, that the model of [setClusterInstallCondition] on values gives: so
    the patch is the difference that the models of the status updates send. *)
Theorem patch_base_intact choices steps h l tm i :
  load object_rep h (Some l) = Some (Some (tm, i)) →
  let r := set_all (Types.Conditions (ici_Status i)) steps in
  ∃ base h', copy_and_set choices l steps h = Some ((Some base, r.2), h') ∧
    load object_rep h' (Some base) = Some (Some (tm, i)) ∧
    load object_rep h' (Some l) = Some (Some (tm, set_Conditions r.1 i)).
Proof.
  intros Hl r. destruct (deep_copy_of _ _ (copies_ici choices)) as [_ Hcopy].
  destruct (Hcopy h l _ Hl) as (base&new&Hrun&Hnew&Hbase&_).
  destruct (runs_set_conditions steps l tm i new h Hl ltac:(by symmetry)) as (bs&f'&Hset&Hf'&->&Hobj).
  exists base, (f' ∪ new). split_and!.
  - unfold copy_and_set, bind, ImageClusterInstall_DeepCopy. rewrite Hrun.
    rewrite (map_union_comm new h) by done. by rewrite Hset.
  - apply Hbase. by apply map_union_subseteq_r.
  - eapply load_mono; [|exact Hobj]. apply map_union_subseteq_l.
Qed.

(** An object with one condition, in an array with room for another. *)
Definition ex_condition := mkCondition ClusterInstallCompleted ConditionFalse 1%Z 1%Z "Waiting" "waiting".
Definition ex_heap : gmap loc cell :=
  <[1%positive := CICI (mkICIMem (mkTypeMeta "ImageClusterInstall" "v1alpha1") zero_meta zero_spec
                          (mkICIStatusMem (Some (mkSlice 2 0 1 2)) 0%Z (Some 3%positive) 0%Z))]>
  (<[2%positive := CConditions [ex_condition; zero_condition]]>
  (<[3%positive := CBareMetalHostReference (mkBMHRef "host" "ns")]> ∅)).
Definition ex_object : ImageClusterInstall :=
  mkICI (mkMeta "" "" "" None None [] [] 0%Z 0%Z) (mkICISpec None "" None "" "" "" None None None None "" None None None)
    (mkICIStatus [ex_condition] 0%Z (Some (mkBMHRef "host" "ns")) 0%Z).
Definition ex_header : TypeMeta * UnusedMeta :=
  (mkTypeMeta "ImageClusterInstall" "v1alpha1", mkUnused "" "" "" 0%Z None None).
Definition ex_steps : list (nat * time * Condition) :=
  [(0%nat, 7%Z, mkCondition ClusterInstallCompleted ConditionTrue 0%Z 0%Z "Done" "done");
   (0%nat, 8%Z, mkCondition ClusterInstallStopped ConditionTrue 0%Z 0%Z "Done" "done");
   (2%nat, 9%Z, mkCondition ClusterInstallFailed ConditionFalse 0%Z 0%Z "Done" "done");
   (0%nat, 9%Z, mkCondition ClusterInstallFailed ConditionFalse 0%Z 0%Z "Done" "done")].

Lemma patch_base_intact_witness :
  ∃ base h', copy_and_set [] 1 ex_steps ex_heap = Some ((Some base, [true; true; true; false]), h') ∧
    load object_rep h' (Some base) = Some (Some (ex_header, ex_object)) ∧
    load object_rep h' (Some 1%positive) =
      Some (Some (ex_header,
                  set_Conditions (set_all [ex_condition] ex_steps).1 ex_object)).
Proof.
  apply (patch_base_intact [] ex_steps ex_heap 1%positive ex_header ex_object).
  vm_compute. reflexivity.
Defined.

(** With an assignment in the place of the deep copy, the base would change. *)
Example shallow_base_would_change :
  match (let+ x := read (T := ICIMem) 1%positive in
         let+ base := new x in
         let+ _ := set_conditions 1%positive ex_steps in
         ret base) ex_heap with
  | Some (base, h') =>
      (Types.Conditions ∘ ici_Status ∘ snd <$> (load object_rep h' (Some base) ≫= id)) =
      Some [mkCondition ClusterInstallCompleted ConditionTrue 7%Z 7%Z "Done" "done"]
  | None => False
  end.
Proof. vm_compute. reflexivity. Qed.
End PatchBase.
