(* ===== verification/Common.v ===== *)
(** * Helpers shared by the two reconcilers ([controllers/common.go]) *)
From stdpp Require Import base gmap strings list.
From Stdlib Require Import ZArith Lia.
From S2P Require Import Prelude Types World GoStd Sim.
Local Open Scope go_scope.

Module Common.

Definition Group := "extensions.hive.openshift.io".
Definition rebootAnnotation := "reboot.metal3.io".
Definition rebootAnnotationValue := "".
Definition postCleanupAnnotation := "imageclusterinstall." +:+ Group +:+ "/post-cleanup".

Definition getDataImage (namespace name : string) : io (result DataImage) :=
  perform (GetDataImage (mkKey namespace name)).

(** The second component is the error; a nil DataImage is [None]. *)
Definition deleteDataImage (dataImageRef : NamespacedName)
    : io (option DataImage * option goerror) :=
  try dataImage := perform (GetDataImage dataImageRef) else e =>
    (if IsNotFound e then Ret (None, None)
     else Ret (None, Some (ErrWrap ("failed to get DataImage " +:+ key_Namespace dataImageRef
                 +:+ "/" +:+ key_Name dataImageRef +:+ ": ") e))) in
  check perform (DeleteDataImage dataImage) else e => Ret (Some dataImage, Some e) in
  Ret (Some dataImage, None).

(** [setAnnotationIfNotExists]: the new meta data and whether the key was added.
    A nil map becomes an allocated one even when nothing is added. *)
Definition setAnnotationIfNotExists (m : ObjectMeta) (key value : string) : ObjectMeta * bool :=
  let annotations := entries (om_Annotations m) in
  match annotations !! key with
  | None => (set_Annotations (Some (<[key := value]> annotations)) m, true)
  | Some _ => (set_Annotations (Some annotations) m, false)
  end.

Definition annotationExists (m : ObjectMeta) (key : string) : bool :=
  match om_Annotations m with
  | None => false
  | Some a => bool_decide (is_Some (a !! key))
  end.

Definition rebootBMH (bmh : BareMetalHost) : io (option goerror) :=
  let '(m, added) := setAnnotationIfNotExists (bmh_Meta bmh) rebootAnnotation rebootAnnotationValue in
  if added then
    try _ := perform (PatchBMH bmh (set_bmh_Meta m bmh)) else e => Ret (Some e) in
    Ret None
  else Ret None.

Definition removeBMHDataImage (bmhRef : NamespacedName) : io (option DataImage * option goerror) :=
  let* (dataImage, err) := deleteDataImage bmhRef in
  match err, dataImage with
  | Some e, _ => Ret (dataImage, Some e)
  | None, None => Ret (None, None)
  | None, Some di =>
      try bmh := perform (GetBMH bmhRef) else e =>
        (if IsNotFound e then Ret (None, None)
         else Ret (Some di, Some (ErrWrap ("failed to get BareMetalHost " +:+ key_Namespace bmhRef
                     +:+ "/" +:+ key_Name bmhRef +:+ ": ") e))) in
      let* err' := rebootBMH bmh in
      Ret (Some di, err')
  end.

(** The reference is dereferenced by the callers' nil checks, except in the monitor. *)
Definition getBMH (bmhRef : BareMetalHostReference) : io (result BareMetalHost) :=
  perform (GetBMH (mkKey (bmhref_Namespace bmhRef) (bmhref_Name bmhRef))).

(** [handlePostCleanup]. *)
Definition handlePostCleanup (ici : ImageClusterInstall) : io (result Result) :=
  if negb (annotationExists (ici_Meta ici) postCleanupAnnotation) then Ret (Ok res0)
  else
    match Spec_BareMetalHostRef (ici_Spec ici) with
    | None => Ret (Ok res0)
    | Some ref =>
        let bmhRef := mkKey (bmhref_Namespace ref) (bmhref_Name ref) in
        let* (_, err) := removeBMHDataImage bmhRef in
        match err with
        | Some e => Ret (Err (ErrWrap ("failed to delete DataImage " +:+ key_Namespace bmhRef
                       +:+ "/" +:+ key_Name bmhRef +:+ ": ") e))
        | None =>
            let* dataImage := getDataImage (key_Namespace bmhRef) (key_Name bmhRef) in
            match dataImage with
            | Ok _ => Ret (Ok (requeue_after Minute))
            | Err e =>
                if IsNotFound e then Ret (Ok res0)
                else Ret (Err (ErrWrap ("failed to get DataImage " +:+ key_Namespace bmhRef
                       +:+ "/" +:+ key_Name bmhRef +:+ ": ") e))
            end
        end
    end.

(** ** Properties *)

(** The host with the reboot annotation added. *)
Definition rebooted (b : BareMetalHost) : BareMetalHost :=
  set_bmh_Meta (setAnnotationIfNotExists (bmh_Meta b) rebootAnnotation rebootAnnotationValue).1 b.

Lemma setAnnotation_added m k v :
  (setAnnotationIfNotExists m k v).2 = negb (annotationExists m k).
Proof.
  unfold setAnnotationIfNotExists, annotationExists, entries.
  destruct (om_Annotations m) as [a|]; simpl; [|by rewrite lookup_empty].
  by destruct (a !! k).
Qed.

Lemma setAnnotation_exists m k v k' :
  annotationExists (setAnnotationIfNotExists m k v).1 k' = bool_decide (k = k') || annotationExists m k'.
Proof.
  unfold setAnnotationIfNotExists, annotationExists, entries.
  destruct (om_Annotations m) as [a|]; simpl.
  - destruct (decide (k = k')) as [<-|Hne].
    + rewrite bool_decide_eq_true_2 by done. destruct (a !! k) as [v'|] eqn:E; simpl;
        by rewrite ?E, ?lookup_insert_eq.
    + rewrite (bool_decide_eq_false_2 _ Hne). destruct (a !! k) as [v'|] eqn:E; simpl; [done|].
      by rewrite lookup_insert_ne.
  - rewrite lookup_empty. simpl. destruct (decide (k = k')) as [<-|Hne].
    + by rewrite lookup_insert_eq, (bool_decide_eq_true_2 (k = k)).
    + rewrite lookup_insert_ne, lookup_empty by done. by rewrite (bool_decide_eq_false_2 _ Hne).
Qed.

(** What [removeBMHDataImage] may do: delete the DataImage it has read, and
    request a reboot of the host it has read. *)
Definition removal_guard (key : NamespacedName) (h : trace) (a : call) : Prop :=
  match a with
  | GetDataImage k | GetBMH k => k = key
  | DeleteDataImage d => Ev (GetDataImage key) (Ok d) ∈ h
  | PatchBMH o n =>
      Ev (GetBMH key) (Ok o) ∈ h ∧ n = rebooted o ∧ annotationExists (bmh_Meta o) rebootAnnotation = false
      ∧ ∃ d, Ev (DeleteDataImage d) None ∈ h
  | _ => False
  end.

(** The DataImage was not there, or it is being deleted and its host is gone. *)
Definition image_gone (key : NamespacedName) (h : trace) : Prop :=
  (∃ e, Ev (GetDataImage key) (Err e) ∈ h ∧ IsNotFound e = true) ∨
  (∃ d e, Ev (GetDataImage key) (Ok d) ∈ h ∧ Ev (DeleteDataImage d) None ∈ h ∧
          Ev (GetBMH key) (Err e) ∈ h ∧ IsNotFound e = true).

(** The deletion of [d] was accepted and the host is marked for a reboot. *)
Definition image_deleting (key : NamespacedName) (d : DataImage) (h : trace) : Prop :=
  Ev (GetDataImage key) (Ok d) ∈ h ∧ Ev (DeleteDataImage d) None ∈ h ∧
  ∃ b, Ev (GetBMH key) (Ok b) ∈ h ∧
       (annotationExists (bmh_Meta b) rebootAnnotation = true ∨
        ∃ b', Ev (PatchBMH b (rebooted b)) (Ok b') ∈ h).

Lemma image_gone_app key h t : image_gone key h → image_gone key (h ++ t).
Proof.
  intros [(e&?&?)|(d&e&?&?&?&?)]; [left; exists e; split; [hist|done]|].
  right. exists d, e. by split_and!; try hist.
Qed.

Lemma image_deleting_app key d h t : image_deleting key d h → image_deleting key d (h ++ t).
Proof.
  intros (?&?&b&?&Hb). split_and!; [hist..|]. exists b. split; [hist|].
  destruct Hb as [?|[b' ?]]; [by left|right; exists b'; hist].
Qed.

Lemma wp_removeBMHDataImage key h :
  wp (removal_guard key) (removeBMHDataImage key) h (λ r h',
    match r with
    | (None, None) => image_gone key h'
    | (Some d, None) => image_deleting key d h'
    | (_, Some _) => True
    end).
Proof.
  unfold removeBMHDataImage, deleteDataImage. wp_call; [done|].
  destruct x as [d|e]; cbn [prog_bind]; [|destruct (IsNotFound e) eqn:He; cbn [prog_bind wp];
    [left; exists e; split; [hist|done]|done]].
  wp_call; [simpl; hist|]. destruct x as [e|]; cbn [prog_bind wp]; [done|].
  wp_call; [done|]. destruct x as [b|e].
  - unfold rebootBMH. destruct (setAnnotationIfNotExists _ _ _) as [m added] eqn:Hset.
    pose proof (setAnnotation_added (bmh_Meta b) rebootAnnotation rebootAnnotationValue) as Hadd.
    rewrite Hset in Hadd. simpl in Hadd.
    assert (Hreb : set_bmh_Meta m b = rebooted b) by (unfold rebooted; by rewrite Hset).
    rewrite Hreb. destruct added; symmetry in Hadd; bools.
    + wp_call; [simpl; split_and!; [hist|done|done|exists d; hist]|].
      destruct x as [b'|e]; cbn [prog_bind wp]; [|done].
      split_and!; [hist..|]. exists b. split; [hist|]. right. exists b'. hist.
    + cbn [prog_bind wp]. split_and!; [hist..|]. exists b. split; [hist|]. by left.
  - destruct (IsNotFound e) eqn:He; cbn [prog_bind wp]; [|done].
    right. exists d, e. by split_and!; try hist.
Qed.

(** Removing the DataImage of a host, whatever the API server answers:
    nothing is deleted but the DataImage that was read at that key, the host is
    only ever patched with the reboot annotation, and only after the deletion
    was accepted; when an image is returned without error its deletion was
    accepted and the host is marked for a reboot; "nothing left" is only
    reported when the DataImage was not found, or when its deletion was accepted
    and the host is not found. *)
Theorem removeBMHDataImage_spec key t di err :
  exec (removeBMHDataImage key) t (di, err) →
  (∀ t1 ev t2, t = t1 ++ ev :: t2 → removal_guard key t1 (ev_call ev)) ∧
  (err = None → match di with Some d => image_deleting key d t | None => image_gone key t end).
Proof.
  intros He. destruct (wp_exec _ _ _ _ _ _ (wp_removeBMHDataImage key []) He) as [HQ HG].
  split; [done|]. intros ->. by destruct di.
Qed.

Lemma removeBMHDataImage_spec_witness :
  ∃ t d, exec (removeBMHDataImage (mkKey "ns" "b")) t (Some d, None) ∧ image_deleting (mkKey "ns" "b") d t.
Proof.
  set (w := Sim.with_dataimages [mkDataImage (mkMeta "b" "ns" "" None None ["f"] [] 1%Z 0%Z) "u" ""]
              (Sim.with_bmhs [set_bmh_Meta (new_meta "b" "ns") Sim.bmh0] Sim.world0)).
  set (k := mkKey "ns" "b").
  assert (He : (run Sim.handle (removeBMHDataImage k) w).1.2
               = (Some (mkDataImage (mkMeta "b" "ns" "" None None ["f"] [] 1%Z 0%Z) "u" ""), None))
    by (vm_compute; reflexivity).
  pose proof (exec_run Sim.handle (removeBMHDataImage k) w) as Hx. rewrite He in Hx.
  eexists _, _. split; [exact Hx|].
  exact (proj2 (removeBMHDataImage_spec k _ _ _ Hx) eq_refl).
Defined.

(** What [handlePostCleanup] relies on: the same guard, for the host of the spec. *)
Lemma wp_handlePostCleanup ici h :
  wp (λ h' a, ∃ ref, Spec_BareMetalHostRef (ici_Spec ici) = Some ref ∧
        annotationExists (ici_Meta ici) postCleanupAnnotation = true ∧
        removal_guard (mkKey (bmhref_Namespace ref) (bmhref_Name ref)) h' a)
     (handlePostCleanup ici) h
     (λ r h', match r with
      | Ok res => IsZero res = true →
          annotationExists (ici_Meta ici) postCleanupAnnotation = true →
          ∀ ref, Spec_BareMetalHostRef (ici_Spec ici) = Some ref →
            ∃ h1 e, h' = h1 ++ [Ev (GetDataImage (mkKey (bmhref_Namespace ref) (bmhref_Name ref))) (Err e)]
                    ∧ IsNotFound e = true
      | Err _ => True
      end).
Proof.
  unfold handlePostCleanup. destruct (annotationExists _ _) eqn:Ha; cbn [negb]; [|done].
  destruct (Spec_BareMetalHostRef (ici_Spec ici)) as [ref|] eqn:Href; [|done].
  set (key := mkKey _ _). rewrite wp_bind.
  eapply wp_mono; [| |apply (wp_removeBMHDataImage key)].
  { intros h' a Hg. exists ref. by split_and!. }
  intros [di err] h' _. destruct err as [e|]; [done|]. unfold getDataImage. wp_call.
  { exists ref. by split_and!. }
  destruct x as [d|e]; cbn [wp]; [done|]. destruct (IsNotFound e) eqn:He; cbn [wp]; [|done].
  intros _ _ ref' [= <-]. by exists h', e.
Qed.

End Common.
