(* ===== verification/FileLock.v ===== *)
(** * Directory locks ([internal/filelock/filelock.go])

    [TryLock], [TryRLock] and [Unlock] of the flock library are calls to the
    environment; [defer lock.Unlock()] runs when the function returns or panics. *)
From stdpp Require Import base gmap strings list.
From Stdlib Require Import ZArith Lia.
From S2P Require Import Prelude Types World GoStd Sim.
Local Open Scope go_scope.

Module FileLock.

Definition lockFileName := "lock".

Definition lockForDir (dir : string) : io (result string) :=
  let p := filepath_Join [dir; lockFileName] in
  let* st := perform (OsStat p) in
  match st with
  | StatNotExist _ =>
      check perform (OsWriteFile p "" 384%Z) else e => Ret (Err e) in
      Ret (Ok p)
  | StatError e => Ret (Err e)
  | StatOk => Ret (Ok p)
  end.

(** Whether the lock was acquired, the error of acquiring it, and the error of
    the wrapped function. *)
Definition lock_result : Type := bool * option goerror * option goerror.

(** The common body: [try_lock] is [TryLock] or [TryRLock] of the lock file. *)
Definition with_lock (try_lock : string → io (result bool)) (dir : string)
    (f : io (xres (option goerror))) : io (xres lock_result) :=
  try p := lockForDir dir else e => Ret (XRet (false, Some e, None)) in
  try locked := try_lock p else e => Ret (XRet (false, Some e, None)) in
  if negb locked then Ret (XRet (false, None, None))
  else
    let* r := f in
    let* _ := perform (FlockUnlock p) in
    match r with
    | XRet e => Ret (XRet (true, None, e))
    | XPanic m => Ret (XPanic m)
    end.

Definition WithWriteLock (dir : string) (f : io (xres (option goerror))) : io (xres lock_result) :=
  with_lock (λ p, perform (FlockTryLock p)) dir f.

Definition WithReadLock (dir : string) (f : io (xres (option goerror))) : io (xres lock_result) :=
  with_lock (λ p, perform (FlockTryRLock p)) dir f.

(** ** Properties *)

(** The lock file of a directory, and the calls that handle it. *)
Definition lock_file (dir : string) : string := filepath_Join [dir; lockFileName].
Definition lock_setup (p : string) (a : call) : Prop :=
  a = OsStat p ∨ a = OsWriteFile p "" 384%Z.

(** The lock was acquired and has not been released since. *)
Definition holds_lock (p : string) (h : trace) : Prop :=
  ∃ h1 h2, h = h1 ++ Ev (FlockTryLock p) (Ok true) :: h2 ∧
           Forall (λ ev, ev_call ev ≠ FlockUnlock p) h2.

Lemma holds_lock_step p h a x :
  holds_lock p h → a ≠ FlockUnlock p → holds_lock p (h ++ [Ev a x]).
Proof.
  intros (h1&h2&->&Hf) ?. exists h1, (h2 ++ [Ev a x]). split; [by rewrite <- app_assoc|].
  apply Forall_app. split; [done|]. by constructor.
Qed.

(** [true] for the exclusive lock. *)
Definition with_mode (exclusive : bool) := if exclusive then WithWriteLock else WithReadLock.
Definition tried (exclusive : bool) (p : string) (x : result bool) : event answer :=
  if exclusive then Ev (FlockTryLock p) x else Ev (FlockTryRLock p) x.

Lemma exec_lockForDir dir t r :
  exec (lockForDir dir) t r →
  Forall (λ ev, lock_setup (lock_file dir) (ev_call ev)) t ∧ ∀ p, r = Ok p → p = lock_file dir.
Proof.
  unfold lockForDir, lock_setup, lock_file. intros H. exec_inv; simplify_eq.
  all: split; [rewrite ?Forall_cons; simpl; auto 10|naive_solver].
Qed.

(** C23: both locking functions run the function they are given at most once, as
    one uninterrupted block, after the lock file was prepared and the (shared or
    exclusive) lock was acquired, and then release the lock, also when the
    function panics; the result is that of the function.  When the lock is not
    acquired the function is not run, nothing is released, and the result tells
    an occupied lock (no error) from a failure. *)
Theorem with_lock_bracket exclusive dir f t r :
  exec (with_mode exclusive dir f) t r →
  let p := lock_file dir in
  (∃ t0 tf rf ue,
     t = t0 ++ tried exclusive p (Ok true) :: tf ++ [Ev (FlockUnlock p) ue] ∧
     Forall (λ ev, lock_setup p (ev_call ev)) t0 ∧ exec f tf rf ∧
     r = match rf with XRet e => XRet (true, None, e) | XPanic m => XPanic m end) ∨
  (∃ t0, Forall (λ ev, lock_setup p (ev_call ev)) t0 ∧
     ((∃ e, t = t0 ∧ r = XRet (false, Some e, None)) ∨
      (∃ x, t = t0 ++ [tried exclusive p x] ∧ x ≠ Ok true ∧
            r = XRet (false, match x with Err e => Some e | Ok _ => None end, None)))).
Proof.
  intros H. cbv zeta. unfold with_mode in H.
  assert (Hw : exec (with_lock (λ p, if exclusive then perform (FlockTryLock p)
                                     else perform (FlockTryRLock p)) dir f) t r) by by destruct exclusive.
  clear H. unfold with_lock in Hw.
  apply prog_bind_assoc_exec in Hw as (t0&t1&r0&->&[Ht0 Hp]%exec_lockForDir&Hw).
  destruct r0 as [p'|e]; [|destruct Hw as [-> ->]; right; exists t0; split; [done|];
    left; exists e; by rewrite app_nil_r].
  specialize (Hp p' eq_refl) as ->. set (p := lock_file dir) in *.
  apply prog_bind_assoc_exec in Hw as (t2&t3&x&->&Hx&Hw).
  assert (t2 = [tried exclusive p x]) as ->.
  { destruct exclusive; destruct Hx as (?&?&->&->&->); done. }
  destruct x as [[]|e]; cbn [negb] in Hw.
  - exec_inv; simplify_eq; left; exists t0; eexists _, _, _; by split_and!.
  - destruct Hw as [-> ->]. right. exists t0. split; [done|]. right. by exists (Ok false).
  - destruct Hw as [-> ->]. right. exists t0. split; [done|]. right. by exists (Err e).
Qed.

Lemma with_lock_bracket_witness :
  ∃ t0 tf ue, (run Sim.handle (with_mode true "/d" (let* _ := perform TimeNow in Ret (XPanic "boom")))
                 Sim.world0).1
    = (t0 ++ tried true "/d/lock" (Ok true) :: tf ++ [Ev (FlockUnlock "/d/lock") ue], XPanic "boom").
Proof.
  set (p := with_mode true "/d" _).
  destruct (with_lock_bracket true "/d" _ _ _ (exec_run Sim.handle p Sim.world0))
    as [(t0&tf&rf&ue&Ht&_&_&_)|(t0&_&[(e&_&[=])|(x&_&_&[=])])].
  exists t0, tf, ue. rewrite (surjective_pairing (_.1)). f_equal. exact Ht.
Defined.

(** Calls made around the function, and the rule for programs that use the lock. *)
Definition lock_call (p : string) (a : call) : Prop :=
  lock_setup p a ∨ a = FlockTryLock p ∨ a = FlockUnlock p.

Lemma wp_WithWriteLock G dir f h Q :
  let p := lock_file dir in
  (∀ h' a, lock_call p a → G h' a) →
  (∀ t, wp G f (h ++ t ++ [Ev (FlockTryLock p) (Ok true)]) (λ r h', ∀ ue,
     Q (match r with XRet e => XRet (true, None, e) | XPanic m => XPanic m end)
       (h' ++ [Ev (FlockUnlock p) ue]))) →
  (∀ t e, Q (XRet (false, e, None)) (h ++ t)) →
  wp G (WithWriteLock dir f) h Q.
Proof.
  intros p HG Hf HQ. unfold WithWriteLock, with_lock, lockForDir.
  change (filepath_Join [dir; lockFileName]) with p.
  assert (Htry : ∀ t, wp G (prog_bind (λ res : result bool, match res with
      | Ok locked => if negb locked then Ret (XRet (false, None, None))
                     else prog_bind (λ r, prog_bind (λ _, match r with
                            | XRet e => Ret (XRet (true, None, e)) | XPanic m => Ret (XPanic m) end)
                          (perform (FlockUnlock p))) f
      | Err e => Ret (XRet (false, Some e, None)) end) (perform (FlockTryLock p))) (h ++ t) Q).
  { intros t. wp_call; [apply HG; unfold lock_call; auto|]. destruct x as [[]|e]; cbn [negb].
    - rewrite wp_bind, <- app_assoc. eapply wp_wand; [apply Hf|]. intros r h' Hr.
      wp_call; [apply HG; unfold lock_call; auto|]. specialize (Hr x). by destruct r.
    - cbn [wp]. rewrite <- app_assoc. apply HQ.
    - cbn [wp]. rewrite <- app_assoc. apply HQ. }
  cbn [prog_bind perform wp]. split; [apply HG; unfold lock_call, lock_setup; auto|].
  intros [|e|e]; cbn [prog_bind perform wp].
  - apply Htry.
  - split; [apply HG; unfold lock_call, lock_setup; auto|]. intros [e'|]; cbn [prog_bind wp].
    + rewrite <- app_assoc. apply HQ.
    + rewrite <- app_assoc. apply Htry.
  - apply HQ.
Qed.

End FileLock.
