(* ===== verification/Credentials.v ===== *)
(** * Cluster credential secrets ([internal/credentials/credentials.go])

    The operator keeps three secrets per cluster: the admin kubeconfig, the
    admin password and the seed reconfiguration.  [controllerutil.CreateOrUpdate]
    of controller-runtime is translated with the mutation it is called with. *)
From stdpp Require Import base gmap strings list.
From Stdlib Require Import ZArith Lia.
From S2P Require Import Prelude Types World GoStd Libs Sim.
Local Open Scope go_scope.

Module Credentials.

Definition SecretResourceLabel := "image-based-installed.openshift.io/created".
Definition SecretResourceValue := "true".
Definition DefaultUser := "kubeadmin".
Definition Kubeconfig := "kubeconfig".
Definition kubeadmincreds := "kubeadmincreds".
Definition kubeAdminKey := "password".
Definition SeedReconfigurationFileName := "manifest.json".
Definition secretPreservationLabel := "siteconfig.open-cluster-management.io/preserve".
Definition secretPreservationValue := "cluster-identity".

Record IdentityData := mkIdentityData {
  id_Kubeconfig : string;
  id_KubeadminPassword : string;
  id_SeedReconfig : string;
}.

Definition KubeconfigSecretName (clusterDeploymentName : string) : string :=
  clusterDeploymentName +:+ "-admin-kubeconfig".
Definition KubeadminPasswordSecretName (clusterDeploymentName : string) : string :=
  clusterDeploymentName +:+ "-admin-password".
Definition SeedReconfigurationSecretName (clusterDeploymentName : string) : string :=
  clusterDeploymentName +:+ "-seed-reconfiguration".

Definition secretExistsAndValid (secretRef : NamespacedName) (key data : string) : io (result bool) :=
  try secret := perform (GetSecret CachedClient secretRef) else e =>
    (if IsNotFound e then Ret (Ok false)
     else Ret (Err (ErrWrap "failed to get kubeconfig secret: " e))) in
  match entries (secret_Data secret) !! key with
  | None => Ret (Ok false)
  | Some secretData => Ret (Ok (bool_decide (secretData = data)))
  end.

(** [metav1.SetMetaDataLabel]. *)
Definition SetMetaDataLabel (k v : string) (m : ObjectMeta) : ObjectMeta :=
  set_Labels (Some (<[k := v]> (entries (om_Labels m)))) m.

(** [mutateFn]: owner, labels and data of a credential secret. *)
Definition mutate_secret (gvk : GVK) (cd : ClusterDeployment) (data : gmap string string)
    (secretType : string) (secret : Secret) : Secret :=
  let owner := mkOwner (gvk_GroupVersion gvk) (gvk_Kind gvk) (om_Name (cd_Meta cd))
                 (om_UID (cd_Meta cd)) (Some true) None in
  let m := set_OwnerReferences [owner] (secret_Meta secret) in
  let m := SetMetaDataLabel "hive.openshift.io/cluster-deployment-name" (om_Name (cd_Meta cd)) m in
  let m := SetMetaDataLabel "hive.openshift.io/secret-type" secretType m in
  let m := SetMetaDataLabel SecretResourceLabel SecretResourceValue m in
  let m := SetMetaDataLabel secretPreservationLabel secretPreservationValue m in
  let m := SetMetaDataLabel "cluster.open-cluster-management.io/backup" "true" m in
  mkSecret m (Some data) (secret_Type secret).

Definition createOrUpdateClusterCredentialSecret (cd : ClusterDeployment) (name : string)
    (data : gmap string string) (secretType : string) : io (option goerror) :=
  let literal := mkSecret (new_meta name (om_Namespace (cd_Meta cd))) (Some data) "Opaque" in
  try gvk := perform (GVKForObject "ClusterDeployment") else e => Ret (Some e) in
  let wrap e := ErrWrap "failed to create secret: " e in
  let* existing := perform (GetSecret CachedClient (meta_key (secret_Meta literal))) in
  match existing with
  | Err e =>
      if negb (IsNotFound e) then Ret (Some (wrap e))
      else
        try _ := perform (CreateSecret (mutate_secret gvk cd data secretType literal))
          else e' => Ret (Some (wrap e')) in
        Ret None
  | Ok secret =>
      let updated := mutate_secret gvk cd data secretType secret in
      if bool_decide (secret = updated) then Ret None
      else
        try _ := perform (UpdateSecret updated) else e' => Ret (Some (wrap e')) in
        Ret None
  end.

(** The common body of the three [Ensure...Secret] operations: read the file,
    stop if the secret already holds its content, else write the secret. *)
Definition ensure_secret (cd : ClusterDeployment) (name file key secretType read_error : string)
    (data : string → gmap string string) : io (option goerror) :=
  try content := perform (OsReadFile file) else e =>
    Ret (Some (ErrWrap ("failed to read " +:+ read_error +:+ file +:+ ": ") e)) in
  try exists_ := secretExistsAndValid (mkKey (om_Namespace (cd_Meta cd)) name) key content
    else e => Ret (Some e) in
  if (exists_ : bool) then Ret None
  else
    check createOrUpdateClusterCredentialSecret cd name (data content) secretType else e =>
      Ret (Some (ErrWrap "failed to create kubeadmin password secret: " e)) in
    Ret None.

Definition EnsureKubeconfigSecret (cd : ClusterDeployment) (kubeconfigFile : string)
    : io (option goerror) :=
  ensure_secret cd (KubeconfigSecretName (om_Name (cd_Meta cd))) kubeconfigFile Kubeconfig Kubeconfig
    "kubeadmin file " (λ kubeconfigData, {["kubeconfig" := kubeconfigData]}).

Definition EnsureAdminPasswordSecret (cd : ClusterDeployment) (kubeAdminFile : string)
    : io (option goerror) :=
  ensure_secret cd (KubeadminPasswordSecretName (om_Name (cd_Meta cd))) kubeAdminFile kubeAdminKey
    kubeadmincreds "kubeadmin file "
    (λ password, <["username" := DefaultUser]> {[kubeAdminKey := password]}).

Definition EnsureSeedReconfigurationSecret (cd : ClusterDeployment) (seedReconfigurationFile : string)
    : io (option goerror) :=
  ensure_secret cd (SeedReconfigurationSecretName (om_Name (cd_Meta cd))) seedReconfigurationFile
    SeedReconfigurationFileName SeedReconfigurationFileName "seedReconfigurationFile file "
    (λ d, {[SeedReconfigurationFileName := d]}).

(** The content of a key, and whether it is present and not empty. *)
Definition getSecretContent (ref : NamespacedName) (key : string) : io (result (string * bool)) :=
  try secret := perform (GetSecret CachedClient ref) else e =>
    (if IsNotFound e then Ret (Ok ("", false))
     else Ret (Err (ErrWrap ("failed to get secret " +:+ key_Namespace ref +:+ "/"
                 +:+ key_Name ref +:+ ": ") e))) in
  match entries (secret_Data secret) !! key with
  | None => Ret (Ok ("", false))
  | Some val => Ret (Ok (val, negb (bool_decide (val = ""))))
  end.

(** [Ok None] stands for [exist == false]. *)
Definition ClusterIdentitySecrets (cd : ClusterDeployment) : io (result (option IdentityData)) :=
  let ns := om_Namespace (cd_Meta cd) in
  let name := om_Name (cd_Meta cd) in
  try (kubeconfig, present) := getSecretContent (mkKey ns (KubeconfigSecretName name)) "kubeconfig"
    else e => Ret (Err e) in
  if negb present then Ret (Ok None) else
  try (password, present) := getSecretContent (mkKey ns (KubeadminPasswordSecretName name)) kubeAdminKey
    else e => Ret (Err e) in
  if negb present then Ret (Ok None) else
  try (seed, present) :=
    getSecretContent (mkKey ns (SeedReconfigurationSecretName name)) SeedReconfigurationFileName
    else e => Ret (Err e) in
  if negb present then Ret (Ok None) else
  Ret (Ok (Some (mkIdentityData kubeconfig password seed))).

(** The cluster and infra IDs of an earlier installation, empty if there is none. *)
Definition SeedReconfigSecretClusterIDs `{GoLibs} (cd : ClusterDeployment)
    : io (result (string * string)) :=
  let secretRef := mkKey (om_Namespace (cd_Meta cd))
                     (SeedReconfigurationSecretName (om_Name (cd_Meta cd))) in
  try (content, present) := getSecretContent secretRef SeedReconfigurationFileName
    else e => Ret (Err e) in
  if negb present then Ret (Ok ("", ""))
  else match json_UnmarshalSeedReconfiguration content with
       | Err e => Ret (Err (ErrWrap "failed to decode secret seed reconfiguration: " e))
       | Ok sr => Ret (Ok (sr_ClusterID sr, sr_InfraID sr))
       end.

(** ** Properties *)

(** The three secrets: name, key of the content, type label and data. *)
Inductive credential := AdminKubeconfig | AdminPassword | SeedReconfig.

#[export] Instance credential_eq_dec : EqDecision credential.
Proof. solve_decision. Defined.

Definition cred_name (cd : ClusterDeployment) (c : credential) : string :=
  match c with
  | AdminKubeconfig => KubeconfigSecretName (om_Name (cd_Meta cd))
  | AdminPassword => KubeadminPasswordSecretName (om_Name (cd_Meta cd))
  | SeedReconfig => SeedReconfigurationSecretName (om_Name (cd_Meta cd))
  end.
Definition cred_ref (cd : ClusterDeployment) (c : credential) : NamespacedName :=
  mkKey (om_Namespace (cd_Meta cd)) (cred_name cd c).
Definition cred_key (c : credential) : string :=
  match c with
  | AdminKubeconfig => "kubeconfig" | AdminPassword => "password" | SeedReconfig => "manifest.json"
  end.
Definition cred_type (c : credential) : string :=
  match c with
  | AdminKubeconfig => "kubeconfig" | AdminPassword => "kubeadmincreds" | SeedReconfig => "manifest.json"
  end.
Definition cred_data (c : credential) (content : string) : gmap string string :=
  match c with
  | AdminPassword => <["username" := "kubeadmin"]> {["password" := content]}
  | _ => {[cred_key c := content]}
  end.
Definition Ensure (c : credential) : ClusterDeployment → string → io (option goerror) :=
  match c with
  | AdminKubeconfig => EnsureKubeconfigSecret
  | AdminPassword => EnsureAdminPasswordSecret
  | SeedReconfig => EnsureSeedReconfigurationSecret
  end.

Lemma cred_data_lookup c content : cred_data c content !! cred_key c = Some content.
Proof. by destruct c. Qed.

(** A secret as the operator writes it: exactly the data, owned by the cluster
    deployment, with the labels of hive, of this operator's cache, of secret
    preservation and of backups. *)
Definition credential_secret (cd : ClusterDeployment) (c : credential) (content : string) (s : Secret) : Prop :=
  secret_Data s = Some (cred_data c content) ∧
  (∃ gvk, om_OwnerReferences (secret_Meta s) =
     [mkOwner (gvk_GroupVersion gvk) (gvk_Kind gvk) (om_Name (cd_Meta cd)) (om_UID (cd_Meta cd)) (Some true) None]) ∧
  ∀ k v, (k, v) ∈ [("hive.openshift.io/cluster-deployment-name", om_Name (cd_Meta cd));
                   ("hive.openshift.io/secret-type", cred_type c);
                   (SecretResourceLabel, SecretResourceValue);
                   (secretPreservationLabel, secretPreservationValue);
                   ("cluster.open-cluster-management.io/backup", "true")] →
         entries (om_Labels (secret_Meta s)) !! k = Some v.

Lemma mutate_secret_ok gvk cd c content s :
  credential_secret cd c content (mutate_secret gvk cd (cred_data c content) (cred_type c) s)
  ∧ meta_key (secret_Meta (mutate_secret gvk cd (cred_data c content) (cred_type c) s))
    = meta_key (secret_Meta s).
Proof.
  split; [|done]. unfold credential_secret, mutate_secret. simpl. split_and!; [done|by exists gvk|].
  intros k v Hin. repeat (apply elem_of_cons in Hin as [[= -> ->]|Hin];
    [repeat (rewrite lookup_insert_ne by done); by rewrite lookup_insert_eq|]).
  by apply elem_of_nil in Hin.
Qed.

(** What an [Ensure...Secret] operation may do. *)
Definition ensure_guard (cd : ClusterDeployment) (c : credential) (file : string) (h : trace) (a : call) : Prop :=
  match a with
  | OsReadFile f => f = file
  | GetSecret CachedClient k => k = cred_ref cd c
  | GVKForObject _ => True
  | CreateSecret s | UpdateSecret s =>
      ∃ content, Ev (OsReadFile file) (Ok content) ∈ h ∧ credential_secret cd c content s ∧
        (meta_key (secret_Meta s) = cred_ref cd c ∨
         ∃ old, Ev (GetSecret CachedClient (cred_ref cd c)) (Ok old) ∈ h ∧
                meta_key (secret_Meta s) = meta_key (secret_Meta old))
  | _ => False
  end.

(** The content of the file is in the secret: it was seen there, or the write
    was accepted. *)
Definition ensured (cd : ClusterDeployment) (c : credential) (file : string) (h : trace) : Prop :=
  ∃ content, Ev (OsReadFile file) (Ok content) ∈ h ∧
    ∃ s, (Ev (GetSecret CachedClient (cred_ref cd c)) (Ok s) ∈ h ∨
          (∃ x, Ev (CreateSecret s) (Ok x) ∈ h ∨ Ev (UpdateSecret s) (Ok x) ∈ h)) ∧
         entries (secret_Data s) !! cred_key c = Some content.

Lemma ensured_app cd c file h t : ensured cd c file h → ensured cd c file (h ++ t).
Proof.
  intros (content&?&s&Hs&?). exists content. split; [hist|]. exists s. split; [|done].
  destruct Hs as [?|(x&[?|?])]; [left; hist|right; exists x; left; hist|right; exists x; right; hist].
Qed.

Lemma wp_Ensure c cd file h :
  wp (ensure_guard cd c file) (Ensure c cd file) h (λ r h', r = None → ensured cd c file h').
Proof.
  assert (Heq : ∃ err, Ensure c cd file =
    ensure_secret cd (cred_name cd c) file (cred_key c) (cred_type c) err (cred_data c)).
  { destruct c; by eexists. }
  destruct Heq as [err ->]. unfold ensure_secret, secretExistsAndValid.
  wp_call; [done|]. destruct x as [content|e]; [|done]. wp_call; [done|].
  set (h1 := (h ++ _) ++ _).
  assert (Hread : Ev (OsReadFile file) (Ok content) ∈ h1) by (unfold h1; hist).
  assert (Hwrite : wp (ensure_guard cd c file)
    (check createOrUpdateClusterCredentialSecret cd (cred_name cd c) (cred_data c content) (cred_type c) else e =>
       Ret (Some (ErrWrap "failed to create kubeadmin password secret: " e)) in Ret None) h1
    (λ r h', r = None → ensured cd c file h')).
  { clearbody h1. unfold createOrUpdateClusterCredentialSecret. wp_call; [done|].
    destruct x0 as [gvk|e]; cbn [prog_bind]; [|done]. wp_call; [done|].
    destruct x0 as [s|e]; cbn [prog_bind].
    - destruct (mutate_secret_ok gvk cd c content s) as [Hok Hkey]. case_bool_decide as Hsame.
      + intros _. exists content. split; [hist|]. exists s. split; [left; hist|].
        rewrite Hsame. simpl. apply cred_data_lookup.
      + wp_call; [exists content; split_and!; [hist|done|]; right; exists s; split; [hist|done]|].
        destruct x0 as [s'|e]; [|done]. intros _. exists content. split; [hist|].
        eexists. split; [right; exists s'; right; hist|]. apply cred_data_lookup.
    - destruct (IsNotFound e); cbn [negb prog_bind]; [|done].
      set (lit := mkSecret _ _ _). destruct (mutate_secret_ok gvk cd c content lit) as [Hok Hkey].
      wp_call; [exists content; split_and!; [hist|done|]; by left|].
      destruct x0 as [s'|e']; [|done]. intros _. exists content. split; [hist|].
      eexists. split; [right; exists s'; left; hist|]. apply cred_data_lookup. }
  destruct x as [s|e]; cbn [prog_bind].
  - destruct (entries (secret_Data s) !! cred_key c) as [data|] eqn:Hd; cbn [prog_bind]; [|done].
    case_bool_decide as Hc; [|done]. intros _. exists content. split; [hist|]. exists s.
    split; [left; unfold h1; hist|]. by subst.
  - destruct (IsNotFound e); cbn [prog_bind]; [|done]. exact Hwrite.
Qed.

(** C24: the three [Ensure...Secret] operations.  Success means that the content
    of the generated file is stored: the secret was seen with it, or a create or
    update with it was accepted.  The only requests that change the cluster
    create or update that one secret, with exactly the data of the file that was
    read, the cluster deployment as owner and all five labels. *)
Theorem ensure_secret_spec c cd file t r :
  exec (Ensure c cd file) t r →
  (r = None → ensured cd c file t) ∧
  (∀ t1 ev t2, t = t1 ++ ev :: t2 → ensure_guard cd c file t1 (ev_call ev)).
Proof. apply (wp_exec _ _ [] _ _ _ (wp_Ensure c cd file [])). Qed.

Lemma ensure_secret_spec_witness :
  ∃ t, exec (Ensure AdminPassword Sim.cd0 "/pw") t None ∧ ensured Sim.cd0 AdminPassword "/pw" t.
Proof.
  set (w := Sim.with_files {["/pw" := "secret"]} Sim.world0).
  set (p := Ensure AdminPassword Sim.cd0 "/pw").
  assert (Hr : (run Sim.handle p w).1.2 = None) by (vm_compute; reflexivity).
  pose proof (exec_run Sim.handle p w) as Hx. rewrite Hr in Hx.
  eexists. split; [exact Hx|]. exact (proj1 (ensure_secret_spec AdminPassword Sim.cd0 "/pw" _ _ Hx) eq_refl).
Defined.

Definition id_content (id : IdentityData) (c : credential) : string :=
  match c with
  | AdminKubeconfig => id_Kubeconfig id
  | AdminPassword => id_KubeadminPassword id
  | SeedReconfig => id_SeedReconfig id
  end.

Definition content_answer (ref : NamespacedName) (key : string) (x : result Secret) : result (string * bool) :=
  match x with
  | Ok s => match entries (secret_Data s) !! key with
            | None => Ok ("", false)
            | Some v => Ok (v, negb (bool_decide (v = "")))
            end
  | Err e => if IsNotFound e then Ok ("", false)
             else Err (ErrWrap ("failed to get secret " +:+ key_Namespace ref +:+ "/"
                         +:+ key_Name ref +:+ ": ") e)
  end.

Lemma exec_getSecretContent ref key t r :
  exec (getSecretContent ref key) t r →
  ∃ x, t = [Ev (GetSecret CachedClient ref) x] ∧ r = content_answer ref key x.
Proof.
  unfold getSecretContent, content_answer. intros (x&t'&->&H). cbn [prog_bind] in H. exists x.
  destruct x as [s|e]; [destruct (_ !! _)|destruct (IsNotFound e)]; by destruct H as [-> ->].
Qed.

(** The content of [c] is there and not empty. *)
Definition content_seen (cd : ClusterDeployment) (c : credential) (t : trace) (v : string) : Prop :=
  v ≠ "" ∧ ∃ s, Ev (GetSecret CachedClient (cred_ref cd c)) (Ok s) ∈ t ∧
                entries (secret_Data s) !! cred_key c = Some v.

Lemma content_answer_present cd c x v :
  content_answer (cred_ref cd c) (cred_key c) x = Ok (v, true) ↔
  v ≠ "" ∧ ∃ s, x = Ok s ∧ entries (secret_Data s) !! cred_key c = Some v.
Proof.
  unfold content_answer. destruct x as [s|e]; [|destruct (IsNotFound e); (split; [done|by intros (?&?&[=]&_)])].
  destruct (_ !! _) as [w|] eqn:E; (split; [intros [=]|]).
  - subst. bools. eauto.
  - intros (?&?&[= <-]&?). simplify_eq. by rewrite bool_decide_eq_false_2.
  - intros (?&?&[= <-]&?). congruence.
Qed.

Lemma cred_ref_inj cd c c' : cred_ref cd c = cred_ref cd c' → c = c'.
Proof. intros [= H]. destruct c, c'; try done; simpl in H; by apply (inj (String.append _)) in H. Qed.

(** Reading the credentials [cs] one after the other, up to the first that is
    missing: the requests made and what they amount to. *)
Inductive reads (cd : ClusterDeployment) : list credential → trace → result (option (list string)) → Prop :=
| reads_nil : reads cd [] [] (Ok (Some []))
| reads_error c cs x e :
    content_answer (cred_ref cd c) (cred_key c) x = Err e →
    reads cd (c :: cs) [Ev (GetSecret CachedClient (cred_ref cd c)) x] (Err e)
| reads_missing c cs x v :
    content_answer (cred_ref cd c) (cred_key c) x = Ok (v, false) →
    reads cd (c :: cs) [Ev (GetSecret CachedClient (cred_ref cd c)) x] (Ok None)
| reads_next c cs x v t r :
    content_answer (cred_ref cd c) (cred_key c) x = Ok (v, true) → reads cd cs t r →
    reads cd (c :: cs) (Ev (GetSecret CachedClient (cred_ref cd c)) x :: t)
      (match r with Ok (Some vs) => Ok (Some (v :: vs)) | Ok None => Ok None | Err e => Err e end).

Lemma reads_events cd cs t r c x :
  reads cd cs t r → Ev (GetSecret CachedClient (cred_ref cd c)) x ∈ t → c ∈ cs.
Proof.
  induction 1; rewrite ?elem_of_cons, ?elem_of_nil; [done|..];
    intros [[= Hn _]|?]; try done; auto; left; apply (cred_ref_inj cd); unfold cred_ref; by rewrite Hn.
Qed.

(** The answer of a secret lookup determines its event. *)
Definition secret_answer (ev : event answer) : option (result Secret) :=
  match ev with
  | Ev a x => match a return answer a → option (result Secret) with
              | GetSecret _ _ => λ x, Some x
              | _ => λ _, None
              end x
  end.

Lemma content_seen_cons cd c x t v :
  (∀ y, Ev (GetSecret CachedClient (cred_ref cd c)) y ∉ t) →
  content_seen cd c (Ev (GetSecret CachedClient (cred_ref cd c)) x :: t) v ↔
  content_answer (cred_ref cd c) (cred_key c) x = Ok (v, true).
Proof.
  intros Hno. rewrite content_answer_present. unfold content_seen. split.
  - intros (?&s&[Heq|Hin]%elem_of_cons&?); [|by apply Hno in Hin]. split; [done|]. exists s.
    apply (f_equal secret_answer) in Heq. simpl in Heq. by split; [congruence|].
  - intros (?&s&->&?). split; [done|]. exists s. split; [apply list_elem_of_here|done].
Qed.

Lemma content_seen_ne cd c c' x t v :
  c ≠ c' → content_seen cd c (Ev (GetSecret CachedClient (cred_ref cd c')) x :: t) v ↔ content_seen cd c t v.
Proof.
  intros Hne. unfold content_seen. split; intros (?&s&Hin&?); (split; [done|]); exists s; (split; [|done]).
  - apply elem_of_cons in Hin as [Heq|?]; [|done]. exfalso. apply Hne, (cred_ref_inj cd).
    apply (f_equal ev_call) in Heq. simpl in Heq. congruence.
  - by apply list_elem_of_further.
Qed.

Lemma reads_found cd cs t r (f : credential → string) :
  reads cd cs t r → NoDup cs →
  r = Ok (Some (f <$> cs)) ↔ ∀ c, c ∈ cs → content_seen cd c t (f c).
Proof.
  induction 1 as [|c cs x e Hx|c cs x v Hx|c cs x v t r Hx Hr IH]; intros Hnd.
  - split; [by intros _ c ?%elem_of_nil|done].
  - split; [done|]. intros Hall. specialize (Hall c (list_elem_of_here _ _)).
    apply content_seen_cons in Hall; [congruence|by intros ? ?%elem_of_nil].
  - split; [done|]. intros Hall. specialize (Hall c (list_elem_of_here _ _)).
    apply content_seen_cons in Hall; [congruence|by intros ? ?%elem_of_nil].
  - apply NoDup_cons in Hnd as [Hc Hnd]. specialize (IH Hnd).
    assert (Hno : ∀ y, Ev (GetSecret CachedClient (cred_ref cd c)) y ∉ t).
    { intros y Hy. by eapply reads_events in Hy. }
    transitivity (v = f c ∧ r = Ok (Some (f <$> cs))).
    { destruct r as [[vs|]|]; (split; [intros [=]|intros [-> [=]]]); subst; done. }
    rewrite IH. setoid_rewrite elem_of_cons. split.
    + intros [-> Hall] c' [->|Hin]; [by apply content_seen_cons|].
      apply content_seen_ne; [by intros ->|auto].
    + intros Hall. split.
      * specialize (Hall c (or_introl eq_refl)). apply content_seen_cons in Hall; [congruence|done].
      * intros c' Hin. apply (content_seen_ne cd c' c x t); [by intros ->|auto].
Qed.

Lemma reads_written cd cs t r (f : credential → string) :
  reads cd cs t r → (∀ c, f c ≠ "") →
  (∀ c x, Ev (GetSecret CachedClient (cred_ref cd c)) x ∈ t →
     ∃ s, x = Ok s ∧ credential_secret cd c (f c) s) →
  r = Ok (Some (f <$> cs)).
Proof.
  intros H Hne.
  assert (Hans : ∀ c s, credential_secret cd c (f c) s →
    content_answer (cred_ref cd c) (cred_key c) (Ok s) = Ok (f c, true)).
  { intros c s (Hd&_). apply content_answer_present. split; [done|]. exists s. split; [done|].
    rewrite Hd. apply cred_data_lookup. }
  induction H as [|c cs x e Hx|c cs x v Hx|c cs x v t r Hx Hr IH]; intros Hall; [done|..].
  all: destruct (Hall c x (list_elem_of_here _ _)) as (s&->&Hs); rewrite (Hans _ _ Hs) in Hx; try done.
  injection Hx as <-. rewrite IH; [done|]. intros c' x' Hin. apply Hall. by apply list_elem_of_further.
Qed.

Lemma reads_length cd cs t vs : reads cd cs t (Ok (Some vs)) → length vs = length cs.
Proof.
  intros H. remember (Ok (Some vs)) as r eqn:Hr. revert vs Hr.
  induction H as [| | |c cs x v t r Hx Hr IH]; intros vs Hvs; try by simplify_eq.
  destruct r as [[ws|]|]; simplify_eq. simpl. f_equal. by apply IH.
Qed.

Definition all_credentials : list credential := [AdminKubeconfig; AdminPassword; SeedReconfig].

Lemma elem_of_all_credentials c : c ∈ all_credentials.
Proof. destruct c; apply (bool_decide_unpack _); by vm_compute. Qed.

Lemma ClusterIdentitySecrets_reads cd t r :
  exec (ClusterIdentitySecrets cd) t r →
  ∃ r', reads cd all_credentials t r' ∧
    r = match r' with
        | Ok (Some [k; p; d]) => Ok (Some (mkIdentityData k p d))
        | Ok _ => Ok None
        | Err e => Err e
        end.
Proof.
  unfold ClusterIdentitySecrets, all_credentials. intros He.
  apply prog_bind_assoc_exec in He as (t1&t2&?&->&(x1&->&->)%exec_getSecretContent&He).
  destruct (content_answer _ _ x1) as [[v1 []]|e] eqn:E1; cbn [negb] in He;
    [|destruct He as [-> ->]; eexists; split; [by econstructor|done]..].
  apply prog_bind_assoc_exec in He as (t3&t4&?&->&(x2&->&->)%exec_getSecretContent&He).
  destruct (content_answer _ _ x2) as [[v2 []]|e] eqn:E2; cbn [negb] in He;
    [|destruct He as [-> ->]; eexists; split; [eapply reads_next; [done|by econstructor]|done]..].
  apply prog_bind_assoc_exec in He as (t5&t6&?&->&(x3&->&->)%exec_getSecretContent&He).
  destruct (content_answer _ _ x3) as [[v3 []]|e] eqn:E3; cbn [negb] in He; destruct He as [-> ->];
    eexists; (split; [do 2 (eapply reads_next; [done|]); by repeat econstructor|done]).
Qed.

(** C25: the identity of an earlier installation is found exactly when each of the
    three secrets was read and holds non-empty content under its key, and what
    is returned is that content.  Conversely a round trip: if every secret the
    lookup reads was written by the operator ([credential_secret]) with
    non-empty content, that content is returned. *)
Theorem identity_secrets_spec cd t r :
  exec (ClusterIdentitySecrets cd) t r →
  (∀ id, r = Ok (Some id) ↔ ∀ c, content_seen cd c t (id_content id c)) ∧
  (∀ id, (∀ c, id_content id c ≠ "") →
     (∀ c x, Ev (GetSecret CachedClient (cred_ref cd c)) x ∈ t →
        ∃ s, x = Ok s ∧ credential_secret cd c (id_content id c) s) → r = Ok (Some id)).
Proof.
  intros (r'&Hr&Hres)%ClusterIdentitySecrets_reads.
  assert (Hid : ∀ id, r = Ok (Some id) ↔ r' = Ok (Some (id_content id <$> all_credentials))).
  { intros [k p d]. rewrite Hres. destruct r' as [[vs|]|]; [|done..].
    apply reads_length in Hr as Hl. simpl in Hl.
    destruct vs as [|k' [|p' [|d' [|??]]]]; try done. split; by intros [= -> -> ->]. }
  split.
  - intros id. rewrite Hid, (reads_found _ _ _ _ _ Hr).
    + split; [intros Hall c; apply Hall, elem_of_all_credentials|auto].
    + unfold all_credentials. apply (bool_decide_unpack _). by vm_compute.
  - intros id Hne Hall. apply Hid. by eapply reads_written.
Qed.

Lemma identity_secrets_spec_witness :
  let id := mkIdentityData "kc" "pw" "seed" in
  ∃ t, exec (ClusterIdentitySecrets Sim.cd0) t (Ok (Some id)) ∧
       ∀ c, content_seen Sim.cd0 c t (id_content id c).
Proof.
  intros id.
  set (w := Sim.with_secrets [Sim.secret0 "cd-admin-kubeconfig" "kubeconfig" "kc";
              Sim.secret0 "cd-admin-password" "password" "pw";
              Sim.secret0 "cd-seed-reconfiguration" "manifest.json" "seed"] Sim.world0).
  set (p := ClusterIdentitySecrets Sim.cd0).
  assert (Hr : (run Sim.handle p w).1.2 = Ok (Some id)) by (vm_compute; reflexivity).
  pose proof (exec_run Sim.handle p w) as Hx. rewrite Hr in Hx.
  eexists. split; [exact Hx|].
  exact (proj1 (proj1 (identity_secrets_spec Sim.cd0 _ _ Hx) id) eq_refl).
Defined.

End Credentials.
