(* ===== verification/Installer.v ===== *)
(** * Writing the installer's input ([internal/installer/*.go])

    The asset store of the openshift installer is the environment; this file
    translates what is written for it: the install config, the image based
    config and, for a reinstallation, the seed reconfiguration and the
    credentials of the previous installation. *)
From stdpp Require Import base gmap strings list.
From Stdlib Require Import ZArith Lia.
From S2P Require Import Prelude Types World GoStd NetIP Networks Libs Credentials Sim.
Local Open Scope go_scope.

Module Installer.
Section installer.
Context `{L : GoLibs}.

Definition CreateInstallationIso (workDir : string) : io (option goerror) :=
  perform (FetchAndPersist workDir).

Definition WriteImageBaseConfig (ici : ImageClusterInstall)
    (releaseRegistry nmstateConfig file : string) : io (option goerror) :=
  match Spec_ClusterMetadata (ici_Spec ici) with
  | None => Ret (Some (ErrNew "clusterID and infraID are missing from cluster metadata"))
  | Some cm =>
      if bool_decide (ClusterID cm = "") || bool_decide (InfraID cm = "")
      then Ret (Some (ErrNew "clusterID and infraID are missing from cluster metadata"))
      else
        let config := mkImageBasedConfig "v1beta1" (Hostname (ici_Spec ici)) releaseRegistry
                        (AdditionalNTPSources (ici_Spec ici)) nmstateConfig
                        (ClusterID cm) (InfraID cm) in
        match json_MarshalImageBasedConfig config with
        | Err e => Ret (Some (ErrWrap "failed to marshal cluster info: " e))
        | Ok data =>
            check perform (OsWriteFile file data 420%Z) else e =>
              Ret (Some (ErrWrap "failed to write cluster info: " e)) in
            Ret None
        end
  end.

(** [ipnet.ParseCIDR]: the address as given, shortened to 4 bytes for IPv4. *)
Definition ipnet_ParseCIDR (s : string) : option NetIP.IPNet :=
  match NetIP.ParseCIDR s with
  | None => None
  | Some (ip, cidr) =>
      Some (NetIP.mkIPNet (default ip (NetIP.To4 ip)) (NetIP.net_Mask cidr))
  end.

(** The loop that fills [Networking.MachineNetwork]. *)
Fixpoint parse_machine_networks (networks : list string) : result (list NetIP.IPNet) :=
  match networks with
  | [] => Ok []
  | network :: rest =>
      match ipnet_ParseCIDR network with
      | None => Err (ErrWrap ("failed to parse machine network CIDR " +:+ network +:+ ": ")
                       (ErrNew ("invalid CIDR address: " +:+ network)))
      | Some cidr =>
          match parse_machine_networks rest with
          | Err e => Err e
          | Ok cidrs => Ok (cidr :: cidrs)
          end
      end
  end.

Definition proxy (iciProxy : option Proxy) : option Proxy :=
  match iciProxy with
  | None => None
  | Some p =>
      if bool_decide (HTTPSProxy p = "") && bool_decide (HTTPProxy p = "") then None
      else Some (mkProxy (HTTPProxy p) (HTTPSProxy p) (NoProxy p))
  end.

Definition ConvertIDMToIDS (imageDigestMirrors : list ImageDigestMirrors) : list ImageDigestSource :=
  (λ idm, mkIDS (idm_Source idm) (elems (idm_Mirrors idm)) "") <$> imageDigestMirrors.

(** The install config that is marshalled, given the parsed machine networks. *)
Definition install_config (ici : ImageClusterInstall) (cd : ClusterDeployment)
    (psData caBundle : string) (networks : list NetIP.IPNet) : InstallConfig :=
  mkInstallConfig "v1" (cd_BaseDomain cd) (cd_ClusterName cd) "OVNKubernetes" networks
    (SSHKey (ici_Spec ici)) (mkMachinePool "master" 1) [mkMachinePool "worker" 0]
    psData (proxy (Spec_Proxy (ici_Spec ici)))
    (if bool_decide (caBundle = "") then "" else caBundle)
    (ConvertIDMToIDS <$> ImageDigestSources (ici_Spec ici)) true.

Definition WriteInstallConfig (ici : ImageClusterInstall) (cd : ClusterDeployment)
    (psData caBundle file : string) : io (option goerror) :=
  let machineNetworks := Networks.getEffectiveMachineNetworks ici in
  match parse_machine_networks machineNetworks with
  | Err e => Ret (Some e)
  | Ok networks =>
      match json_MarshalInstallConfig (install_config ici cd psData caBundle networks) with
      | Err e => Ret (Some (ErrWrap "failed to marshal cluster info: " e))
      | Ok data =>
          check perform (OsWriteFile file data 420%Z) else e =>
            Ret (Some (ErrWrap "failed to write cluster info: " e)) in
          Ret None
      end
  end.

(** ** Reinstallation *)

Definition validateReinstallConfig (newConfig secretConfig : SeedReconfiguration) : option goerror :=
  if negb (bool_decide (sr_BaseDomain newConfig = sr_BaseDomain secretConfig)) then
    Some (ErrNew ("provided base domain (" +:+ sr_BaseDomain newConfig
           +:+ ") must match previous base domain (" +:+ sr_BaseDomain secretConfig +:+ ")"))
  else if negb (bool_decide (sr_ClusterName newConfig = sr_ClusterName secretConfig)) then
    Some (ErrNew ("provided cluster name (" +:+ sr_ClusterName newConfig
           +:+ ") must match previous cluster name (" +:+ sr_ClusterName secretConfig +:+ ")"))
  else None.

Definition writeAuth (path data : string) : io (option goerror) :=
  check perform (OsMkdirAll (filepath_Dir path) 493%Z) else e =>
    Ret (Some (ErrWrap ("failed to create directory " +:+ filepath_Dir path +:+ ": ") e)) in
  check perform (OsWriteFile path data 420%Z) else e =>
    Ret (Some (ErrWrap ("failed to write auth data to " +:+ path +:+ ": ") e)) in
  Ret None.

Definition writeSeedReconfig (isoWorkDir : string) (clusterConfig : ClusterConfiguration)
    : io (option goerror) :=
  match json_MarshalSeedReconfiguration (ccfg_Config clusterConfig) with
  | Err e => Ret (Some (ErrWrap "failed to marshal updated seed reconfiguration data: " e))
  | Ok data =>
      let reconfigFile := filepath_Join [isoWorkDir; ccfg_Filename clusterConfig] in
      check perform (OsMkdirAll (filepath_Dir reconfigFile) 493%Z) else e =>
        Ret (Some (ErrWrap "failed to create reconfig dir: " e)) in
      check perform (OsWriteFile reconfigFile data 416%Z) else e =>
        Ret (Some (ErrWrap "failed to write updated seed reconfig: " e)) in
      Ret None
  end.

Definition getBaseAssets (workdir : string) : io (result (ClusterConfiguration * string * string)) :=
  check perform (NewStore workdir) else e =>
    Ret (Err (ErrWrap "failed to create asset store: " e)) in
  try config := perform (FetchClusterConfiguration workdir) else e =>
    Ret (Err (ErrWrap "failed to fetch cluster config asset from store: " e)) in
  try kubeconfig := perform (FetchImageBasedAdminClient workdir) else e =>
    Ret (Err (ErrWrap "failed to fetch kubeconfig asset from store: " e)) in
  try kubeadminpassword := perform (FetchKubeadminPassword workdir) else e =>
    Ret (Err (ErrWrap "failed to fetch kubeadmin password asset from store: " e)) in
  Ret (Ok (config, kubeconfig, kubeadminpassword)).

(** The new configuration with the crypto material of the previous installation. *)
Definition merge_seed (new secret : SeedReconfiguration) : SeedReconfiguration :=
  mkSeedReconfiguration (sr_BaseDomain new) (sr_ClusterName new) (sr_ClusterID new) (sr_InfraID new)
    (sr_KubeadminPasswordHash secret) (sr_KubeconfigCryptoRetention secret) (sr_Rest new).

Definition WriteReinstallData (tmpWorkDir isoWorkDir : string) (idData : Credentials.IdentityData)
    : io (option goerror) :=
  try (clusterConfig, kubeconfigAssetPath, kubeadmPasswordAssetPath) := getBaseAssets tmpWorkDir
    else e => Ret (Some e) in
  match json_UnmarshalSeedReconfiguration (Credentials.id_SeedReconfig idData) with
  | Err e => Ret (Some (ErrWrap "failed to decode local seed reconfiguration: " e))
  | Ok secretSeedReconfig =>
      match validateReinstallConfig (ccfg_Config clusterConfig) secretSeedReconfig with
      | Some e => Ret (Some (ErrWrap "cluster configuration is not valid for reinstall: " e))
      | None =>
          let clusterConfig' := mkClusterConfiguration (ccfg_Filename clusterConfig)
                                  (merge_seed (ccfg_Config clusterConfig) secretSeedReconfig) in
          check writeSeedReconfig isoWorkDir clusterConfig' else e => Ret (Some e) in
          check writeAuth (filepath_Join [isoWorkDir; kubeconfigAssetPath])
                  (Credentials.id_Kubeconfig idData) else e => Ret (Some e) in
          check writeAuth (filepath_Join [isoWorkDir; kubeadmPasswordAssetPath])
                  (Credentials.id_KubeadminPassword idData) else e => Ret (Some e) in
          Ret None
      end
  end.

(** ** Properties *)

(** The install config for this cluster is in [file]. *)
Definition install_config_written (ici : ImageClusterInstall) (cd : ClusterDeployment)
    (psData caBundle file : string) (h : trace) : Prop :=
  ∃ networks data,
    parse_machine_networks (Networks.getEffectiveMachineNetworks ici) = Ok networks ∧
    json_MarshalInstallConfig (install_config ici cd psData caBundle networks) = Ok data ∧
    Ev (OsWriteFile file data 420%Z) None ∈ h.

Lemma wp_WriteInstallConfig ici cd ps ca file h :
  wp (λ _ a, ∃ data, a = OsWriteFile file data 420%Z) (WriteInstallConfig ici cd ps ca file) h
    (λ r h', r = None → install_config_written ici cd ps ca file h').
Proof.
  unfold WriteInstallConfig. destruct (parse_machine_networks _) as [ns|e] eqn:Hns; [|done].
  destruct (json_MarshalInstallConfig _) as [data|e] eqn:Hd; [|done].
  wp_call; [eauto|]. destruct x; cbn [wp]; [done|]. intros _. exists ns, data. split_and!; [done..|hist].
Qed.

(** The image based config with the IDs of the cluster is in [file]. *)
Definition image_config_written (ici : ImageClusterInstall) (file : string) (h : trace) : Prop :=
  ∃ cm registry nmstate data,
    Spec_ClusterMetadata (ici_Spec ici) = Some cm ∧ ClusterID cm ≠ "" ∧ InfraID cm ≠ "" ∧
    json_MarshalImageBasedConfig
      (mkImageBasedConfig "v1beta1" (Hostname (ici_Spec ici)) registry (AdditionalNTPSources (ici_Spec ici))
         nmstate (ClusterID cm) (InfraID cm)) = Ok data ∧
    Ev (OsWriteFile file data 420%Z) None ∈ h.

Lemma wp_WriteImageBaseConfig ici registry nmstate file h :
  wp (λ _ a, ∃ data, a = OsWriteFile file data 420%Z) (WriteImageBaseConfig ici registry nmstate file) h
    (λ r h', r = None → image_config_written ici file h').
Proof.
  unfold WriteImageBaseConfig. destruct (Spec_ClusterMetadata (ici_Spec ici)) as [cm|] eqn:Hcm; [|done].
  destruct (_ || _) eqn:Hids; [done|]. bools.
  destruct (json_MarshalImageBasedConfig _) as [data|e] eqn:Hd; [|done].
  wp_call; [eauto|]. destruct x; cbn [wp]; [done|]. intros _. exists cm, registry, nmstate, data.
  split_and!; [done..|hist].
Qed.

Lemma install_config_written_app ici cd ps ca file h t :
  install_config_written ici cd ps ca file h → install_config_written ici cd ps ca file (h ++ t).
Proof. intros (ns&d&?&?&?). exists ns, d. split_and!; [done..|hist]. Qed.
Lemma image_config_written_app ici file h t :
  image_config_written ici file h → image_config_written ici file (h ++ t).
Proof. intros (cm&r&n&d&?&?&?&?&?). exists cm, r, n, d. split_and!; [done..|hist]. Qed.

(** *** Reinstallation *)

(** The old and the new configuration describe the same cluster. *)
Definition same_cluster (new old : SeedReconfiguration) : Prop :=
  sr_BaseDomain new = sr_BaseDomain old ∧ sr_ClusterName new = sr_ClusterName old.

Lemma validateReinstallConfig_spec new old :
  validateReinstallConfig new old = None ↔ same_cluster new old.
Proof.
  unfold validateReinstallConfig, same_cluster.
  repeat case_bool_decide; simpl; intuition congruence.
Qed.

(** Files are written only for a reinstallation of the same cluster. *)
Definition reinstall_guard (tmp iso : string) (id : Credentials.IdentityData) (h : trace) (a : call) : Prop :=
  match a with
  | NewStore d | FetchClusterConfiguration d | FetchImageBasedAdminClient d | FetchKubeadminPassword d => d = tmp
  | OsMkdirAll _ _ | OsWriteFile _ _ _ =>
      ∃ cfg old, Ev (FetchClusterConfiguration tmp) (Ok cfg) ∈ h ∧
        json_UnmarshalSeedReconfiguration (Credentials.id_SeedReconfig id) = Ok old ∧
        same_cluster (ccfg_Config cfg) old
  | _ => False
  end.

(** What a successful preparation leaves in the image directory: the new
    configuration with the crypto material of the old installation, and the old
    credentials. *)
Definition reinstall_written (tmp iso : string) (id : Credentials.IdentityData) (h : trace) : Prop :=
  ∃ cfg old kubeconfigPath passwordPath data,
    Ev (FetchClusterConfiguration tmp) (Ok cfg) ∈ h ∧
    Ev (FetchImageBasedAdminClient tmp) (Ok kubeconfigPath) ∈ h ∧
    Ev (FetchKubeadminPassword tmp) (Ok passwordPath) ∈ h ∧
    json_UnmarshalSeedReconfiguration (Credentials.id_SeedReconfig id) = Ok old ∧
    same_cluster (ccfg_Config cfg) old ∧
    json_MarshalSeedReconfiguration (merge_seed (ccfg_Config cfg) old) = Ok data ∧
    Ev (OsWriteFile (filepath_Join [iso; ccfg_Filename cfg]) data 416%Z) None ∈ h ∧
    Ev (OsWriteFile (filepath_Join [iso; kubeconfigPath]) (Credentials.id_Kubeconfig id) 420%Z) None ∈ h ∧
    Ev (OsWriteFile (filepath_Join [iso; passwordPath]) (Credentials.id_KubeadminPassword id) 420%Z) None ∈ h.

Lemma wp_writeAuth G path data h :
  (∀ t, G (h ++ t) (OsMkdirAll (filepath_Dir path) 493%Z)) →
  (∀ t, G (h ++ t) (OsWriteFile path data 420%Z)) →
  wp G (writeAuth path data) h (λ r h', r = None → Ev (OsWriteFile path data 420%Z) None ∈ h').
Proof.
  intros H1 H2. unfold writeAuth. wp_call; [rewrite <- (app_nil_r h); apply H1|].
  destruct x; cbn [wp]; [done|]. wp_call; [apply H2|]. destruct x; cbn [wp]; [done|]. intros _. hist.
Qed.

Lemma wp_WriteReinstallData tmp iso id h :
  wp (reinstall_guard tmp iso id) (WriteReinstallData tmp iso id) h
    (λ r h', r = None → reinstall_written tmp iso id h').
Proof.
  unfold WriteReinstallData, getBaseAssets. wp_call; [done|]. destruct x; cbn [prog_bind wp]; [done|].
  wp_call; [done|]. destruct x as [cfg|e]; cbn [prog_bind wp]; [|done].
  wp_call; [done|]. destruct x as [kpath|e]; cbn [prog_bind wp]; [|done].
  wp_call; [done|]. destruct x as [ppath|e]; cbn [prog_bind wp]; [|done].
  destruct (json_UnmarshalSeedReconfiguration _) as [old|e] eqn:Hold; [|done].
  destruct (validateReinstallConfig _ _) as [e|] eqn:Hv; [done|].
  apply validateReinstallConfig_spec in Hv.
  set (h1 := (((h ++ _) ++ _) ++ _) ++ _).
  assert (H1 : Ev (FetchClusterConfiguration tmp) (Ok cfg) ∈ h1) by (unfold h1; hist).
  assert (H2 : Ev (FetchImageBasedAdminClient tmp) (Ok kpath) ∈ h1) by (unfold h1; hist).
  assert (H3 : Ev (FetchKubeadminPassword tmp) (Ok ppath) ∈ h1) by (unfold h1; hist).
  clearbody h1. assert (HG : ∀ h', (∃ t, h' = h1 ++ t) → ∃ cfg old,
    Ev (FetchClusterConfiguration tmp) (Ok cfg) ∈ h' ∧
    json_UnmarshalSeedReconfiguration (Credentials.id_SeedReconfig id) = Ok old ∧
    same_cluster (ccfg_Config cfg) old).
  { intros h' [t ->]. exists cfg, old. split_and!; [hist|done..]. }
  unfold writeSeedReconfig. cbn [ccfg_Config ccfg_Filename].
  destruct (json_MarshalSeedReconfiguration _) as [data|e] eqn:Hdata; [|done].
  wp_call; [apply HG; exists []; by rewrite app_nil_r|]. destruct x; cbn [prog_bind wp]; [done|].
  wp_call; [apply HG; by eexists|]. destruct x; cbn [prog_bind wp]; [done|].
  wp_use wp_writeAuth; [intros t; apply HG; eexists; by rewrite <- !app_assoc..|].
  intros [e|] h2 [Ha [t2 ->]]; [done|]. specialize (Ha eq_refl).
  wp_use wp_writeAuth; [intros t; apply HG; eexists; by rewrite <- !app_assoc..|].
  intros [e|] h3 [Hb [t3 ->]]; [done|]. specialize (Hb eq_refl).
  intros _. exists cfg, old, kpath, ppath, data. split_and!; try done; hist.
Qed.

(** C26: preparing a reinstallation.  Success means that the seed reconfiguration
    in the image directory is the new one (same base domain and cluster name as
    before) with the password hash and the kubeconfig crypto material of the
    previous installation, and that the previous kubeconfig and password are
    stored where the installer expects its own.  If the base domain or the
    cluster name changed, no file is written at all. *)
Theorem reinstall_keeps_identity tmp iso id t r :
  exec (WriteReinstallData tmp iso id) t r →
  (r = None → reinstall_written tmp iso id t) ∧
  (∀ t1 ev t2, t = t1 ++ ev :: t2 → reinstall_guard tmp iso id t1 (ev_call ev)).
Proof. apply (wp_exec _ _ [] _ _ _ (wp_WriteReinstallData tmp iso id [])). Qed.

End installer.

Lemma reinstall_keeps_identity_witness :
  ∃ t, exec (WriteReinstallData (L := StubLibs) "/tmp/x" "/iso" (Credentials.mkIdentityData "kc" "pw" "seed")) t None ∧
       reinstall_written (L := StubLibs) "/tmp/x" "/iso" (Credentials.mkIdentityData "kc" "pw" "seed") t.
Proof.
  set (p := WriteReinstallData (L := StubLibs) _ _ _).
  assert (Hr : (run Sim.handle p Sim.world0).1.2 = None) by (vm_compute; reflexivity).
  pose proof (exec_run Sim.handle p Sim.world0) as Hx. rewrite Hr in Hx.
  eexists. split; [exact Hx|].
  exact (proj1 (reinstall_keeps_identity (L := StubLibs) _ _ _ _ _ Hx) eq_refl).
Defined.

End Installer.
