(* ===== verification/InputData.v ===== *)
(** * Building the configuration image
    ([controllers/imageclusterinstall_controller.go], [writeInputData] and the
    functions it calls)

    Everything the openshift installer needs is written into the work directory
    of the ImageClusterInstall under its lock, then the installer is run and the
    credentials it generated are stored as secrets. *)
From stdpp Require Import base gmap strings list.
From Stdlib Require Import ZArith Lia Ascii.
From S2P Require Import Prelude Types World GoStd Codec Libs FileLock Credentials Installer Sim.
Local Open Scope go_scope.

Module InputData.
Section inputdata.
Context `{L : GoLibs}.

Definition ClusterConfigDir := "cluster-configuration".
Definition extraManifestsDir := "extra-manifests".
Definition nmstateSecretKey := "nmstate".
Definition caBundleFileName := "tls-ca-bundle.pem".
Definition imageBasedInstallInvoker := "image-based-install".
Definition invokerCMFileName := "invoker-cm.yaml".
Definition imageBasedConfigFilename := "image-based-config.yaml".
Definition installConfigFilename := "install-config.yaml".
Definition authDir := "auth".
Definition kubeAdminFile := "kubeadmin-password".
Definition FilesDir := "files".
Definition IsoName := "imagebasedconfig.iso".
Definition IBIOStartTimeCM := "ibi-monitor-cm".
Definition OcpConfigNamespace := "openshift-config".
Definition DockerConfigJsonKey := ".dockerconfigjson".

(** [fmt]'s [%s] of a [NamespacedName]. *)
Definition key_string (k : NamespacedName) : string := key_Namespace k +:+ "/" +:+ key_Name k.

(** ** Paths *)

Definition GetClusterConfigDir (namespacesDir namespace uid : string) : string :=
  filepath_Join [namespacesDir; namespace; uid; FilesDir; ClusterConfigDir].

Definition lock_dir (dataDir : string) (ici : ImageClusterInstall) : string :=
  filepath_Join [dataDir; "namespaces"; om_Namespace (ici_Meta ici); om_UID (ici_Meta ici)].

(** The lock directory and the files directory, which is created. *)
Definition configDirs (dataDir : string) (ici : ImageClusterInstall) : io (result (string * string)) :=
  let lockDir := lock_dir dataDir ici in
  let filesDir := filepath_Join [lockDir; FilesDir] in
  check perform (OsMkdirAll filesDir 448%Z) else e => Ret (Err e) in
  Ret (Ok (lockDir, filesDir)).

Definition fileExists (path : string) : io bool :=
  let* st := perform (OsStat path) in
  Ret (stat_ok st).

(** The files the installer leaves behind when it has finished. *)
Definition output_files (clusterConfigPath : string) : list string :=
  [ filepath_Join [clusterConfigPath; IsoName];
    filepath_Join [clusterConfigPath; authDir; kubeAdminFile];
    filepath_Join [clusterConfigPath; authDir; Credentials.Kubeconfig];
    filepath_Join [clusterConfigPath; ClusterConfigDir; Credentials.SeedReconfigurationFileName] ].

Fixpoint all_exist (files : list string) : io bool :=
  match files with
  | [] => Ret true
  | f :: fs => let* ok := fileExists f in if negb ok then Ret false else all_exist fs
  end.
Definition verifyIsoAndAuthExists (clusterConfigPath : string) : io bool :=
  all_exist (output_files clusterConfigPath).

(** ** Pull secret *)

(** [utilerrors.NewAggregate] and its message. *)
Definition NewAggregate (errs : list goerror) : option goerror :=
  match errs with
  | [] => None
  | [e] => Some e
  | _ =>
      match reverse (remove_dups (reverse (Error <$> errs))) with
      | [m] => Some (ErrNew m)
      | ms => Some (ErrNew ("[" +:+ strings_Join ms ", " +:+ "]"))
      end
  end.

(** The check of one registry entry; a panic is a failed type assertion. *)
Definition check_auth (d : string) (a : gmap string json) : xres (option goerror) :=
  match a !! "auth" with
  | None => XRet (Some (ErrNew ("invalid pull secret: " +:+ fmt_q d
                   +:+ " JSON-object requires 'auth' field")))
  | Some (JString auth) =>
      match base64_DecodeString auth with
      | None => XRet (Some (ErrNew ("invalid pull secret: 'auth' fields of " +:+ fmt_q d
                       +:+ " are not base64-encoded")))
      | Some data =>
          if Nat.eqb (length (split_bytes ":"%char data)) 2 then XRet None
          else XRet (Some (ErrNew ("invalid pull secret: 'auth' for " +:+ d
                       +:+ " is not in 'user:password' format")))
      end
  | Some _ => XPanic "interface conversion: interface {} is not string"
  end.

Fixpoint check_auths (auths : list (string * gmap string json)) (errs : list goerror)
    : xres (list goerror) :=
  match auths with
  | [] => XRet errs
  | (d, a) :: rest =>
      match check_auth d a with
      | XPanic m => XPanic m
      | XRet None => check_auths rest errs
      | XRet (Some e) => check_auths rest (errs ++ [e])
      end
  end.

Definition validatePullSecret (pullSecret : string) : io (xres (option goerror)) :=
  match json_UnmarshalPullSecret (strings_TrimSpace pullSecret) with
  | None => Ret (XRet (Some (ErrWrap "pull secret must be a well-formed JSON: "
                               (json_error (strings_TrimSpace pullSecret)))))
  | Some auths =>
      if bool_decide (auths = ∅)
      then Ret (XRet (Some (ErrNew "pull secret must contain 'auths' JSON-object field")))
      else
        let* choices := perform MapRange in
        match check_auths (range_map choices auths) [] with
        | XPanic m => Ret (XPanic m)
        | XRet errs => Ret (XRet (NewAggregate errs))
        end
  end.

Definition getValidPullSecret (psRef : option string) (namespace : string) : io (xres (result string)) :=
  match psRef with
  | None => Ret (XRet (Err (ErrNew "missing reference to pull secret")))
  | Some name =>
      if bool_decide (name = "") || bool_decide (namespace = "")
      then Ret (XRet (Err (ErrNew "missing reference to pull secret")))
      else
        try s := perform (GetSecret NoncachedClient (mkKey namespace name)) else e =>
          Ret (XRet (Err (ErrNew ("failed to find secret " +:+ name +:+ ": " +:+ Error e)))) in
        match entries (secret_Data s) !! DockerConfigJsonKey with
        | None => Ret (XRet (Err (ErrNew ("secret " +:+ name +:+ " did not contain key "
                         +:+ DockerConfigJsonKey))))
        | Some psData =>
            let* r := validatePullSecret psData in
            match r with
            | XPanic m => Ret (XPanic m)
            | XRet (Some e) => Ret (XRet (Err (ErrWrap "invalid pull secret data in secret " e)))
            | XRet None => Ret (XRet (Ok psData))
            end
        end
  end.

(** ** CA bundle, manifests, network configuration *)

Definition getCABundle (ref : option string) (ns : string) : io (result string) :=
  match ref with
  | None => Ret (Ok "")
  | Some name =>
      try cm := perform (GetConfigMap (mkKey ns name)) else e =>
        Ret (Err (ErrWrap "failed to get CABundle config map: " e)) in
      match cm_Data cm !! caBundleFileName with
      | None => Ret (Err (ErrNew (caBundleFileName +:+ " key missing from CABundle config map")))
      | Some data => Ret (Ok data)
      end
  end.

(** The bodies of [writeInvokerCM] and [writeIBIOStartTimeCM]: marshal and write. *)
Definition write_cm (what : string) (cm : ConfigMap) (filePath : string) : io (option goerror) :=
  match json_MarshalConfigMap cm with
  | Err e => Ret (Some (ErrWrap ("failed to marshal " +:+ what +:+ ": ") e))
  | Ok data =>
      check perform (OsWriteFile filePath data 420%Z) else e =>
        Ret (Some (ErrWrap "failed to write file: " e)) in
      Ret None
  end.
Definition writeInvokerCM (filePath : string) : io (option goerror) :=
  write_cm "openshift-install-manifests"
    (mkConfigMap (new_meta "openshift-install-manifests" "openshift-config")
       {["invoker" := imageBasedInstallInvoker]}) filePath.
Definition writeIBIOStartTimeCM (filePath : string) : io (option goerror) :=
  write_cm IBIOStartTimeCM (mkConfigMap (new_meta IBIOStartTimeCM OcpConfigNamespace) ∅) filePath.

(** The loop over the entries of one config map. *)
Fixpoint write_manifests (dir : string) (files : list (string * string)) : io (option goerror) :=
  match files with
  | [] => Ret None
  | (name, content) :: rest =>
      match yaml_Unmarshal content with
      | Some e => Ret (Some (ErrWrap ("failed to validate manifest file " +:+ name +:+ ": ") e))
      | None =>
          check perform (OsWriteFile (filepath_Join [dir; name]) content 420%Z) else e =>
            Ret (Some (ErrWrap "failed to write extra manifest file: " e)) in
          write_manifests dir rest
      end
  end.

(** The loop over the referenced config maps. *)
Fixpoint write_manifest_refs (dir ns : string) (refs : list string) : io (option goerror) :=
  match refs with
  | [] => Ret None
  | cmRef :: rest =>
      try cm := perform (GetConfigMap (mkKey ns cmRef)) else e =>
        Ret (Some (ErrWrap "failed to get extraManifests config map " e)) in
      let* choices := perform MapRange in
      check write_manifests dir (range_map choices (cm_Data cm)) else e => Ret (Some e) in
      write_manifest_refs dir ns rest
  end.

Definition generateExtraManifests (clusterConfigPath : string) (ici : ImageClusterInstall)
    : io (option goerror) :=
  let extraManifestsPath := filepath_Join [clusterConfigPath; extraManifestsDir] in
  check perform (OsMkdirAll extraManifestsPath 448%Z) else e => Ret (Some e) in
  check writeInvokerCM (filepath_Join [extraManifestsPath; invokerCMFileName]) else e =>
    Ret (Some (ErrWrap "failed to write invoker config map: " e)) in
  check writeIBIOStartTimeCM (filepath_Join [extraManifestsPath; IBIOStartTimeCM +:+ ".yaml"]) else e =>
    Ret (Some (ErrWrap ("failed to write " +:+ IBIOStartTimeCM +:+ " config map: ") e)) in
  write_manifest_refs extraManifestsPath (om_Namespace (ici_Meta ici))
    (elems (ExtraManifestsRefs (ici_Spec ici))).

Definition nmstateConfig (bmh : option BareMetalHost) : io (result string) :=
  match bmh with
  | None => Ret (Ok "")
  | Some b =>
      if bool_decide (bmh_PreprovisioningNetworkDataName b = "") then Ret (Ok "")
      else
        let key := mkKey (om_Namespace (bmh_Meta b)) (bmh_PreprovisioningNetworkDataName b) in
        try secret := perform (GetSecret NoncachedClient key) else e =>
          Ret (Err (ErrWrap ("failed to get network config secret " +:+ key_string key +:+ ": ") e)) in
        match entries (secret_Data secret) !! nmstateSecretKey with
        | None => Ret (Err (ErrNew ("referenced networking secret " +:+ key_string key
                         +:+ " does not contain the required key " +:+ nmstateSecretKey)))
        | Some nmstate =>
            match yaml_UnmarshalMap nmstate with
            | Some e => Ret (Err (ErrWrap "failed to unmarshal nmstate data: " e))
            | None => Ret (Ok nmstate)
            end
        end
  end.

Definition imageSetRegistry (ici : ImageClusterInstall) : io (result string) :=
  let key := mkKey (om_Namespace (ici_Meta ici)) (ImageSetRef (ici_Spec ici)) in
  try cis := perform (GetClusterImageSet key) else e =>
    Ret (Err (ErrWrap ("failed to get ClusterImageSet " +:+ key_string key +:+ ": ") e)) in
  match reference_Parse (cis_ReleaseImage cis) with
  | Err e => Ret (Err (ErrWrap "failed to parse ReleaseImage from ClusterImageSet: " e))
  | Ok None => Ret (Err (ErrNew ("failed to parse registry name from image " +:+ cis_ReleaseImage cis)))
  | Ok (Some name) => Ret (Ok (default "" (head (strings_Split name "/"%char))))
  end.

Definition writeImageBaseConfig (ici : ImageClusterInstall) (bmh : option BareMetalHost) (file : string)
    : io (option goerror) :=
  try nmstate := nmstateConfig bmh else e => Ret (Some e) in
  try releaseRegistry := imageSetRegistry ici else e => Ret (Some e) in
  Installer.WriteImageBaseConfig ici releaseRegistry nmstate file.

Definition ensureCreds (cd : ClusterDeployment) (workDir : string) : io (option goerror) :=
  check Credentials.EnsureAdminPasswordSecret cd (filepath_Join [workDir; authDir; kubeAdminFile])
    else e => Ret (Some (ErrWrap "failed to ensure admin password secret: " e)) in
  check Credentials.EnsureKubeconfigSecret cd (filepath_Join [workDir; authDir; Credentials.Kubeconfig])
    else e => Ret (Some (ErrWrap "failed to ensure kubeconfig secret: " e)) in
  check Credentials.EnsureSeedReconfigurationSecret cd
          (filepath_Join [workDir; ClusterConfigDir; Credentials.SeedReconfigurationFileName])
    else e => Ret (Some (ErrWrap "failed to ensure seed reconfiguration secret " e)) in
  Ret None.

(** ** The image *)

(** The part of the locked section after the identity secrets were read:
    [configFilePath] is the work directory or, for a reinstallation, a temporary
    directory. *)
Definition write_configs_and_create (ici : ImageClusterInstall) (cd : ClusterDeployment)
    (bmh : BareMetalHost) (psData caBundle configFilePath isoWorkDir : string)
    (idData : option Credentials.IdentityData) : io (option goerror) :=
  check Installer.WriteInstallConfig ici cd psData caBundle
          (filepath_Join [configFilePath; installConfigFilename]) else e =>
    Ret (Some (ErrWrap "failed to write install config: " e)) in
  check writeImageBaseConfig ici (Some bmh) (filepath_Join [configFilePath; imageBasedConfigFilename])
    else e => Ret (Some (ErrWrap "failed to write install config: " e)) in
  check match idData with
        | None => Ret None
        | Some d => Installer.WriteReinstallData configFilePath isoWorkDir d
        end else e => Ret (Some (ErrWrap "failed to write reinstall data: " e)) in
  check Installer.CreateInstallationIso isoWorkDir else e =>
    Ret (Some (ErrWrap "failed to create installation iso: " e)) in
  ensureCreds cd isoWorkDir.

(** The function run under the lock. *)
Definition write_locked (ici : ImageClusterInstall) (cd : ClusterDeployment) (bmh : BareMetalHost)
    (filesDir : string) : io (xres (option goerror)) :=
  let isoWorkDir := filepath_Join [filesDir; ClusterConfigDir] in
  let* ready := verifyIsoAndAuthExists isoWorkDir in
  if (ready : bool) then let* e := ensureCreds cd isoWorkDir in Ret (XRet e)
  else
    let* _ := perform (OsRemoveAll isoWorkDir) in
    check perform (OsMkdirAll isoWorkDir 448%Z) else e => Ret (XRet (Some e)) in
    let* ps := getValidPullSecret (cd_PullSecretRef cd) (om_Namespace (cd_Meta cd)) in
    match ps with
    | XPanic m => Ret (XPanic m)
    | XRet (Err e) => Ret (XRet (Some (ErrWrap "failed to get valid pull secret: " e)))
    | XRet (Ok psData) =>
        try caBundle := getCABundle (CABundleRef (ici_Spec ici)) (om_Namespace (ici_Meta ici)) else e =>
          Ret (XRet (Some (ErrWrap "failed to get ca bundle: " e))) in
        check generateExtraManifests isoWorkDir ici else e =>
          Ret (XRet (Some (ErrWrap "failed to generate extra manifests: " e))) in
        try idData := Credentials.ClusterIdentitySecrets cd else e =>
          Ret (XRet (Some (ErrWrap "failed to check existence of cluster identity secrets: " e))) in
        match idData with
        | None =>
            let* e := write_configs_and_create ici cd bmh psData caBundle isoWorkDir isoWorkDir None in
            Ret (XRet e)
        | Some d =>
            try tmpDirPath := perform (OsMkdirTemp "" "asset-generation-") else e =>
              Ret (XRet (Some (ErrWrap "failed to create tempdir: " e))) in
            let* e := write_configs_and_create ici cd bmh psData caBundle tmpDirPath isoWorkDir (Some d) in
            let* _ := perform (OsRemoveAll tmpDirPath) in
            Ret (XRet e)
        end
    end.

Definition writeInputData (dataDir : string) (ici : ImageClusterInstall) (cd : ClusterDeployment)
    (bmh : BareMetalHost) : io (xres (Result * option goerror)) :=
  try (lockDir, filesDir) := configDirs dataDir ici else e => Ret (XRet (res0, Some e)) in
  let* r := FileLock.WithWriteLock lockDir (write_locked ici cd bmh filesDir) in
  match r with
  | XPanic m => Ret (XPanic m)
  | XRet (locked, lockErr, funcErr) =>
      match lockErr, funcErr with
      | Some e, _ => Ret (XRet (res0, Some (ErrWrap "failed to acquire file lock: " e)))
      | None, Some e => Ret (XRet (res0, Some (ErrWrap "failed to write input data: " e)))
      | None, None =>
          if negb locked then Ret (XRet (requeue_after (5 * Second)%Z, None))
          else Ret (XRet (res0, None))
      end
  end.

(** ** Properties *)

(** *** The pull secret *)

(** A registry entry with an [auth] string that is the base64 encoding of
    [user:password]. *)
Definition auth_valid (a : gmap string json) : Prop :=
  ∃ auth user password, a !! "auth" = Some (JString auth) ∧
    base64_DecodeString auth = Some (user ++ ":"%char :: password)%list ∧
    (":"%char ∉ user) ∧ (":"%char ∉ password).

(** An entry whose [auth] is there, but is not a string. *)
Definition auth_no_text (a : gmap string json) : Prop :=
  ∃ v, a !! "auth" = Some v ∧ ∀ s, v ≠ JString s.

Definition pull_secret_valid (pullSecret : string) : Prop :=
  ∃ auths, json_UnmarshalPullSecret (strings_TrimSpace pullSecret) = Some auths ∧ auths ≠ ∅ ∧
    ∀ d a, auths !! d = Some a → auth_valid a.

Lemma check_auth_spec d a :
  (check_auth d a = XRet None ↔ auth_valid a) ∧
  ((∃ m, check_auth d a = XPanic m) ↔ auth_no_text a).
Proof.
  unfold check_auth, auth_valid, auth_no_text. destruct (a !! "auth") as [v|].
  2: { split; split; [done|by intros (?&?&?&[=]&_)|by intros [? [=]]|by intros (?&[=]&_)]. }
  assert (Hv : (∃ auth, v = JString auth) ∨ ∀ s, v ≠ JString s) by (destruct v; [right..|left; eauto|right|right]; done).
  destruct Hv as [[auth ->]|Hv].
  - assert (Hno : ¬ ∃ v, Some (JString auth) = Some v ∧ ∀ s, v ≠ JString s).
    { intros (?&[= <-]&Hs). by destruct (Hs auth). }
    destruct (base64_DecodeString auth) as [data|] eqn:Hd.
    + pose proof (split_bytes_two ":"%char data) as Hsplit. rewrite <- (Nat.eqb_eq _ 2) in Hsplit.
      destruct (Nat.eqb _ 2); (split; [|by split; [intros [? [=]]|]]).
      * split; [intros _|done]. destruct Hsplit as [(u&p&->&?&?) _]; [done|]. eauto 10.
      * split; [done|]. intros (?&u&p&[= <-]&Heq&?&?). rewrite Hd in Heq. injection Heq as ->.
        destruct Hsplit as [_ Hs]. discriminate Hs. eauto.
    + split; [|by split; [intros [? [=]]|]]. split; [done|].
      intros (?&?&?&[= <-]&Heq&_). congruence.
  - destruct v; try (by destruct (Hv s)); (split; split;
      [done|intros (?&?&?&[= ->]&_); by eapply Hv|by eauto|by eauto]).
Qed.

Lemma check_auths_spec l errs :
  (check_auths l errs = XRet [] ↔ errs = [] ∧ ∀ d a, (d, a) ∈ l → auth_valid a) ∧
  ((∃ m, check_auths l errs = XPanic m) ↔ ∃ d a, (d, a) ∈ l ∧ auth_no_text a).
Proof.
  revert errs. induction l as [|[d a] l IH]; intros errs; simpl.
  - split; split.
    + intros [= ->]. split; [done|]. by intros ?? ?%elem_of_nil.
    + by intros [-> _].
    + by intros [? [=]].
    + by intros (?&?&?%elem_of_nil&_).
  - setoid_rewrite elem_of_cons. destruct (check_auth_spec d a) as [Hok Hpanic].
    destruct (check_auth d a) as [[e|]|m].
    + destruct (IH (errs ++ [e])) as [IH1 IH2]. rewrite IH1, IH2. split; split.
      * by intros [[_ [=]]%app_nil _].
      * intros [_ Hall]. destruct Hok as [_ Hok]. by specialize (Hok (Hall d a (or_introl eq_refl))).
      * intros (d'&a'&?&?). eauto.
      * intros (d'&a'&[[= -> ->]|?]&Ho); [|eauto]. by destruct Hpanic as [_ [? [=]]].
    + destruct (IH errs) as [IH1 IH2]. rewrite IH1, IH2. split; split.
      * intros [? Hall]. split; [done|]. intros d' a' [[= -> ->]|?]; [by apply Hok|eauto].
      * intros [? Hall]. split; [done|]. eauto.
      * intros (d'&a'&?&?). eauto.
      * intros (d'&a'&[[= -> ->]|?]&Ho); [|eauto]. by destruct Hpanic as [_ [? [=]]].
    + assert (Ha : auth_no_text a) by (apply Hpanic; eauto). split; split.
      * done.
      * intros [_ Hall]. destruct Hok as [_ Hok]. by specialize (Hok (Hall d a (or_introl eq_refl))).
      * intros _. eauto.
      * eauto.
Qed.

Lemma NewAggregate_None errs : NewAggregate errs = None ↔ errs = [].
Proof.
  unfold NewAggregate. destruct errs as [|? [|??]]; [done..|].
  split; [|done]. destruct (reverse _) as [|? [|??]]; done.
Qed.

Lemma validatePullSecret_accepts ps t r :
  exec (validatePullSecret ps) t r → r = XRet None ↔ pull_secret_valid ps.
Proof.
  unfold validatePullSecret, pull_secret_valid.
  destruct (json_UnmarshalPullSecret _) as [auths|]; [|by intros [_ ->]; split; [|intros (?&[=]&_)]].
  case_bool_decide as Hempty; [by intros [_ ->]; split; [|intros (?&[= <-]&?&_)]|].
  intros (choices&t'&_&H). cbn [prog_bind] in H.
  destruct (check_auths_spec (range_map choices auths) []) as [Hok Hpanic].
  setoid_rewrite elem_of_range_map in Hok.
  transitivity (check_auths (range_map choices auths) [] = XRet []).
  - destruct (check_auths _ _) as [errs|m]; destruct H as [_ ->]; [|done].
    destruct (NewAggregate_None errs) as [H1 H2]. split; intros [= H]; f_equal; auto.
  - rewrite Hok. split; [intros [_ ?]; eauto|]. by intros (?&[= <-]&_&?).
Qed.

(** C27: the pull secret check.  It succeeds exactly when the text is JSON with at
    least one registry and every registry has an [auth] string that decodes to
    [user:password] with one colon; it panics exactly when some registry has an
    [auth] that is not a string; and neither outcome depends on the order in
    which Go visits the registries. *)
Theorem validatePullSecret_spec ps t r :
  exec (validatePullSecret ps) t r →
  (r = XRet None ↔ pull_secret_valid ps) ∧
  ((∃ m, r = XPanic m) ↔
     ∃ auths d a, json_UnmarshalPullSecret (strings_TrimSpace ps) = Some auths ∧
       auths !! d = Some a ∧ auth_no_text a).
Proof.
  intros He. split; [by eapply validatePullSecret_accepts|]. revert He. unfold validatePullSecret.
  destruct (json_UnmarshalPullSecret _) as [auths|];
    [|intros [_ ->]; split; [by intros [? [=]]|by intros (?&?&?&[=]&_)]].
  case_bool_decide as Hempty.
  { intros [_ ->]; split; [by intros [? [=]]|]. intros (?&?&?&[= <-]&Hl&_). by rewrite Hempty in Hl. }
  intros (choices&t'&_&H). cbn [prog_bind] in H.
  destruct (check_auths_spec (range_map choices auths) []) as [_ Hpanic].
  setoid_rewrite elem_of_range_map in Hpanic.
  transitivity (∃ m, check_auths (range_map choices auths) [] = XPanic m).
  - destruct (check_auths _ _) as [errs|m]; destruct H as [_ ->]; split; intros [? ?]; simplify_eq; eauto.
  - rewrite Hpanic. split; [intros (d&a&?&?); eauto 8|]. intros (?&d&a&[= <-]&?&?). eauto.
Qed.

(** C28: a pull secret as a user writes it is accepted.  The text of a docker
    configuration with at least one registry, each with the base64 encoding of
    [user:password], is decoded to these registries and passes the check, whatever
    bytes the credentials hold besides the colon, and in whatever order Go visits
    the registries. *)
Theorem docker_config_accepted registries t r :
  registries ≠ [] →
  Forall (λ e, plain_text e.1 = true ∧ (":"%char ∉ e.2.1) ∧ (":"%char ∉ e.2.2)) registries →
  exec (validatePullSecret (of_bytes (json_print (docker_config registries)))) t r → r = XRet None.
Proof.
  intros Hne Hall He. apply (validatePullSecret_accepts _ _ _ He).
  destruct (decode_docker_config registries) as (m&Hm&Hmne&Hl). exists m. split_and!.
  - rewrite unmarshal_docker_config; [done|]. eapply Forall_impl; [exact Hall|]. by intros ? [? _].
  - by apply Hmne.
  - intros d a (u&p&Hin&Ha)%Hl. exists (auth_text u p), u, p. rewrite Forall_forall in Hall.
    destruct (Hall _ Hin) as (_&?&?). split_and!; [done|apply base64_decode_encode|done|done].
Qed.

(** *** The image *)

Definition cred_file (iso : string) (c : Credentials.credential) : string :=
  match c with
  | Credentials.AdminPassword => filepath_Join [iso; authDir; kubeAdminFile]
  | Credentials.AdminKubeconfig => filepath_Join [iso; authDir; Credentials.Kubeconfig]
  | Credentials.SeedReconfig => filepath_Join [iso; ClusterConfigDir; Credentials.SeedReconfigurationFileName]
  end.

(** The credentials in the image directory are stored as secrets. *)
Definition creds_ensured (cd : ClusterDeployment) (iso : string) (h : trace) : Prop :=
  ∀ c, Credentials.ensured cd c (cred_file iso c) h.

(** Looking for files, one after the other, and finding them. *)
Definition found (files : list string) : trace := (λ f, Ev (OsStat f) StatOk) <$> files.

(** The installer reported success, or all of its output was found right after the
    directory had been locked. *)
Definition image_present (lock iso : string) (h : trace) : Prop :=
  Ev (FetchAndPersist iso) None ∈ h ∨
  ∃ h1 h2, h = h1 ++ Ev (FlockTryLock lock) (Ok true) :: found (output_files iso) ++ h2.

(** The last that happened is that a file of the image was looked for, and not found. *)
Definition found_missing (iso : string) (h : trace) : Prop :=
  ∃ h' f x, f ∈ output_files iso ∧ stat_ok x = false ∧ h = h' ++ [Ev (OsStat f) x].

Lemma creds_ensured_app cd iso h t : creds_ensured cd iso h → creds_ensured cd iso (h ++ t).
Proof. intros H c. apply Credentials.ensured_app, H. Qed.
Lemma image_present_app lock iso h t : image_present lock iso h → image_present lock iso (h ++ t).
Proof.
  intros [?|(h1&h2&->)]; [left; hist|right]. exists h1, (h2 ++ t).
  by rewrite <- app_assoc, <- app_comm_cons, <- app_assoc.
Qed.

(** The installer's input: both configurations, for a validated pull secret, in
    the image directory or, for a reinstallation, in a temporary one, with the
    identity of the previous installation prepared in the image directory. *)
Definition inputs_written (ici : ImageClusterInstall) (cd : ClusterDeployment) (iso : string) (h : trace) : Prop :=
  ∃ dir ps ca, pull_secret_valid ps ∧
    Installer.install_config_written ici cd ps ca (filepath_Join [dir; installConfigFilename]) h ∧
    Installer.image_config_written ici (filepath_Join [dir; imageBasedConfigFilename]) h ∧
    (dir = iso ∨ ∃ id, Installer.reinstall_written dir iso id h).

(** Calls that neither change the hub cluster, nor run the installer, nor remove
    files, nor touch a lock, nor read an ImageClusterInstall. *)
Definition quiet (a : call) : bool :=
  negb (hub_write a) &&
  match a with
  | FetchAndPersist _ | OsRemoveAll _ | FlockTryLock _ | FlockTryRLock _ | FlockUnlock _
  | GetICI _ | ListICI _ => false
  | _ => true
  end.

Definition build_guard (lock : string) (ici : ImageClusterInstall) (cd : ClusterDeployment) (iso : string)
    (h : trace) (a : call) : Prop :=
  match a with
  | FetchAndPersist d =>
      d = iso ∧ (∃ f x, f ∈ output_files iso ∧ Ev (OsStat f) x ∈ h ∧ stat_ok x = false) ∧
      inputs_written ici cd iso h
  | OsRemoveAll d => (d = iso ∧ found_missing iso h) ∨ Ev (OsMkdirTemp "" "asset-generation-") (Ok d) ∈ h
  | CreateSecret s | UpdateSecret s =>
      image_present lock iso h ∧ ∃ c content, Ev (OsReadFile (cred_file iso c)) (Ok content) ∈ h ∧
                                         Credentials.credential_secret cd c content s
  | _ => quiet a = true
  end.

Lemma quiet_build_guard lock ici cd iso h a : quiet a = true → build_guard lock ici cd iso h a.
Proof. by destruct a. Qed.

Lemma wp_all_exist files h :
  wp (λ _ a, quiet a = true) (all_exist files) h (λ b h',
    if b then h' = h ++ found files
    else ∃ t f x, f ∈ files ∧ stat_ok x = false ∧ h' = h ++ t ++ [Ev (OsStat f) x]).
Proof.
  revert h. induction files as [|f files IH]; intros h; cbn [all_exist].
  - cbn [wp]. by rewrite app_nil_r.
  - unfold fileExists. wp_call; [done|]. destruct (stat_ok x) eqn:Hx; cbn [negb].
    + destruct x; try done. eapply wp_wand; [apply IH|]. intros [] h'.
      * intros ->. by rewrite <- app_assoc.
      * intros (t&g&y&?&?&->). exists (Ev (OsStat f) StatOk :: t), g, y. split_and!; [by apply list_elem_of_further|done|].
        by rewrite <- app_assoc.
    + exists [], f, x. split_and!; [apply list_elem_of_here|done|done].
Qed.

Lemma emits_all_exist files : emits (λ a, ∃ p, a = OsStat p) (all_exist files).
Proof.
  induction files as [|f files IH]; cbn [all_exist]; [done|]. unfold fileExists.
  emits_run eauto.
Qed.

Lemma emits_validatePullSecret ps : emits (λ a, quiet a = true) (validatePullSecret ps).
Proof. unfold validatePullSecret. emits_run done. Qed.

Lemma wp_getValidPullSecret ref ns h :
  wp (λ _ a, quiet a = true) (getValidPullSecret ref ns) h
    (λ r _, match r with XRet (Ok ps) => pull_secret_valid ps | _ => True end).
Proof.
  unfold getValidPullSecret. destruct ref as [name|]; [|done]. destruct (_ || _); [done|].
  wp_call; [done|]. destruct x as [s|e]; [|done]. destruct (_ !! _) as [ps|]; [|done].
  rewrite wp_bind. eapply wp_intro; [apply emits_validatePullSecret|done|].
  intros t r Hr%validatePullSecret_accepts. destruct r as [[e|]|m]; cbn [wp]; [done| |done]. by apply Hr.
Qed.

Lemma emits_getCABundle ref ns : emits (λ a, quiet a = true) (getCABundle ref ns).
Proof. unfold getCABundle. emits_run done. Qed.

Lemma emits_write_manifests dir l : emits (λ a, quiet a = true) (write_manifests dir l).
Proof. induction l as [|[name content] l IH]; cbn [write_manifests]; emits_run done. Qed.

Lemma emits_write_manifest_refs dir ns refs :
  emits (λ a, quiet a = true) (write_manifest_refs dir ns refs).
Proof.
  induction refs as [|r refs IH]; cbn [write_manifest_refs]; [done|]. emits_run done.
  apply emits_bind; [apply emits_write_manifests|]. by intros [e|].
Qed.

Lemma emits_generateExtraManifests path ici :
  emits (λ a, quiet a = true) (generateExtraManifests path ici).
Proof.
  unfold generateExtraManifests, writeInvokerCM, writeIBIOStartTimeCM, write_cm.
  emits_run done; apply emits_write_manifest_refs.
Qed.

Lemma emits_ClusterIdentitySecrets cd :
  emits (λ a, quiet a = true) (Credentials.ClusterIdentitySecrets cd).
Proof. unfold Credentials.ClusterIdentitySecrets, Credentials.getSecretContent. emits_run done. Qed.

Lemma wp_writeImageBaseConfig ici bmh file h :
  wp (λ _ a, quiet a = true) (writeImageBaseConfig ici bmh file) h
    (λ r h', r = None → Installer.image_config_written ici file h').
Proof.
  unfold writeImageBaseConfig. rewrite wp_bind.
  eapply wp_wand; [eapply (wp_emits _ (λ a, quiet a = true)); [|done]|].
  { unfold nmstateConfig. emits_run done. }
  intros [nmstate|e] h1 _; [|done]. rewrite wp_bind.
  eapply wp_wand; [eapply (wp_emits _ (λ a, quiet a = true)); [|done]|].
  { unfold imageSetRegistry. emits_run done. }
  intros [registry|e] h2 _; [|done].
  eapply wp_mono; [| |apply Installer.wp_WriteImageBaseConfig]; [by intros ?? [? ->]|done].
Qed.

Lemma wp_ensureCreds lock ici cd iso h :
  image_present lock iso h →
  wp (build_guard lock ici cd iso) (ensureCreds cd iso) h (λ r h', r = None → creds_ensured cd iso h').
Proof.
  intros Himg. unfold ensureCreds.
  assert (Hone : ∀ c h', (∃ t, h' = h ++ t) →
    wp (build_guard lock ici cd iso) (Credentials.Ensure c cd (cred_file iso c)) h'
      (λ r h'', (r = None → Credentials.ensured cd c (cred_file iso c) h'') ∧ ∃ t, h'' = h ++ t)).
  { intros c h' [t ->]. pose proof (Credentials.wp_Ensure c cd (cred_file iso c) (h ++ t)) as Hw.
    eapply wp_invariant with (I := λ h', image_present lock iso h') in Hw.
    - eapply wp_mono; [| |apply wp_prefix, Hw].
      + intros h' a [Hg Hi]. destruct a; try done; simpl in Hg.
        * destruct Hg as (content&?&?&_). split; [done|]. eauto.
        * destruct Hg as (content&?&?&_). split; [done|]. eauto.
      + intros r h'' [[Hr _] [t' ->]]. split; [done|]. exists (t ++ t'). by rewrite app_assoc.
    - intros h' a x Hi _. by apply image_present_app.
    - by apply image_present_app. }
  rewrite wp_bind. eapply wp_wand; [apply (Hone Credentials.AdminPassword); by exists []; rewrite app_nil_r|].
  intros [e|] h1 [H1 [t1 ->]]; [done|]. specialize (H1 eq_refl).
  wp_use (Hone Credentials.AdminKubeconfig); [by eexists|].
  intros [e|] h2 [[H2 Hex] [t2 ->]]; [done|]. specialize (H2 eq_refl).
  wp_use (Hone Credentials.SeedReconfig); [done|].
  intros [e|] h3 [[H3 _] [t3 ->]]; [done|]. specialize (H3 eq_refl).
  intros _ []; [by do 1 apply Credentials.ensured_app|by do 2 apply Credentials.ensured_app|done].
Qed.

Lemma wp_write_configs_and_create lock ici cd bmh ps ca dir iso id h :
  pull_secret_valid ps → (dir = iso ∧ id = None ∨ ∃ d, id = Some d) →
  (∃ f x, f ∈ output_files iso ∧ Ev (OsStat f) x ∈ h ∧ stat_ok x = false) →
  wp (build_guard lock ici cd iso) (write_configs_and_create ici cd bmh ps ca dir iso id) h
    (λ r h', r = None → image_present lock iso h' ∧ creds_ensured cd iso h').
Proof.
  intros Hps Hdir (f&x&Hf&Hstat&Hx). unfold write_configs_and_create. rewrite wp_bind.
  eapply wp_mono; [| |apply wp_prefix, Installer.wp_WriteInstallConfig]; [by intros ?? [? ->]|].
  intros [e|] h1 [H1 [t1 ->]]; [done|]. specialize (H1 eq_refl). rewrite wp_bind.
  eapply wp_mono; [| |apply wp_prefix, wp_writeImageBaseConfig]; [intros; by apply quiet_build_guard|].
  intros [e|] h2 [H2 [t2 ->]]; [done|]. specialize (H2 eq_refl). rewrite wp_bind.
  apply (wp_wand _ _ _ (λ r h', (r = None → dir = iso ∨ ∃ d, Installer.reinstall_written dir iso d h')
                                ∧ ∃ t, h' = ((h ++ t1) ++ t2) ++ t)).
  { apply wp_prefix. destruct id as [d|].
    - eapply wp_mono; [| |apply Installer.wp_WriteReinstallData]; [|eauto].
      intros h' a Ha. apply quiet_build_guard. by destruct a.
    - intros _. left. by destruct Hdir as [[-> _]|[? [=]]]. }
  intros [e|] h3 [H3 [t3 ->]]; [done|]. specialize (H3 eq_refl).
  unfold Installer.CreateInstallationIso. wp_call.
  - split_and!; [done|exists f, x; split_and!; [done|hist|done]|].
    exists dir, ps, ca. split_and!; [done| | |done].
    + by do 2 apply Installer.install_config_written_app.
    + by apply Installer.image_config_written_app.
  - destruct x0 as [e|]; [done|].
    assert (Himg : ∀ h, image_present lock iso (h ++ [Ev (FetchAndPersist iso) None])) by (intros h'; left; hist).
    eapply wp_wand; [apply wp_prefix, wp_ensureCreds, Himg|]. intros r h4 [H4 [t4 ->]] Hr.
    split; [apply image_present_app, Himg|auto].
Qed.

Lemma wp_write_locked lock ici cd bmh filesDir h0 :
  let h := h0 ++ [Ev (FlockTryLock lock) (Ok true)] in
  let iso := filepath_Join [filesDir; ClusterConfigDir] in
  wp (build_guard lock ici cd iso) (write_locked ici cd bmh filesDir) h
    (λ r h', r = XRet None → image_present lock iso h' ∧ creds_ensured cd iso h').
Proof.
  intros h iso. unfold write_locked, verifyIsoAndAuthExists. fold iso. rewrite wp_bind.
  eapply wp_mono; [| |apply wp_all_exist]; [intros; by apply quiet_build_guard|].
  intros [] h1.
  { intros ->. assert (Himg : image_present lock iso (h ++ found (output_files iso))).
    { right. exists h0, []. unfold h. by rewrite <- app_assoc, app_nil_r. }
    rewrite wp_bind. eapply wp_wand; [by apply wp_prefix, wp_ensureCreds|].
    intros r h2 [H2 [t2 ->]] [= ->]. split; [by apply image_present_app|auto]. }
  intros (t0&f0&y&Hf0&Hy&->). set (t1 := t0 ++ [Ev (OsStat f0) y]).
  wp_call; [left; split; [done|]; exists (h ++ t0), f0, y; by rewrite <- app_assoc|].
  wp_call; [done|]. destruct x0 as [e|]; [done|]. rewrite wp_bind.
  eapply wp_mono; [| |apply wp_prefix, wp_getValidPullSecret]; [intros; by apply quiet_build_guard|].
  intros [[ps|e]|m] h2 [Hps [t2 ->]]; [|done..].
  assert (Hq : ∀ {A} (p : io A) (f : A → io (xres (option goerror))) h' Q,
    emits (λ a, quiet a = true) p → (∃ t, h' = (h ++ t1) ++ t) →
    (∀ r t, wp (build_guard lock ici cd iso) (f r) ((h ++ t1) ++ t) Q) →
    wp (build_guard lock ici cd iso) (prog_bind f p) h' Q).
  { intros A p f h' Q Hp [t ->] Hf. rewrite wp_bind.
    eapply wp_wand; [eapply (wp_emits _ (λ a, quiet a = true)); [done|intros; by apply quiet_build_guard]|].
    intros r h'' (t'&->&_). rewrite <- app_assoc. apply Hf. }
  apply Hq; [apply emits_getCABundle|eexists; by rewrite <- !app_assoc|]. intros [ca|e] t3; [|done].
  apply Hq; [apply emits_generateExtraManifests|by eexists|]. intros [e|] t4; [done|].
  apply Hq; [apply emits_ClusterIdentitySecrets|by eexists|].
  assert (Hmiss : ∀ t, ∃ f x, f ∈ output_files iso ∧ Ev (OsStat f) x ∈ (h ++ t1) ++ t ∧ stat_ok x = false).
  { intros t. exists f0, y. split_and!; [done|unfold t1; hist|done]. }
  intros [[d|]|e] t5; [| |done].
  - wp_call; [done|]. destruct x0 as [tmp|e]; [|done]. wp_use wp_write_configs_and_create; [done|by eauto| |].
    { rewrite <- app_assoc. apply Hmiss. }
    intros r h3 [H3 [t6 ->]]. wp_call; [right; hist|]. cbn [wp]. intros [= ->]. destruct (H3 eq_refl).
    split; [by apply image_present_app|by apply creds_ensured_app].
  - wp_use wp_write_configs_and_create; [done|by left|apply Hmiss|].
    intros r h3 [H3 _] [= ->]. by apply H3.
Qed.

(** Everything [writeInputData] does: it creates the directory, handles the
    lock, and does all the rest holding it. *)
Definition input_guard (dataDir : string) (ici : ImageClusterInstall) (cd : ClusterDeployment)
    (h : trace) (a : call) : Prop :=
  let lockDir := lock_dir dataDir ici in
  let filesDir := filepath_Join [lockDir; FilesDir] in
  a = OsMkdirAll filesDir 448%Z ∨ FileLock.lock_call (FileLock.lock_file lockDir) a ∨
  (build_guard (FileLock.lock_file lockDir) ici cd (filepath_Join [filesDir; ClusterConfigDir]) h a ∧
   FileLock.holds_lock (FileLock.lock_file lockDir) h).

(** The image of [ici] and the secrets of its cluster are complete. *)
Definition image_ready (dataDir : string) (ici : ImageClusterInstall) (cd : ClusterDeployment)
    (h : trace) : Prop :=
  let iso := filepath_Join [filepath_Join [lock_dir dataDir ici; FilesDir]; ClusterConfigDir] in
  image_present (FileLock.lock_file (lock_dir dataDir ici)) iso h ∧ creds_ensured cd iso h.

Lemma image_ready_app dataDir ici cd h t : image_ready dataDir ici cd h → image_ready dataDir ici cd (h ++ t).
Proof. intros [??]. split; [by apply image_present_app|by apply creds_ensured_app]. Qed.

Lemma wp_writeInputData dataDir ici cd bmh h :
  wp (input_guard dataDir ici cd) (writeInputData dataDir ici cd bmh) h
    (λ r h', match r with
             | XRet (res, None) => IsZero res = true → image_ready dataDir ici cd h'
             | _ => True
             end).
Proof.
  unfold writeInputData, configDirs. wp_call; [by left|]. destruct x as [e|]; cbn [prog_bind]; [done|].
  rewrite wp_bind. eapply FileLock.wp_WithWriteLock.
  - intros h' a Ha. right. by left.
  - intros t. rewrite (assoc_L (++)). set (h0 := _ ++ t).
    set (lockDir := lock_dir dataDir ici). set (h1 := h0 ++ _).
    pose proof (wp_write_locked (FileLock.lock_file lockDir) ici cd bmh (filepath_Join [lockDir; FilesDir]) h0) as Hw.
    cbv zeta in Hw. fold h1 in Hw.
    eapply (wp_invariant _ (FileLock.holds_lock (FileLock.lock_file lockDir))) in Hw.
    + eapply wp_mono; [| |apply Hw].
      * intros h' a Ha. right. by right.
      * intros r h' [Hr _] ue. destruct r as [[e|]|m]; cbn [wp]; [done| |done].
        intros _. specialize (Hr eq_refl). by apply image_ready_app.
    + intros h' a y Hl Ha. apply FileLock.holds_lock_step; [done|]. intros ->. done.
    + by exists h0, [].
  - intros t [e|]; cbn [wp]; [done|]. intros Hz. by vm_compute in Hz.
Qed.

(** C7: building the configuration image, whatever the file system, the API
    server and the installer answer.  All work (running the installer, removing
    and writing files, storing the secrets) is done while the directory lock is
    held.  Only the image directory, right after one of its files was found
    missing, and the run's own temporary directory are removed.  The installer is run only on the image directory, only when one of
    its output files is missing, and only after both configuration files were
    written for a validated pull secret (and, for a reinstallation, the previous
    identity was put in place).  Secrets are written only once the image is
    there.  An unqualified success means that the image is there and that the
    kubeconfig, the password and the seed reconfiguration are stored. *)
Theorem image_built_under_lock dataDir ici cd bmh t r :
  exec (writeInputData dataDir ici cd bmh) t r →
  (∀ t1 ev t2, t = t1 ++ ev :: t2 → input_guard dataDir ici cd t1 (ev_call ev)) ∧
  (∀ res, r = XRet (res, None) → IsZero res = true → image_ready dataDir ici cd t).
Proof.
  intros He. destruct (wp_exec _ _ [] _ _ _ (wp_writeInputData dataDir ici cd bmh []) He) as [HQ HG].
  split; [done|]. by intros res ->.
Qed.

End inputdata.

Lemma validatePullSecret_spec_witness :
  ∃ t, exec (validatePullSecret (L := StubLibs) Sim.pull_secret0) t (XRet None) ∧
       pull_secret_valid Sim.pull_secret0.
Proof.
  set (p := validatePullSecret (L := StubLibs) _).
  assert (Hr : (run Sim.handle p Sim.world0).1.2 = XRet None) by (vm_compute; reflexivity).
  pose proof (exec_run Sim.handle p Sim.world0) as Hx. rewrite Hr in Hx.
  eexists. split; [exact Hx|].
  exact (proj1 (proj1 (validatePullSecret_spec (L := StubLibs) _ _ _ Hx)) eq_refl).
Defined.

Lemma docker_config_accepted_witness :
  let registries := [("quay.io", (bytes_of "user", bytes_of "pass")); ("r", ([], []))] in
  ∃ t, exec (validatePullSecret (L := StubLibs) (of_bytes (json_print (docker_config registries)))) t (XRet None).
Proof.
  intros registries.
  pose proof (exec_run Sim.handle (validatePullSecret (L := StubLibs) (of_bytes (json_print (docker_config registries))))
    Sim.world0) as Hx.
  assert (Hall : Forall (λ e, plain_text e.1 = true ∧ (":"%char ∉ e.2.1) ∧ (":"%char ∉ e.2.2)) registries)
    by (apply (bool_decide_unpack _); vm_compute; exact I).
  assert (Hne : registries ≠ []) by discriminate.
  clearbody registries. pose proof (docker_config_accepted (L := StubLibs) registries _ _ Hne Hall Hx) as Hr.
  rewrite Hr in Hx. eexists. exact Hx.
Defined.

Lemma image_built_under_lock_witness :
  ∃ t, exec (writeInputData (L := StubLibs) "/data" Sim.ici1 Sim.cd0 Sim.bmh0) t (XRet (res0, None)) ∧
       image_ready "/data" Sim.ici1 Sim.cd0 t.
Proof.
  set (p := writeInputData (L := StubLibs) _ _ _ _).
  assert (Hr : (run Sim.handle p Sim.world0).1.2 = XRet (res0, None)) by (vm_compute; reflexivity).
  pose proof (exec_run Sim.handle p Sim.world0) as Hx. rewrite Hr in Hx.
  eexists. split; [exact Hx|].
  exact (proj2 (image_built_under_lock (L := StubLibs) _ _ _ _ _ _ Hx) res0 eq_refl eq_refl).
Defined.

End InputData.
