(* ===== verification/Webhook.v ===== *)
(** * Admission webhook ([api/v1alpha1/imageclusterinstall_webhook.go]) *)
From stdpp Require Import base gmap strings list pretty.
From Stdlib Require Import ZArith Lia Ascii.
From S2P Require Import Prelude Types World GoStd NetIP Networks Libs Installer Sim.

Module Webhook.
Section webhook.
Context `{L : GoLibs}.

(** ** [validation.IsDNS1123Subdomain] *)

Definition is_lower_alnum (c : ascii) : bool :=
  let n := nat_of_ascii c in
  (Nat.leb 97 n && Nat.leb n 122) || (Nat.leb 48 n && Nat.leb n 57).

(** The regular expression of a label: alphanumeric ends, dashes inside. *)
Definition dns1123Label (l : list ascii) : bool :=
  match l, last l with
  | first :: _, Some lst =>
      is_lower_alnum first && is_lower_alnum lst
      && forallb (λ c, is_lower_alnum c || bool_decide (c = "-"%char)) l
  | _, _ => false
  end.
Definition dns1123Subdomain (s : string) : bool :=
  forallb dns1123Label (split_bytes "."%char (bytes_of s)).

Definition dns1123LabelFmt := "[a-z0-9]([-a-z0-9]*[a-z0-9])?".
Definition IsDNS1123Subdomain (value : string) : list string :=
  (if Nat.ltb 253 (String.length value) then ["must be no more than 253 characters"] else []) ++
  (if negb (dns1123Subdomain value)
   then ["a lowercase RFC 1123 subdomain must consist of lower case alphanumeric characters, '-' or '.', and must start and end with an alphanumeric character (e.g. 'example.com', regex used for validation is '"
           +:+ dns1123LabelFmt +:+ "(\." +:+ dns1123LabelFmt +:+ ")*')"]
   else []).

(** ** Field validation *)

Definition isValidSSHPublicKey (pubKeyString : string) : option goerror :=
  if bool_decide (pubKeyString = "") then None
  else match ssh_ParseAuthorizedKey (strings_TrimSpace pubKeyString) with
       | Some e => Some (ErrWrap "error parsing public key: " e)
       | None => None
       end.

Definition isValidHostname (hostname : string) : option goerror :=
  if bool_decide (hostname = "") then None
  else match IsDNS1123Subdomain hostname with
       | [] => None
       | errs => Some (ErrNew (strings_Join errs ";"))
       end.

Definition isValidNetworkCidr (networkCIDR : string) : option goerror :=
  if bool_decide (networkCIDR = "") then Some (ErrNew "network CIDR is empty")
  else match NetIP.ParseCIDR networkCIDR with
       | None => Some (ErrWrap "error parsing network, check that it is valid CIDR: "
                         (ErrNew ("invalid CIDR address: " +:+ networkCIDR)))
       | Some _ => None
       end.

(** The loop over [machineNetworks], from index [i]. *)
Fixpoint valid_networks_from (i : nat) (machineNetworks : list string) : option goerror :=
  match machineNetworks with
  | [] => None
  | network :: rest =>
      match isValidNetworkCidr network with
      | Some e => Some (ErrWrap ("machine network " +:+ pretty i +:+ ": ") e)
      | None => valid_networks_from (S i) rest
      end
  end.

Definition isValidMachineNetworks (legacyMachineNetwork : string) (machineNetworks : slice string)
    : option goerror :=
  match (if negb (bool_decide (legacyMachineNetwork = ""))
         then isValidNetworkCidr legacyMachineNetwork else None) with
  | Some e => Some e
  | None => valid_networks_from 0 (elems machineNetworks)
  end.

Definition isValidProxy (proxy : option Proxy) (machineNetworks : list string) : option goerror :=
  match proxy with
  | Some _ => if bool_decide (machineNetworks = [])
              then Some (ErrNew "machine network must be set when proxy is defined") else None
  | None => None
  end.

(** ** The validator *)

Definition validate (r : ImageClusterInstall) : option goerror :=
  let spec := ici_Spec r in
  match isValidSSHPublicKey (SSHKey spec) with
  | Some e => Some (ErrNew ("invalid ssh key: " +:+ Error e))
  | None =>
      match isValidHostname (Hostname spec) with
      | Some e => Some (ErrWrap "invalid hostname: " e)
      | None =>
          match isValidMachineNetworks (MachineNetwork spec) (MachineNetworks spec) with
          | Some e => Some (ErrWrap "invalid machine network: " e)
          | None =>
              let effectiveMachineNetworks :=
                Networks.webhook_getEffectiveMachineNetworks (MachineNetwork spec) (MachineNetworks spec) in
              match isValidProxy (Spec_Proxy spec) effectiveMachineNetworks with
              | Some e => Some (ErrWrap "invalid proxy: " e)
              | None => None
              end
          end
      end
  end.

Definition installationStarted (r : ImageClusterInstall) : bool :=
  bool_decide (is_Some (Status_BareMetalHostRef (ici_Status r))).

(** [reflect.DeepEqual] of the two specs with the cluster metadata masked. *)
Definition isSpecUpdate (oldClusterInstall newClusterInstall : ImageClusterInstall) : bool :=
  negb (bool_decide (set_Spec_ClusterMetadata_spec None (ici_Spec oldClusterInstall)
                     = set_Spec_ClusterMetadata_spec None (ici_Spec newClusterInstall))).

Definition ValidateCreate (r : ImageClusterInstall) : option goerror := validate r.

(** [old] is [None] when the old object is not an ImageClusterInstall. *)
Definition ValidateUpdate (r : ImageClusterInstall) (old : option ImageClusterInstall)
    : option goerror :=
  match validate r with
  | Some e => Some e
  | None =>
      match old with
      | None => Some (ErrNew "old object is not an ImageClusterInstall")
      | Some oldClusterInstall =>
          if negb (isSpecUpdate oldClusterInstall r) then None
          else if installationStarted oldClusterInstall
               then Some (ErrNew "cannot update ImageClusterInstall when the configImage is ready")
               else None
      end
  end.

Definition ValidateDelete (r : ImageClusterInstall) : option goerror := None.

(** ** Properties *)

(** A host name as RFC 1123 has it: at most 253 characters, labels separated by
    dots, each with lower case letters, digits and inner dashes only. *)
Definition dns_label (l : list ascii) : Prop :=
  ∃ first lst, head l = Some first ∧ last l = Some lst ∧
    is_lower_alnum first = true ∧ is_lower_alnum lst = true ∧
    Forall (λ c, is_lower_alnum c = true ∨ c = "-"%char) l.
Definition valid_hostname (s : string) : Prop :=
  s = "" ∨ (String.length s ≤ 253 ∧ Forall dns_label (split_bytes "."%char (bytes_of s))).

(** What the webhook accepts. *)
Definition valid_spec (spec : ICISpec) : Prop :=
  (SSHKey spec = "" ∨ ssh_ParseAuthorizedKey (strings_TrimSpace (SSHKey spec)) = None) ∧
  valid_hostname (Hostname spec) ∧
  (MachineNetwork spec = "" ∨ is_Some (NetIP.ParseCIDR (MachineNetwork spec))) ∧
  Forall (λ n, is_Some (NetIP.ParseCIDR n)) (elems (MachineNetworks spec)) ∧
  (is_Some (Spec_Proxy spec) →
     Networks.webhook_getEffectiveMachineNetworks (MachineNetwork spec) (MachineNetworks spec) ≠ []).

Lemma dns1123Label_spec l : dns1123Label l = true ↔ dns_label l.
Proof.
  unfold dns1123Label, dns_label. destruct l as [|first l]; [split; [done|by intros (?&?&[=]&_)]|].
  destruct (last (first :: l)) as [lst|] eqn:Hlast; [|by apply last_None in Hlast].
  assert (Hchars : forallb (λ c, is_lower_alnum c || bool_decide (c = "-"%char)) (first :: l) = true ↔
    Forall (λ c, is_lower_alnum c = true ∨ c = "-"%char) (first :: l)).
  { rewrite forallb_forall, Forall_forall. setoid_rewrite list_elem_of_In.
    split; intros H c Hc; specialize (H c Hc).
    - apply orb_true_iff in H as [?|?%bool_decide_eq_true_1]; auto.
    - destruct H as [->| ->]; [done|apply orb_true_r]. }
  rewrite !andb_true_iff, Hchars. split.
  - intros [[??]?]. by exists first, lst.
  - by intros (?&?&[= <-]&[= <-]&?&?&?).
Qed.

Lemma isValidHostname_spec s : isValidHostname s = None ↔ valid_hostname s.
Proof.
  unfold isValidHostname, valid_hostname. case_bool_decide as Hs; [by split; [left|]|].
  assert (Hsub : dns1123Subdomain s = true ↔ Forall dns_label (split_bytes "."%char (bytes_of s))).
  { unfold dns1123Subdomain. rewrite forallb_forall, Forall_forall. setoid_rewrite list_elem_of_In.
    by setoid_rewrite dns1123Label_spec. }
  unfold IsDNS1123Subdomain. destruct (Nat.ltb_spec 253 (String.length s)).
  - simpl. split; [done|]. intros [?|[? _]]; [done|lia].
  - destruct (dns1123Subdomain s); simpl.
    + split; [|done]. intros _. right. split; [lia|]. by apply Hsub.
    + split; [done|]. intros [?|[_ Hall]]; [done|]. by apply Hsub in Hall.
Qed.

Lemma isValidNetworkCidr_spec n : n ≠ "" → isValidNetworkCidr n = None ↔ is_Some (NetIP.ParseCIDR n).
Proof.
  intros Hn. unfold isValidNetworkCidr. rewrite bool_decide_eq_false_2 by done.
  destruct (NetIP.ParseCIDR n); split; try done; by intros [? [=]].
Qed.

Lemma valid_networks_spec i ns : valid_networks_from i ns = None ↔ Forall (λ n, is_Some (NetIP.ParseCIDR n)) ns.
Proof.
  revert i. induction ns as [|n ns IH]; intros i; cbn [valid_networks_from]; [by split|].
  rewrite Forall_cons. destruct (decide (n = "")) as [->|Hn].
  { split; [done|]. intros [[? Hp] _]. by vm_compute in Hp. }
  pose proof (isValidNetworkCidr_spec n Hn) as Hv. destruct (isValidNetworkCidr n) as [e|].
  - split; [done|]. intros [Hp _]. by apply Hv in Hp.
  - rewrite IH. split; [intros ?; split; [by apply Hv|done]|by intros [_ ?]].
Qed.

Lemma validate_iff r : validate r = None ↔ valid_spec (ici_Spec r).
Proof.
  unfold validate, valid_spec, isValidSSHPublicKey, isValidMachineNetworks, isValidProxy.
  set (spec := ici_Spec r).
  pose proof (isValidHostname_spec (Hostname spec)) as Hhost.
  pose proof (valid_networks_spec 0 (elems (MachineNetworks spec))) as Hnets.
  assert (Hmn : (if negb (bool_decide (MachineNetwork spec = ""))
                 then isValidNetworkCidr (MachineNetwork spec) else None) = None ↔
    (MachineNetwork spec = "" ∨ is_Some (NetIP.ParseCIDR (MachineNetwork spec)))).
  { case_bool_decide as Hm; cbn [negb]; [by split; [left|]|]. rewrite isValidNetworkCidr_spec by done.
    split; [by right|by intros [?|?]]. }
  assert (Hssh : (match (if bool_decide (SSHKey spec = "") then None
      else match ssh_ParseAuthorizedKey (strings_TrimSpace (SSHKey spec)) with
           | Some e => Some (ErrWrap "error parsing public key: " e) | None => None end) with
      | Some _ => False | None => True end) ↔
    (SSHKey spec = "" ∨ ssh_ParseAuthorizedKey (strings_TrimSpace (SSHKey spec)) = None)).
  { clear. case_bool_decide; [by split; [left|]|].
    destruct (ssh_ParseAuthorizedKey _); [|by split; [right|]]. split; [done|]. by intros [?|[=]]. }
  destruct (if bool_decide (SSHKey spec = "") then None else _) as [e|]; [split; [done|tauto]|].
  destruct (isValidHostname _) as [e|]; [split; [done|]; intros (_&Hh&_); by apply Hhost in Hh|].
  destruct (if negb _ then _ else _) as [e|]; [split; [done|]; intros (_&_&Hm&_); by apply Hmn in Hm|].
  destruct (valid_networks_from _ _) as [e|]; [split; [done|]; intros (_&_&_&Hn&_); by apply Hnets in Hn|].
  assert (Hpre : (SSHKey spec = "" ∨ ssh_ParseAuthorizedKey (strings_TrimSpace (SSHKey spec)) = None) ∧
    valid_hostname (Hostname spec) ∧ (MachineNetwork spec = "" ∨ is_Some (NetIP.ParseCIDR (MachineNetwork spec))) ∧
    Forall (λ n, is_Some (NetIP.ParseCIDR n)) (elems (MachineNetworks spec))) by tauto.
  destruct (Spec_Proxy spec) as [p|].
  - case_bool_decide as Hempty.
    + split; [done|]. intros (_&_&_&_&Hp). by destruct Hp.
    + split; [tauto|done].
  - split; [|done]. intros _. split_and!; try tauto. by intros [? [=]].
Qed.

(** C35: what the webhook lets in.  A new object is accepted exactly when its SSH
    key (if any) parses, its host name (if any) is an RFC 1123 name, all its
    machine networks parse as CIDRs, and a machine network is set if a proxy is.
    An update is accepted exactly when the new object satisfies the same, and
    once the old object has a host in its status, every field of the spec but the
    cluster metadata is unchanged. *)
Theorem admission_spec r :
  (ValidateCreate r = None ↔ valid_spec (ici_Spec r)) ∧
  (∀ old, ValidateUpdate r (Some old) = None ↔
     valid_spec (ici_Spec r) ∧
     (Status_BareMetalHostRef (ici_Status old) ≠ None →
      ∃ cm, ici_Spec old = set_Spec_ClusterMetadata_spec cm (ici_Spec r))) ∧
  ValidateUpdate r None ≠ None.
Proof.
  pose proof (validate_iff r) as Hv. unfold ValidateCreate, ValidateUpdate. split_and!; [done| |by destruct (validate r)].
  intros old. destruct (validate r) as [e|]; [split; [done|]; intros [H _]; by apply Hv in H|].
  assert (Hsame : isSpecUpdate old r = false ↔ ∃ cm, ici_Spec old = set_Spec_ClusterMetadata_spec cm (ici_Spec r)).
  { unfold isSpecUpdate. rewrite negb_false_iff, bool_decide_eq_true. split.
    - intros H. exists (Spec_ClusterMetadata (ici_Spec old)).
      destruct (ici_Spec old), (ici_Spec r). unfold set_Spec_ClusterMetadata_spec in *. simpl in *. congruence.
    - by intros [cm ->]. }
  unfold installationStarted. destruct (isSpecUpdate old r); cbn [negb].
  - destruct (Status_BareMetalHostRef (ici_Status old)) as [ref|]; simpl.
    + split; [done|]. intros [_ H]. by discriminate (proj2 Hsame (H ltac:(discriminate))).
    + split; [|done]. intros _. split; [by apply Hv|done].
  - split; [|done]. intros _. split; [by apply Hv|]. intros _. by apply Hsame.
Qed.

Lemma parse_machine_networks_ok ns :
  Forall (λ n, is_Some (NetIP.ParseCIDR n)) ns →
  ∃ nets, Installer.parse_machine_networks ns = Ok nets ∧ length nets = length ns.
Proof.
  induction 1 as [|n ns [[ip net] Hn] Hns (nets&IH&Hl)]; [by exists []|]. cbn [Installer.parse_machine_networks].
  unfold Installer.ipnet_ParseCIDR. rewrite Hn, IH. eexists. split; [done|]. simpl. by rewrite Hl.
Qed.

(** C36: the installer can use what the webhook lets in.  For an accepted object
    the machine networks of the install config all parse, in number as in the
    spec, and a proxy only comes with at least one of them: writing the install
    config then fails only if marshalling or writing the file does. *)
Theorem accepted_is_installable r :
  ValidateCreate r = None →
  let networks := Networks.getEffectiveMachineNetworks r in
  ∃ nets, Installer.parse_machine_networks networks = Ok nets ∧ length nets = length networks ∧
    (is_Some (Installer.proxy (Spec_Proxy (ici_Spec r))) → nets ≠ []) ∧
    ∀ cd ps ca file t e, exec (Installer.WriteInstallConfig r cd ps ca file) t (Some e) →
      (∃ e', json_MarshalInstallConfig (Installer.install_config r cd ps ca nets) = Err e') ∨
      ∃ data e', t = [Ev (OsWriteFile file data 420%Z) (Some e')].
Proof.
  intros Hv networks. apply validate_iff in Hv as (_&_&Hm&Hms&Hproxy).
  assert (Hall : Forall (λ n, is_Some (NetIP.ParseCIDR n)) networks).
  { unfold networks, Networks.getEffectiveMachineNetworks.
    destruct (elems (MachineNetworks (ici_Spec r))) as [|? ?]; [|done].
    case_bool_decide; cbn [negb]; [done|]. destruct Hm as [?|?]; [done|]. by repeat constructor. }
  destruct (parse_machine_networks_ok _ Hall) as (nets&Hnets&Hlen). exists nets. split_and!; [done..| |].
  - intros Hp Hnil. apply Hproxy; [|change (networks = []); destruct networks; [done|by subst]].
    destruct (Spec_Proxy (ici_Spec r)); [by eauto|by destruct Hp].
  - intros cd ps ca file t e He. unfold Installer.WriteInstallConfig in He. fold networks in He.
    rewrite Hnets in He. destruct (json_MarshalInstallConfig _) as [data|e'] eqn:Hd; [|eauto].
    right. destruct He as (x&t'&->&He). cbn [prog_bind] in He.
    destruct x as [e'|]; [|by destruct He as [_ [=]]]. destruct He as [-> _]. eauto.
Qed.

End webhook.

Definition sample_ici : ImageClusterInstall :=
  mkICI (ici_Meta Sim.ici0)
    (mkICISpec (Some "cd") "imageset" None "" "host.example.com" "" None None None None
       "192.168.0.0/16" (Some ["10.0.0.0/8"; "fd00::/48"]) (Some (mkProxy "http://p" "" "")) None)
    (ici_Status Sim.ici0).

Lemma accepted_is_installable_witness :
  ∃ nets, Installer.parse_machine_networks ["10.0.0.0/8"; "fd00::/48"] = Ok nets ∧ length nets = 2.
Proof.
  assert (Hv : ValidateCreate (L := StubLibs) sample_ici = None) by (vm_compute; reflexivity).
  destruct (accepted_is_installable (L := StubLibs) sample_ici Hv) as (nets&Hn&Hl&_).
  exists nets. exact (conj Hn Hl).
Defined.

(** The webhook accepts an object whose two machine network fields disagree; the
    reconciler refuses it. *)
Example accepted_but_refused :
  ValidateCreate (L := StubLibs) sample_ici = None ∧
  ∃ e, Networks.getEffectiveMachineNetworksCIDRs (MachineNetwork (ici_Spec sample_ici))
         (MachineNetworks (ici_Spec sample_ici)) = Err e.
Proof. split; [by vm_compute|]. eexists. by vm_compute. Qed.

End Webhook.
