(* ===== verification/Host.v ===== *)
(** * The host of an installation
    ([controllers/imageclusterinstall_controller.go])

    Validation of the BareMetalHost, the DataImage that attaches the
    configuration image to it, the reboot into the installation, and the backup
    labels of every referenced object.  [cond] is the RequirementsMet condition
    being prepared; functions that take it by pointer return its new value. *)
From stdpp Require Import base gmap strings list.
From Stdlib Require Import ZArith Lia.
From S2P Require Import Prelude Types World GoStd Libs Networks Conditions Common Credentials Sim.
Local Open Scope go_scope.

Module Host.
Section host.
Context `{L : GoLibs}.

Definition inspectAnnotation := "inspect.metal3.io".
Definition ibioManagedBMH := "image-based-install-managed".
Definition backupLabel := "cluster.open-cluster-management.io/backup".
Definition backupLabelValue := "true".

Definition set_Reason (r : string) (c : Condition) : Condition :=
  mkCondition (c_Type c) (c_Status c) (c_LastProbeTime c) (c_LastTransitionTime c) r (c_Message c).
Definition set_Message (m : string) (c : Condition) : Condition :=
  mkCondition (c_Type c) (c_Status c) (c_LastProbeTime c) (c_LastTransitionTime c) (c_Reason c) m.
Definition set_Status (s : ConditionStatus) (c : Condition) : Condition :=
  mkCondition (c_Type c) s (c_LastProbeTime c) (c_LastTransitionTime c) (c_Reason c) (c_Message c).

(** [namespace/name] of a host, as the messages print it. *)
Definition bmh_string (b : BareMetalHost) : string :=
  om_Namespace (bmh_Meta b) +:+ "/" +:+ om_Name (bmh_Meta b).

(** ** Configuration validation *)

Definition validateConfiguration (ici : ImageClusterInstall) (cd : option ClusterDeployment)
    (cond : Condition) : io (Condition * result (option BareMetalHost)) :=
  match cd with
  | None =>
      match ClusterDeploymentRef (ici_Spec ici) with
      | None => Ret (set_Message "ClusterDeploymentRef is unset" cond, Ok None)
      | Some name =>
          if bool_decide (name = "")
          then Ret (set_Message "ClusterDeploymentRef is unset" cond, Ok None)
          else Ret (set_Message ("failed to get ClusterDeployment "
                      +:+ om_Namespace (ici_Meta ici) +:+ "/" +:+ name) cond, Ok None)
      end
  | Some _ =>
      match Spec_BareMetalHostRef (ici_Spec ici) with
      | None => Ret (set_Message "BareMetalHostRef is unset" cond, Ok None)
      | Some ref =>
          if bool_decide (bmhref_Name ref = "")
          then Ret (set_Message "BareMetalHostRef is unset" cond, Ok None)
          else
            try bmh := Common.getBMH ref else _e =>
              Ret (set_Message ("failed to get BareMetalHost " +:+ bmhref_Namespace ref +:+ "/"
                     +:+ bmhref_Name ref) cond, Ok None) in
            if negb (bool_decide (bmh_AutomatedCleaningMode bmh = CleaningModeDisabled)) then
              try bmh' := perform (PatchBMH bmh (set_AutomatedCleaningMode CleaningModeDisabled bmh))
                else e =>
                Ret (set_Message ("failed to disable automated cleaning mode for BareMetalHost "
                       +:+ bmh_string bmh)
                       (set_Reason Conditions.ConfigurationFailedReason cond), Err e) in
              Ret (cond, Ok (Some bmh'))
            else Ret (cond, Ok (Some bmh))
      end
  end.

(** ** Host validation *)

Definition isInspectionEnabled (bmh : BareMetalHost) : bool :=
  match om_Annotations (bmh_Meta bmh) with
  | None => false
  | Some a => negb (bool_decide (default "" (a !! inspectAnnotation) = "disabled"))
  end.

Definition validateBMH (ici : ImageClusterInstall) (bmh : BareMetalHost) (cond : Condition)
    : io (Condition * (Result * option goerror)) :=
  if bmh_ExternallyProvisioned bmh then Ret (cond, (res0, None))
  else if bool_decide (is_Some (om_Annotations (bmh_Meta bmh))) && negb (isInspectionEnabled bmh)
  then Ret (cond, (res0, None))
  else if negb (bool_decide (bmh_ProvisioningState bmh = StateAvailable)) then
    Ret (set_Reason Conditions.HostValidationPendingReason
           (set_Message ("BareMetalHost (" +:+ bmh_string bmh +:+ ") provisioning state is: "
              +:+ bmh_ProvisioningState bmh +:+ ", waiting for " +:+ StateAvailable) cond),
         (requeue_after (30 * Second)%Z, None))
  else
    match bmh_HardwareDetails bmh with
    | None =>
        Ret (set_Reason Conditions.HostValidationPendingReason
               (set_Message ("hardware details not found for BareMetalHost " +:+ bmh_string bmh) cond),
             (requeue_after (30 * Second)%Z, None))
    | Some nics =>
        let* err := Networks.validateBMHMachineNetworks (MachineNetwork (ici_Spec ici))
                      (MachineNetworks (ici_Spec ici)) nics in
        match err with
        | Some e => Ret (set_Message (Error e) cond, (res0, Some e))
        | None => Ret (cond, (res0, None))
        end
    end.

Definition validateHost (ici : ImageClusterInstall) (bmh : BareMetalHost) (cond : Condition)
    : io (Condition * BareMetalHost * (Result * option goerror)) :=
  let* (cond, (res, err)) := validateBMH ici bmh cond in
  if negb (IsZero res) || bool_decide (is_Some err) then Ret (cond, bmh, (res, err))
  else if negb (bmh_ExternallyProvisioned bmh) then
    let bmh' := set_ExternallyProvisioned true bmh in
    try bmh'' := perform (PatchBMH bmh bmh') else e => Ret (cond, bmh', (res0, Some e)) in
    Ret (cond, bmh'', (res0, None))
  else Ret (cond, bmh, (res0, None)).

(** ** Host configuration *)

Definition updateBMHProvisioningState (bmh : BareMetalHost) (dataImage : DataImage)
    : io (BareMetalHost * option goerror) :=
  if Common.annotationExists (bmh_Meta bmh) ibioManagedBMH then Ret (bmh, None)
  else if negb (bool_decide (bmh_ProvisioningState bmh = StateAvailable))
          && negb (bool_decide (bmh_ProvisioningState bmh = StateExternallyProvisioned))
  then Ret (bmh, None)
  else
    let bmh1 := if bmh_Online bmh then bmh else set_Online true bmh in
    let m1 := if bool_decide (di_AttachedImageURL dataImage = "")
              then (Common.setAnnotationIfNotExists (bmh_Meta bmh1) Common.rebootAnnotation
                      Common.rebootAnnotationValue).1
              else bmh_Meta bmh1 in
    let m2 := (Common.setAnnotationIfNotExists m1 ibioManagedBMH "").1 in
    let bmh2 := set_bmh_Meta m2 bmh1 in
    try bmh3 := perform (PatchBMH bmh bmh2) else e => Ret (bmh2, Some e) in
    Ret (bmh3, None).

(** [controllerutil.SetControllerReference(bmh, dataImage, scheme)] for a
    DataImage in the namespace of its host: the only failure is the lookup of
    the host's kind. *)
Definition set_controller_reference (bmh : BareMetalHost) (di : DataImage) : io (result DataImage) :=
  let m := di_Meta di in
  if negb (bool_decide (om_Namespace (bmh_Meta bmh) = ""))
     && negb (bool_decide (om_Namespace (bmh_Meta bmh) = om_Namespace m)) then
    Ret (Err (ErrNew "cross-namespace owner references are disallowed"))
  else
    try gvk := perform (GVKForObject "BareMetalHost") else e => Ret (Err e) in
    let ref := mkOwner (gvk_GroupVersion gvk) (gvk_Kind gvk) (om_Name (bmh_Meta bmh))
                 (om_UID (bmh_Meta bmh)) (Some true) (Some true) in
    Ret (Ok (mkDataImage (set_OwnerReferences (om_OwnerReferences m ++ [ref]) m)
               (di_URL di) (di_AttachedImageURL di))).

Definition ensureBMHDataImage (bmh : BareMetalHost) (url : string) : io (result (DataImage * Result)) :=
  let ns := om_Namespace (bmh_Meta bmh) in
  let name := om_Name (bmh_Meta bmh) in
  let* existing := Common.getDataImage ns name in
  match existing with
  | Ok dataImage =>
      if negb (IsZeroTime (om_DeletionTimestamp (di_Meta dataImage)))
      then Ret (Ok (dataImage, requeue_after (30 * Second)%Z))
      else Ret (Ok (dataImage, res0))
  | Err e =>
      if negb (IsNotFound e) then Ret (Err e)
      else
        try dataImage := set_controller_reference bmh (mkDataImage (new_meta name ns) url "") else e' =>
          Ret (Err (ErrWrap "failed to set controller reference for dataImage due to " e')) in
        try _ := perform (CreateDataImage dataImage) else e' =>
          Ret (Err (ErrWrap "failed to create dataImage due to " e')) in
        try created := Common.getDataImage ns name else e' => Ret (Err e') in
        Ret (Ok (created, res0))
  end.

(** What [configureHost] changes through its pointers, and what it returns:
    the object, the condition, and [(continueReconcile, res, err)]. *)
Definition configured : Type := ImageClusterInstall * Condition * (bool * Result * option goerror).

(** The part of [configureHost] once the DataImage has cooled down. *)
Definition start_install (ici : ImageClusterInstall) (bmh : BareMetalHost) (dataImage : DataImage)
    (cond : Condition) : io configured :=
  let* (bmh', err) := updateBMHProvisioningState bmh dataImage in
  match err with
  | Some e =>
      Ret (ici, set_Message "failed to update BareMetalHost provisioning state" cond,
           (false, res0, Some e))
  | None =>
      if negb (Common.annotationExists (bmh_Meta bmh') ibioManagedBMH) then
        Ret (ici, set_Message ("waiting for BMH provisioning state to be StateAvailable or StateExternallyProvisioned, current state is: "
                    +:+ bmh_ProvisioningState bmh')
                    (set_Reason Conditions.HostConfigurationPendingReason cond),
             (false, res0, None))
      else
        match Status_BareMetalHostRef (ici_Status ici) with
        | Some _ => Ret (ici, cond, (true, res0, None))
        | None =>
            let ici1 := set_Status_BareMetalHostRef (Spec_BareMetalHostRef (ici_Spec ici)) ici in
            let* ici2 := (if IsZeroTime (BootTime (ici_Status ici1))
                          then let* now := perform TimeNow in Ret (set_BootTime now ici1)
                          else Ret ici1) in
            try ici3 := perform (StatusPatchICI ici ici2) else e =>
              Ret (ici2, set_Message "failed to set Status.BareMetalHostRef" cond,
                   (false, res0, Some e)) in
            Ret (ici3, cond, (true, res0, None))
        end
  end.

Definition configureHost (coolDown : duration) (ici : ImageClusterInstall) (imageUrl : string)
    (bmh : BareMetalHost) (cond : Condition) : io configured :=
  try (dataImage, res) := ensureBMHDataImage bmh imageUrl else e =>
    Ret (ici, set_Message "failed to create BareMetalHost DataImage" cond, (false, res0, Some e)) in
  if negb (IsZero res) then
    Ret (ici, set_Message "previous DataImage is being deleted"
                (set_Reason Conditions.HostConfigurationPendingReason cond), (false, res, None))
  else
    let* now := perform TimeNow in
    if bool_decide (now < om_CreationTimestamp (di_Meta dataImage) + coolDown)%Z then
      Ret (ici, set_Message "waiting for DataImage to cool down"
                  (set_Reason Conditions.HostConfigurationPendingReason cond),
           (false, requeue_after coolDown, None))
    else start_install ici bmh dataImage cond.

(** ** Backup labels *)

Definition setBackupLabel (m : ObjectMeta) : ObjectMeta * bool :=
  let labels := entries (om_Labels m) in
  if bool_decide (default "" (labels !! backupLabel) = backupLabelValue) then (m, false)
  else (set_Labels (Some (<[backupLabel := backupLabelValue]> labels)) m, true).

Definition labelConfigMapForBackup (key : NamespacedName) : io (option goerror) :=
  try cm := perform (GetConfigMap key) else e => Ret (Some e) in
  let '(m, changed) := setBackupLabel (cm_Meta cm) in
  if changed then
    try _ := perform (PatchConfigMap cm (mkConfigMap m (cm_Data cm))) else e => Ret (Some e) in Ret None
  else Ret None.

Definition labelSecretForBackup (key : NamespacedName) : io (option goerror) :=
  try secret := perform (GetSecret NoncachedClient key) else e => Ret (Some e) in
  let '(m, changed) := setBackupLabel (secret_Meta secret) in
  if changed then
    try _ := perform (PatchSecret secret (mkSecret m (secret_Data secret) (secret_Type secret)))
      else e => Ret (Some e) in Ret None
  else Ret None.

Definition labelBMHForBackup (bmhRef : BareMetalHostReference) : io (option goerror) :=
  try bmh := Common.getBMH bmhRef else e => Ret (Some e) in
  let '(m, changed) := setBackupLabel (bmh_Meta bmh) in
  if changed then
    try _ := perform (PatchBMH bmh (set_bmh_Meta m bmh)) else e => Ret (Some e) in Ret None
  else Ret None.

(** The loop over [ExtraManifestsRefs]; errors are logged. *)
Fixpoint label_config_maps (ns : string) (refs : list string) : io unit :=
  match refs with
  | [] => Ret tt
  | r :: rest => let* _ := labelConfigMapForBackup (mkKey ns r) in label_config_maps ns rest
  end.

(** Labels the secret named by an optional reference. *)
Definition label_secret_opt (ns : string) (name : option string) : io unit :=
  match name with
  | None => Ret tt
  | Some n => let* _ := labelSecretForBackup (mkKey ns n) in Ret tt
  end.

Definition labelReferencedObjectsForBackup (ici : ImageClusterInstall) (cd : option ClusterDeployment)
    : io unit :=
  let ns := om_Namespace (ici_Meta ici) in
  let* _ := label_config_maps ns (option_list (CABundleRef (ici_Spec ici))) in
  let* _ := label_config_maps ns (elems (ExtraManifestsRefs (ici_Spec ici))) in
  let* _ := match cd with
            | None => Ret tt
            | Some d =>
                let cdns := om_Namespace (cd_Meta d) in
                let* _ := labelSecretForBackup
                            (mkKey cdns (Credentials.SeedReconfigurationSecretName (om_Name (cd_Meta d)))) in
                label_secret_opt cdns (cd_PullSecretRef d)
            end in
  let* _ := match Spec_BareMetalHostRef (ici_Spec ici) with
            | None => Ret tt
            | Some ref => let* _ := labelBMHForBackup ref in Ret tt
            end in
  match Spec_ClusterMetadata (ici_Spec ici) with
  | None => Ret tt
  | Some cm =>
      let* _ := labelSecretForBackup (mkKey ns (AdminKubeconfigSecretRef cm)) in
      label_secret_opt ns (AdminPasswordSecretRef cm)
  end.

(** ** Properties *)

(** The host as patched when the installation starts. *)
Definition booted_host (bmh : BareMetalHost) (dataImage : DataImage) : BareMetalHost :=
  let bmh1 := if bmh_Online bmh then bmh else set_Online true bmh in
  let m1 := if bool_decide (di_AttachedImageURL dataImage = "")
            then (Common.setAnnotationIfNotExists (bmh_Meta bmh1) Common.rebootAnnotation
                    Common.rebootAnnotationValue).1
            else bmh_Meta bmh1 in
  set_bmh_Meta (Common.setAnnotationIfNotExists m1 ibioManagedBMH "").1 bmh1.

Definition managed (b : BareMetalHost) : bool := Common.annotationExists (bmh_Meta b) ibioManagedBMH.

(** The host may be taken over: its inspection is disabled, or it is available
    and its interfaces satisfy the machine networks. *)
Definition host_valid (ici : ImageClusterInstall) (b : BareMetalHost) : Prop :=
  entries (om_Annotations (bmh_Meta b)) !! inspectAnnotation = Some "disabled" ∨
  (bmh_ProvisioningState b = StateAvailable ∧
   ∃ nics effective, bmh_HardwareDetails b = Some nics ∧
     Networks.getEffectiveMachineNetworksCIDRs (MachineNetwork (ici_Spec ici))
       (MachineNetworks (ici_Spec ici)) = Ok effective ∧
     Networks.networks_satisfied effective nics).

(** [b] has automated cleaning disabled, or is the answer to the patch that
    disables it. *)
Definition cleaning_disabled (b : BareMetalHost) (h : trace) : Prop :=
  bmh_AutomatedCleaningMode b = CleaningModeDisabled ∨
  ∃ o, Ev (PatchBMH o (set_AutomatedCleaningMode CleaningModeDisabled o)) (Ok b) ∈ h.

Definition configuration_guard (ici : ImageClusterInstall) (h : trace) (a : call) : Prop :=
  match a with
  | GetBMH k => ∃ ref, Spec_BareMetalHostRef (ici_Spec ici) = Some ref ∧
                       k = mkKey (bmhref_Namespace ref) (bmhref_Name ref)
  | PatchBMH o n => n = set_AutomatedCleaningMode CleaningModeDisabled o ∧
                    bmh_AutomatedCleaningMode o ≠ CleaningModeDisabled ∧
                    ∃ ref, Spec_BareMetalHostRef (ici_Spec ici) = Some ref ∧ host_from (bmh_key ref) h o
  | _ => False
  end.

Lemma wp_validateConfiguration ici cd cond h :
  wp (configuration_guard ici) (validateConfiguration ici cd cond) h (λ r h',
    c_Status r.1 = c_Status cond ∧
    match r.2 with
    | Ok (Some b) => cleaning_disabled b h' ∧
        ∃ ref, Spec_BareMetalHostRef (ici_Spec ici) = Some ref ∧ host_from (bmh_key ref) h' b
    | _ => True
    end).
Proof.
  unfold validateConfiguration.
  destruct cd as [cd|]; [|destruct (ClusterDeploymentRef (ici_Spec ici)); [case_bool_decide|]; done].
  destruct (Spec_BareMetalHostRef (ici_Spec ici)) as [ref|] eqn:Href; [|done].
  case_bool_decide; [done|]. unfold Common.getBMH. wp_call; [simpl; eauto|].
  destruct x as [b|e]; [|done]. case_bool_decide as Hc; cbn [negb].
  - cbn [wp]. split; [done|]. split; [by left|]. exists ref. split; [done|]. apply from_get. hist.
  - wp_call; [simpl; split_and!; [done..|]; exists ref; split; [done|]; apply from_get; hist|].
    destruct x as [b'|e]; cbn [wp]; [|done]. split; [done|]. split; [right; exists b; hist|].
    exists ref. split; [done|]. eapply from_patch; [apply from_get|]; hist.
Qed.

(** Closes a branch that returns a non-zero result. *)
Ltac requeues := cbn [wp]; split; [done|]; let H := fresh in intros H; vm_compute in H; discriminate H.

(** [validateHost] takes a host over only if it is valid. *)
Definition takeover_guard (ici : ImageClusterInstall) (b : BareMetalHost) (h : trace) (a : call) : Prop :=
  match a with
  | MapRange => True
  | PatchBMH o n => o = b ∧ n = set_ExternallyProvisioned true b ∧
                    bmh_ExternallyProvisioned b = false ∧ host_valid ici b
  | _ => False
  end.

(** [b'] is the host [b] after [validateHost] for [ici]: a host that was externally
    provisioned already, as it is, or a host that was valid and then patched. *)
Definition taken_over (ici : ImageClusterInstall) (b b' : BareMetalHost) (h : trace) : Prop :=
  (b' = b ∧ bmh_ExternallyProvisioned b = true) ∨
  (bmh_ExternallyProvisioned b = false ∧ host_valid ici b ∧
   Ev (PatchBMH b (set_ExternallyProvisioned true b)) (Ok b') ∈ h).

Lemma emits_validateNetworks legacy networks nics :
  emits (λ a, a = MapRange) (Networks.validateBMHMachineNetworks legacy networks nics).
Proof.
  unfold Networks.validateBMHMachineNetworks, Networks.validateDualStackMachineNetworks.
  emits_run done.
Qed.

Lemma wp_validateBMH ici b cond h :
  wp (takeover_guard ici b) (validateBMH ici b cond) h (λ r h',
    c_Status r.1 = c_Status cond ∧
    (IsZero r.2.1 = true → r.2.2 = None → bmh_ExternallyProvisioned b = true ∨ host_valid ici b)).
Proof.
  unfold validateBMH. destruct (bmh_ExternallyProvisioned b); [by split; auto|].
  destruct (_ && _) eqn:Hins.
  { split; [done|]. intros _ _. right. left. bools. unfold isInspectionEnabled in *.
    destruct (om_Annotations (bmh_Meta b)) as [a|]; [|by destruct H].
    bools. simpl. destruct (a !! inspectAnnotation); simpl in *; congruence. }
  clear Hins. case_bool_decide as Hst; cbn [negb]; [|requeues].
  destruct (bmh_HardwareDetails b) as [nics|] eqn:Hnics; [|requeues].
  rewrite wp_bind. eapply wp_intro; [apply emits_validateNetworks|by intros h' a ->|].
  intros t r Hr. apply Networks.validateBMHMachineNetworks_accepts in Hr.
  destruct r as [e|]; cbn [wp]; [done|]. split; [done|]. intros _ _. right. right.
  split; [done|]. destruct Hr as [(ns&?&?) _]; [done|]. by exists nics, ns.
Qed.

Lemma wp_validateHost ici b cond h :
  wp (takeover_guard ici b) (validateHost ici b cond) h (λ r h',
    let '(cond', b', (res, err)) := r in
    c_Status cond' = c_Status cond ∧ (IsZero res = true → err = None → taken_over ici b b' h')).
Proof.
  unfold validateHost. wp_use wp_validateBMH.
  intros [cond' [res err]] h' [[Hst Hv] [t ->]]. simpl in Hst, Hv.
  destruct (negb (IsZero res) || _) eqn:Hstop.
  { split; [done|]. intros Hz ->. rewrite Hz in Hstop. done. }
  bools. destruct err as [e|]; [by destruct H0|].
  destruct (bmh_ExternallyProvisioned b) eqn:Hext; cbn [negb].
  - split; [done|]. intros _ _. by left.
  - assert (host_valid ici b) by by destruct Hv. wp_call; [done|].
    destruct x as [b'|e]; cbn [wp]; [|by split]. split; [done|]. intros _ _. right.
    split_and!; [done..|hist].
Qed.

(** [d] is not being deleted, or was created in this run. *)
Definition image_usable (d : DataImage) (h : trace) : Prop :=
  om_DeletionTimestamp (di_Meta d) = 0%Z ∨ ∃ d0 x, Ev (CreateDataImage d0) (Ok x) ∈ h.

(** The usable DataImage of the host was seen, and its cool-down period had
    passed on the clock afterwards. *)
Definition image_settled (key : NamespacedName) (coolDown : duration) (d : DataImage) (h : trace) : Prop :=
  ∃ h1 h2 now,
    h = h1 ++ Ev (GetDataImage key) (Ok d) :: Ev TimeNow now :: h2 ∧
    image_usable d h1 ∧ (om_CreationTimestamp (di_Meta d) + coolDown ≤ now)%Z.

Lemma image_settled_app key c d h t : image_settled key c d h → image_settled key c d (h ++ t).
Proof.
  intros (h1&h2&now&->&?&?). exists h1, (h2 ++ t), now. by rewrite <- app_assoc.
Qed.

(** The host is managed, or is the answer to the patch that marks it so. *)
Definition host_started (b : BareMetalHost) (h : trace) : Prop :=
  managed b = true ∨
  ∃ d b', Ev (PatchBMH b (booted_host b d)) (Ok b') ∈ h ∧ managed b' = true.

Lemma host_started_app b h t : host_started b h → host_started b (h ++ t).
Proof. intros [?|(d&b'&?&?)]; [by left|right]. exists d, b'. split; [hist|done]. Qed.

Definition configure_guard (coolDown : duration) (ici : ImageClusterInstall) (url : string)
    (b : BareMetalHost) (h : trace) (a : call) : Prop :=
  let key := meta_key (bmh_Meta b) in
  match a with
  | GetDataImage k => k = key
  | GVKForObject _ | TimeNow => True
  | CreateDataImage d =>
      meta_key (di_Meta d) = key ∧ di_URL d = url ∧
      ∃ e, Ev (GetDataImage key) (Err e) ∈ h ∧ IsNotFound e = true
  | PatchBMH o n =>
      o = b ∧ managed b = false ∧
      (bmh_ProvisioningState b = StateAvailable ∨ bmh_ProvisioningState b = StateExternallyProvisioned) ∧
      ∃ d, image_settled key coolDown d h ∧ n = booted_host b d
  | StatusPatchICI o n =>
      o = ici ∧ Status_BareMetalHostRef (ici_Status o) = None ∧
      (∃ boot, n = set_BootTime boot (set_Status_BareMetalHostRef (Spec_BareMetalHostRef (ici_Spec o)) o)
               ∧ (BootTime (ici_Status o) ≠ 0%Z → boot = BootTime (ici_Status o))) ∧
      host_started b h ∧ ∃ d, image_settled key coolDown d h
  | _ => False
  end.

Lemma wp_ensureBMHDataImage coolDown ici url b h :
  wp (configure_guard coolDown ici url b) (ensureBMHDataImage b url) h (λ r h',
    match r with
    | Ok (d, res) => ∃ h1, h' = h1 ++ [Ev (GetDataImage (meta_key (bmh_Meta b))) (Ok d)] ∧
                     (IsZero res = true → image_usable d h1)
    | Err _ => True
    end).
Proof.
  unfold ensureBMHDataImage, Common.getDataImage. wp_call; [done|].
  destruct x as [d|e].
  - unfold IsZeroTime. case_bool_decide; cbn [negb wp]; exists h; [|requeues].
    split; [done|]. intros _. by left.
  - destruct (IsNotFound e) eqn:He; cbn [negb]; [|done].
    unfold set_controller_reference. destruct (_ && _); cbn [prog_bind wp]; [done|].
    wp_call; [done|]. destruct x as [gvk|e1]; cbn [prog_bind wp]; [|done].
    split; [simpl; split_and!; [done..|]; exists e; split; [hist|done]|].
    intros [d0|e1]; [|done]. wp_call; [done|]. destruct x as [d|e1]; cbn [wp]; [|done].
    eexists; split; [done|]. intros _. right. eexists _, _. hist.
Qed.

Lemma wp_updateBMHProvisioningState coolDown ici url b d h :
  image_settled (meta_key (bmh_Meta b)) coolDown d h →
  wp (configure_guard coolDown ici url b) (updateBMHProvisioningState b d) h (λ r h',
    r.2 = None → managed r.1 = true → host_started b h').
Proof.
  intros Hd. unfold updateBMHProvisioningState. fold (managed b).
  destruct (managed b) eqn:Hm; [by intros _ _; left|].
  destruct (_ && _) eqn:Hst; [cbn [wp fst snd]; intros _ ?; congruence|].
  change (set_bmh_Meta _ _) with (booted_host b d). wp_call.
  - simpl. split_and!; [done..| |by eauto].
    apply andb_false_iff in Hst as [?|?]; bools; auto.
  - destruct x as [b'|e]; cbn [wp fst snd]; [|done]. intros _ ?. right. exists d, b'.
    split; [hist|done].
Qed.

(** What the two operations below establish, [ok] being [continueReconcile]. *)
Definition configured_ok (coolDown : duration) (ici : ImageClusterInstall) (b : BareMetalHost)
    (cond : Condition) (h : trace) (r : configured) (h' : trace) : Prop :=
  c_Status r.1.2 = c_Status cond ∧ (known ici h → known r.1.1 h') ∧
  (r.2.1.1 = true → host_started b h' ∧ ∃ d, image_settled (meta_key (bmh_Meta b)) coolDown d h').

Lemma wp_start_install coolDown ici url b d cond h :
  image_settled (meta_key (bmh_Meta b)) coolDown d h →
  wp (configure_guard coolDown ici url b) (start_install ici b d cond) h
    (configured_ok coolDown ici b cond h).
Proof.
  intros Hd. unfold start_install. wp_use (wp_updateBMHProvisioningState coolDown ici url b d _ Hd).
  intros [b' err] h' [Hs [t ->]]. simpl in Hs. apply (image_settled_app _ _ _ _ t) in Hd.
  assert (Hk : ∀ t', known ici h → known ici ((h ++ t) ++ t')) by (intros; by do 2 apply known_app).
  assert (Hk0 : known ici h → known ici (h ++ t)) by apply known_app.
  destruct err as [e|]; [by split_and!|]. fold (managed b').
  destruct (managed b') eqn:Hm; cbn [negb]; [|by split_and!]. specialize (Hs eq_refl eq_refl).
  destruct (Status_BareMetalHostRef (ici_Status ici)) as [ref|] eqn:Href; [split_and!; eauto|].
  set (booted boot := set_BootTime boot
    (set_Status_BareMetalHostRef (Spec_BareMetalHostRef (ici_Spec ici)) ici)).
  assert (Hpatch : ∀ boot t1,
    (BootTime (ici_Status ici) ≠ 0%Z → boot = BootTime (ici_Status ici)) →
    wp (configure_guard coolDown ici url b)
      (try ici3 := perform (StatusPatchICI ici (booted boot)) else e =>
         Ret (booted boot, set_Message "failed to set Status.BareMetalHostRef" cond, (false, res0, Some e)) in
       Ret (ici3, cond, (true, res0, None))) ((h ++ t) ++ t1)
      (configured_ok coolDown ici b cond h)).
  { intros boot t1 Hboot.
    assert (Hs' : ∀ t2, host_started b ((h ++ t) ++ t2)).
    { intros t2. destruct Hs as [?|(d0&b0&?&?)]; [by left|]. right. exists d0, b0. split; [hist|done]. }
    wp_call; [simpl; split_and!; eauto using image_settled_app|].
    destruct x as [ici3|e]; cbn [wp]; rewrite <- app_assoc; split_and!; try done.
    - intros _. eapply known_decoded; [hist|done].
    - intros _. eauto using image_settled_app.
    - intros Hki. eapply known_similar; [by apply similar_conditions|by apply Hk]. }
  unfold IsZeroTime. simpl. case_bool_decide as Hz.
  - wp_call; [done|]. apply Hpatch. congruence.
  - cbn [wp prog_bind]. rewrite <- (app_nil_r (h ++ t)). by apply (Hpatch (BootTime (ici_Status ici))).
Qed.

Lemma wp_configureHost coolDown ici url b cond h :
  wp (configure_guard coolDown ici url b) (configureHost coolDown ici url b cond) h
    (configured_ok coolDown ici b cond h).
Proof.
  unfold configureHost. wp_use wp_ensureBMHDataImage.
  intros [[d res]|e] h' [Hd [t ->]]; [|split_and!; [done|by intros; apply known_app|done]].
  destruct Hd as (h1&Hh&Hd).
  destruct (IsZero res) eqn:Hz; cbn [negb]; [|split_and!; [done|by intros; apply known_app|done]].
  wp_call; [done|]. case_bool_decide as Hcool; [split_and!; [done|by intros; do 2 apply known_app|done]|].
  eapply wp_wand; [apply (wp_start_install coolDown _ _ _ d)|].
  - exists h1, [], x. rewrite Hh. split_and!; [by rewrite <- app_assoc|auto|lia].
  - intros r h2 (?&Hk&?). split_and!; [done| |done]. intros ?. apply Hk. by do 2 apply known_app.
Qed.

Lemma emits_updateBMHProvisioningState b d :
  emits (λ a, answers_ici a = false) (updateBMHProvisioningState b d).
Proof. unfold updateBMHProvisioningState. emits_run done. Qed.

Lemma emits_ensureBMHDataImage b url :
  emits (λ a, answers_ici a = false) (ensureBMHDataImage b url).
Proof. unfold ensureBMHDataImage, Common.getDataImage, set_controller_reference. emits_run done. Qed.

(** The object that [configureHost] leaves is the one of its last answer. *)
Lemma exec_start_install ici b d cond t r :
  exec (start_install ici b d cond) t r → holds ici t r.1.1.
Proof.
  unfold start_install. intros (t1&t2&[b' err]&->&H1&H)%prog_bind_assoc_exec.
  apply (holds_app _ _ ici).
  { unfold holds. by rewrite (exec_quiet _ _ _ _ (emits_updateBMHProvisioningState b d) H1). }
  destruct err as [e|]; [by exec_inv; simplify_eq|]. destruct (negb _); [by exec_inv; simplify_eq|].
  destruct (Status_BareMetalHostRef _); [by exec_inv; simplify_eq|].
  destruct (IsZeroTime _); exec_inv; by simplify_eq/=.
Qed.

Lemma exec_configureHost coolDown ici url b cond t r :
  exec (configureHost coolDown ici url b cond) t r → holds ici t r.1.1.
Proof.
  unfold configureHost. intros (t1&t2&x&->&H1&H)%prog_bind_assoc_exec.
  apply (holds_app _ _ ici).
  { unfold holds. by rewrite (exec_quiet _ _ _ _ (emits_ensureBMHDataImage b url) H1). }
  destruct x as [[d res]|e]; [|by exec_inv; simplify_eq].
  destruct (negb _); [by exec_inv; simplify_eq|].
  apply prog_bind_assoc_exec in H as (t3&t4&now&->&H3&H).
  assert (t3 = [Ev TimeNow now]) as -> by (exec_inv; by simplify_eq).
  apply (holds_app _ _ ici); [done|].
  case_bool_decide; [by exec_inv; simplify_eq|by eapply exec_start_install].
Qed.

(** *** Backup labels *)

Definition has_backup_label (m : ObjectMeta) : bool :=
  bool_decide (entries (om_Labels m) !! backupLabel = Some backupLabelValue).
Definition with_backup_label (m : ObjectMeta) : ObjectMeta :=
  set_Labels (Some (<[backupLabel := backupLabelValue]> (entries (om_Labels m)))) m.

Lemma setBackupLabel_eq m :
  setBackupLabel m = if has_backup_label m then (m, false) else (with_backup_label m, true).
Proof.
  unfold setBackupLabel, has_backup_label, with_backup_label.
  destruct (entries (om_Labels m) !! backupLabel) as [v|] eqn:E; simpl.
  all: repeat case_bool_decide; congruence || done.
Qed.

(** An object to label, read and patched by the operations for its kind. *)
Inductive referenced := RefConfigMap (k : NamespacedName) | RefSecret (k : NamespacedName) | RefHost (k : NamespacedName).

(** The object was read; if that succeeded and the label was missing, a patch was
    sent that adds the label and changes nothing else. *)
Definition labelled (r : referenced) (h : trace) : Prop :=
  match r with
  | RefConfigMap k => ∃ x, Ev (GetConfigMap k) x ∈ h ∧
      ∀ o, x = Ok o → has_backup_label (cm_Meta o) = true ∨
        ∃ y, Ev (PatchConfigMap o (mkConfigMap (with_backup_label (cm_Meta o)) (cm_Data o))) y ∈ h
  | RefSecret k => ∃ x, Ev (GetSecret NoncachedClient k) x ∈ h ∧
      ∀ o, x = Ok o → has_backup_label (secret_Meta o) = true ∨
        ∃ y, Ev (PatchSecret o (mkSecret (with_backup_label (secret_Meta o)) (secret_Data o) (secret_Type o))) y ∈ h
  | RefHost k => ∃ x, Ev (GetBMH k) x ∈ h ∧
      ∀ o, x = Ok o → has_backup_label (bmh_Meta o) = true ∨
        ∃ y, Ev (PatchBMH o (set_bmh_Meta (with_backup_label (bmh_Meta o)) o)) y ∈ h
  end.

Definition label_guard (h : trace) (a : call) : Prop :=
  match a with
  | GetConfigMap _ | GetSecret NoncachedClient _ | GetBMH _ => True
  | PatchConfigMap o n => has_backup_label (cm_Meta o) = false ∧
                          n = mkConfigMap (with_backup_label (cm_Meta o)) (cm_Data o)
  | PatchSecret o n => has_backup_label (secret_Meta o) = false ∧
                       n = mkSecret (with_backup_label (secret_Meta o)) (secret_Data o) (secret_Type o)
  | PatchBMH o n => has_backup_label (bmh_Meta o) = false ∧
                    n = set_bmh_Meta (with_backup_label (bmh_Meta o)) o
  | _ => False
  end.

Lemma labelled_app r h t : labelled r h → labelled r (h ++ t).
Proof.
  destruct r; intros (x&?&Hx); exists x; (split; [hist|]);
    intros o Ho; destruct (Hx o Ho) as [?|[y ?]]; (by left) || (right; exists y; hist).
Qed.

Ltac label_step :=
  wp_call; [done|];
  match goal with |- context [match ?x with Ok _ => _ | Err _ => _ end] => destruct x as [o|e] end;
  [|cbn [wp]; eexists; split; [hist|done]]; rewrite setBackupLabel_eq;
  match goal with |- context [has_backup_label ?m] => destruct (has_backup_label m) eqn:Hl end;
  [cbn [wp]; eexists; split; [hist|intros ? [= <-]; by left]|];
  wp_call; [done|];
  match goal with |- context [match ?x with Ok _ => _ | Err _ => _ end] => destruct x end;
  cbn [wp]; eexists; (split; [hist|]); intros ? [= <-]; right; eexists; hist.

Lemma wp_labelConfigMap k h :
  wp label_guard (labelConfigMapForBackup k) h (λ _ h', labelled (RefConfigMap k) h').
Proof. unfold labelConfigMapForBackup. label_step. Qed.
Lemma wp_labelSecret k h :
  wp label_guard (labelSecretForBackup k) h (λ _ h', labelled (RefSecret k) h').
Proof. unfold labelSecretForBackup. label_step. Qed.
Lemma wp_labelBMH ref h :
  wp label_guard (labelBMHForBackup ref) h
    (λ _ h', labelled (RefHost (mkKey (bmhref_Namespace ref) (bmhref_Name ref))) h').
Proof. unfold labelBMHForBackup, Common.getBMH. label_step. Qed.

(** Every object an ImageClusterInstall and its deployment refer to. *)
Definition references (ici : ImageClusterInstall) (cd : option ClusterDeployment) : list referenced :=
  let ns := om_Namespace (ici_Meta ici) in
  ((λ n, RefConfigMap (mkKey ns n)) <$> option_list (CABundleRef (ici_Spec ici)) ++ elems (ExtraManifestsRefs (ici_Spec ici)))
  ++ match cd with
     | None => []
     | Some d =>
         let cdns := om_Namespace (cd_Meta d) in
         RefSecret (mkKey cdns (Credentials.SeedReconfigurationSecretName (om_Name (cd_Meta d))))
         :: ((λ n, RefSecret (mkKey cdns n)) <$> option_list (cd_PullSecretRef d))
     end
  ++ ((λ ref, RefHost (mkKey (bmhref_Namespace ref) (bmhref_Name ref))) <$>
        option_list (Spec_BareMetalHostRef (ici_Spec ici)))
  ++ match Spec_ClusterMetadata (ici_Spec ici) with
     | None => []
     | Some cm => RefSecret (mkKey ns (AdminKubeconfigSecretRef cm))
                  :: ((λ n, RefSecret (mkKey ns n)) <$> option_list (AdminPasswordSecretRef cm))
     end.

(** [p] labels all of [R] and does nothing else. *)
Definition labels {A} (p : io A) (R : list referenced) : Prop :=
  ∀ h, wp label_guard p h (λ _ h', Forall (λ r, labelled r h') R).

Lemma labels_ret {A} (x : A) : labels (Ret x) [].
Proof. intros h. by constructor. Qed.

Lemma labels_bind {A B} (p : io A) (f : A → io B) R1 R2 :
  labels p R1 → (∀ x, labels (f x) R2) → labels (prog_bind f p) (R1 ++ R2).
Proof.
  intros Hp Hf h. wp_use Hp. intros x h' [H1 [t ->]].
  eapply wp_wand; [apply wp_prefix, Hf|]. intros y h'' [H2 [t' ->]].
  apply Forall_app. split; [|done]. eapply Forall_impl; [done|]. intros r Hr. by apply labelled_app.
Qed.

Lemma labels_config_map k : labels (labelConfigMapForBackup k) [RefConfigMap k].
Proof. intros h. eapply wp_wand; [apply wp_labelConfigMap|]. by repeat constructor. Qed.
Lemma labels_secret k : labels (labelSecretForBackup k) [RefSecret k].
Proof. intros h. eapply wp_wand; [apply wp_labelSecret|]. by repeat constructor. Qed.
Lemma labels_host ref :
  labels (labelBMHForBackup ref) [RefHost (mkKey (bmhref_Namespace ref) (bmhref_Name ref))].
Proof. intros h. eapply wp_wand; [apply wp_labelBMH|]. by repeat constructor. Qed.

Lemma labels_config_maps ns refs :
  labels (label_config_maps ns refs) ((λ n, RefConfigMap (mkKey ns n)) <$> refs).
Proof.
  induction refs as [|r refs IH]; cbn [label_config_maps]; [apply labels_ret|]. rewrite fmap_cons.
  apply (labels_bind _ _ [_]); [apply labels_config_map|done].
Qed.

Lemma labels_secret_opt ns n :
  labels (label_secret_opt ns n) ((λ n, RefSecret (mkKey ns n)) <$> option_list n).
Proof.
  destruct n as [n|]; cbn [label_secret_opt]; [|apply labels_ret].
  apply (labels_bind _ _ [_] []); [apply labels_secret|intros; apply labels_ret].
Qed.

Lemma labels_references ici cd :
  labels (labelReferencedObjectsForBackup ici cd) (references ici cd).
Proof.
  unfold labelReferencedObjectsForBackup, references. rewrite fmap_app, <- app_assoc.
  apply labels_bind; [apply labels_config_maps|intros _].
  apply labels_bind; [apply labels_config_maps|intros _].
  apply labels_bind; [|intros _; apply labels_bind; [|intros _]].
  - destruct cd as [d|]; [|apply labels_ret].
    apply (labels_bind _ _ [_]); [apply labels_secret|intros; apply labels_secret_opt].
  - destruct (Spec_BareMetalHostRef (ici_Spec ici)) as [ref|]; [|apply labels_ret].
    apply (labels_bind _ _ [_] []); [apply labels_host|intros; apply labels_ret].
  - destruct (Spec_ClusterMetadata (ici_Spec ici)) as [cm|]; [|apply labels_ret].
    apply (labels_bind _ _ [_]); [apply labels_secret|intros; apply labels_secret_opt].
Qed.

(** C34: [labelReferencedObjectsForBackup] reaches every object the
    ImageClusterInstall and its ClusterDeployment refer to: each one is read,
    and if that succeeds and it does not carry the backup label yet, a patch is
    sent that adds the label; a failure on one object never keeps the others
    from being labelled.  It sends no other request that changes the cluster,
    and its patches change nothing but that label. *)
Theorem labels_every_reference ici cd t r :
  exec (labelReferencedObjectsForBackup ici cd) t r →
  (∀ ref, ref ∈ references ici cd → labelled ref t) ∧
  (∀ t1 ev t2, t = t1 ++ ev :: t2 → label_guard t1 (ev_call ev)).
Proof.
  intros He. destruct (wp_exec _ _ _ _ _ _ (labels_references ici cd []) He) as [HQ HG].
  split; [by apply Forall_forall|done].
Qed.

Lemma labels_every_reference_witness :
  ∃ t r, exec (labelReferencedObjectsForBackup Sim.ici0 (Some Sim.cd0)) t r ∧
         labelled (RefHost (mkKey "bmh-ns" "bmh")) t.
Proof.
  set (p := labelReferencedObjectsForBackup Sim.ici0 (Some Sim.cd0)).
  pose proof (exec_run Sim.handle p Sim.world0) as Hx.
  eexists _, _. split; [exact Hx|].
  apply (proj1 (labels_every_reference Sim.ici0 (Some Sim.cd0) _ _ Hx)).
  vm_compute. do 2 apply list_elem_of_further. apply list_elem_of_here.
Defined.

End host.
End Host.
