(* ===== verification/Reconciler.v ===== *)
(** * The ImageClusterInstall reconciler
    ([controllers/imageclusterinstall_controller.go])

    [Reconcile] is translated with its early returns, its deferred condition
    update (which also runs when a phase panics) and every call that changes
    state.  The in-memory [ici] is threaded explicitly: after a successful patch
    it is what the client decoded, after a failed one it keeps the change. *)
From stdpp Require Import base gmap strings list.
From Stdlib Require Import ZArith Lia Ascii.
From S2P Require Import Prelude Types World GoStd URL Libs Conditions Common FileLock Credentials InputData Host Sim.
Local Open Scope go_scope.

Module Reconciler.
Section reconciler.
Context `{L : GoLibs}.

(** [ImageClusterInstallReconcilerOptions], with the reconciler's [BaseURL]. *)
Record Options := mkOptions {
  ServiceName : string;
  ServiceNamespace : string;
  ServicePort : string;
  ServiceScheme : string;
  DataDir : string;
  MaxConcurrentReconciles : Z;
  DataImageCoolDownPeriod : duration;
  BaseURL : string;
}.

Definition clusterInstallFinalizerName := "imageclusterinstall." +:+ Common.Group +:+ "/deprovision".
Definition restoreStatusAnnotation := "velero.io/restore-status".
Definition restoreStatusAnnotationValue := "true".
Definition restoreSourceLabel := "velero.io/restore-name".
Definition postCleanupAnnotationValue := "true".

(** ** Cluster metadata *)

Definition is_infra_char (c : ascii) : bool :=
  let n := nat_of_ascii c in
  (Nat.leb 65 n && Nat.leb n 90) || (Nat.leb 97 n && Nat.leb n 122)
  || (Nat.leb 48 n && Nat.leb n 57) || bool_decide (c = "-"%char).

(** Whether the byte continues a UTF-8 sequence, within the given bounds. *)
Definition cont (lo hi : nat) (c : option ascii) : bool :=
  match c with
  | None => false
  | Some b => Nat.leb lo (nat_of_ascii b) && Nat.leb (nat_of_ascii b) hi
  end.

(** The width of the code point at the front, 1 for an invalid byte
    ([utf8.DecodeRune]). *)
Definition rune_width (s : list ascii) : nat :=
  match s with
  | [] => 0
  | c :: r =>
      let n := nat_of_ascii c in
      let c1 := head r in let c2 := r !! 1 in let c3 := r !! 2 in
      if Nat.leb 194 n && Nat.leb n 223 then if cont 128 191 c1 then 2 else 1
      else if Nat.leb 224 n && Nat.leb n 239 then
        if cont (if Nat.eqb n 224 then 160 else 128) (if Nat.eqb n 237 then 159 else 191) c1
           && cont 128 191 c2 then 3 else 1
      else if Nat.leb 240 n && Nat.leb n 244 then
        if cont (if Nat.eqb n 240 then 144 else 128) (if Nat.eqb n 244 then 143 else 191) c1
           && cont 128 191 c2 && cont 128 191 c3 then 4 else 1
      else 1
  end.

(** [[^A-Za-z0-9-]] replaced by a dash, code point by code point. *)
Fixpoint replace_invalid (fuel : nat) (s : list ascii) : list ascii :=
  match fuel, s with
  | O, _ => []
  | _, [] => []
  | S fuel', c :: _ =>
      (if is_infra_char c then c else "-"%char) :: replace_invalid fuel' (drop (rune_width s) s)
  end.

(** [-{2,}] replaced by one dash. *)
Fixpoint collapse_dashes (s : list ascii) : list ascii :=
  match s with
  | [] => []
  | c :: r =>
      if bool_decide (c = "-"%char) && bool_decide (head r = Some "-"%char)
      then collapse_dashes r else c :: collapse_dashes r
  end.

Definition maxBaseLen : nat := 21.

(** The base of the infrastructure ID, before the random suffix. *)
Definition infra_base (base : string) : list ascii :=
  let bs := bytes_of base in
  let bs := collapse_dashes (replace_invalid (length bs) bs) in
  trim_right_bytes "-"%char (take maxBaseLen bs).

Definition generateInfraID (base : string) : io string :=
  let* suffix := perform (RandString 5) in
  Ret (of_bytes (infra_base base) +:+ "-" +:+ suffix).

(** The metadata is complete: both IDs are set and the secret references name
    the secrets of this cluster deployment.  A nil password reference is
    dereferenced when all other conditions hold. *)
Definition metadata_complete (cm : option ClusterMetadata) (kubeconfigSecret kubeadminPasswordSecret : string)
    : xres bool :=
  match cm with
  | None => XRet false
  | Some m =>
      if negb (bool_decide (ClusterID m = "")) && negb (bool_decide (InfraID m = ""))
         && bool_decide (AdminKubeconfigSecretRef m = kubeconfigSecret)
      then match AdminPasswordSecretRef m with
           | None => XPanic "invalid memory address or nil pointer dereference"
           | Some name => XRet (bool_decide (name = kubeadminPasswordSecret))
           end
      else XRet false
  end.

(** An ID: the one already set, else the one of the seed secret, else a new one. *)
Definition choose_id (set_ : option string) (secret : string) (fresh : io string) : io string :=
  match set_ with
  | Some id => if negb (bool_decide (id = "")) then Ret id
               else if negb (bool_decide (secret = "")) then Ret secret else fresh
  | None => if negb (bool_decide (secret = "")) then Ret secret else fresh
  end.

(** The choice of the IDs, given those of the seed secret, and the patch. *)
Definition write_metadata (ici : ImageClusterInstall) (cd : ClusterDeployment)
    (secretClusterID secretInfraID : string) : io (ImageClusterInstall * xres (option goerror)) :=
  let cm := Spec_ClusterMetadata (ici_Spec ici) in
  let* clusterID := choose_id (ClusterID <$> cm) secretClusterID (perform NewUUID) in
  let* infraID := choose_id (InfraID <$> cm) secretInfraID (generateInfraID (cd_ClusterName cd)) in
  let ici' := set_Spec_ClusterMetadata
                (Some (mkClusterMetadata clusterID infraID
                         (Credentials.KubeconfigSecretName (om_Name (cd_Meta cd)))
                         (Some (Credentials.KubeadminPasswordSecretName (om_Name (cd_Meta cd)))) None None)) ici in
  try ici'' := perform (PatchICI ici ici') else e => Ret (ici', XRet (Some e)) in
  Ret (ici'', XRet None).

Definition setClusterInstallMetadata (ici : ImageClusterInstall) (cd : ClusterDeployment)
    : io (ImageClusterInstall * xres (option goerror)) :=
  let kubeconfigSecret := Credentials.KubeconfigSecretName (om_Name (cd_Meta cd)) in
  let kubeadminPasswordSecret := Credentials.KubeadminPasswordSecretName (om_Name (cd_Meta cd)) in
  let cm := Spec_ClusterMetadata (ici_Spec ici) in
  match metadata_complete cm kubeconfigSecret kubeadminPasswordSecret with
  | XPanic m => Ret (ici, XPanic m)
  | XRet true => Ret (ici, XRet None)
  | XRet false =>
      try (secretClusterID, secretInfraID) := Credentials.SeedReconfigSecretClusterIDs cd else e =>
        Ret (ici, XRet (Some (ErrWrap "failed to get seed reconfiguration secret: " e))) in
      write_metadata ici cd secretClusterID secretInfraID
  end.

(** ** Finalizer *)

(** [controllerutil.AddFinalizer] and [RemoveFinalizer]. *)
Definition AddFinalizer (m : ObjectMeta) (finalizer : string) : ObjectMeta * bool :=
  if bool_decide (finalizer ∈ om_Finalizers m) then (m, false)
  else (set_Finalizers (om_Finalizers m ++ [finalizer]) m, true).
Definition RemoveFinalizer (m : ObjectMeta) (finalizer : string) : ObjectMeta * bool :=
  let f := filter (λ x, x ≠ finalizer) (om_Finalizers m) in
  (set_Finalizers f m, negb (Nat.eqb (length (om_Finalizers m)) (length f))).

Definition removeFinalizer (ici : ImageClusterInstall) : io (option goerror) :=
  let '(m, removed) := RemoveFinalizer (ici_Meta ici) clusterInstallFinalizerName in
  if removed then
    try _ := perform (PatchICI ici (set_ici_Meta m ici)) else e => Ret (Some e) in Ret None
  else Ret None.

(** [(res, stop, err)]. *)
Definition fin_result : Type := Result * bool * option goerror.

(** The end of the deletion: the DataImage first, then the finalizer. *)
Definition finish_deletion (ici : ImageClusterInstall) : io fin_result :=
  match Spec_BareMetalHostRef (ici_Spec ici) with
  | None => let* e := removeFinalizer ici in Ret (res0, true, e)
  | Some ref =>
      let key := mkKey (bmhref_Namespace ref) (bmhref_Name ref) in
      let* (dataImage, err) := Common.removeBMHDataImage key in
      match err, dataImage with
      | Some e, _ =>
          Ret (res0, true, Some (ErrWrap ("failed to delete DataImage " +:+ key_Namespace key
                 +:+ "/" +:+ key_Name key +:+ ": ") e))
      | None, Some _ => Ret (requeue_after Minute, true, None)
      | None, None => let* e := removeFinalizer ici in Ret (res0, true, e)
      end
  end.

(** When it returns [stop = false] the object is unchanged. *)
Definition handleFinalizer (dataDir : string) (ici : ImageClusterInstall) : io (xres fin_result) :=
  if IsZeroTime (om_DeletionTimestamp (ici_Meta ici)) then
    let '(m, added) := AddFinalizer (ici_Meta ici) clusterInstallFinalizerName in
    if added then
      try _ := perform (PatchICI ici (set_ici_Meta m ici)) else e =>
        Ret (XRet (mkResult true 0%Z, true, Some e)) in
      Ret (XRet (mkResult true 0%Z, true, None))
    else Ret (XRet (res0, false, None))
  else
    try (lockDir, _) := InputData.configDirs dataDir ici else e => Ret (XRet (res0, true, Some e)) in
    let* st := perform (OsStat lockDir) in
    match st with
    | StatError e =>
        Ret (XRet (res0, true, Some (ErrWrap ("failed to stat config directory " +:+ lockDir +:+ ": ") e)))
    | StatNotExist _ => let* r := finish_deletion ici in Ret (XRet r)
    | StatOk =>
        let* r := FileLock.WithWriteLock lockDir
                    (let* e := perform (OsRemoveAll lockDir) in Ret (XRet e)) in
        match r with
        | XPanic m => Ret (XPanic m)
        | XRet (_, Some e, _) =>
            Ret (XRet (res0, true, Some (ErrWrap "failed to acquire file lock: " e)))
        | XRet (_, None, Some e) =>
            Ret (XRet (res0, true, Some (ErrWrap "failed to write input data: " e)))
        | XRet (locked, None, None) =>
            if negb locked then Ret (XRet (requeue_after (5 * Second)%Z, true, None))
            else let* r := finish_deletion ici in Ret (XRet r)
        end
    end.

(** ** Restore *)

Definition iciIsBeingRestored (ici : ImageClusterInstall) : bool :=
  bool_decide (is_Some (entries (om_Labels (ici_Meta ici)) !! restoreSourceLabel))
  && bool_decide (Conditions (ici_Status ici) = [])
  && bool_decide (InstallRestarts (ici_Status ici) = 0%Z)
  && bool_decide (Status_BareMetalHostRef (ici_Status ici) = None)
  && IsZeroTime (BootTime (ici_Status ici)).

(** The common body of the two annotation setters. *)
Definition ensure_annotation (ici : ImageClusterInstall) (key value : string)
    : io (ImageClusterInstall * option goerror) :=
  let '(m, added) := Common.setAnnotationIfNotExists (ici_Meta ici) key value in
  let ici' := set_ici_Meta m ici in
  if negb added then Ret (ici', None)
  else
    try ici'' := perform (PatchICI ici ici') else e => Ret (ici', Some e) in
    Ret (ici'', None).
Definition ensureRestoreStatusAnnotation (ici : ImageClusterInstall) :=
  ensure_annotation ici restoreStatusAnnotation restoreStatusAnnotationValue.
Definition ensurePostCleanupAnnotation (ici : ImageClusterInstall) :=
  ensure_annotation ici Common.postCleanupAnnotation postCleanupAnnotationValue.

(** ** Phases *)

Definition createImage (o : Options) (ici : ImageClusterInstall) (req : NamespacedName)
    (bmh : BareMetalHost) (cd : ClusterDeployment) (cond : Condition)
    : io (Condition * xres (string * Result * option goerror)) :=
  let* r := InputData.writeInputData (DataDir o) ici cd bmh in
  match r with
  | XPanic m => Ret (cond, XPanic m)
  | XRet (res, Some e) =>
      Ret (Host.set_Message "failed to create image"
             (Host.set_Reason Conditions.ImageCreationFailedReason cond), XRet ("", res, Some e))
  | XRet (res, None) =>
      if negb (IsZero res) then
        Ret (Host.set_Message "could not acquire lock for image data"
               (Host.set_Reason Conditions.ImageCreationPendingReason cond), XRet ("", res, None))
      else
        match url_JoinPath (BaseURL o)
                ["images"; key_Namespace req; om_UID (ici_Meta ici) +:+ ".iso"] with
        | Err e => Ret (Host.set_Message "failed to create image url" cond, XRet ("", res0, Some e))
        | Ok imageUrl => Ret (cond, XRet (imageUrl, res0, None))
        end
  end.

Definition outcome : Type := ImageClusterInstall * Condition * xres (Result * option goerror).

(** The third and the fourth phase: the image is created and the host configured. *)
Definition attach_image (o : Options) (req : NamespacedName) (ici : ImageClusterInstall)
    (bmh : BareMetalHost) (cd : ClusterDeployment) (cond : Condition) : io outcome :=
  let cond := Host.set_Reason Conditions.ImageCreationFailedReason cond in
  let* (cond, r) := createImage o ici req bmh cd cond in
  match r with
  | XPanic m => Ret (ici, cond, XPanic m)
  | XRet (imageUrl, res, err) =>
  if negb (IsZero res) || bool_decide (is_Some err) then Ret (ici, cond, XRet (res, err)) else
  let cond := Host.set_Reason Conditions.HostConfigurationFailedReason cond in
  let* (ici, cond, (continueReconcile, res, err)) :=
    Host.configureHost (DataImageCoolDownPeriod o) ici imageUrl bmh cond in
  if negb continueReconcile || negb (IsZero res) || bool_decide (is_Some err)
  then Ret (ici, cond, XRet (res, err))
  else
    Ret (ici,
         Host.set_Message "configuration image is attached to the referenced host"
           (Host.set_Reason Conditions.HostConfigurationSucceededReason
              (Host.set_Status ConditionTrue cond)),
         XRet (res0, None))
  end.

(** The phases of [Reconcile] between the registration of the deferred
    condition update and the return. *)
Definition reconcile_phases (o : Options) (req : NamespacedName) (ici : ImageClusterInstall)
    (cd : option ClusterDeployment) (cond : Condition) : io outcome :=
  let cond := Host.set_Reason Conditions.ConfigurationPendingReason cond in
  let* (cond, r) := Host.validateConfiguration ici cd cond in
  match r, cd with
  | Err e, _ => Ret (ici, cond, XRet (res0, Some e))
  | Ok None, _ | Ok _, None => Ret (ici, cond, XRet (res0, None))
  | Ok (Some bmh), Some cd =>
  let cond := Host.set_Reason Conditions.HostValidationFailedReason cond in
  let* (cond, bmh, (res, err)) := Host.validateHost ici bmh cond in
  if negb (IsZero res) || bool_decide (is_Some err) then Ret (ici, cond, XRet (res, err)) else
  let* (ici, r) := setClusterInstallMetadata ici cd in
  match r with
  | XPanic m => Ret (ici, cond, XPanic m)
  | XRet (Some e) =>
      Ret (ici, Host.set_Message "failed to set ClusterMetaData in ImageClusterInstall" cond,
           XRet (res0, Some e))
  | XRet None =>
  attach_image o req ici bmh cd cond
  end end.

(** The phases with the deferred [setRequirementsMetCondition]. *)
Definition reconcile_deferred (o : Options) (req : NamespacedName) (ici : ImageClusterInstall)
    (cd : option ClusterDeployment) : io (xres (Result * option goerror)) :=
  let cond := Conditions.cond_lit ClusterInstallRequirementsMet ConditionFalse "Unknown" "Unknown" in
  let* (ici', cond', r) := reconcile_phases o req ici cd cond in
  let* _ := Conditions.setRequirementsMetCondition ici' (c_Status cond') (c_Reason cond')
              (c_Message cond') in
  Ret r.

(** [Reconcile] from the restore check on. *)
Definition reconcile_install (o : Options) (req : NamespacedName) (ici : ImageClusterInstall)
    (cd : option ClusterDeployment) : io (xres (Result * option goerror)) :=
  if iciIsBeingRestored ici then Ret (XRet (res0, None))
  else
    let* (ici, err) := ensureRestoreStatusAnnotation ici in
    match err with
    | Some e => Ret (XRet (res0, Some e))
    | None =>
    let* (ici, err) := ensurePostCleanupAnnotation ici in
    match err with
    | Some e => Ret (XRet (res0, Some e))
    | None =>
    let* (ici, err) := Conditions.initializeConditions ici in
    match err with
    | Some e => Ret (XRet (res0, Some e))
    | None => reconcile_deferred o req ici cd
    end end end.

(** The early return of an installation that has booted: the condition is
    corrected, and nothing is left to do when the image is still there. *)
Definition reconcile_booted (o : Options) (ici : ImageClusterInstall) : io (ImageClusterInstall * bool) :=
  let* ici := match Conditions.findCondition (Conditions (ici_Status ici)) ClusterInstallRequirementsMet with
              | Some cond =>
                  if bool_decide (c_Status cond = ConditionFalse)
                  then Conditions.setRequirementsMetCondition ici ConditionTrue
                         Conditions.HostConfigurationSucceededReason
                         "configuration image is attached to the referenced host"
                  else Ret ici
              | None => Ret ici
              end in
  let* ready := InputData.verifyIsoAndAuthExists
                  (InputData.GetClusterConfigDir (filepath_Join [DataDir o; "namespaces"])
                     (om_Namespace (ici_Meta ici)) (om_UID (ici_Meta ici))) in
  Ret (ici, ready).

(** [getCD], guarded by the reference: an error is logged and leaves no deployment. *)
Definition get_cd (ici : ImageClusterInstall) : io (option ClusterDeployment) :=
  match ClusterDeploymentRef (ici_Spec ici) with
  | None => Ret None
  | Some name =>
      if bool_decide (name = "") then Ret None
      else
        try cd := perform (GetCD (mkKey (om_Namespace (ici_Meta ici)) name)) else _e => Ret None in
        Ret (Some cd)
  end.

(** [Reconcile] once the object is read. *)
Definition reconcile_read (o : Options) (req : NamespacedName) (ici : ImageClusterInstall)
    : io (xres (Result * option goerror)) :=
  let* fin := handleFinalizer (DataDir o) ici in
  match fin with
  | XPanic m => Ret (XPanic m)
  | XRet (res, stop, err) =>
  if negb (IsZero res) || stop || bool_decide (is_Some err) then Ret (XRet (res, err)) else
  let* cd := get_cd ici in
  let* _ := Host.labelReferencedObjectsForBackup ici cd in
  if Conditions.InstallationCompleted ici then
    try res := Common.handlePostCleanup ici else e => Ret (XRet (res0, Some e)) in
    Ret (XRet (res, None))
  else if negb (IsZeroTime (BootTime (ici_Status ici))) then
    let* (ici, ready) := reconcile_booted o ici in
    if (ready : bool) then Ret (XRet (res0, None)) else reconcile_install o req ici cd
  else reconcile_install o req ici cd
  end.

Definition Reconcile (o : Options) (req : NamespacedName) : io (xres (Result * option goerror)) :=
  try ici := perform (GetICI req) else e =>
    Ret (XRet (res0, if IsNotFound e then None else Some e)) in
  reconcile_read o req ici.

(** ** Properties *)

(** *** Cluster metadata *)

(** An ID is kept if it is set; otherwise it is the one of the seed secret; only
    without either is it fresh. *)
Definition id_choice (old : option string) (secret : string) (fresh : string → Prop) (new : string) : Prop :=
  if bool_decide (default "" old = "") then
    if bool_decide (secret = "") then fresh new else new = secret
  else new = default "" old.

(** The IDs the seed reconfiguration secret was seen with, empty without it. *)
Definition seed_ids (cd : ClusterDeployment) (h : trace) (clusterID infraID : string) : Prop :=
  let ref := Credentials.cred_ref cd Credentials.SeedReconfig in
  ∃ x v b, Ev (GetSecret CachedClient ref) x ∈ h ∧
    Credentials.content_answer ref Credentials.SeedReconfigurationFileName x = Ok (v, b) ∧
    if b then ∃ sr, json_UnmarshalSeedReconfiguration v = Ok sr ∧
                    clusterID = sr_ClusterID sr ∧ infraID = sr_InfraID sr
    else clusterID = "" ∧ infraID = "".

Definition fresh_uuid (h : trace) (id : string) : Prop := Ev NewUUID id ∈ h.
Definition fresh_infra (cd : ClusterDeployment) (h : trace) (id : string) : Prop :=
  ∃ suffix, Ev (RandString 5) suffix ∈ h ∧
            id = of_bytes (infra_base (cd_ClusterName cd)) +:+ "-" +:+ suffix.

Definition metadata_patch (cd : ClusterDeployment) (h : trace) (p n : ImageClusterInstall) : Prop :=
  let old := Spec_ClusterMetadata (ici_Spec p) in
  ∃ cm secretClusterID secretInfraID,
    n = set_Spec_ClusterMetadata (Some cm) p ∧
    AdminKubeconfigSecretRef cm = Credentials.KubeconfigSecretName (om_Name (cd_Meta cd)) ∧
    AdminPasswordSecretRef cm = Some (Credentials.KubeadminPasswordSecretName (om_Name (cd_Meta cd))) ∧
    seed_ids cd h secretClusterID secretInfraID ∧
    id_choice (ClusterID <$> old) secretClusterID (fresh_uuid h) (ClusterID cm) ∧
    id_choice (InfraID <$> old) secretInfraID (fresh_infra cd h) (InfraID cm).

Definition metadata_guard (ici : ImageClusterInstall) (cd : ClusterDeployment) (h : trace) (a : call) : Prop :=
  match a with
  | GetSecret CachedClient k => k = Credentials.cred_ref cd Credentials.SeedReconfig
  | NewUUID | RandString _ => True
  | PatchICI p n => p = ici ∧ metadata_patch cd h p n
  | _ => False
  end.

Lemma id_choice_mono old secret (F F' : string → Prop) new :
  (∀ i, F i → F' i) → id_choice old secret F new → id_choice old secret F' new.
Proof. unfold id_choice. intros. repeat case_bool_decide; auto. Qed.

Lemma wp_choose_id G old secret fresh (P : string → trace → Prop) h :
  wp G fresh h P →
  wp G (choose_id old secret fresh) h (λ id h', id_choice old secret (λ i, P i h') id).
Proof.
  intros Hf. unfold choose_id, id_choice.
  destruct old as [id|]; simpl; repeat case_bool_decide; subst; simpl; done.
Qed.

Lemma metadata_complete_spec cm k p :
  match metadata_complete cm k p with
  | XRet true => ∃ m, cm = Some m ∧ ClusterID m ≠ "" ∧ InfraID m ≠ "" ∧
                      AdminKubeconfigSecretRef m = k ∧ AdminPasswordSecretRef m = Some p
  | XPanic _ => ∃ m, cm = Some m ∧ ClusterID m ≠ "" ∧ InfraID m ≠ "" ∧
                     AdminKubeconfigSecretRef m = k ∧ AdminPasswordSecretRef m = None
  | XRet false => True
  end.
Proof.
  unfold metadata_complete. destruct cm as [m|]; [|done].
  destruct (_ && _) eqn:Hb; [|done]. bools. destruct (AdminPasswordSecretRef m) as [n|] eqn:Hn.
  - case_bool_decide; [|done]. subst. by exists m.
  - by exists m.
Qed.

(** Everything is set but the reference to the password secret. *)
Definition nil_password (ici : ImageClusterInstall) (cd : ClusterDeployment) : Prop :=
  ∃ m, Spec_ClusterMetadata (ici_Spec ici) = Some m ∧ ClusterID m ≠ "" ∧ InfraID m ≠ "" ∧
       AdminKubeconfigSecretRef m = Credentials.KubeconfigSecretName (om_Name (cd_Meta cd)) ∧
       AdminPasswordSecretRef m = None.

Lemma wp_write_metadata ici cd secretC secretI h :
  seed_ids cd h secretC secretI →
  wp (metadata_guard ici cd) (write_metadata ici cd secretC secretI) h (λ r h',
    (known ici h → known r.1 h') ∧ match r.2 with XPanic _ => False | XRet _ => True end).
Proof.
  intros (y&v&b&Hy&Hids). unfold write_metadata.
  wp_use (wp_choose_id (metadata_guard ici cd) (ClusterID <$> Spec_ClusterMetadata (ici_Spec ici)) secretC
            (perform NewUUID) (λ id h', fresh_uuid h' id)).
  { wp_call; [done|]. cbn [wp]. unfold fresh_uuid. hist. }
  intros clusterID h2 [Hc [t2 ->]].
  wp_use (wp_choose_id (metadata_guard ici cd) (InfraID <$> Spec_ClusterMetadata (ici_Spec ici)) secretI
            (generateInfraID (cd_ClusterName cd)) (λ id h', fresh_infra cd h' id)).
  { unfold generateInfraID. wp_call; [done|]. cbn [wp]. eexists; split; [hist|done]. }
  intros infraID h3 [Hi [t3 ->]]. wp_call.
  - split; [done|]. eexists _, secretC, secretI. split_and!; try done.
    + exists y, v, b. split; [hist|done].
    + eapply id_choice_mono; [|exact Hc]. unfold fresh_uuid. intros i ?. hist.
  - destruct x as [i|e]; (split; [cbn [fst]; intros Hk|done]); [eapply known_decoded; [hist|done]|].
    eapply known_similar; [by apply similar_conditions|by do 3 apply known_app].
Qed.

Lemma wp_setClusterInstallMetadata ici cd h :
  wp (metadata_guard ici cd) (setClusterInstallMetadata ici cd) h (λ r h',
    (known ici h → known r.1 h') ∧ match r.2 with XPanic _ => nil_password ici cd | XRet _ => True end).
Proof.
  unfold setClusterInstallMetadata.
  pose proof (metadata_complete_spec (Spec_ClusterMetadata (ici_Spec ici))
    (Credentials.KubeconfigSecretName (om_Name (cd_Meta cd)))
    (Credentials.KubeadminPasswordSecretName (om_Name (cd_Meta cd)))) as Hcomplete.
  destruct (metadata_complete _ _ _) as [[]|m]; [done| |done]. clear Hcomplete.
  unfold Credentials.SeedReconfigSecretClusterIDs, Credentials.getSecretContent.
  set (ref := mkKey _ _). wp_call; [done|].
  set (h1 := h ++ [_]). assert (Hk1 : known ici h → known ici h1) by apply known_app.
  assert (Hread : Ev (GetSecret CachedClient ref) x ∈ h1) by (unfold h1; hist).
  assert (Hcont : ∀ secretC secretI, seed_ids cd h1 secretC secretI →
    wp (metadata_guard ici cd) (write_metadata ici cd secretC secretI) h1 (λ r h',
      (known ici h → known r.1 h') ∧ match r.2 with XPanic _ => nil_password ici cd | XRet _ => True end)).
  { intros secretC secretI Hids. eapply wp_wand; [by apply wp_write_metadata|].
    intros [i [e|m]] h' [Hk' Hm]; [|done]. split; [|done]. intros Hk. apply Hk', Hk1, Hk. }
  assert (Hans : Credentials.content_answer ref Credentials.SeedReconfigurationFileName x =
    Credentials.content_answer ref Credentials.SeedReconfigurationFileName x) by done.
  unfold Credentials.content_answer at 1 in Hans. destruct x as [s|e].
  - destruct (entries (secret_Data s) !! _) as [v|]; cbn [prog_bind].
    + case_bool_decide; cbn [negb] in *.
      * apply Hcont. by exists (Ok s), v, false.
      * destruct (json_UnmarshalSeedReconfiguration v) as [sr|e] eqn:Hsr; cbn [prog_bind]; [|by split; [exact Hk1|]].
        apply Hcont. exists (Ok s), v, true. split_and!; [done..|]. by exists sr.
    + apply Hcont. by exists (Ok s), "", false.
  - destruct (IsNotFound e) eqn:He; cbn [prog_bind]; [|by split; [exact Hk1|]]. apply Hcont. by exists (Err e), "", false.
Qed.

(** C16: the identity of a cluster never changes once it is chosen.  When the
    cluster metadata is complete nothing is sent.  Otherwise the only request
    that changes the cluster is one patch that sets both IDs and both secret
    names: an ID that is already set is kept, else the ID of a previous
    installation (the seed reconfiguration secret) is used, and only without
    either is a new one generated.  The function panics exactly when everything
    is set except the password reference, which is nil. *)
Theorem metadata_ids_stable ici cd t ici' r :
  exec (setClusterInstallMetadata ici cd) t (ici', r) →
  (∀ t1 ev t2, t = t1 ++ ev :: t2 → metadata_guard ici cd t1 (ev_call ev)) ∧
  (∀ m, Spec_ClusterMetadata (ici_Spec ici) = Some m → ClusterID m ≠ "" → InfraID m ≠ "" →
     AdminKubeconfigSecretRef m = Credentials.KubeconfigSecretName (om_Name (cd_Meta cd)) →
     AdminPasswordSecretRef m = Some (Credentials.KubeadminPasswordSecretName (om_Name (cd_Meta cd))) →
     t = [] ∧ ici' = ici ∧ r = XRet None) ∧
  ((∃ msg, r = XPanic msg) ↔ nil_password ici cd).
Proof.
  intros He. destruct (wp_exec _ _ [] _ _ _ (wp_setClusterInstallMetadata ici cd []) He) as [[_ HQ] HG].
  split_and!; [done| |split].
  - intros m Hm Hc Hi Hk Hp. unfold setClusterInstallMetadata, metadata_complete in He. rewrite Hm, Hp in He.
    rewrite !bool_decide_eq_false_2, (bool_decide_eq_true_2 _ Hk), bool_decide_eq_true_2 in He by done.
    by destruct He as [-> [= -> ->]].
  - by intros [msg ->].
  - intros (m&Hm&Hc&Hi&Hk&Hp). unfold setClusterInstallMetadata, metadata_complete in He. rewrite Hm, Hp in He.
    rewrite !bool_decide_eq_false_2, (bool_decide_eq_true_2 _ Hk) in He by done.
    destruct He as [-> [= -> ->]]. eauto.
Qed.

(** *** Infrastructure IDs *)

Lemma rune_width_pos c s : 1 ≤ rune_width (c :: s).
Proof. unfold rune_width. repeat case_match; lia. Qed.

(** The length of the text is fuel enough: more does not change the result. *)
Lemma replace_invalid_fuel fuel s :
  length s ≤ fuel → replace_invalid fuel s = replace_invalid (length s) s.
Proof.
  remember (length s) as n eqn:Hn. assert (Hle : length s ≤ n) by lia. clear Hn.
  revert fuel s Hle. induction n as [|n IH]; intros fuel s Hle Hf.
  - destruct s; [|simpl in *; lia]. by destruct fuel.
  - destruct s as [|c s]; [by destruct fuel|]. destruct fuel as [|fuel]; [lia|].
    cbn [replace_invalid]. f_equal. pose proof (rune_width_pos c s).
    apply IH; rewrite ?length_drop; simpl in *; lia.
Qed.

Lemma replace_invalid_chars fuel s : Forall (λ c, is_infra_char c = true) (replace_invalid fuel s).
Proof.
  revert s. induction fuel as [|fuel IH]; intros [|c s]; cbn [replace_invalid]; try constructor.
  - by destruct (is_infra_char c) eqn:Hc.
  - apply IH.
Qed.

(** No two dashes in a row. *)
Fixpoint single_dashes (s : list ascii) : Prop :=
  match s with
  | [] => True
  | c :: r => ¬ (c = "-"%char ∧ head r = Some "-"%char) ∧ single_dashes r
  end.

Lemma collapse_dashes_spec s :
  single_dashes (collapse_dashes s) ∧ head (collapse_dashes s) = head s ∧
  (∀ P : ascii → Prop, Forall P s → Forall P (collapse_dashes s)).
Proof.
  induction s as [|c r (IH1&IH2&IH3)]; [done|]. cbn [collapse_dashes].
  destruct (_ && _) eqn:Hd.
  - bools. subst. rewrite IH2. split_and!; [done..|]. intros P HP. apply IH3. by inversion HP.
  - split_and!; [|done|].
    + cbn [single_dashes]. split; [|done]. rewrite IH2. intros [-> Hh].
      by rewrite !bool_decide_eq_true_2 in Hd.
    + intros P HP. inversion HP; subst. constructor; auto.
Qed.

Lemma collapse_dashes_id s : single_dashes s → collapse_dashes s = s.
Proof.
  induction s as [|c r IH]; [done|]. cbn [single_dashes collapse_dashes]. intros [Hno Hr].
  destruct (_ && _) eqn:Hd; [bools; tauto|]. by rewrite IH.
Qed.

Lemma single_dashes_prefix k s : single_dashes s → single_dashes (take k s).
Proof.
  revert k. induction s as [|c r IH]; intros [|k]; try done. cbn [take single_dashes].
  intros [Hno Hr]. split; [|auto]. intros [-> Hh]. apply Hno. split; [done|].
  destruct r, k; simpl in *; congruence.
Qed.

(** [TrimRight] keeps a prefix that does not end in the character. *)
Lemma trim_right_spec c s :
  ∃ k, trim_right_bytes c s = take k s ∧ last (trim_right_bytes c s) ≠ Some c.
Proof.
  unfold trim_right_bytes. induction s as [|x s IH] using rev_ind; [by exists 0|].
  rewrite reverse_app. simpl. case_bool_decide as Hx.
  - destruct IH as (k&Hk&Hl). exists (k `min` length s). rewrite Hk in *. split; [|by rewrite <- Hk in *].
    rewrite take_app_le by lia. by rewrite <- (take_take _ k), (take_ge s (length s)).
  - exists (length (s ++ [x])). rewrite take_ge by lia.
    assert (Heq : reverse (x :: reverse s) = s ++ [x]) by (by rewrite reverse_cons, reverse_involutive).
    rewrite Heq. split; [done|]. rewrite last_snoc. congruence.
Qed.

Lemma trim_right_id c s : last s ≠ Some c → trim_right_bytes c s = s.
Proof.
  unfold trim_right_bytes. induction s as [|x s _] using rev_ind; [done|]. rewrite last_snoc.
  intros Hx. rewrite reverse_app. simpl. rewrite bool_decide_eq_false_2 by congruence.
  by rewrite reverse_cons, reverse_involutive.
Qed.

Lemma replace_invalid_id s :
  Forall (λ c, is_infra_char c = true) s → replace_invalid (length s) s = s.
Proof.
  induction 1 as [|c s Hc Hs IH]; [done|]. cbn [length replace_invalid]. rewrite Hc.
  assert (Hw : rune_width (c :: s) = 1).
  { unfold rune_width. unfold is_infra_char in Hc.
    assert (Hn : nat_of_ascii c < 194).
    { apply orb_true_iff in Hc as [Hc|Hc].
      - repeat (apply orb_true_iff in Hc as [Hc|Hc]); apply andb_true_iff in Hc as [_ Hc%Nat.leb_le]; lia.
      - bools. subst. vm_compute. lia. }
    replace (Nat.leb 194 (nat_of_ascii c)) with false by (symmetry; apply Nat.leb_gt; lia).
    replace (Nat.leb 224 (nat_of_ascii c)) with false by (symmetry; apply Nat.leb_gt; lia).
    by replace (Nat.leb 240 (nat_of_ascii c)) with false by (symmetry; apply Nat.leb_gt; lia). }
  rewrite Hw. simpl. by rewrite drop_0, IH.
Qed.

(** A base that needs no change: short enough, only letters, digits and single
    dashes, and no dash at its end. *)
Definition clean_base (s : list ascii) : Prop :=
  length s ≤ maxBaseLen ∧ Forall (λ c, is_infra_char c = true) s ∧ single_dashes s ∧ last s ≠ Some "-"%char.

(** The base of a generated infrastructure ID is always clean: at most 21
    characters, only ASCII letters, digits and dashes, no two dashes in a row and
    none at the end; a cluster name that is already clean is used as it is.  The
    generated ID is the base, a dash and the random suffix. *)
Theorem infra_base_clean base :
  clean_base (infra_base base) ∧
  (clean_base (bytes_of base) → infra_base base = bytes_of base) ∧
  (∀ t id, exec (generateInfraID base) t id →
     ∃ suffix, t = [Ev (RandString 5) suffix] ∧ id = of_bytes (infra_base base) +:+ "-" +:+ suffix).
Proof.
  split_and!.
  - unfold infra_base. set (s := collapse_dashes _). destruct (collapse_dashes_spec (replace_invalid
      (length (bytes_of base)) (bytes_of base))) as (Hs&_&Hf). fold s in Hs, Hf.
    specialize (Hf _ (replace_invalid_chars _ _)). destruct (trim_right_spec "-"%char (take maxBaseLen s)) as (k&Hk&Hl).
    unfold clean_base. split_and!; [|rewrite Hk; by apply Forall_take, Forall_take
      |rewrite Hk; by do 2 apply single_dashes_prefix|done].
    rewrite Hk, !length_take. lia.
  - intros (Hlen&Hch&Hd&Hl). unfold infra_base. rewrite (replace_invalid_id _ Hch), (collapse_dashes_id _ Hd).
    rewrite take_ge by done. by apply trim_right_id.
  - unfold generateInfraID. intros t id (suffix&t'&->&->&->). by exists suffix.
Qed.

(** *** Finalizer *)

Definition deleted (ici : ImageClusterInstall) : bool :=
  negb (IsZeroTime (om_DeletionTimestamp (ici_Meta ici))).

(** The configuration directory is gone. *)
Definition files_removed (dataDir : string) (ici : ImageClusterInstall) (h : trace) : Prop :=
  let dir := InputData.lock_dir dataDir ici in
  (∃ e, Ev (OsStat dir) (StatNotExist e) ∈ h) ∨ Ev (OsRemoveAll dir) None ∈ h.

(** There is no host, or its DataImage is gone. *)
Definition host_released (ici : ImageClusterInstall) (h : trace) : Prop :=
  ∀ ref, Spec_BareMetalHostRef (ici_Spec ici) = Some ref →
    Common.image_gone (mkKey (bmhref_Namespace ref) (bmhref_Name ref)) h.

(** What the deletion of [ici] may do. *)
Definition deletion_guard (dataDir : string) (ici : ImageClusterInstall) (h : trace) (a : call) : Prop :=
  let dir := InputData.lock_dir dataDir ici in
  match a with
  | PatchICI p n =>
      p = ici ∧ n = set_ici_Meta (RemoveFinalizer (ici_Meta ici) clusterInstallFinalizerName).1 ici ∧
      files_removed dataDir ici h ∧ host_released ici h
  | OsRemoveAll d => d = dir ∧ ∃ h', h = h' ++ [Ev (FlockTryLock (FileLock.lock_file dir)) (Ok true)]
  | OsMkdirAll _ _ | OsStat _ => True
  | GetDataImage _ | GetBMH _ | DeleteDataImage _ | PatchBMH _ _ =>
      files_removed dataDir ici h ∧
      ∃ ref, Spec_BareMetalHostRef (ici_Spec ici) = Some ref ∧
             Common.removal_guard (mkKey (bmhref_Namespace ref) (bmhref_Name ref)) h a
  | _ => FileLock.lock_call (FileLock.lock_file dir) a
  end.

Lemma wp_removeFinalizer dataDir ici h :
  files_removed dataDir ici h → host_released ici h →
  wp (deletion_guard dataDir ici) (removeFinalizer ici) h (λ _ _, True).
Proof.
  intros ??. unfold removeFinalizer. simpl. destruct (negb _); [|done].
  wp_call; [done|]. by destruct x.
Qed.

Lemma wp_finish_deletion dataDir ici h :
  files_removed dataDir ici h →
  wp (deletion_guard dataDir ici) (finish_deletion ici) h (λ r _, r.1.2 = true).
Proof.
  intros Hf. unfold finish_deletion. destruct (Spec_BareMetalHostRef (ici_Spec ici)) as [ref|] eqn:Href.
  - rewrite wp_bind. set (key := mkKey _ _).
    assert (Hmono : ∀ h' t, files_removed dataDir ici h' → files_removed dataDir ici (h' ++ t)).
    { intros h' t [[e ?]|?]; [left; exists e; hist|right; hist]. }
    pose proof (Common.wp_removeBMHDataImage key h) as Hw.
    eapply (wp_invariant _ (files_removed dataDir ici)) in Hw; [|by intros; apply Hmono|done].
    eapply wp_mono; [| |exact Hw].
    + intros h' a [Hg Hi]. destruct a; try done; simpl; (split; [done|]); by exists ref.
    + intros [di err] h' [Hr Hi]. destruct err as [e|]; [done|]. destruct di as [d|]; [done|].
      rewrite wp_bind. eapply wp_wand; [eapply wp_removeFinalizer; [done|]|done].
      intros ref' Href'. rewrite Href in Href'. by injection Href' as <-.
  - rewrite wp_bind. eapply wp_wand; [eapply wp_removeFinalizer; [done|]|done].
    intros ref' Href'. congruence.
Qed.

Definition add_finalizer_guard (ici : ImageClusterInstall) (a : call) : Prop :=
  ∃ n, a = PatchICI ici n ∧ n = set_ici_Meta (AddFinalizer (ici_Meta ici) clusterInstallFinalizerName).1 ici
       ∧ (clusterInstallFinalizerName ∉ om_Finalizers (ici_Meta ici)).

Lemma wp_handleFinalizer dataDir ici h :
  wp (λ h' a, if deleted ici then deletion_guard dataDir ici h' a else add_finalizer_guard ici a)
    (handleFinalizer dataDir ici) h
    (λ r h', match r with
             | XRet (res, stop, err) => stop = true ∨
                 (deleted ici = false ∧ clusterInstallFinalizerName ∈ om_Finalizers (ici_Meta ici) ∧ h' = h)
             | XPanic _ => False
             end).
Proof.
  unfold handleFinalizer, deleted. destruct (IsZeroTime _) eqn:Hz; cbn [negb].
  - unfold AddFinalizer. case_bool_decide as Hin; simpl; [by right|].
    split; [eexists; split_and!; [done| |done]|intros [i|e]; by left].
    unfold AddFinalizer. by rewrite bool_decide_eq_false_2.
  - unfold InputData.configDirs. wp_call; [done|]. destruct x as [e|]; [by left|].
    set (dir := InputData.lock_dir dataDir ici). cbn [prog_bind]. wp_call; [done|].
    destruct x as [|e|e].
    + rewrite wp_bind. eapply FileLock.wp_WithWriteLock; fold dir.
      * intros h' a [[->| ->]|[->| ->]]; simpl; unfold FileLock.lock_call, FileLock.lock_setup; auto.
      * intros t. wp_call.
        { simpl. split; [done|]. eexists. by rewrite app_assoc. }
        cbn [wp]. intros ue. destruct x as [e|]; cbn [wp negb]; [by left|]. rewrite wp_bind.
        eapply wp_wand; [apply wp_finish_deletion; right; hist|].
        intros [[res stop] err] h' Hs. left. exact Hs.
      * intros t [e|]; cbn [wp]; by left.
    + rewrite wp_bind. eapply wp_wand; [apply wp_finish_deletion; left; exists e; hist|].
      intros [[res stop] err] h' Hs. left. exact Hs.
    + by left.
Qed.

(** *** Installation *)

(** The image of the object the run works on is complete. *)
Definition built (o : Options) (h : trace) : Prop :=
  ∃ ici cd, known ici h ∧ InputData.image_ready (DataDir o) ici cd h.

(** The URL the image server serves the image of [ici] at. *)
Definition image_url (o : Options) (req : NamespacedName) (ici : ImageClusterInstall) : result string :=
  url_JoinPath (BaseURL o) ["images"; key_Namespace req; om_UID (ici_Meta ici) +:+ ".iso"].

(** The image is complete, the DataImage of the object's host has settled and the
    host is started. *)
Definition attached (o : Options) (h : trace) : Prop :=
  built o h ∧ ∃ b d, host_known b h ∧ Host.host_started b h ∧
    Host.image_settled (meta_key (bmh_Meta b)) (DataImageCoolDownPeriod o) d h.

Lemma built_app o h t : built o h → built o (h ++ t).
Proof. intros (i&cd&?&?). exists i, cd. split; [by apply known_app|by apply InputData.image_ready_app]. Qed.

Lemma attached_app o h t : attached o h → attached o (h ++ t).
Proof.
  intros [? (b&d&?&?&?)]. split; [by apply built_app|]. exists b, d.
  split_and!; [by apply host_known_app|by apply Host.host_started_app|by apply Host.image_settled_app].
Qed.

(** The changes of a host during an installation. *)
Definition host_patch (o : Options) (h : trace) (p n : BareMetalHost) : Prop :=
  host_known p h ∧
  ((n = set_AutomatedCleaningMode CleaningModeDisabled p) ∨
  (n = set_ExternallyProvisioned true p ∧ bmh_ExternallyProvisioned p = false ∧
   Host.cleaning_disabled p h ∧ ∃ ici, known ici h ∧ Host.host_valid ici p) ∨
  (∃ d, n = Host.booted_host p d ∧ Host.managed p = false ∧ built o h ∧
        (∃ ici b, known ici h ∧ Host.taken_over ici b p h ∧ Host.cleaning_disabled b h) ∧
        Host.image_settled (meta_key (bmh_Meta p)) (DataImageCoolDownPeriod o) d h)).

Definition annotation_patch (p n : ImageClusterInstall) : Prop :=
  ∃ k v, (k = restoreStatusAnnotation ∨ k = Common.postCleanupAnnotation) ∧
         n = set_ici_Meta (Common.setAnnotationIfNotExists (ici_Meta p) k v).1 p.

(** The patch that records the host and the boot time. *)
Definition boot_patch (o : Options) (h : trace) (p n : ImageClusterInstall) : Prop :=
  Status_BareMetalHostRef (ici_Status p) = None ∧ attached o h ∧
  ∃ boot, n = set_BootTime boot (set_Status_BareMetalHostRef (Spec_BareMetalHostRef (ici_Spec p)) p) ∧
          (BootTime (ici_Status p) ≠ 0%Z → boot = BootTime (ici_Status p)).

Definition status_patch_ok (o : Options) (i : ImageClusterInstall) (h : trace) (p n : ImageClusterInstall) : Prop :=
  Conditions.init_patch p n ∨ boot_patch o h p n ∨
  ∃ st reason msg, Conditions.requirements_patch st reason msg p n ∧
    (st = ConditionTrue → attached o h ∨ BootTime (ici_Status i) ≠ 0%Z).

(** A status patch keeps what the object claims but RequirementsMet, and sets a
    boot time only once the installation is attached. *)
Lemma status_patch_similar o i h p n :
  status_patch_ok o i h p n →
  similar n p ∧ (BootTime (ici_Status n) = BootTime (ici_Status p) ∨ attached o h).
Proof.
  intros [H|[(_&Hatt&boot&->&_)|(st&reason&msg&H&_)]].
  - split; [by apply Conditions.init_patch_similar|left]. by destruct H as (added&->&_).
  - split; [by apply similar_conditions|by right].
  - split; [by eapply Conditions.requirements_patch_similar|left]. by destruct H as [now ->].
Qed.

(** Calls that change neither the cluster nor the file system nor a lock, and do
    not read an ImageClusterInstall. *)
Definition read_call (a : call) : bool := InputData.quiet a && negb (fs_write a).

(** What the installation of [i] may do. *)
Definition install_guard (o : Options) (req : NamespacedName) (i : ImageClusterInstall)
    (h : trace) (a : call) : Prop :=
  match a with
  | PatchICI p n => known p h ∧ (annotation_patch p n ∨ ∃ cd, metadata_patch cd h p n)
  | StatusPatchICI p n => known p h ∧ status_patch_ok o i h p n
  | PatchBMH p n => host_patch o h p n
  | CreateDataImage d =>
      ∃ ici cd url, known ici h ∧ InputData.image_ready (DataDir o) ici cd h ∧
        image_url o req ici = Ok url ∧ di_URL d = url ∧
        (∃ b, host_known b h ∧ meta_key (di_Meta d) = meta_key (bmh_Meta b)) ∧
        ∃ e, Ev (GetDataImage (meta_key (di_Meta d))) (Err e) ∈ h ∧ IsNotFound e = true
  | _ => read_call a = true ∨ ∃ ici cd, known ici h ∧ InputData.input_guard (DataDir o) ici cd h a
  end.

Lemma wp_createImage o ici req bmh cd cond h :
  known ici h →
  wp (λ h' a, known ici h' ∧ InputData.input_guard (DataDir o) ici cd h' a)
    (createImage o ici req bmh cd cond) h
    (λ r h', c_Status r.1 = c_Status cond ∧ known ici h' ∧
       match r.2 with
       | XRet (url, res, None) => IsZero res = true →
           InputData.image_ready (DataDir o) ici cd h' ∧ image_url o req ici = Ok url
       | _ => True
       end).
Proof.
  intros Hk. unfold createImage. rewrite wp_bind.
  pose proof (InputData.wp_writeInputData (DataDir o) ici cd bmh h) as Hw.
  eapply (wp_invariant _ (known ici)) in Hw; [|intros; by apply known_app|done].
  eapply wp_mono; [| |exact Hw]; [intros h' a [? ?]; done|].
  intros r h' [Hr Hk']. destruct r as [[res [e|]]|m]; [done| |done].
  destruct (IsZero res) eqn:Hz; cbn [negb].
  - fold (image_url o req ici). destruct (image_url o req ici) as [url|e]; cbn [wp]; [|done].
    split_and!; [done..|]. intros _. auto.
  - cbn [wp]. split_and!; [done..|]. simpl. intros ?. congruence.
Qed.

Lemma input_install_guard o req i ici cd h a :
  known ici h → InputData.input_guard (DataDir o) ici cd h a → install_guard o req i h a.
Proof.
  intros Hk Ha. unfold install_guard.
  assert (Hother : read_call a = true ∨ ∃ ici cd, known ici h ∧ InputData.input_guard (DataDir o) ici cd h a)
    by (right; eauto).
  destruct a; try exact Hother; exfalso.
  all: destruct Ha as [Ha|[[[Ha|Ha]|[Ha|Ha]]|[Ha _]]]; done.
Qed.

Lemma read_install_guard o req i h a : read_call a = true → install_guard o req i h a.
Proof. destruct a; try done; by left. Qed.

Definition phases_ok (o : Options) (cond : Condition) (r : outcome) (h : trace) : Prop :=
  let '(ici', cond', res) := r in
  known ici' h ∧
  (c_Status cond' = c_Status cond ∨
   (c_Status cond' = ConditionTrue ∧ res = XRet (res0, None) ∧ attached o h)).

(** The host of the object that was validated is taken over as [b2]. *)
Definition host_taken (b2 : BareMetalHost) (h : trace) : Prop :=
  host_known b2 h ∧ ∃ ici b, known ici h ∧ Host.taken_over ici b b2 h ∧ Host.cleaning_disabled b h.

Lemma cleaning_disabled_app b h t : Host.cleaning_disabled b h → Host.cleaning_disabled b (h ++ t).
Proof. intros [?|[o' ?]]; [by left|right]. exists o'. hist. Qed.

Lemma host_taken_app b2 h t : host_taken b2 h → host_taken b2 (h ++ t).
Proof.
  intros (Hk&ici&b&Hi&Ht&Hc). split; [by apply host_known_app|]. exists ici, b.
  split_and!; [by apply known_app| |by apply cleaning_disabled_app].
  destruct Ht as [?|(?&?&?)]; [by left|right]. split_and!; [done..|hist].
Qed.

Lemma wp_attach_image o req i ici b2 cd cond h :
  known ici h → host_taken b2 h →
  wp (install_guard o req i) (attach_image o req ici b2 cd cond) h (phases_ok o cond).
Proof.
  intros Hk Htaken. unfold attach_image. rewrite wp_bind.
  eapply wp_mono; [| |apply wp_prefix, wp_createImage, Hk].
  { intros h' a [??]. by eapply input_install_guard. }
  intros [cond3 r] h4 [(Hs4&Hk4&Himg) [t4 ->]]. simpl in Hs4, Himg. apply (host_taken_app _ _ t4) in Htaken.
  destruct r as [[[url res'] err]|m]; [|by split; [|left]].
  destruct (negb (IsZero res') || _) eqn:Hstop; [by split; [|left]|]. bools.
  destruct err as [e|]; [by match goal with H : ¬ is_Some (Some _) |- _ => destruct H end|].
  destruct (Himg ltac:(done)) as [Hready Hurl]. clear Himg.
  rewrite wp_bind. set (h4 := h ++ t4) in *. clearbody h4.
  pose proof (Host.wp_configureHost (DataImageCoolDownPeriod o) ici url b2
    (Host.set_Reason Conditions.HostConfigurationFailedReason cond3) h4) as Hw.
  set (I h' := known ici h' ∧ InputData.image_ready (DataDir o) ici cd h' ∧ host_taken b2 h').
  eapply (wp_invariant _ I) in Hw; [| |by split_and!].
  2:{ intros h' a x (?&?&?) _.
      split_and!; [by apply known_app|by apply InputData.image_ready_app|by apply host_taken_app]. }
  eapply wp_mono; [| |exact Hw].
  { intros h' a [Ha (Hk'&Hr'&Ht')]. destruct a; try done; try by left.
    - destruct Ha as (->&Href&Hn&Hst&d&Hd), Ht' as [? _]. split; [done|]. right. left. split_and!; [done| |done].
      split; [by exists ici, cd|]. by exists b2, d.
    - destruct Ha as (->&?&_&d&?&->), Ht' as (?&i1&b&?&?&?). split; [done|]. right. right.
      exists d. split_and!; try done; [by exists ici, cd|by exists i1, b].
    - destruct Ha as (?&?&e&?&?), Ht' as (?&_). exists ici, cd, url. split_and!; try done; [by exists b2|].
      exists e.
      match goal with H : meta_key _ = _ |- _ => rewrite H end. done. }
  clear Hw. intros [[ici3 cond4] [[cont res''] err]] h5 [(Hs5&Hk5&Hcont) (Hk6&Hr5&Hb5&_)].
  simpl in Hs5, Hk5, Hcont. specialize (Hk5 Hk4).
  destruct (_ || _) eqn:Hstop; [split; [done|]; left; rewrite Hs5; exact Hs4|]. bools.
  cbn [wp]. split; [done|]. right. split_and!; [done..|].
  destruct (Hcont ltac:(done)) as [? [d ?]]. split; [by exists ici, cd|]. by exists b2, d.
Qed.

Lemma wp_reconcile_phases o req i ici cd cond h :
  known ici h →
  wp (install_guard o req i) (reconcile_phases o req ici cd cond) h (phases_ok o cond).
Proof.
  intros Hk. unfold reconcile_phases. rewrite wp_bind.
  pose proof (Host.wp_validateConfiguration ici cd (Host.set_Reason Conditions.ConfigurationPendingReason cond) h) as Hw.
  eapply (wp_invariant _ (known ici)) in Hw; [|intros; by apply known_app|done].
  eapply wp_mono; [| |exact Hw].
  { intros h' a [Ha Hk']. destruct a; try done; [by left|]. destruct Ha as (->&_&ref&?&?).
    split; [by exists ici, ref|]. by left. }
  clear Hw Hk. intros [cond1 r] h1 [[Hs1 Hclean] Hk]. simpl in Hs1, Hclean.
  destruct r as [[b|]|e]; [|by split; [|left]..].
  destruct cd as [cd|]; [|by split; [|left]]. destruct Hclean as [Hclean (ref&Href&Hfrom)].
  (* the host *)
  rewrite wp_bind. pose proof (Host.wp_validateHost ici b
    (Host.set_Reason Conditions.HostValidationFailedReason cond1) h1) as Hw.
  set (I h' := known ici h' ∧ host_known b h' ∧ Host.cleaning_disabled b h').
  eapply (wp_invariant _ I) in Hw; [| |by split_and!; [|exists ici, ref|]].
  2: { intros h' a x (?&?&?) _. split_and!; [by apply known_app|by apply host_known_app|by apply cleaning_disabled_app]. }
  eapply wp_mono; [| |exact Hw].
  { intros h' a [Ha (Hk'&Hb'&Hc')]. destruct a; try done; [|by left].
    destruct Ha as (->&?&?&?). split; [done|]. right. left. split_and!; [done..|]. by exists ici. }
  clear Hw Hk Hclean. intros [[cond2 b2] [res err]] h2 [[Hs2 Htaken] (Hk&Hhost&Hclean)].
  assert (Hst2 : c_Status cond2 = c_Status cond) by (rewrite Hs2; exact Hs1).
  destruct (negb (IsZero res) || _) eqn:Hstop; [by split; [|left]|]. bools.
  destruct err as [e|]; [by match goal with H : ¬ is_Some (Some _) |- _ => destruct H end|].
  specialize (Htaken ltac:(done) eq_refl).
  assert (Hb2 : host_taken b2 h2).
  { split; [|by exists ici, b]. destruct Htaken as [[-> _]|(_&_&?)]; [done|by eapply host_known_patch]. }
  (* the metadata *)
  rewrite wp_bind. pose proof (wp_setClusterInstallMetadata ici cd h2) as Hw.
  eapply (wp_invariant _ (known ici)) in Hw; [|intros; by apply known_app|done].
  eapply wp_mono; [| |apply wp_prefix, Hw].
  { intros h' a [Ha Hk']. destruct a; try done; try by left.
    destruct Ha as [-> ?]. split; eauto. }
  clear Hw. intros [ici2 r] h3 [[[Hk3 _] _] [t3 ->]]. specialize (Hk3 Hk). simpl in Hk3. clear Hk.
  destruct r as [[e|]|m]; [by split; [|left]| |by split; [|left]].
  (* the image *)
  eapply wp_wand; [apply wp_attach_image; [done|]; by apply host_taken_app|].
  intros [[ici3 cond3] r] h4 [? Hr]. split; [done|]. simpl in Hr. by rewrite Hst2 in Hr.
Qed.

Lemma wp_reconcile_deferred o req i ici cd h :
  known ici h →
  wp (install_guard o req i) (reconcile_deferred o req ici cd) h (λ _ _, True).
Proof.
  intros Hk. unfold reconcile_deferred. rewrite wp_bind.
  eapply wp_wand; [by apply wp_reconcile_phases|].
  intros [[ici' cond'] r] h1 [Hk1 Hst]. rewrite wp_bind.
  assert (Hw : wp (λ h' a, (∃ t, h' = h1 ++ t) ∧ (a = TimeNow ∨ ∃ n, a = StatusPatchICI ici' n ∧
      Conditions.requirements_patch (c_Status cond') (c_Reason cond') (c_Message cond') ici' n))
    (Conditions.setRequirementsMetCondition ici' (c_Status cond') (c_Reason cond') (c_Message cond')) h1
    (λ _ _, True)).
  { eapply wp_mono; [| |eapply (wp_invariant _ (λ h', ∃ t, h' = h1 ++ t));
      [by apply Conditions.wp_setRequirementsMetCondition|..]].
    - by intros h' a [??].
    - done.
    - intros h' a x [t ->] _. exists (t ++ [Ev a x]). by rewrite app_assoc.
    - exists []. by rewrite app_nil_r. }
  eapply wp_mono; [|by intros|exact Hw].
  intros h' a [[t ->] [->|(n&->&Hn)]]; [by left|]. split; [by apply known_app|].
  right. right. eexists _, _, _. split; [exact Hn|]. intros Htrue. left.
  destruct Hst as [Hst|(_&_&Hatt)]; [simpl in Hst; congruence|]. by apply attached_app.
Qed.

Lemma wp_ensure_annotation o req i ici k v h :
  known ici h → (k = restoreStatusAnnotation ∨ k = Common.postCleanupAnnotation) →
  wp (install_guard o req i) (ensure_annotation ici k v) h (λ r h', known r.1 h').
Proof.
  intros Hk Hkey. unfold ensure_annotation.
  destruct (Common.setAnnotationIfNotExists _ _ _) as [m added] eqn:Hset.
  assert (Hm : m = (Common.setAnnotationIfNotExists (ici_Meta ici) k v).1) by by rewrite Hset.
  assert (Hsame : ∀ t, known (set_ici_Meta m ici) (h ++ t)).
  { intros t. eapply known_similar; [|by apply known_app]. rewrite Hm.
    unfold Common.setAnnotationIfNotExists. apply similar_conditions; by destruct (_ !! _). }
  destruct added; cbn [negb].
  - wp_call; [split; [done|]; left; exists k, v; by rewrite Hm|].
    destruct x as [j|e]; cbn [wp fst]; [eapply known_decoded; [hist|done]|apply Hsame].
  - cbn [wp fst]. rewrite <- (app_nil_r h). apply Hsame.
Qed.

Lemma wp_reconcile_install o req i ici cd h :
  known ici h →
  wp (install_guard o req i) (reconcile_install o req ici cd) h (λ _ _, True).
Proof.
  intros Hk. unfold reconcile_install. destruct (iciIsBeingRestored ici); [done|].
  rewrite wp_bind. eapply wp_wand; [apply wp_ensure_annotation; [done|by left]|].
  intros [ici1 [e|]] h1 Hk1; [done|].
  rewrite wp_bind. eapply wp_wand; [apply wp_ensure_annotation; [done|by right]|].
  intros [ici2 [e|]] h2 Hk2; [done|]. rewrite wp_bind. simpl in Hk2.
  pose proof (Conditions.wp_initializeConditions ici2 h2 Hk2) as Hw.
  eapply (wp_invariant _ (known ici2)) in Hw; [|intros; by apply known_app|done].
  eapply wp_mono; [| |exact Hw].
  { intros h' a [[->|(n&->&Hn)] Hk']; [by left|]. split; [done|]. by left. }
  intros [ici3 [e|]] h3 [Hk3 _]; [done|]. by apply wp_reconcile_deferred.
Qed.

Lemma wp_reconcile_booted o req i ici h :
  known ici h → BootTime (ici_Status i) ≠ 0%Z →
  wp (install_guard o req i) (reconcile_booted o ici) h (λ r h', known r.1 h').
Proof.
  intros Hk Hboot. unfold reconcile_booted. rewrite wp_bind.
  apply (wp_wand _ _ _ (λ r h', known r h')).
  - destruct (Conditions.findCondition _ _) as [c|]; [|done]. case_bool_decide; [|done].
    pose proof (Conditions.wp_setRequirementsMetCondition ici ConditionTrue
      Conditions.HostConfigurationSucceededReason
      "configuration image is attached to the referenced host" h Hk) as Hw.
    eapply (wp_invariant _ (known ici)) in Hw; [|intros; by apply known_app|done].
    eapply wp_mono; [| |exact Hw].
    + intros h' a [[->|(n&->&Hn)] Hk']; [by left|]. split; [done|]. right. right.
      eexists _, _, _. split; [exact Hn|]. by right.
    + by intros r h' [? _].
  - intros ici1 h1 Hk1. rewrite wp_bind. unfold InputData.verifyIsoAndAuthExists.
    eapply wp_wand; [eapply wp_emits; [apply InputData.emits_all_exist|]|].
    + intros h' a [f ->]. by left.
    + intros ready h2 (t&->&_). by apply known_app.
Qed.

(** Everything a run does after it has read [i]: the deletion, the finalizer,
    or, for an object with the finalizer, the backup labels and either the
    cleanup of a completed installation or the installation. *)
Definition reconcile_guard (o : Options) (req : NamespacedName) (i : ImageClusterInstall)
    (h : trace) (a : call) : Prop :=
  if deleted i then deletion_guard (DataDir o) i h a
  else add_finalizer_guard i a ∨
    (clusterInstallFinalizerName ∈ om_Finalizers (ici_Meta i) ∧
     ((∃ k, a = GetCD k) ∨ Host.label_guard h a ∨
      if Conditions.InstallationCompleted i then
        ∃ ref, Spec_BareMetalHostRef (ici_Spec i) = Some ref ∧
          Common.annotationExists (ici_Meta i) Common.postCleanupAnnotation = true ∧
          Common.removal_guard (mkKey (bmhref_Namespace ref) (bmhref_Name ref)) h a
      else install_guard o req i h a)).
Lemma exec_Reconcile o req t r :
  exec (Reconcile o req) t r →
  (∃ e, t = [Ev (GetICI req) (Err e)] ∧ r = XRet (res0, if IsNotFound e then None else Some e)) ∨
  (∃ i t', t = Ev (GetICI req) (Ok i) :: t' ∧ exec (reconcile_read o req i) t' r).
Proof.
  unfold Reconcile. intros (x&t'&->&H). cbn [prog_bind] in H. destruct x as [i|e].
  - right. by exists i, t'.
  - left. exists e. by destruct H as [-> ->].
Qed.

Lemma wp_reconcile_read o req i h :
  known i h →
  wp (reconcile_guard o req i) (reconcile_read o req i) h (λ _ _, True).
Proof.
  intros Hk. unfold reconcile_read. rewrite wp_bind.
  eapply wp_mono; [| |apply (wp_handleFinalizer (DataDir o) i)].
  { intros h' a. unfold reconcile_guard. destruct (deleted i); [done|by left]. }
  intros [[[res stop] err]|m] h1; [|done]. intros [->|(Hdel&Hfin&->)].
  { rewrite orb_true_r. done. }
  destruct (_ || _ || _); [done|].
  assert (Hg : ∀ h' a, ((∃ k, a = GetCD k) ∨ Host.label_guard h' a ∨
      if Conditions.InstallationCompleted i then
        ∃ ref, Spec_BareMetalHostRef (ici_Spec i) = Some ref ∧
          Common.annotationExists (ici_Meta i) Common.postCleanupAnnotation = true ∧
          Common.removal_guard (mkKey (bmhref_Namespace ref) (bmhref_Name ref)) h' a
      else install_guard o req i h' a) → reconcile_guard o req i h' a).
  { intros h' a Ha. unfold reconcile_guard. rewrite Hdel. by right. }
  rewrite wp_bind. eapply wp_wand.
  { eapply wp_prefix, (wp_emits _ (λ a, ∃ k, a = GetCD k)); [|intros h' a Ha; apply Hg; by left].
    unfold get_cd. destruct (ClusterDeploymentRef _); [|done]. case_bool_decide; [done|]. emits_run eauto. }
  intros cd h2 [_ [t2 ->]]. apply (known_app _ _ t2) in Hk. rewrite wp_bind.
  eapply wp_mono; [| |apply wp_prefix, Host.labels_references].
  { intros h' a Ha. apply Hg. right. by left. }
  intros _ h3 [_ [t3 ->]]. apply (known_app _ _ t3) in Hk.
  destruct (Conditions.InstallationCompleted i) eqn:Hdone.
  - rewrite wp_bind. eapply wp_mono; [| |apply Common.wp_handlePostCleanup].
    + intros h' a Ha. apply Hg. by do 2 right.
    + intros [res'|e] h4 _; done.
  - assert (Hi : ∀ {A} (p : io A) h' Q, wp (install_guard o req i) p h' Q → wp (reconcile_guard o req i) p h' Q).
    { intros A p h' Q Hp. eapply wp_mono; [|by intros|exact Hp]. intros h'' a Ha. apply Hg. by do 2 right. }
    unfold IsZeroTime. case_bool_decide as Hboot; cbn [negb].
    + by apply Hi, wp_reconcile_install.
    + rewrite wp_bind. eapply wp_wand; [by apply Hi, wp_reconcile_booted|].
      intros [ici' ready] h4 Hk4. destruct ready; [done|]. by apply Hi, wp_reconcile_install.
Qed.

(** *** What every run of [Reconcile] respects *)

(** The guard of a whole run: it reads the object once, and then works on it. *)
Definition run_guard (o : Options) (req : NamespacedName) (h : trace) (a : call) : Prop :=
  (h = [] ∧ a = GetICI req) ∨
  ∃ i h', h = Ev (GetICI req) (Ok i) :: h' ∧ reconcile_guard o req i h a.

Lemma wp_Reconcile o req : wp (run_guard o req) (Reconcile o req) [] (λ _ _, True).
Proof.
  unfold Reconcile. wp_call; [by left|]. destruct x as [i|e]; [|done]. simpl.
  assert (Hk : known i [Ev (GetICI req) (Ok i)]) by (eapply known_decoded; [apply list_elem_of_here|done]).
  pose proof (wp_reconcile_read o req i _ Hk) as Hw.
  eapply (wp_invariant _ (λ h, ∃ h', h = Ev (GetICI req) (Ok i) :: h')) in Hw; [|by intros ? ? ? [h' ->] _; eexists|by eexists].
  eapply wp_mono; [|by intros|exact Hw]. intros h a [? [h' ->]]. right. by eexists _, _.
Qed.

(** A run reads an ImageClusterInstall only at its start, and what it patches is
    known. *)
Lemma run_guard_ici o req h a :
  run_guard o req h a →
  match a with
  | GetICI k => h = [] ∧ k = req
  | PatchICI p n => known p h
  | StatusPatchICI p n => known p h ∧ ∃ i, status_patch_ok o i h p n
  | ListICI _ | StatusUpdateICI _ => False
  | _ => True
  end.
Proof.
  intros [[-> ->]|(i&h'&Hh&Hg)]; [done|].
  assert (Hi : known i h) by (subst h; eapply known_decoded; [apply list_elem_of_here|done]).
  unfold reconcile_guard in Hg. destruct (deleted i).
  { assert (Hl : FileLock.lock_call (FileLock.lock_file (InputData.lock_dir (DataDir o) i)) a →
      match a with GetICI _ | PatchICI _ _ | StatusPatchICI _ _ | ListICI _ | StatusUpdateICI _ => False | _ => True end).
    { by intros [[->| ->]|[->| ->]]. }
    destruct a; try done; simpl in Hg; try by apply Hl in Hg. by destruct Hg as [-> _]. }
  destruct Hg as [(n&->&_)|(_&[[k ->]|[Hg|Hg]])]; [done|done|by destruct a|].
  destruct (Conditions.InstallationCompleted i); [by destruct Hg as (ref&_&_&Hg); destruct a|].
  assert (Hin : ∀ ici cd, InputData.input_guard (DataDir o) ici cd h a →
    match a with GetICI _ | PatchICI _ _ | StatusPatchICI _ _ | ListICI _ | StatusUpdateICI _ => False | _ => True end).
  { intros ici cd [->|[[[->| ->]|[->| ->]]|[Hb _]]]; try done. by destruct a. }
  destruct a; try done; simpl in Hg.
  all: try (destruct Hg as [?|(ici&cd&_&Hg)]; [done|by apply Hin in Hg]).
  - by destruct Hg.
  - destruct Hg. eauto.
Qed.

(** The object the run read first. *)
Definition read_first (req : NamespacedName) (i : ImageClusterInstall) (h : trace) : Prop :=
  ∃ h', h = Ev (GetICI req) (Ok i) :: h'.

Lemma reconcile_event o req t r t1 ev t2 :
  exec (Reconcile o req) t r → t = t1 ++ ev :: t2 →
  (∃ k, ev_call ev = GetICI k) ∨ ∃ i, read_first req i t1 ∧ reconcile_guard o req i t1 (ev_call ev).
Proof.
  intros [(e&->&_)|(i&t'&->&He)]%exec_Reconcile Ht.
  - left. destruct t1 as [|? [|??]]; simplify_eq/=. by exists req.
  - destruct t1 as [|e1 t1]; simplify_eq/=; [left; by exists req|]. right. exists i. split; [by exists t1|].
    assert (Hk : known i [Ev (GetICI req) (Ok i)]) by (eapply known_decoded; [apply list_elem_of_here|done]).
    destruct (wp_exec _ _ _ _ _ _ (wp_reconcile_read o req i _ Hk) He) as [_ HG].
    exact (HG t1 ev t2 eq_refl).
Qed.

(** The patch turns the host on or marks it as taken for an installation. *)
Definition starts (p n : BareMetalHost) : Prop :=
  (Host.managed p = false ∧ Host.managed n = true) ∨ (bmh_Online p = false ∧ bmh_Online n = true).

Lemma label_no_start p : ¬ starts p (set_bmh_Meta (Host.with_backup_label (bmh_Meta p)) p).
Proof.
  intros [[H1 H2]|[H1 H2]]; unfold Host.managed, Common.annotationExists in *; simpl in *; congruence.
Qed.

Lemma reboot_no_start p : ¬ starts p (Common.rebooted p).
Proof.
  intros [[H1 H2]|[H1 H2]]; [|simpl in *; congruence]. unfold Host.managed, Common.rebooted in *. simpl in H2.
  rewrite Common.setAnnotation_exists in H2. by rewrite H1 in H2.
Qed.

Lemma host_patch_start o h p n :
  host_patch o h p n → starts p n →
  host_known p h ∧
  ∃ d, n = Host.booted_host p d ∧ Host.managed p = false ∧ built o h ∧
       (∃ ici b, known ici h ∧ Host.taken_over ici b p h ∧ Host.cleaning_disabled b h) ∧
       Host.image_settled (meta_key (bmh_Meta p)) (DataImageCoolDownPeriod o) d h.
Proof.
  intros [Hk [->|[(->&_)|H]]] Hs; [exfalso..|done].
  all: destruct Hs as [[H1 H2]|[H1 H2]]; unfold Host.managed in *; simpl in *; congruence.
Qed.

(** What a patch that starts a host needs. *)
Definition start_ready (o : Options) (p n : BareMetalHost) (h : trace) : Prop :=
  host_known p h ∧
  ∃ d, n = Host.booted_host p d ∧ Host.managed p = false ∧ built o h ∧
       (∃ ici b, known ici h ∧ Host.taken_over ici b p h ∧ Host.cleaning_disabled b h) ∧
       Host.image_settled (meta_key (bmh_Meta p)) (DataImageCoolDownPeriod o) d h.

(** What the creation of a DataImage needs. *)
Definition image_for (o : Options) (req : NamespacedName) (d : DataImage) (h : trace) : Prop :=
  ∃ ici cd, known ici h ∧ InputData.image_ready (DataDir o) ici cd h ∧ image_url o req ici = Ok (di_URL d) ∧
    ∃ b, host_known b h ∧ meta_key (di_Meta d) = meta_key (bmh_Meta b).

Lemma reconcile_guard_create o req i h d :
  reconcile_guard o req i h (CreateDataImage d) →
  deleted i = false ∧ Conditions.InstallationCompleted i = false ∧ image_for o req d h ∧
  ∃ e, Ev (GetDataImage (meta_key (di_Meta d))) (Err e) ∈ h ∧ IsNotFound e = true.
Proof.
  intros Hg. unfold reconcile_guard in Hg. simpl in Hg. destruct (deleted i).
  { by destruct Hg as [[Hg|Hg]|[Hg|Hg]]. }
  destruct Hg as [(?&[=]&_)|(_&[[? [=]]|[[]|Hg]])].
  destruct (Conditions.InstallationCompleted i); [by destruct Hg as (?&_&_&[])|].
  destruct Hg as (ici&cd&url&?&?&?&<-&?&?). split_and!; [done..| |done]. by exists ici, cd.
Qed.

Lemma reconcile_guard_start o req i h p n :
  reconcile_guard o req i h (PatchBMH p n) → starts p n →
  deleted i = false ∧ Conditions.InstallationCompleted i = false ∧ start_ready o p n h.
Proof.
  intros Hg Hs. unfold reconcile_guard in Hg. simpl in Hg. destruct (deleted i).
  { destruct Hg as (_&ref&_&_&->&_). by apply reboot_no_start in Hs. }
  destruct Hg as [(?&[=]&_)|(_&[[? [=]]|[[_ ->]|Hg]])].
  { by apply label_no_start in Hs. }
  destruct (Conditions.InstallationCompleted i).
  { destruct Hg as (ref&_&_&_&->&_). by apply reboot_no_start in Hs. }
  split_and!; [done..|]. by apply (host_patch_start o).
Qed.

(** C2: a host is never booted into an unfinished installation.  In every run of
    the reconciler, whatever the environment answers, a patch that powers a
    BareMetalHost on or marks it as managed is only sent for an object that is
    not being deleted and not completed, to the host that the object refers to,
    after: the configuration image was built (or found complete) and the
    cluster's credentials were stored; the host's automated cleaning was disabled;
    the host was either externally provisioned already (then the code does not
    validate it) or valid for the object the run works on (its inspection is
    disabled, or it is available and its inspected interfaces have an address in
    every machine network) and then accepted as externally provisioned by the API
    server; and the host's DataImage was seen in place, with its cool-down period
    over. *)
Theorem boot_only_when_ready o req t r t1 p n x t2 :
  exec (Reconcile o req) t r → t = t1 ++ Ev (PatchBMH p n) x :: t2 → starts p n →
  (∃ i, read_first req i t1 ∧ deleted i = false ∧ Conditions.InstallationCompleted i = false) ∧
  host_known p t1 ∧
  ∃ d, n = Host.booted_host p d ∧ Host.managed p = false ∧ built o t1 ∧
       (∃ ici b, known ici t1 ∧ Host.taken_over ici b p t1 ∧ Host.cleaning_disabled b t1) ∧
       Host.image_settled (meta_key (bmh_Meta p)) (DataImageCoolDownPeriod o) d t1.
Proof.
  intros He Ht Hs. destruct (reconcile_event _ _ _ _ _ _ _ He Ht) as [[k [=]]|(i&Hi&Hg)].
  destruct (reconcile_guard_start _ _ _ _ _ _ Hg Hs) as (?&?&?). split; [by exists i|done].
Qed.

(** C5: the DataImage is created only for a finished image, under the URL the
    image server serves it at.  In every run, a DataImage is created only after
    the image of the object the run works on was built or found complete and
    the API server had no DataImage for the host; it carries the name of the host
    that the object refers to, and its URL is the base URL followed by [images],
    the namespace of the request and the UID. *)
Theorem data_image_created_for_built_image o req t r t1 d x t2 :
  exec (Reconcile o req) t r → t = t1 ++ Ev (CreateDataImage d) x :: t2 →
  (∃ i, read_first req i t1 ∧ deleted i = false ∧ Conditions.InstallationCompleted i = false) ∧
  image_for o req d t1 ∧
  ∃ e, Ev (GetDataImage (meta_key (di_Meta d))) (Err e) ∈ t1 ∧ IsNotFound e = true.
Proof.
  intros He Ht. destruct (reconcile_event _ _ _ _ _ _ _ He Ht) as [[k [=]]|(i&Hi&Hg)].
  destruct (reconcile_guard_create _ _ _ _ _ Hg) as (?&?&?&?). split_and!; [by exists i|done..].
Qed.

(** C6: nothing of a deleted object is forgotten.  In every run, the finalizer is
    taken off an ImageClusterInstall only if it is the object read at the start,
    it is being deleted, its configuration directory was removed (or did not
    exist), and its host is released: there is none, or its DataImage was not
    found, or the deletion of the DataImage was accepted and the host itself was
    not found. *)
Theorem finalizer_removed_last o req t r t1 p n x t2 :
  exec (Reconcile o req) t r → t = t1 ++ Ev (PatchICI p n) x :: t2 →
  clusterInstallFinalizerName ∈ om_Finalizers (ici_Meta p) →
  clusterInstallFinalizerName ∉ om_Finalizers (ici_Meta n) →
  read_first req p t1 ∧ deleted p = true ∧ files_removed (DataDir o) p t1 ∧ host_released p t1.
Proof.
  intros He Ht Hin Hout. destruct (reconcile_event _ _ _ _ _ _ _ He Ht) as [[k [=]]|(i&Hi&Hg)].
  unfold reconcile_guard in Hg. simpl in Hg. destruct (deleted i) eqn:Hdel.
  { destruct Hg as (->&->&?&?). by split_and!. }
  exfalso. destruct Hg as [(?&[= -> _]&_&Hno)|(_&[[? [=]]|[[]|Hg]])]; [done|].
  destruct (Conditions.InstallationCompleted i) eqn:Hc; [by destruct Hg as (?&_&_&[])|].
  destruct Hg as [_ [(k&v&_&->)|(cd&cm&_&_&->&_)]]; apply Hout; [|done].
  simpl. unfold Common.setAnnotationIfNotExists. by destruct (_ !! k).
Qed.

(** C13: the configuration image is only taken away at the end.  In every run, a
    DataImage is deleted only if it was read as the DataImage of the host of the
    object read at the start, and that object is being deleted (and its
    directory removed before), or it is completed and carries the post-cleanup
    annotation. *)
Theorem data_image_deleted_at_the_end o req t r t1 d x t2 :
  exec (Reconcile o req) t r → t = t1 ++ Ev (DeleteDataImage d) x :: t2 →
  ∃ i ref, read_first req i t1 ∧ Spec_BareMetalHostRef (ici_Spec i) = Some ref ∧
    Ev (GetDataImage (mkKey (bmhref_Namespace ref) (bmhref_Name ref))) (Ok d) ∈ t1 ∧
    (deleted i = true ∧ files_removed (DataDir o) i t1 ∨
     Conditions.InstallationCompleted i = true ∧
     Common.annotationExists (ici_Meta i) Common.postCleanupAnnotation = true).
Proof.
  intros He Ht. destruct (reconcile_event _ _ _ _ _ _ _ He Ht) as [[k [=]]|(i&Hi&Hg)].
  unfold reconcile_guard in Hg. simpl in Hg. destruct (deleted i) eqn:Hdel.
  { destruct Hg as (?&ref&?&?). exists i, ref. split_and!; [done..|]. by left. }
  destruct Hg as [(?&[=]&_)|(_&[[? [=]]|[[]|Hg]])].
  destruct (Conditions.InstallationCompleted i) eqn:Hc.
  - destruct Hg as (ref&?&?&?). exists i, ref. split_and!; [done..|]. by right.
  - destruct Hg as [[=]|(?&?&_&Hg)]. by destruct Hg as [Ha|[[[Ha|Ha]|[Ha|Ha]]|[Ha _]]].
Qed.

(** C14: a completed installation is never touched again.  When the object read at
    the start is completed and not being deleted, the run changes nothing but:
    its own finalizer (if it is missing), backup labels, and, if the post-cleanup
    annotation is set, the DataImage of its host, which is deleted, and the
    reboot annotation of the host.  In particular it writes no status, no file
    and no secret. *)
Theorem completed_is_left_alone o req t r i t1 ev t2 :
  exec (Reconcile o req) t r → t = t1 ++ ev :: t2 → read_first req i t1 →
  Conditions.InstallationCompleted i = true → deleted i = false →
  hub_write (ev_call ev) = true ∨ fs_write (ev_call ev) = true →
  add_finalizer_guard i (ev_call ev) ∨ Host.label_guard t1 (ev_call ev) ∨
  (Common.annotationExists (ici_Meta i) Common.postCleanupAnnotation = true ∧
   ∃ ref, Spec_BareMetalHostRef (ici_Spec i) = Some ref ∧
     Common.removal_guard (mkKey (bmhref_Namespace ref) (bmhref_Name ref)) t1 (ev_call ev)).
Proof.
  intros He Ht [h Hh] Hc Hdel Hw. destruct (reconcile_event _ _ _ _ _ _ _ He Ht) as [[k Hk]|(j&[h' Hh']&Hg)].
  { rewrite Hk in Hw. by destruct Hw. }
  assert (j = i) as ->.
  { rewrite Hh in Hh'.
    apply (f_equal (λ l : trace, match l with [] => None | e :: _ => ici_answer e end)) in Hh'.
    simpl in Hh'. congruence. }
  unfold reconcile_guard in Hg. rewrite Hdel, Hc in Hg.
  destruct Hg as [Hg|(_&[[k Hk]|[Hg|(ref&?&?&?)]])]; [by left| |by right; left|].
  - rewrite Hk in Hw. by destruct Hw.
  - right. right. split; [done|]. by exists ref.
Qed.

Lemma status_event o req t r t1 p n x t2 :
  exec (Reconcile o req) t r → t = t1 ++ Ev (StatusPatchICI p n) x :: t2 →
  ∃ i, read_first req i t1 ∧ deleted i = false ∧ Conditions.InstallationCompleted i = false ∧
       known p t1 ∧ status_patch_ok o i t1 p n.
Proof.
  intros He Ht. destruct (reconcile_event _ _ _ _ _ _ _ He Ht) as [[k [=]]|(i&Hi&Hg)].
  unfold reconcile_guard in Hg. simpl in Hg. destruct (deleted i) eqn:Hdel.
  { by destruct Hg as [[Hg|Hg]|[Hg|Hg]]. }
  destruct Hg as [(?&[=]&_)|(_&[[? [=]]|[[]|Hg]])].
  destruct (Conditions.InstallationCompleted i) eqn:Hc; [by destruct Hg as (?&_&_&[])|].
  exists i. by destruct Hg.
Qed.

(** C10: RequirementsMet is never announced too early.  In every run, a status
    patch that turns RequirementsMet true is only sent for an object that is
    neither being deleted nor completed, and only when the configuration image
    is built, the DataImage of the host has settled and the host was started, or
    when the object already carried a boot time when it was read. *)
Theorem requirements_met_when_attached o req t r t1 p n x t2 :
  exec (Reconcile o req) t r → t = t1 ++ Ev (StatusPatchICI p n) x :: t2 →
  Conditions.reported_true ClusterInstallRequirementsMet n →
  ¬ Conditions.reported_true ClusterInstallRequirementsMet p →
  ∃ i, read_first req i t1 ∧ deleted i = false ∧ Conditions.InstallationCompleted i = false ∧
       (attached o t1 ∨ BootTime (ici_Status i) ≠ 0%Z).
Proof.
  intros He Ht Hn Hp. destruct (status_event _ _ _ _ _ _ _ _ _ He Ht) as (i&?&?&?&_&Hok).
  exists i. split_and!; [done..|]. destruct Hok as [Hi|[(_&?&_)|(st&reason&msg&Hr&Hst)]].
  - destruct Hp. by eapply Conditions.init_patch_true.
  - by left.
  - apply Hst. apply Conditions.requirements_patch_reports in Hr as (c&Hc&Hs&_).
    destruct Hn as (c'&Hc'&Ht'). simpl in Hc, Hs. congruence.
Qed.

(** C11: the record of the boot.  In every run, a status patch changes neither the
    meta data nor the spec; the boot time and the host reference of the status
    are changed only when they were not set, and only once the image is built,
    the DataImage has settled and the host was started, the reference being the
    one of the spec; and a boot time that is set is never changed. *)
Theorem boot_recorded_once o req t r t1 p n x t2 :
  exec (Reconcile o req) t r → t = t1 ++ Ev (StatusPatchICI p n) x :: t2 →
  ici_Meta n = ici_Meta p ∧ ici_Spec n = ici_Spec p ∧
  (BootTime (ici_Status p) ≠ 0%Z → BootTime (ici_Status n) = BootTime (ici_Status p)) ∧
  (BootTime (ici_Status n) = BootTime (ici_Status p) ∧
   Status_BareMetalHostRef (ici_Status n) = Status_BareMetalHostRef (ici_Status p) ∨
   attached o t1 ∧ Status_BareMetalHostRef (ici_Status p) = None ∧
   Status_BareMetalHostRef (ici_Status n) = Spec_BareMetalHostRef (ici_Spec p)).
Proof.
  intros He Ht. destruct (status_event _ _ _ _ _ _ _ _ _ He Ht) as (i&_&_&_&_&Hok).
  destruct Hok as [(added&->&_)|[(?&?&boot&->&?)|(st&reason&msg&[now ->]&_)]]; simpl; split_and!; auto.
Qed.


(** The object that the phases leave is the one of their last answer. *)
Lemma emits_choose_id old secret fresh :
  emits (λ a, answers_ici a = false) fresh →
  emits (λ a, answers_ici a = false) (choose_id old secret fresh).
Proof. intros Hf. unfold choose_id. destruct old; repeat case_match; done. Qed.

Lemma exec_write_metadata ici cd secretC secretI t r :
  exec (write_metadata ici cd secretC secretI) t r → holds ici t r.1.
Proof.
  unfold write_metadata. intros (t1&t2&x&->&H1&H)%prog_bind_assoc_exec.
  apply prog_bind_assoc_exec in H as (t3&t4&y&->&H2&H).
  apply (holds_app _ _ ici); [|apply (holds_app _ _ ici)].
  - unfold holds. by rewrite (exec_quiet _ _ _ _ (emits_choose_id _ _ (perform NewUUID) ltac:(done)) H1).
  - unfold holds. by rewrite (exec_quiet _ _ _ _ (emits_choose_id _ _ (generateInfraID _) ltac:(done)) H2).
  - exec_inv; by simplify_eq/=.
Qed.

Lemma exec_setClusterInstallMetadata ici cd t r :
  exec (setClusterInstallMetadata ici cd) t r → holds ici t r.1.
Proof.
  unfold setClusterInstallMetadata. destruct (metadata_complete _ _ _) as [[]|m];
    [by intros; exec_inv; simplify_eq| |by intros; exec_inv; simplify_eq].
  intros (t1&t2&x&->&H1&H)%prog_bind_assoc_exec. apply (holds_app _ _ ici).
  - unfold holds. erewrite exec_quiet; [done| |exact H1].
    unfold Credentials.SeedReconfigSecretClusterIDs, Credentials.getSecretContent. emits_run done.
  - destruct x as [[? ?]|e]; [by eapply exec_write_metadata|by exec_inv; simplify_eq].
Qed.

Lemma exec_attach_image o req ici b cd cond t r :
  exec (attach_image o req ici b cd cond) t r → holds ici t r.1.1.
Proof.
  unfold attach_image. intros (t1&t2&[cond1 x]&->&H1&H)%prog_bind_assoc_exec. apply (holds_app _ _ ici).
  { unfold holds. erewrite exec_guarded; [done|eapply (wp_createImage o ici req b cd _ [Ev (GetICI req) (Ok ici)])| |exact H1].
    - eapply known_decoded; [apply list_elem_of_here|done].
    - intros h' a [_ Ha]. destruct a; try done; exfalso; by destruct Ha as [Ha|[[[Ha|Ha]|[Ha|Ha]]|[Ha _]]]. }
  destruct x as [[[url res] err]|m]; [|by exec_inv; simplify_eq].
  destruct (_ || _); [by exec_inv; simplify_eq|].
  apply prog_bind_assoc_exec in H as (t3&t4&y&->&H2&H). rewrite <- (app_nil_r t3) in H2 |- *.
  apply Host.exec_configureHost in H2.
  destruct y as [[ici1 cond2] [[cont res1] err1]]. eapply holds_app; [by rewrite app_nil_r in H2|].
  destruct (_ || _); exec_inv; by simplify_eq.
Qed.

Lemma exec_reconcile_phases o req ici cd cond t r :
  exec (reconcile_phases o req ici cd cond) t r → holds ici t r.1.1.
Proof.
  unfold reconcile_phases. intros (t1&t2&[cond1 x]&->&H1&H)%prog_bind_assoc_exec. apply (holds_app _ _ ici).
  { unfold holds. erewrite exec_guarded; [done|eapply (Host.wp_validateConfiguration ici cd _ [])|by intros h' []|exact H1]. }
  destruct x as [[b|]|e], cd as [cd|]; try by exec_inv; simplify_eq.
  apply prog_bind_assoc_exec in H as (t3&t4&[[cond2 b2] [res err]]&->&H2&H). apply (holds_app _ _ ici).
  { unfold holds. erewrite exec_guarded; [done|eapply (Host.wp_validateHost ici b _ [])|by intros h' []|exact H2]. }
  destruct (_ || _); [by exec_inv; simplify_eq|].
  apply prog_bind_assoc_exec in H as (t5&t6&[ici1 x]&->&H3%exec_setClusterInstallMetadata&H).
  eapply holds_app; [exact H3|].
  destruct x as [[e|]|m]; [by exec_inv; simplify_eq|by eapply exec_attach_image|by exec_inv; simplify_eq].
Qed.

(** C15: the outcome of the installation phases is always reported.  The phases
    start with RequirementsMet false and unknown; however they end (success,
    error, requeue or panic), with the condition [cond'] and the object [ici']
    (the object that the run started with or, after a successful patch, the last
    one that the API server answered), the run then reads the clock and the
    status, reason and message of [cond'] are reported for [ici']: its conditions
    say so already and nothing is sent, or they do not and exactly one status
    patch of this object is sent, in which they do and every other condition is
    as before.  The status is false, or it is true and the run ends without error
    or requeue. *)
Theorem phases_always_reported o req ici cd t r :
  exec (reconcile_deferred o req ici cd) t r →
  ∃ t0 ici' cond' now td,
    exec (reconcile_phases o req ici cd
            (Conditions.cond_lit ClusterInstallRequirementsMet ConditionFalse "Unknown" "Unknown"))
         t0 (ici', cond', r) ∧
    holds ici t0 ici' ∧
    t = t0 ++ Ev TimeNow now :: td ∧
    Conditions.reported_by ici'
      (Conditions.cond_lit ClusterInstallRequirementsMet (c_Status cond') (c_Reason cond') (c_Message cond')) td ∧
    (c_Status cond' = ConditionFalse ∨ (c_Status cond' = ConditionTrue ∧ r = XRet (res0, None))).
Proof.
  unfold reconcile_deferred.
  intros (t0&t1&[[ici' cond'] r']&->&Hph&H)%prog_bind_assoc_exec.
  apply prog_bind_assoc_exec in H as (t2&t3&i2&->&(now&td&->&Hrep)%Conditions.exec_setRequirementsMetCondition&[-> ->]).
  assert (Hk : known ici [Ev (GetICI req) (Ok ici)]) by (eapply known_decoded; [apply list_elem_of_here|done]).
  destruct (wp_exec _ _ _ _ _ _ (wp_reconcile_phases o req ici ici cd _ _ Hk) Hph) as [[_ Hst] _].
  exists t0, ici', cond', now, td. rewrite app_nil_r. split_and!; try done.
  - exact (exec_reconcile_phases _ _ _ _ _ _ _ Hph).
  - destruct Hst as [Hst|(Hst&->&_)]; [by left|by right].
Qed.

End reconciler.

(** *** A scenario

    Two consecutive runs in the simulated environment: the first builds the
    image and creates the DataImage, the second boots the host. *)

Definition opts0 : Options := mkOptions "svc" "ns" "8000" "http" "/data" 1%Z Second "http://svc.ns.svc:8000".
Definition reconcile0 := Reconcile (L := StubLibs) opts0 Sim.req0.
Definition trace_in (w : Sim.world) : trace := (run Sim.handle reconcile0 w).1.1.
Definition world1 : Sim.world := (run Sim.handle reconcile0 Sim.world0).2.

(** The same object, changed. *)
Definition world_with (f : ImageClusterInstall → ImageClusterInstall) (w : Sim.world) : Sim.world :=
  Sim.with_icis (f <$> Sim.w_icis w) w.
Definition world_deleted : Sim.world :=
  world_with (λ i, set_ici_Meta (Sim.set_DeletionTimestamp 5%Z (ici_Meta i)) i)
    (Sim.with_dataimages [] world1).
Definition world_completed : Sim.world :=
  world_with (set_Conditions [Conditions.cond_lit ClusterInstallCompleted ConditionTrue "" ""]) world1.

Lemma scenario_exec w : exec reconcile0 (trace_in w) (run Sim.handle reconcile0 w).1.2.
Proof. apply exec_run. Qed.

Lemma metadata_ids_stable_witness :
  ∃ t ici' r, exec (setClusterInstallMetadata (L := StubLibs) Sim.ici1 Sim.cd0) t (ici', r) ∧
    t = [] ∧ ici' = Sim.ici1 ∧ r = XRet None.
Proof.
  set (p := setClusterInstallMetadata (L := StubLibs) Sim.ici1 Sim.cd0).
  pose proof (exec_run Sim.handle p Sim.world0) as Hx. rewrite (surjective_pairing (_.1.2)) in Hx.
  eexists _, _, _. split; [exact Hx|].
  exact (proj1 (proj2 (metadata_ids_stable (L := StubLibs) Sim.ici1 Sim.cd0 _ _ _ Hx)) _ eq_refl
           ltac:(discriminate) ltac:(discriminate) eq_refl eq_refl).
Defined.

Lemma scenario_position (f : call → bool) w k :
  position (λ ev, f (ev_call ev)) (trace_in w) = Some k →
  ∃ t1 a x t2, trace_in w = t1 ++ Ev a x :: t2 ∧ f a = true.
Proof. intros (t1&[a x]&t2&?&?)%position_split. by exists t1, a, x, t2. Qed.

Lemma boot_only_when_ready_witness :
  ∃ t1 p n x t2, trace_in world1 = t1 ++ Ev (PatchBMH p n) x :: t2 ∧ starts p n ∧ built opts0 t1.
Proof.
  destruct (scenario_position (λ a, match a with
    | PatchBMH p n => negb (Host.managed p) && Host.managed n | _ => false end) world1 24)
    as (t1&a&x&t2&Ht&Hf); [vm_compute; reflexivity|].
  destruct a; try discriminate Hf. apply andb_true_iff in Hf as [Hp%negb_true_iff Hn].
  assert (Hs : starts orig new) by exact (or_introl (conj Hp Hn)).
  destruct (boot_only_when_ready (L := StubLibs) opts0 Sim.req0 _ _ _ _ _ x _ (scenario_exec world1) Ht Hs)
    as (_&_&d&_&_&Hb&_).
  eexists _, _, _, x, _. split; [exact Ht|]. split; [exact Hs|exact Hb].
Defined.

Lemma data_image_created_witness :
  ∃ t1 d x t2, trace_in Sim.world0 = t1 ++ Ev (CreateDataImage d) x :: t2 ∧
    ∃ ici, image_url opts0 Sim.req0 ici = Ok (di_URL d).
Proof.
  destruct (scenario_position (λ a, match a with CreateDataImage _ => true | _ => false end) Sim.world0 56)
    as (t1&a&x&t2&Ht&Hf); [vm_compute; reflexivity|].
  destruct a; try discriminate Hf.
  destruct (data_image_created_for_built_image (L := StubLibs) opts0 Sim.req0 _ _ _ _ x _ (scenario_exec Sim.world0) Ht)
    as (_&(ici&cd&_&_&Hu&_)&_).
  eexists _, _, x, _. split; [exact Ht|]. exists ici. exact Hu.
Defined.

Lemma finalizer_removed_last_witness :
  ∃ t1 p n x t2, trace_in world_deleted = t1 ++ Ev (PatchICI p n) x :: t2 ∧ files_removed "/data" p t1.
Proof.
  set (loses := λ a, match a with
    | PatchICI p n => bool_decide (clusterInstallFinalizerName ∈ om_Finalizers (ici_Meta p))
                      && bool_decide (clusterInstallFinalizerName ∉ om_Finalizers (ici_Meta n))
    | _ => false end).
  assert (Hk : ∃ k, position (λ ev, loses (ev_call ev)) (trace_in world_deleted) = Some k)
    by (eexists; vm_compute; reflexivity).
  destruct Hk as [k Hk]. destruct (position_split _ _ _ Hk) as (t1&[a x]&t2&Ht&Hf).
  destruct a; try discriminate Hf. apply andb_true_iff in Hf as [H1 H2].
  apply bool_decide_eq_true_1 in H1, H2.
  destruct (finalizer_removed_last (L := StubLibs) opts0 Sim.req0 _ _ _ _ _ x _ (scenario_exec world_deleted) Ht H1 H2)
    as (_&_&Hfr&_).
  eexists _, _, _, x, _. split; [exact Ht|exact Hfr].
Defined.

Lemma data_image_deleted_witness :
  ∃ t1 d x t2, trace_in world_completed = t1 ++ Ev (DeleteDataImage d) x :: t2 ∧
    ∃ i, read_first Sim.req0 i t1.
Proof.
  assert (Hk : ∃ k, position (λ ev, match ev_call ev with DeleteDataImage _ => true | _ => false end)
                      (trace_in world_completed) = Some k) by (eexists; vm_compute; reflexivity).
  destruct Hk as [k Hk]. destruct (position_split _ _ _ Hk) as (t1&[a x]&t2&Ht&Hf).
  destruct a; try discriminate Hf.
  destruct (data_image_deleted_at_the_end (L := StubLibs) opts0 Sim.req0 _ _ _ _ x _
              (scenario_exec world_completed) Ht) as (i&ref&Hi&_).
  eexists _, _, x, _. split; [exact Ht|]. exists i. exact Hi.
Defined.

Lemma completed_is_left_alone_witness :
  ∃ i t1 d x t2, trace_in world_completed = t1 ++ Ev (DeleteDataImage d) x :: t2 ∧
    Common.annotationExists (ici_Meta i) Common.postCleanupAnnotation = true.
Proof.
  assert (Hk : ∃ k, position (λ ev, match ev_call ev with DeleteDataImage _ => true | _ => false end)
                      (trace_in world_completed) = Some k) by (eexists; vm_compute; reflexivity).
  destruct Hk as [k Hk]. destruct (position_split _ _ _ Hk) as (t1&[a x]&t2&Ht&Hf).
  destruct a; try discriminate Hf.
  assert (Hfirst : ∃ i l, trace_in world_completed = Ev (GetICI Sim.req0) (Ok i) :: l ∧
            Conditions.InstallationCompleted i = true ∧ deleted i = false)
    by (eexists _, _; vm_compute; split; [reflexivity|split; reflexivity]).
  destruct Hfirst as (i&l&Hl&Hc&Hd).
  assert (Hi : read_first Sim.req0 i t1).
  { rewrite Ht in Hl. destruct t1 as [|e t1]; simpl in Hl; injection Hl; intros.
    - discriminate.
    - exists t1. congruence. }
  destruct (completed_is_left_alone (L := StubLibs) opts0 Sim.req0 _ _ i t1 _ _
              (scenario_exec world_completed) Ht Hi Hc Hd (or_introl eq_refl))
    as [(n&Hn&_)|[Hn|[Ha _]]]; [discriminate Hn|destruct Hn|].
  eexists i, t1, _, x, t2. split; [exact Ht|exact Ha].
Defined.

(** A decision procedure for [reported_true]. *)
Definition reports_met (i : ImageClusterInstall) : bool :=
  match Conditions.findCondition (Conditions (ici_Status i)) ClusterInstallRequirementsMet with
  | Some c => bool_decide (c_Status c = ConditionTrue)
  | None => false
  end.
Lemma reports_met_spec i :
  reports_met i = true ↔ Conditions.reported_true ClusterInstallRequirementsMet i.
Proof.
  unfold reports_met, Conditions.reported_true. destruct (Conditions.findCondition _ _) as [c|].
  - rewrite bool_decide_eq_true. split; [intros ?; by exists c|by intros (?&[= <-]&?)].
  - split; [done|by intros (?&[=]&_)].
Qed.

Lemma requirements_met_when_attached_witness :
  ∃ t1 p n x t2, trace_in world1 = t1 ++ Ev (StatusPatchICI p n) x :: t2 ∧
    ∃ i, read_first Sim.req0 i t1 ∧ (attached opts0 t1 ∨ BootTime (ici_Status i) ≠ 0%Z).
Proof.
  assert (Hk : ∃ k, position (λ ev, match ev_call ev with
    | StatusPatchICI p n => negb (reports_met p) && reports_met n | _ => false end)
    (trace_in world1) = Some k) by (eexists; vm_compute; reflexivity).
  destruct Hk as [k Hk]. destruct (position_split _ _ _ Hk) as (t1&[a x]&t2&Ht&Hf).
  destruct a; try discriminate Hf. apply andb_true_iff in Hf as [Hp Hn].
  apply reports_met_spec in Hn. apply negb_true_iff, not_true_iff_false in Hp. rewrite reports_met_spec in Hp.
  destruct (requirements_met_when_attached (L := StubLibs) opts0 Sim.req0 _ _ _ _ _ x _
              (scenario_exec world1) Ht Hn Hp) as (i&Hi&_&_&Ha).
  eexists _, _, _, x, _. split; [exact Ht|]. exists i. exact (conj Hi Ha).
Defined.

Lemma boot_recorded_once_witness :
  ∃ t1 p n x t2, trace_in world1 = t1 ++ Ev (StatusPatchICI p n) x :: t2 ∧
    BootTime (ici_Status p) = 0%Z ∧ BootTime (ici_Status n) ≠ 0%Z ∧ attached opts0 t1.
Proof.
  assert (Hk : ∃ k, position (λ ev, match ev_call ev with
    | StatusPatchICI p n => IsZeroTime (BootTime (ici_Status p)) && negb (IsZeroTime (BootTime (ici_Status n)))
    | _ => false end) (trace_in world1) = Some k) by (eexists; vm_compute; reflexivity).
  destruct Hk as [k Hk]. destruct (position_split _ _ _ Hk) as (t1&[a x]&t2&Ht&Hf).
  destruct a; try discriminate Hf. apply andb_true_iff in Hf as [Hp Hn%negb_true_iff].
  apply bool_decide_eq_true_1 in Hp. apply bool_decide_eq_false_1 in Hn.
  destruct (boot_recorded_once (L := StubLibs) opts0 Sim.req0 _ _ _ _ _ x _ (scenario_exec world1) Ht)
    as (_&_&_&[[He _]|[Ha _]]); [congruence|].
  eexists _, _, _, x, _. exact (conj Ht (conj Hp (conj Hn Ha))).
Defined.


Lemma phases_always_reported_witness :
  ∃ t r, exec (reconcile_deferred (L := StubLibs) opts0 Sim.req0 Sim.ici1 None) t r ∧
    ∃ t0 now td, t = t0 ++ Ev TimeNow now :: td.
Proof.
  set (p := reconcile_deferred (L := StubLibs) _ _ _ _).
  pose proof (exec_run Sim.handle p Sim.world0) as Hx.
  destruct (phases_always_reported (L := StubLibs) _ _ _ _ _ _ Hx) as (t0&ici'&cond'&now&td&_&_&Ht&_).
  eexists _, _. split; [exact Hx|]. exists t0, now, td. exact Ht.
Defined.

End Reconciler.
