(* ===== verification/SpokeStatus.v ===== *)
(** * Progress of the installed cluster ([internal/monitor/monitor.go]) *)
From stdpp Require Import base gmap strings list.
From Stdlib Require Import ZArith Lia.
From S2P Require Import Prelude Types World GoStd InputData Sim.
Local Open Scope go_scope.

Module SpokeStatus.

Definition nodesReadyMessage := "All nodes are ready".
Definition clusterVersionAvailableMessage := "ClusterVersion is available".
Definition clusterVersionNotAvailableMessage := "ClusterVersion is not yet available due to stale data".
Definition OperatorAvailable := "Available".
Definition NodeReady := "Ready".

Record ClusterInstallStatus := mkStatus {
  Installed : bool;
  ClusterVersionStatus : string;
  NodesStatus : string;
}.

Definition newline : string := String (Ascii.ascii_of_nat 10) EmptyString.

Definition status_String (status : ClusterInstallStatus) : string :=
  let installStatus := if Installed status then "installed" else "installing" in
  "Cluster is " +:+ installStatus +:+ newline +:+ "ClusterVersion Status: "
    +:+ ClusterVersionStatus status +:+ newline +:+ "Nodes Status: " +:+ NodesStatus status.

(** The clients of this package reach the spoke cluster with [kubeconfig]. *)
Definition getIBIOStartTime (kubeconfig : string) : io (result time) :=
  try cm := perform (SpokeGetConfigMap kubeconfig
                       (mkKey InputData.OcpConfigNamespace InputData.IBIOStartTimeCM))
    else e => Ret (Err e) in
  Ret (Ok (om_CreationTimestamp (cm_Meta cm))).

(** Some condition of the cluster version changed less than an hour before the
    reconfiguration started, or later. *)
Definition didCVOStarted (conds : list ClusterOperatorStatusCondition) (reconfigurationStartTime : time)
    : bool :=
  let startTime := (reconfigurationStartTime - 60 * Minute)%Z in
  existsb (λ cond, bool_decide (startTime < cv_LastTransitionTime cond)%Z) conds.

(** The loop over the conditions, [all] being the whole list. *)
Fixpoint version_loop (all conds : list ClusterOperatorStatusCondition) (start : time) : bool * string :=
  match conds with
  | [] => (false, "ClusterVersion Available condition not found")
  | cond :: rest =>
      if bool_decide (cv_Type cond = OperatorAvailable) then
        if negb (didCVOStarted all start) then (false, clusterVersionNotAvailableMessage)
        else if bool_decide (cv_Status cond = "True") then (true, clusterVersionAvailableMessage)
        else (false, "ClusterVersion is not yet available because " +:+ cv_Reason cond +:+ ": "
                +:+ cv_Message cond)
      else version_loop all rest start
  end.

Definition clusterVersionStatus (kubeconfig : string) (reconfigurationStartTime : time)
    : io (result (bool * string)) :=
  try conds := perform (SpokeGetClusterVersion kubeconfig "version") else e => Ret (Err e) in
  Ret (Ok (version_loop conds conds reconfigurationStartTime)).

(** The messages of the nodes that report not to be ready. *)
Definition node_messages (node : Node) : list string :=
  (λ cond, "Node " +:+ node_Name node +:+ " is not yet ready because " +:+ nc_Reason cond +:+ ": "
             +:+ nc_Message cond)
    <$> filter (λ cond, nc_Type cond = NodeReady ∧ nc_Status cond ≠ "True") (node_Conditions node).

Definition nodes_status (nodes : list Node) : bool * string :=
  match nodes with
  | [] => (false, "No nodes found")
  | _ =>
      match mjoin (node_messages <$> nodes) with
      | [] => (true, nodesReadyMessage)
      | messages => (false, strings_Join messages " ")
      end
  end.

Definition nodesStatus (kubeconfig : string) : io (result (bool * string)) :=
  try nodes := perform (SpokeListNodes kubeconfig) else e => Ret (Err e) in
  Ret (Ok (nodes_status nodes)).

Definition GetClusterInstallStatus (kubeconfig : string) : io ClusterInstallStatus :=
  try start := getIBIOStartTime kubeconfig else e =>
    Ret (mkStatus false ("Failed to get " +:+ InputData.IBIOStartTimeCM +:+ " : " +:+ Error e) "") in
  try (cvAvailable, cvMessage) := clusterVersionStatus kubeconfig start else e =>
    Ret (mkStatus false ("Failed to check cluster version status: " +:+ Error e) "") in
  let* nodes := nodesStatus kubeconfig in
  let '(nodesReady, nodesMessage) :=
    match nodes with
    | Ok r => r
    | Err e => (false, "Failed to check node status: " +:+ Error e)
    end in
  Ret (mkStatus (cvAvailable && nodesReady) cvMessage nodesMessage).

(** ** Properties *)

(** The first Available condition says true, and the cluster version has changed
    since an hour before the reconfiguration started. *)
Definition version_ready (start : time) (conds : list ClusterOperatorStatusCondition) : Prop :=
  (∃ before c after, conds = before ++ c :: after ∧
     Forall (λ d, cv_Type d ≠ OperatorAvailable) before ∧
     cv_Type c = OperatorAvailable ∧ cv_Status c = "True") ∧
  ∃ c, c ∈ conds ∧ (start - 60 * Minute < cv_LastTransitionTime c)%Z.

(** There are nodes, and none reports a Ready condition that is not true. *)
Definition nodes_ready (nodes : list Node) : Prop :=
  nodes ≠ [] ∧ ∀ n c, n ∈ nodes → c ∈ node_Conditions n → nc_Type c = NodeReady → nc_Status c = "True".

Lemma didCVOStarted_spec conds start :
  didCVOStarted conds start = true ↔ ∃ c, c ∈ conds ∧ (start - 60 * Minute < cv_LastTransitionTime c)%Z.
Proof.
  unfold didCVOStarted. rewrite existsb_elem. by setoid_rewrite bool_decide_eq_true.
Qed.

Lemma version_loop_spec all conds start :
  (version_loop all conds start).1 = true ↔
  (∃ before c after, conds = before ++ c :: after ∧
     Forall (λ d, cv_Type d ≠ OperatorAvailable) before ∧
     cv_Type c = OperatorAvailable ∧ cv_Status c = "True") ∧ didCVOStarted all start = true.
Proof.
  induction conds as [|c conds IH]; cbn [version_loop].
  - split; [done|]. by intros [([|??]&?&?&[=]&_) _].
  - case_bool_decide as Hty.
    + assert (Hfirst : (∃ before d after, c :: conds = before ++ d :: after ∧
        Forall (λ d, cv_Type d ≠ OperatorAvailable) before ∧
        cv_Type d = OperatorAvailable ∧ cv_Status d = "True") ↔ cv_Status c = "True").
      { split; [|intros ?; by exists [], c, conds].
        intros ([|b bs]&d&after&[= -> ->]&Hb&?&?); [done|]. by apply Forall_cons in Hb as [? _]. }
      rewrite Hfirst. destruct (didCVOStarted all start); cbn [negb]; [|by split; [|intros [_ ?]]].
      case_bool_decide; simpl; (split; [done|]); by intros [? _] || done.
    + rewrite IH. split; intros [(b&d&a&Heq&Hb&?&?) ?]; (split; [|done]).
      * exists (c :: b), d, a. by rewrite Heq, Forall_cons.
      * destruct b as [|b0 b]; simplify_eq/=. apply Forall_cons in Hb as [_ Hb].
        by exists b, d, a.
Qed.

Lemma nodes_status_spec nodes : (nodes_status nodes).1 = true ↔ nodes_ready nodes.
Proof.
  unfold nodes_status, nodes_ready. destruct nodes as [|n ns]; [split; [done|by intros [[] _]]|].
  set (all := n :: ns).
  assert (Hnil : mjoin (node_messages <$> all) = [] ↔
    ∀ n c, n ∈ all → c ∈ node_Conditions n → nc_Type c = NodeReady → nc_Status c = "True").
  { generalize all. clear. intros l. induction l as [|m ms IH]; csimpl; [split; [by intros _ ?? ?%elem_of_nil|done]|].
    assert (Hm : node_messages m = [] ↔
      ∀ c, c ∈ node_Conditions m → nc_Type c = NodeReady → nc_Status c = "True").
    { unfold node_messages. transitivity (filter (λ cond, nc_Type cond = NodeReady ∧ nc_Status cond ≠ "True") (node_Conditions m) = []);
        [split; [apply fmap_nil_inv|by intros ->]|]. clear. induction (node_Conditions m) as [|c cs IHc].
      - split; [by intros _ ? ?%elem_of_nil|done].
      - rewrite filter_cons. setoid_rewrite elem_of_cons. destruct (decide _) as [[Ht Hs]|Hno].
        + split; [done|]. intros Hall. destruct Hs. by apply (Hall c); auto.
        + rewrite IHc. split; [|by auto]. intros Hall d [->|?]; [|auto].
          intros Ht. destruct (decide (nc_Status c = "True")); [done|]. by destruct Hno. }
    rewrite app_nil, Hm, IH. setoid_rewrite elem_of_cons. split.
    - intros [H1 H2] x c [->|?]; eauto.
    - intros Hall. split; [intros c; apply Hall; auto|intros x c ?; apply Hall; auto]. }
  destruct (mjoin _) as [|m ms]; simpl.
  - split; [|done]. intros _. split; [done|]. by apply Hnil.
  - split; [done|]. intros [_ Hall]. by apply Hnil in Hall.
Qed.

(** The spoke cluster is only read. *)
Lemma GetClusterInstallStatus_reads k :
  emits (λ a, hub_write a = false ∧ fs_write a = false) (GetClusterInstallStatus k).
Proof.
  unfold GetClusterInstallStatus, getIBIOStartTime, clusterVersionStatus, nodesStatus. emits_run done.
Qed.

Lemma GetClusterInstallStatus_calls k : within 3 (GetClusterInstallStatus k).
Proof.
  unfold GetClusterInstallStatus, getIBIOStartTime, clusterVersionStatus, nodesStatus. within_run.
Qed.

(** The objects of the spoke cluster an event returned. *)
Definition spoke_answer (ev : event answer)
    : option (ConfigMap + list ClusterOperatorStatusCondition + list Node) :=
  match ev with
  | Ev a x =>
      match a return answer a → option (ConfigMap + list ClusterOperatorStatusCondition + list Node) with
      | SpokeGetConfigMap _ _ => λ x, match x with Ok o => Some (inl (inl o)) | Err _ => None end
      | SpokeGetClusterVersion _ _ => λ x, match x with Ok o => Some (inl (inr o)) | Err _ => None end
      | SpokeListNodes _ => λ x, match x with Ok o => Some (inr o) | Err _ => None end
      | _ => λ _, None
      end x
  end.

(** C22: when an installed cluster counts as installed.  The verdict is true exactly
    when the spoke cluster returned the start time of the reconfiguration, a
    cluster version whose first Available condition is true and which changed
    since an hour before that start, and a non-empty list of nodes none of which
    reports a Ready condition that is not true.  Any failure on the way counts
    as not installed. *)
Theorem cluster_installed_spec kubeconfig t status :
  exec (GetClusterInstallStatus kubeconfig) t status →
  Installed status = true ↔
  ∃ cm conds nodes,
    t = [Ev (SpokeGetConfigMap kubeconfig (mkKey InputData.OcpConfigNamespace InputData.IBIOStartTimeCM)) (Ok cm);
         Ev (SpokeGetClusterVersion kubeconfig "version") (Ok conds);
         Ev (SpokeListNodes kubeconfig) (Ok nodes)] ∧
    version_ready (om_CreationTimestamp (cm_Meta cm)) conds ∧ nodes_ready nodes.
Proof.
  unfold GetClusterInstallStatus, getIBIOStartTime, clusterVersionStatus, nodesStatus.
  intros (x&t1&->&H). cbn [prog_bind] in H. destruct x as [cm|e]; cbn [prog_bind] in H.
  2:{ destruct H as [-> ->]. split; [done|]. intros (?&?&?&Heq&_). by apply (f_equal length) in Heq. }
  destruct H as (x&t2&->&H). cbn [prog_bind] in H. destruct x as [conds|e]; cbn [prog_bind] in H.
  2:{ destruct H as [-> ->]. split; [done|]. intros (?&?&?&Heq&_). by apply (f_equal length) in Heq. }
  pose proof (version_loop_spec conds conds (om_CreationTimestamp (cm_Meta cm))) as Hcv.
  rewrite didCVOStarted_spec in Hcv. fold (version_ready (om_CreationTimestamp (cm_Meta cm)) conds) in Hcv.
  destruct (version_loop conds conds _) as [cv msg].
  destruct H as (x&t3&->&H). cbn [prog_bind] in H. destruct x as [nodes|e]; cbn [prog_bind] in H.
  - pose proof (nodes_status_spec nodes) as Hn. destruct (nodes_status nodes) as [nr nmsg].
    destruct H as [-> ->]. simpl in *. rewrite andb_true_iff, Hcv, Hn. split.
    + intros [??]. by exists cm, conds, nodes.
    + intros (?&?&?&Heq&?&?). apply (f_equal (fmap spoke_answer)) in Heq. simpl in Heq. by simplify_eq.
  - destruct H as [-> ->]. simpl. rewrite andb_false_r. split; [done|]. intros (?&?&?&Heq&_).
    by apply (f_equal (fmap spoke_answer)) in Heq.
Qed.

Lemma cluster_installed_spec_witness :
  ∃ t status, exec (GetClusterInstallStatus "kc") t status ∧ Installed status = true ∧
    ∃ nodes, nodes_ready nodes.
Proof.
  set (w := Sim.with_spoke ([mkCVCondition "Available" "True" 5%Z "" ""],
                            [mkNode "n" [mkNodeCondition "Ready" "True" "" ""]]) Sim.world0).
  set (p := GetClusterInstallStatus "kc").
  assert (Hr : Installed (run Sim.handle p w).1.2 = true) by (vm_compute; reflexivity).
  pose proof (exec_run Sim.handle p w) as Hx.
  eexists _, _. split; [exact Hx|]. split; [exact Hr|].
  destruct (proj1 (cluster_installed_spec "kc" _ _ Hx) Hr) as (_&_&nodes&_&_&Hn). exists nodes. exact Hn.
Defined.

End SpokeStatus.
