(* ===== verification/Progress.v ===== *)
(** * A run of the reconciler gets somewhere

    The safety theorems would also hold of a reconciler that does nothing.  Here:
    a run that neither fails nor asks for another run has done its job, or waits
    for a named thing to appear or to change. *)
From stdpp Require Import base gmap strings list.
From Stdlib Require Import ZArith Lia.
From S2P Require Import Prelude Types World GoStd URL Libs Common InputData Conditions Host Reconciler Sim.
Local Open Scope go_scope.

Module Progress.
Section progress.
Context `{L : GoLibs}.

(** The result asks for another run. *)
Definition again (res : Result) : Prop := Requeue res = true ∨ (0 < RequeueAfter res)%Z.

(** A host that a request answered with. *)
Definition host_read (b : BareMetalHost) (h : trace) : Prop :=
  (∃ k, Ev (GetBMH k) (Ok b) ∈ h) ∨ ∃ p n, Ev (PatchBMH p n) (Ok b) ∈ h.

(** The ClusterDeployment of [i] is not named, or could not be read. *)
Definition no_deployment (i : ImageClusterInstall) (h : trace) : Prop :=
  default "" (ClusterDeploymentRef (ici_Spec i)) = "" ∨
  ∃ name e, ClusterDeploymentRef (ici_Spec i) = Some name ∧
    Ev (GetCD (mkKey (om_Namespace (ici_Meta i)) name)) (Err e) ∈ h.

(** The host of [i] is not named, or could not be read. *)
Definition no_host (i : ImageClusterInstall) (h : trace) : Prop :=
  match Spec_BareMetalHostRef (ici_Spec i) with
  | None => True
  | Some ref => bmhref_Name ref = "" ∨ ∃ e, Ev (GetBMH (mkKey (bmhref_Namespace ref) (bmhref_Name ref))) (Err e) ∈ h
  end.

(** A host was read that is not managed yet and not in a state to be started, or
    it still shows no mark after the patch that sets it. *)
Definition host_unready (h : trace) : Prop :=
  ∃ b, host_read b h ∧ Host.managed b = false ∧
    ((bmh_ProvisioningState b ≠ StateAvailable ∧ bmh_ProvisioningState b ≠ StateExternallyProvisioned) ∨
     ∃ p d, Ev (PatchBMH p (Host.booted_host p d)) (Ok b) ∈ h).

Lemma wp_updateBMHProvisioningState_end b d h :
  host_read b h →
  returns (Host.updateBMHProvisioningState b d) h (λ r h', r.2 = None →
    Common.annotationExists (bmh_Meta r.1) Host.ibioManagedBMH = false → host_unready h').
Proof.
  intros Hb. unfold Host.updateBMHProvisioningState. destruct (Common.annotationExists _ _) eqn:Hm.
  { intros _. simpl. congruence. }
  destruct (negb _ && negb _) eqn:Hst.
  - intros _ _. apply andb_true_iff in Hst as [?%negb_true_iff%bool_decide_eq_false ?%negb_true_iff%bool_decide_eq_false].
    exists b. split_and!; [done..|by left].
  - wp_call; [done|]. destruct x as [b'|e]; cbn [wp fst snd]; [|done]. intros _ Hm'.
    exists b'. split_and!; [right; eexists _, _; hist|done|]. right. exists b, d. unfold Host.booted_host. hist.
Qed.

Lemma wp_start_install_end i b d cond h :
  host_read b h →
  returns (Host.start_install i b d cond) h (λ r h', r.2.2 = None →
    r.2.1 = (true, res0) ∨ again r.2.1.2 ∨ host_unready h').
Proof.
  intros Hb. unfold Host.start_install. rewrite wp_bind. eapply wp_wand; [by apply wp_updateBMHProvisioningState_end|].
  intros [b' [e|]] h1 Hu; [done|]. destruct (negb _) eqn:Hm; [right; right; by apply Hu, negb_true_iff|].
  destruct (Status_BareMetalHostRef (ici_Status i)); [by left|]. rewrite wp_bind.
  eapply wp_wand; [apply returns_any|]. intros i2 h2 _. wp_call; [done|]. destruct x; cbn [wp]; [by left|done].
Qed.

Definition again_or_zero (res : Result) : Prop := res = res0 ∨ again res.

Lemma again_requeue d : (0 < d)%Z → again (requeue_after d).
Proof. by right. Qed.

(** Where the code tests whether a result is zero, one that is not asks for another run. *)
Lemma stopped res (err : option goerror) :
  again_or_zero res → negb (IsZero res) || bool_decide (is_Some err) = true → err = None → again res.
Proof. by intros [->|?] Hs ->. Qed.

Lemma went_on res (err : option goerror) : negb (IsZero res) || bool_decide (is_Some err) = false → err = None.
Proof. intros H. bools. destruct err; [|done]. by match goal with H : ¬ is_Some _ |- _ => destruct H end. Qed.

Lemma wp_ensureBMHDataImage_end b url h :
  returns (Host.ensureBMHDataImage b url) h (λ r _, ∀ d res, r = Ok (d, res) → again_or_zero res).
Proof.
  unfold Host.ensureBMHDataImage, Common.getDataImage, Host.set_controller_reference.
  wp_call; [done|]. destruct x as [d|e]; cbn [prog_bind].
  - destruct (negb _); cbn [wp]; intros ? ? [= _ <-]; [by right; apply again_requeue|by left].
  - destruct (negb _); [done|]. destruct (_ && _); [done|]. wp_call; [done|].
    destruct x; cbn [prog_bind]; [|done]. wp_call; [done|]. destruct x; cbn [prog_bind]; [|done].
    wp_call; [done|]. destruct x; cbn [prog_bind wp]; [|done]. intros ? ? [= _ <-]. by left.
Qed.

Lemma wp_configureHost_end coolDown i url b cond h :
  (0 < coolDown)%Z → host_read b h →
  returns (Host.configureHost coolDown i url b cond) h (λ r h', r.2.2 = None →
    r.2.1 = (true, res0) ∨ again r.2.1.2 ∨ host_unready h').
Proof.
  intros Hcd Hb. unfold Host.configureHost. rewrite wp_bind.
  eapply wp_wand; [apply wp_prefix, wp_ensureBMHDataImage_end|]. intros [[d res]|e] h1 [Hr [t ->]]; [|done].
  destruct (Hr _ _ eq_refl) as [->|Hag]; cbn [negb].
  - change (IsZero res0) with true. cbn [negb]. wp_call; [done|]. case_bool_decide.
    + intros _. right. left. by apply again_requeue.
    + apply wp_start_install_end. destruct Hb as [[k ?]|(p&n&?)]; [left; exists k; hist|right; exists p, n; hist].
  - destruct (negb (IsZero res)) eqn:Hz; [intros _; by right; left|].
    apply negb_false_iff in Hz. unfold IsZero in Hz. bools. destruct Hag as [?|?]; [congruence|].
    match goal with H : RequeueAfter _ = 0%Z |- _ => rewrite H in * end. lia.
Qed.

Lemma wp_validateBMH_end i b cond h :
  returns (Host.validateBMH i b cond) h (λ r _, again_or_zero r.2.1).
Proof.
  unfold Host.validateBMH. destruct (bmh_ExternallyProvisioned b); [by left|]. destruct (_ && _); [by left|].
  destruct (negb _); [right; by apply again_requeue|]. destruct (bmh_HardwareDetails b); [|right; by apply again_requeue].
  rewrite wp_bind. eapply wp_wand; [apply returns_any|]. intros [e|] h' _; by left.
Qed.

Lemma host_read_app b h t : host_read b h → host_read b (h ++ t).
Proof. intros [[k ?]|(p&n&?)]; [left; exists k; hist|right; exists p, n; hist]. Qed.

Lemma wp_validateHost_end i b cond h :
  host_read b h →
  returns (Host.validateHost i b cond) h (λ r h', again_or_zero r.2.1 ∧ (r.2.2 = None → host_read r.1.2 h')).
Proof.
  intros Hb. unfold Host.validateHost. rewrite wp_bind.
  eapply wp_wand; [apply wp_prefix, wp_validateBMH_end|]. intros [c [res err]] h1 [Hr [t ->]]. simpl in Hr.
  apply (host_read_app _ _ t) in Hb. destruct (_ || _); [by split|]. destruct (negb _); [|by split; [left|]].
  wp_call; [done|]. destruct x as [b'|e]; cbn [wp]; (split; [by left|]); [|done].
  intros _. right. eexists _, _. hist.
Qed.

(** No deployment is passed on only because there is none to be read. *)
Lemma wp_validateConfiguration_end i cd cond h :
  returns (Host.validateConfiguration i cd cond) h (λ r h', match r.2 with
    | Ok (Some b) => host_read b h'
    | Ok None => cd = None ∨ no_host i h'
    | Err _ => True
    end).
Proof.
  unfold Host.validateConfiguration.
  destruct cd as [cd|]; [|destruct (ClusterDeploymentRef (ici_Spec i)); [case_bool_decide|]; by left].
  unfold no_host. destruct (Spec_BareMetalHostRef (ici_Spec i)) as [ref|]; [|by right].
  case_bool_decide; [by right; left|]. unfold Common.getBMH. wp_call; [done|].
  destruct x as [b|e]; cbn [prog_bind]; [|right; right; exists e; hist].
  destruct (negb _); [|left; eexists; hist]. wp_call; [done|].
  destruct x as [b'|e]; cbn [prog_bind]; [|done]. right. eexists _, _. hist.
Qed.

Lemma wp_writeInputData_end dir i cd b h :
  returns (InputData.writeInputData dir i cd b) h (λ r _, ∀ res err, r = XRet (res, err) → again_or_zero res).
Proof.
  unfold InputData.writeInputData. rewrite wp_bind. eapply wp_wand; [apply returns_any|].
  intros [[dir' files]|e] h1 _; [|intros ? ? [= <- _]; by left]. rewrite wp_bind.
  eapply wp_wand; [apply returns_any|]. intros [[[locked [e|]] [e'|]]|m] h2 _; try done;
    try (intros ? ? [= <- _]; by left).
  destruct (negb locked); intros ? ? [= <- _]; [right; by apply again_requeue|by left].
Qed.

Lemma wp_createImage_end o i req b cd cond h :
  returns (Reconciler.createImage o i req b cd cond) h (λ r _, ∀ url res err, r.2 = XRet (url, res, err) → again_or_zero res).
Proof.
  unfold Reconciler.createImage. rewrite wp_bind. eapply wp_wand; [apply wp_writeInputData_end|].
  intros [[res [e|]]|m] h1 Hr; [intros ? ? ? [= _ <- _]; by eapply Hr| |done].
  destruct (negb _); [intros ? ? ? [= _ <- _]; by eapply Hr|].
  destruct (url_JoinPath _ _); intros ? ? ? [= _ <- _]; by left.
Qed.

Lemma no_host_app i h t : no_host i h → no_host i (h ++ t).
Proof.
  unfold no_host. destruct (Spec_BareMetalHostRef _); [|done].
  intros [?|[e ?]]; [by left|right; exists e; hist].
Qed.

Lemma host_unready_app h t : host_unready h → host_unready (h ++ t).
Proof.
  intros (b&?&?&Hb). exists b. split_and!; [by apply host_read_app|done|].
  destruct Hb as [?|(p&d&?)]; [by left|right; exists p, d; hist].
Qed.

Lemma wp_attach_image_end o req i b cd cond h :
  (0 < Reconciler.DataImageCoolDownPeriod o)%Z → host_read b h →
  returns (Reconciler.attach_image o req i b cd cond) h (λ r h', ∀ res, r.2 = XRet (res, None) →
    again res ∨ host_unready h' ∨ c_Status r.1.2 = ConditionTrue).
Proof.
  intros Hcd Hb. unfold Reconciler.attach_image. rewrite wp_bind.
  eapply wp_wand; [apply wp_prefix, wp_createImage_end|].
  intros [cond3 [[[url res3] err3]|m]] h4 [Hres [t4 ->]]; [|done]. specialize (Hres _ _ _ eq_refl).
  destruct (negb (IsZero res3) || _) eqn:Hstop.
  { intros res' [= <- Herr]. left. by eapply stopped. }
  rewrite wp_bind. eapply wp_wand; [apply wp_configureHost_end; [done|by apply host_read_app]|].
  intros [[i3 cond4] [[cont res4] err4]] h5 Hend. simpl in Hend.
  destruct (negb cont || negb (IsZero res4) || bool_decide (is_Some err4)) eqn:Hlast; cbn [wp fst snd]; [|auto].
  intros res' [= <- Herr]. destruct (Hend Herr) as [[= -> ->]|[?|?]]; [|auto..]. by subst err4.
Qed.

(** How the phases end that neither fail nor ask for another run. *)
Lemma wp_reconcile_phases_end o req i cd cond h :
  (0 < Reconciler.DataImageCoolDownPeriod o)%Z →
  returns (Reconciler.reconcile_phases o req i cd cond) h (λ r h', ∀ res, r.2 = XRet (res, None) →
    again res ∨ cd = None ∨ no_host i h' ∨ host_unready h' ∨ c_Status r.1.2 = ConditionTrue).
Proof.
  intros Hcd. unfold Reconciler.reconcile_phases. rewrite wp_bind.
  eapply wp_wand; [apply wp_validateConfiguration_end|].
  intros [cond1 [[b|]|e]] h1 Hb; simpl in Hb; [|intros res _; destruct Hb; auto|done].
  destruct cd as [cd|]; [|intros res _; auto]. rewrite wp_bind. eapply wp_wand; [by apply wp_validateHost_end|].
  intros [[cond2 b2] [res err]] h2 [Hres Hb2]. simpl in Hres, Hb2.
  destruct (negb (IsZero res) || _) eqn:Hstop.
  { intros res' [= <- Herr]. left. by eapply stopped. }
  specialize (Hb2 (went_on _ _ Hstop)). clear Hres Hstop.
  rewrite wp_bind. eapply wp_wand; [apply wp_prefix, returns_any|]. intros [i2 [[e|]|m]] h3 [_ [t3 ->]]; try done.
  eapply wp_wand; [apply wp_attach_image_end; [done|by apply host_read_app]|].
  intros r h4 Hr res' Hres. destruct (Hr res' Hres) as [?|[?|?]]; auto.
Qed.

(** The spec of [i] is that of an object the run has read. *)
Definition spec_read (i : ImageClusterInstall) (h : trace) : Prop :=
  ∃ j ev, ev ∈ h ∧ ici_answer ev = Some j ∧ ici_Spec j = ici_Spec i.

Lemma spec_read_app i j h t : ici_Spec j = ici_Spec i → spec_read i h → spec_read j (h ++ t).
Proof. intros Hji (k&ev&?&?&?). exists k, ev. split_and!; [hist|done|congruence]. Qed.

Lemma spec_decoded ev i h : ev ∈ h → ici_answer ev = Some i → spec_read i h.
Proof. intros. by exists i, ev. Qed.

Lemma wp_ensure_annotation_spec i k v h :
  spec_read i h → returns (Reconciler.ensure_annotation i k v) h (λ r h', spec_read r.1 h').
Proof.
  intros Hs. unfold Reconciler.ensure_annotation. destruct (Common.setAnnotationIfNotExists _ _ _) as [m added].
  destruct added; cbn [negb]; [|by rewrite <- (app_nil_r h); apply spec_read_app with i].
  wp_call; [done|]. destruct x as [j|e]; cbn [wp fst]; [eapply spec_decoded; [hist|done]|by apply spec_read_app with i].
Qed.

Lemma wp_initializeConditions_spec i h :
  spec_read i h → returns (Conditions.initializeConditions i) h (λ r h', spec_read r.1 h').
Proof.
  intros Hs. unfold Conditions.initializeConditions. rewrite wp_bind.
  eapply wp_intro; [apply Conditions.emits_initialize_loop|done|].
  intros t [new need] (_&added&->&_)%Conditions.initialize_loop_spec.
  destruct need; cbn [negb]; [|by apply spec_read_app with i].
  unfold Conditions.status_patch. wp_call; [done|].
  destruct x as [j|e]; cbn [wp fst]; [eapply spec_decoded; [hist|done]|].
  rewrite <- app_assoc. by apply spec_read_app with i.
Qed.

(** What an installation that goes no further waits for. *)
Definition waiting (h : trace) : Prop :=
  (∃ j, spec_read j h ∧ no_host j h) ∨ host_unready h.

Lemma wp_reconcile_deferred_end o req j cd h :
  (0 < Reconciler.DataImageCoolDownPeriod o)%Z → known j h → spec_read j h →
  returns (Reconciler.reconcile_deferred o req j cd) h (λ r h', ∀ res, r = XRet (res, None) →
    again res ∨ cd = None ∨ waiting h' ∨ Reconciler.attached o h').
Proof.
  intros Hcd Hk Hs. unfold Reconciler.reconcile_deferred. rewrite wp_bind.
  set (cond := Conditions.cond_lit _ _ _ _).
  eapply wp_wand.
  { apply wp_prefix. eapply returns_of_wp, wp_and;
      [apply (Reconciler.wp_reconcile_phases o req j j cd cond h Hk)|by apply wp_reconcile_phases_end]. }
  intros [[j' cond'] r] h1 [[[_ Hst] Hend] [t ->]]. rewrite wp_bind.
  eapply wp_wand; [apply wp_prefix, returns_any|]. intros _ h2 [_ [t2 ->]] res Hres. simpl in Hres, Hend.
  destruct (Hend res Hres) as [?|[?|[?|[?|Htrue]]]]; [auto..| | |].
  - right. right. left. left. exists j. rewrite <- app_assoc. split; [by apply spec_read_app with j|].
    rewrite app_assoc. by apply no_host_app.
  - right. right. left. right. by apply host_unready_app.
  - right. right. right. destruct Hst as [Hst|(_&_&?)]; [simpl in Hst; congruence|]. by apply Reconciler.attached_app.
Qed.

Lemma wp_reconcile_install_end o req j cd h :
  (0 < Reconciler.DataImageCoolDownPeriod o)%Z → known j h → spec_read j h →
  returns (Reconciler.reconcile_install o req j cd) h (λ r h', ∀ res, r = XRet (res, None) →
    Reconciler.iciIsBeingRestored j = true ∨ again res ∨ cd = None ∨ waiting h' ∨ Reconciler.attached o h').
Proof.
  intros Hcd Hk Hs. unfold Reconciler.reconcile_install. destruct (Reconciler.iciIsBeingRestored j); [by left|].
  rewrite wp_bind. eapply wp_wand.
  { eapply returns_of_wp, wp_and; [apply (Reconciler.wp_ensure_annotation o req j); [done|by left]|by apply wp_ensure_annotation_spec]. }
  intros [j1 [e|]] h1 [Hk1 Hs1]; [done|]. rewrite wp_bind. eapply wp_wand.
  { eapply returns_of_wp, wp_and; [apply (Reconciler.wp_ensure_annotation o req j); [done|by right]|by apply wp_ensure_annotation_spec]. }
  intros [j2 [e|]] h2 [Hk2 Hs2]; [done|]. rewrite wp_bind. eapply wp_wand.
  { eapply returns_of_wp, wp_and; [by apply Conditions.wp_initializeConditions|by apply wp_initializeConditions_spec]. }
  intros [j3 [e|]] h3 [Hk3 Hs3]; [done|]. eapply wp_wand; [by apply (wp_reconcile_deferred_end o req)|].
  intros r h4 Hr res Hres. right. by apply Hr.
Qed.

(** *** The ends of a run *)

(** The finalizer was not there, or the patch that takes it off was accepted. *)
Definition finalizer_gone (i : ImageClusterInstall) (h : trace) : Prop :=
  Reconciler.clusterInstallFinalizerName ∉ om_Finalizers (ici_Meta i) ∨
  ∃ n n', Ev (PatchICI i n) (Ok n') ∈ h ∧ Reconciler.clusterInstallFinalizerName ∉ om_Finalizers (ici_Meta n).

Lemma wp_removeFinalizer_end i h :
  returns (Reconciler.removeFinalizer i) h (λ e h', e = None → finalizer_gone i h').
Proof.
  unfold Reconciler.removeFinalizer, Reconciler.RemoveFinalizer.
  set (fin := Reconciler.clusterInstallFinalizerName). set (fs := om_Finalizers (ici_Meta i)).
  destruct (negb _) eqn:Hlen.
  - wp_call; [done|]. destruct x as [j|e]; cbn [wp]; [|done]. intros _. right. eexists _, j.
    split; [hist|]. simpl. by intros [? _]%list_elem_of_filter.
  - intros _. left. apply negb_false_iff, Nat.eqb_eq in Hlen. intros Hin. fold fin fs in Hin.
    apply list_elem_of_split in Hin as (l1&l2&Heq). rewrite Heq, filter_app, !length_app in Hlen.
    rewrite filter_cons_False in Hlen by (intros []; done).
    pose proof (length_filter (λ x, x ≠ fin) l1). pose proof (length_filter (λ x, x ≠ fin) l2). simpl in Hlen. lia.
Qed.

Lemma wp_finish_deletion_end i h :
  returns (Reconciler.finish_deletion i) h (λ r h', r.1.2 = true ∧
    (r.2 = None → again r.1.1 ∨ (r.1.1 = res0 ∧ finalizer_gone i h'))).
Proof.
  unfold Reconciler.finish_deletion.
  assert (Hrm : ∀ h', returns (let* e := Reconciler.removeFinalizer i in Ret (res0, true, e)) h'
    (λ r h', r.1.2 = true ∧ (r.2 = None → again r.1.1 ∨ (r.1.1 = res0 ∧ finalizer_gone i h')))).
  { intros h'. rewrite wp_bind. eapply wp_wand; [apply wp_removeFinalizer_end|].
    intros e h2 He. split; [done|]. intros ?. right. auto. }
  destruct (Spec_BareMetalHostRef (ici_Spec i)); [|apply Hrm]. rewrite wp_bind.
  eapply wp_wand; [apply returns_any|]. intros [[d|] [e|]] h1 _; [done| |done|apply Hrm].
  split; [done|]. intros _. left. by apply again_requeue.
Qed.

(** The finalizer handler stops the run unless the object is live and has the finalizer. *)
Lemma wp_handleFinalizer_end dir i h :
  returns (Reconciler.handleFinalizer dir i) h (λ r h', ∀ res stop err, r = XRet (res, stop, err) →
    (stop = false → res = res0 ∧ err = None) ∧
    (stop = true → err = None → again res ∨ (res = res0 ∧ Reconciler.deleted i = true ∧ finalizer_gone i h'))).
Proof.
  unfold Reconciler.handleFinalizer, Reconciler.deleted. destruct (IsZeroTime _); cbn [negb].
  - destruct (Reconciler.AddFinalizer _ _) as [m [|]].
    + wp_call; [done|]. destruct x; cbn [wp]; intros ? ? ? [= <- <- <-]; split; try done.
      intros _ _. left. by left.
    + intros ? ? ? [= <- <- <-]. by split.
  - unfold InputData.configDirs. wp_call; [done|].
    assert (Hfin : ∀ h', returns (let* r := Reconciler.finish_deletion i in Ret (XRet r)) h' (λ r h', ∀ res stop err,
      r = XRet (res, stop, err) → (stop = false → res = res0 ∧ err = None) ∧
      (stop = true → err = None → again res ∨ (res = res0 ∧ true = true ∧ finalizer_gone i h')))).
    { intros h'. rewrite wp_bind. eapply wp_wand; [apply wp_finish_deletion_end|].
      intros [[res stop] err] h2 [Hstop Hr] ? ? ? [= <- <- <-]. simpl in *. subst stop. split; [done|].
      intros _ Herr. destruct (Hr Herr) as [?|[??]]; auto. }
    destruct x as [e|]; cbn [prog_bind]; [intros ? ? ? [= <- <- <-]; by split|]. wp_call; [done|].
    destruct x as [|e|e]; [|apply Hfin|intros ? ? ? [= <- <- <-]; by split].
    rewrite wp_bind. eapply wp_wand; [apply returns_any|].
    intros [[[locked [e|]] [e'|]]|m] h2 _; try (intros ? ? ? [= <- <- <-]; by split).
    destruct (negb locked); [|apply Hfin]. intros ? ? ? [= <- <- <-]. split; [done|].
    intros _ _. left. by apply again_requeue.
Qed.

(** The cleanup after an installation: not asked for, no host, or the DataImage is gone. *)
Definition cleaned (i : ImageClusterInstall) (h : trace) : Prop :=
  Common.annotationExists (ici_Meta i) Common.postCleanupAnnotation = false ∨
  match Spec_BareMetalHostRef (ici_Spec i) with
  | None => True
  | Some ref => ∃ e, IsNotFound e = true ∧ Ev (GetDataImage (mkKey (bmhref_Namespace ref) (bmhref_Name ref))) (Err e) ∈ h
  end.

Lemma wp_handlePostCleanup_end i h :
  returns (Common.handlePostCleanup i) h (λ r h', ∀ res, r = Ok res → again res ∨ cleaned i h').
Proof.
  unfold Common.handlePostCleanup, cleaned. destruct (Common.annotationExists _ _); cbn [negb]; [|by right; left].
  destruct (Spec_BareMetalHostRef (ici_Spec i)) as [ref|]; [|by right; right].
  rewrite wp_bind. eapply wp_wand; [apply returns_any|]. intros [d [e|]] h1 _; [done|].
  unfold Common.getDataImage. wp_call; [done|]. destruct x as [d'|e]; cbn [prog_bind].
  - intros res [= <-]. left. by apply again_requeue.
  - destruct (IsNotFound e) eqn:He; [|done]. intros res _. right. right. exists e. split; [done|hist].
Qed.

Lemma wp_get_cd_end i h : returns (Reconciler.get_cd i) h (λ cd h', cd = None → no_deployment i h').
Proof.
  unfold Reconciler.get_cd, no_deployment. destruct (ClusterDeploymentRef (ici_Spec i)) as [name|]; [|by left].
  case_bool_decide; [by left|]. wp_call; [done|]. destruct x as [d|e]; cbn [wp]; [done|].
  intros _. right. exists name, e. split; [done|hist].
Qed.

(** The files of a booted installation were found complete. *)
Definition files_present (o : Reconciler.Options) (h : trace) : Prop :=
  ∃ j, known j h ∧ ∀ f, f ∈ InputData.output_files (InputData.GetClusterConfigDir
      (filepath_Join [Reconciler.DataDir o; "namespaces"]) (om_Namespace (ici_Meta j)) (om_UID (ici_Meta j))) →
    Ev (OsStat f) StatOk ∈ h.

Lemma wp_setRequirementsMet_spec i st reason msg h :
  spec_read i h → returns (Conditions.setRequirementsMetCondition i st reason msg) h (λ r h', spec_read r h').
Proof.
  intros Hs. unfold Conditions.setRequirementsMetCondition, Conditions.set_ici_condition, Conditions.setClusterInstallCondition.
  wp_call; [done|]. destruct (Conditions.set_condition_at _ _ _) as [cs updated]. cbn [prog_bind].
  destruct updated; cbn [negb wp]; [|by apply spec_read_app with i]. unfold Conditions.status_patch.
  wp_call; [done|]. destruct x0 as [j|e]; cbn [prog_bind wp]; [eapply spec_decoded; [hist|done]|].
  rewrite <- app_assoc. by apply spec_read_app with i.
Qed.

Lemma wp_reconcile_booted_end o i h :
  known i h → spec_read i h →
  returns (Reconciler.reconcile_booted o i) h (λ r h', known r.1 h' ∧ spec_read r.1 h' ∧
    (r.2 = true → files_present o h')).
Proof.
  intros Hk Hs. unfold Reconciler.reconcile_booted. rewrite wp_bind.
  apply (wp_wand _ _ _ (λ r h', known r h' ∧ spec_read r h')).
  - destruct (Conditions.findCondition _ _) as [c|]; [|done]. case_bool_decide; [|done].
    eapply returns_of_wp, wp_and; [by apply Conditions.wp_setRequirementsMetCondition|by apply wp_setRequirementsMet_spec].
  - intros j h1 [Hk1 Hs1]. rewrite wp_bind. unfold InputData.verifyIsoAndAuthExists.
    eapply wp_wand; [apply wp_prefix; eapply returns_of_wp, InputData.wp_all_exist|].
    intros ready h2 [Hr [t ->]]. cbn [wp fst snd]. split_and!; [by apply known_app|by apply spec_read_app with j|].
    intros ->. exists j. split; [by apply known_app|]. intros f Hf. rewrite Hr. apply elem_of_app. right.
    by apply list_elem_of_fmap_2 with (f := λ f, Ev (OsStat f) StatOk).
Qed.

(** What a run that goes no further has done for the object [i] it has read. *)
Definition done_with (o : Reconciler.Options) (i : ImageClusterInstall) (h : trace) : Prop :=
  (Reconciler.deleted i = true ∧ finalizer_gone i h) ∨
  (Conditions.InstallationCompleted i = true ∧ cleaned i h) ∨
  (BootTime (ici_Status i) ≠ 0%Z ∧ files_present o h) ∨
  Reconciler.attached o h.

Definition ends_well (o : Reconciler.Options) (i : ImageClusterInstall) (res : Result) (h : trace) : Prop :=
  again res ∨ done_with o i h ∨ no_deployment i h ∨ waiting h ∨
  ∃ j, known j h ∧ spec_read j h ∧ Reconciler.iciIsBeingRestored j = true.

Lemma wp_install_ends_well o req i j cd h :
  (0 < Reconciler.DataImageCoolDownPeriod o)%Z → known j h → spec_read j h →
  (cd = None → ∀ t, no_deployment i (h ++ t)) →
  returns (Reconciler.reconcile_install o req j cd) h (λ r h', ∀ res, r = XRet (res, None) → ends_well o i res h').
Proof.
  intros Hcd Hk Hs Hno. eapply wp_wand; [by apply wp_prefix, wp_reconcile_install_end|].
  intros r h' [Hr [t ->]] res Hres. destruct (Hr res Hres) as [Hrest|[?|[?|[?|?]]]].
  - do 4 right. exists j. split_and!; [by apply known_app|by apply spec_read_app with j|done].
  - by left.
  - do 2 right. left. by apply Hno.
  - do 3 right. by left.
  - right. left. by do 3 right.
Qed.

Lemma no_deployment_app i h t : no_deployment i h → no_deployment i (h ++ t).
Proof. intros [?|(n&e&?&?)]; [by left|right]. exists n, e. split; [done|hist]. Qed.

Lemma wp_reconcile_read_end o req i h :
  (0 < Reconciler.DataImageCoolDownPeriod o)%Z → known i h → spec_read i h →
  returns (Reconciler.reconcile_read o req i) h (λ r h', ∀ res, r = XRet (res, None) → ends_well o i res h').
Proof.
  intros Hcd Hk Hs. unfold Reconciler.reconcile_read. rewrite wp_bind.
  eapply wp_wand; [apply wp_prefix, wp_handleFinalizer_end|].
  intros [[[res stop] err]|m] h1 [Hfin [t1 ->]]; [|done]. destruct (Hfin _ _ _ eq_refl) as [Hgo Hstop]. clear Hfin.
  destruct stop.
  { rewrite orb_true_r. intros ? [= <- Herr]. destruct (Hstop eq_refl Herr) as [?|(->&?&?)]; [by left|].
    right. left. by left. }
  destruct (Hgo eq_refl) as [-> ->]. clear Hgo Hstop.
  change (negb (IsZero res0) || false || bool_decide (is_Some (@None goerror))) with false. cbv iota.
  apply (known_app _ _ t1) in Hk. apply (spec_read_app _ i _ t1 eq_refl) in Hs.
  rewrite wp_bind. eapply wp_wand; [apply wp_prefix, wp_get_cd_end|]. intros cd h2 [Hno [t2 ->]].
  apply (known_app _ _ t2) in Hk. apply (spec_read_app _ i _ t2 eq_refl) in Hs.
  rewrite wp_bind. eapply wp_wand; [apply wp_prefix, returns_any|]. intros _ h3 [_ [t3 ->]].
  apply (known_app _ _ t3) in Hk. apply (spec_read_app _ i _ t3 eq_refl) in Hs.
  assert (Hno' : cd = None → ∀ t, no_deployment i ((((h ++ t1) ++ t2) ++ t3) ++ t)).
  { intros Hn t. by do 2 apply no_deployment_app; apply Hno. }
  destruct (Conditions.InstallationCompleted i) eqn:Hc.
  - rewrite wp_bind. eapply wp_wand; [apply wp_handlePostCleanup_end|].
    intros [res|e] h4 Hr; [|done]. intros ? [= <-]. destruct (Hr res eq_refl) as [?|?]; [by left|].
    right. left. right. by left.
  - unfold IsZeroTime. case_bool_decide as Hb; cbn [negb]; [by apply wp_install_ends_well|].
    rewrite wp_bind. eapply wp_wand; [by apply wp_prefix, (wp_reconcile_booted_end o)|].
    intros [j ready] h4 [(Hk4&Hs4&Hf) [t4 ->]]. simpl in Hk4, Hs4, Hf. destruct ready.
    + intros res _. right. left. right. right. left. auto.
    + apply wp_install_ends_well; [done..|]. intros Hn t. rewrite <- app_assoc. by apply Hno'.
Qed.

(** C4: no run is wasted.  With a positive cool-down period, a run of the
    reconciler that neither fails (and is retried) nor asks for another run found
    that the object is gone, or has done its job for the object it has read: the
    object is deleted and the finalizer was taken off; it was completed and,
    where asked for, its DataImage is gone; it had booted and its files were
    found complete; or the image is now built, attached, and the host started.
    In the only other cases the run waits for something that is watched: a
    ClusterDeployment or a host that is not named or could not be read, a host
    that cannot be started in its state, or the restored status of an object. *)
Theorem no_run_is_wasted o req t res :
  (0 < Reconciler.DataImageCoolDownPeriod o)%Z →
  exec (Reconciler.Reconcile o req) t (XRet (res, None)) →
  (∃ e, t = [Ev (GetICI req) (Err e)] ∧ IsNotFound e = true) ∨
  ∃ i, Reconciler.read_first req i t ∧ ends_well o i res t.
Proof.
  intros Hcd [(e&->&Hr)|(i&t'&->&He)]%Reconciler.exec_Reconcile.
  - left. exists e. split; [done|]. by destruct (IsNotFound e).
  - right. exists i. split; [by exists t'|]. set (ev := Ev (GetICI req) (Ok i)).
    assert (Hk : known i [ev]) by (eapply known_decoded; [apply list_elem_of_here|done]).
    assert (Hs : spec_read i [ev]) by (eapply spec_decoded; [apply list_elem_of_here|done]).
    destruct (wp_exec _ _ [ev] _ _ _ (wp_reconcile_read_end o req i [ev] Hcd Hk Hs) He) as [Hend _].
    by apply Hend.
Qed.
End progress.

(** The second round of the scenario ends because the image is attached. *)
Lemma no_run_is_wasted_witness :
  ∃ t i, Reconciler.read_first Sim.req0 i t ∧ ends_well Reconciler.opts0 i res0 t.
Proof.
  assert (Hres : (run Sim.handle Reconciler.reconcile0 Reconciler.world1).1.2 = XRet (res0, None)) by (vm_compute; reflexivity).
  pose proof (Reconciler.scenario_exec Reconciler.world1) as Hx. rewrite Hres in Hx.
  destruct (no_run_is_wasted (L := StubLibs) Reconciler.opts0 Sim.req0 _ res0 eq_refl Hx) as [(e&He&_)|(i&Hi&Hend)].
  - exfalso. apply (f_equal length) in He. revert He. vm_compute. discriminate.
  - eexists _, i. exact (conj Hi Hend).
Defined.
End Progress.
