(* ===== verification/Monitor.v ===== *)
(** * The installation monitor ([controllers/imageclusterinstall_monitor.go])

    Follows an installation after the host has booted: power on, progress of
    the spoke cluster, time-out, and removal of the DataImage at the end. *)
From stdpp Require Import base gmap strings list.
From Stdlib Require Import ZArith Lia.
From S2P Require Import Prelude Types World GoStd GoTime Conditions Common SpokeStatus Sim.
Local Open Scope go_scope.

Module Monitor.
Section monitor.
(** [r.GetSpokeClusterInstallStatus], a field of the monitor: the manager sets
    it to [SpokeStatus.GetClusterInstallStatus]. *)
Context (GetSpokeClusterInstallStatus : string → io SpokeStatus.ClusterInstallStatus).
Context (DefaultInstallTimeout : duration).

Definition installTimeoutAnnotation := "imageclusterinstall." +:+ Common.Group +:+ "/install-timeout".

Definition handleClusterTimeout (ici : ImageClusterInstall) (defaultTimeout : duration)
    : io (ImageClusterInstall * result bool) :=
  if Conditions.installationTimedout ici then Ret (ici, Ok true)
  else
    match (match entries (om_Annotations (ici_Meta ici)) !! installTimeoutAnnotation with
           | Some timeoutOverride =>
               match time_ParseDuration timeoutOverride with
               | Err e => Err (ErrWrap ("failed to parse install timeout annotation value "
                                          +:+ timeoutOverride +:+ ": ") e)
               | Ok t => Ok t
               end
           | None => Ok defaultTimeout
           end) with
    | Err e => Ret (ici, Err e)
    | Ok timeout =>
        let* now := perform TimeNow in
        if bool_decide (BootTime (ici_Status ici) + timeout < now)%Z then
          let* (ici', _) := Conditions.setClusterTimeoutConditions ici (duration_String timeout) in
          Ret (ici', Ok true)
        else Ret (ici, Ok false)
    end.

(** The common end of a round in which the cluster is not installed yet. *)
Definition in_progress (ici : ImageClusterInstall) (message : string) : io (result Result) :=
  let* (ici, r) := handleClusterTimeout ici DefaultInstallTimeout in
  match r with
  | Err e => Ret (Err e)
  | Ok true => Ret (Ok (requeue_after Hour))
  | Ok false =>
      let* _ := Conditions.setClusterInstallingConditions ici message in
      Ret (Ok (requeue_after Minute))
  end.

(** [(res, stop, err)] of [handleDataImageDeletion], with the object. *)
Definition handleDataImageDeletion (ici : ImageClusterInstall) (bmhRef : NamespacedName)
    : io (ImageClusterInstall * (Result * bool * option goerror)) :=
  let* dataImage := Common.getDataImage (key_Namespace bmhRef) (key_Name bmhRef) in
  match dataImage with
  | Err e =>
      if negb (IsNotFound e) then Ret (ici, (res0, true, Some e)) else Ret (ici, (res0, false, None))
  | Ok d =>
      if negb (IsZeroTime (om_DeletionTimestamp (di_Meta d))) then
        let* (ici', _) := Conditions.setClusterInstallingConditions ici "Waiting for DataImage to be deleted" in
        Ret (ici', (requeue_after Minute, true, None))
      else Ret (ici, (res0, false, None))
  end.

(** The kubeconfig the spoke client is built from; the client itself is the
    environment's. *)
Definition spokeClient (ici : ImageClusterInstall) : io (result string) :=
  match Spec_ClusterMetadata (ici_Spec ici) with
  | None => Ret (Err (ErrNew "kubeconfig secret must be set to get spoke client"))
  | Some cm =>
      if bool_decide (AdminKubeconfigSecretRef cm = "")
      then Ret (Err (ErrNew "kubeconfig secret must be set to get spoke client"))
      else
        let key := mkKey (om_Namespace (ici_Meta ici)) (AdminKubeconfigSecretRef cm) in
        try secret := perform (GetSecret CachedClient key) else e =>
          Ret (Err (ErrWrap ("failed to get admin kubeconfig secret " +:+ key_Namespace key +:+ "/"
                 +:+ key_Name key +:+ ": ") e)) in
        let name := om_Namespace (secret_Meta secret) +:+ "/" +:+ om_Name (secret_Meta secret) in
        match secret_Data secret with
        | None => Ret (Err (ErrNew ("Secret " +:+ name +:+ " does not contain any data")))
        | Some data =>
            match data !! "kubeconfig" with
            | None => Ret (Err (ErrNew ("Secret data for " +:+ name +:+ " does not contain kubeconfig")))
            | Some kubeconfig =>
                if bool_decide (kubeconfig = "")
                then Ret (Err (ErrNew ("Secret data for " +:+ name +:+ " does not contain kubeconfig")))
                else
                  check perform (NewClientConfigFromBytes kubeconfig) else e =>
                    Ret (Err (ErrWrap "failed to get clientconfig from kubeconfig data: " e)) in
                  check perform (ClientConfig kubeconfig) else e =>
                    Ret (Err (ErrWrap "failed to get restconfig for kube client: " e)) in
                  check perform (NewSpokeClient kubeconfig) else e =>
                    Ret (Err (ErrNew ("failed to initialize spoke client: " +:+ Error e))) in
                  Ret (Ok kubeconfig)
            end
        end
  end.

(** The end of an installation: the DataImage is removed, then Completed is set. *)
Definition finish_install (ici : ImageClusterInstall) (bmhRef : NamespacedName) : io (result Result) :=
  let* (_, err) := Common.removeBMHDataImage bmhRef in
  match err with
  | Some e => Ret (Err e)
  | None =>
      let* (ici, (res, stop, err)) := handleDataImageDeletion ici bmhRef in
      match err with
      | Some e => Ret (Err e)
      | None =>
          if (stop : bool) then Ret (Ok res)
          else
            let* (_, err) := Conditions.setClusterInstalledConditions ici in
            match err with
            | Some e => Ret (Err e)
            | None => Ret (Ok res0)
            end
      end
  end.

Definition checkClusterStatus (ici : ImageClusterInstall) (bmh : BareMetalHost) : io (result Result) :=
  let bmhRef := meta_key (bmh_Meta bmh) in
  let* (ici, (res, stop, err)) := handleDataImageDeletion ici bmhRef in
  match err with
  | Some e => Ret (Err e)
  | None =>
      if (stop : bool) then Ret (Ok res)
      else
        try kubeconfig := spokeClient ici else e => Ret (Err e) in
        let* status := GetSpokeClusterInstallStatus kubeconfig in
        if negb (SpokeStatus.Installed status)
        then in_progress ici (SpokeStatus.status_String status)
        else finish_install ici bmhRef
  end.

(** A nil status reference is dereferenced by [getBMH]. *)
Definition monitorInstallationProgress (ici : ImageClusterInstall) : io (xres (result Result)) :=
  match Status_BareMetalHostRef (ici_Status ici) with
  | None => Ret (XPanic "invalid memory address or nil pointer dereference")
  | Some ref =>
      try bmh := Common.getBMH ref else e => Ret (XRet (Err e)) in
      let* r := if negb (bmh_PoweredOn bmh) then in_progress ici "Waiting for BMH to power on"
                else checkClusterStatus ici bmh in
      Ret (XRet r)
  end.

(** [Reconcile] of the monitor. *)
Definition MonitorReconcile (req : NamespacedName) : io (xres (result Result)) :=
  try ici := perform (GetICI req) else e =>
    Ret (XRet (if IsNotFound e then Ok res0 else Err e)) in
  if IsZeroTime (BootTime (ici_Status ici)) then Ret (XRet (Ok res0))
  else if Conditions.InstallationCompleted ici then Ret (XRet (Ok res0))
  else monitorInstallationProgress ici.

(** The event filter of the monitor: only updates of booted objects pass. *)
Inductive watch_event :=
| CreateEvent (obj : ImageClusterInstall)
| UpdateEvent (old new : ImageClusterInstall)
| DeleteEvent (obj : ImageClusterInstall)
| GenericEvent (obj : ImageClusterInstall).
Definition bootTimeInitialized (e : watch_event) : bool :=
  match e with
  | UpdateEvent _ new => negb (IsZeroTime (BootTime (ici_Status new)))
  | CreateEvent _ | DeleteEvent _ | GenericEvent _ => false
  end.

(** ** Properties *)

(** The time-out of an installation: the annotation, else the default. *)
Definition install_timeout (ici : ImageClusterInstall) (defaultTimeout : duration) : result duration :=
  match entries (om_Annotations (ici_Meta ici)) !! installTimeoutAnnotation with
  | None => Ok defaultTimeout
  | Some v => match time_ParseDuration v with
              | Ok d => Ok d
              | Err e => Err (ErrWrap ("failed to parse install timeout annotation value " +:+ v +:+ ": ") e)
              end
  end.

(** The object was booted longer ago than its time-out allows. *)
Definition overdue (ici : ImageClusterInstall) (defaultTimeout timeout : duration) (now : time) : Prop :=
  install_timeout ici defaultTimeout = Ok timeout ∧ (BootTime (ici_Status ici) + timeout < now)%Z.

Lemma handleClusterTimeout_eq ici dt :
  handleClusterTimeout ici dt =
  if Conditions.installationTimedout ici then Ret (ici, Ok true)
  else match install_timeout ici dt with
       | Err e => Ret (ici, Err e)
       | Ok timeout =>
           let* now := perform TimeNow in
           if bool_decide (BootTime (ici_Status ici) + timeout < now)%Z then
             let* (ici', _) := Conditions.set_progress (Conditions.TimedOut (duration_String timeout)) ici in
             Ret (ici', Ok true)
           else Ret (ici, Ok false)
       end.
Proof.
  unfold handleClusterTimeout, install_timeout. destruct (Conditions.installationTimedout ici); [done|].
  destruct (_ !! _) as [v|]; [|done]. by destruct (time_ParseDuration v).
Qed.

(** With a readable time-out, one reading of the clock decides. *)
Lemma handleClusterTimeout_decides ici dt d t ici' r :
  exec (handleClusterTimeout ici dt) t (ici', r) →
  Conditions.installationTimedout ici = false → install_timeout ici dt = Ok d →
  ∃ now t', t = Ev TimeNow now :: t' ∧ r = Ok (bool_decide (BootTime (ici_Status ici) + d < now)%Z).
Proof.
  rewrite handleClusterTimeout_eq. intros H Hnot Hd. rewrite Hnot, Hd in H.
  destruct H as (now&t'&->&H). exists now, t'. split; [done|]. cbn [prog_bind] in H. case_bool_decide.
  - by apply prog_bind_assoc_exec in H as (?&?&[??]&_&_&[_ [= _ ->]]).
  - by destruct H as [_ [= _ ->]].
Qed.

(** C19: the time-out is a 64-bit duration, and the annotation is read as it was
    meant.  For an installation that has not timed out yet, whatever text the
    annotation holds, the decision either fails without reading the clock or
    compares the time since the boot with a time-out within the range of
    [time.Duration].  If the annotation is written the way durations are printed,
    for any number of whole seconds up to the largest duration (about 292 years),
    it never fails, and the time-out is exactly that number of seconds. *)
Theorem install_timeout_bounds ici dt t ici' r :
  (- two63 <= dt < two63)%Z → exec (handleClusterTimeout ici dt) t (ici', r) →
  Conditions.installationTimedout ici = false →
  ((∃ e, t = [] ∧ ici' = ici ∧ r = Err e) ∨
   ∃ d now t', (- two63 <= d < two63)%Z ∧ t = Ev TimeNow now :: t' ∧
     r = Ok (bool_decide (BootTime (ici_Status ici) + d < now)%Z)) ∧
  (∀ k, (0 <= k)%Z → (k * Second < two63)%Z →
     entries (om_Annotations (ici_Meta ici)) !! installTimeoutAnnotation = Some (duration_String (k * Second)%Z) →
     ∃ now t', t = Ev TimeNow now :: t' ∧ r = Ok (bool_decide (BootTime (ici_Status ici) + k * Second < now)%Z)).
Proof.
  intros Hdt He Hnot. split.
  - destruct (install_timeout ici dt) as [d|e] eqn:Hd.
    + right. destruct (handleClusterTimeout_decides _ _ _ _ _ _ He Hnot Hd) as (now&t'&?&?). exists d, now, t'.
      split; [|done]. unfold install_timeout in Hd. destruct (_ !! _) as [v|]; [|by injection Hd as <-].
      destruct (time_ParseDuration v) as [d'|] eqn:Hv; [|done]. injection Hd as <-. by eapply ParseDuration_range.
    + left. rewrite handleClusterTimeout_eq, Hnot, Hd in He. destruct He as [-> [= -> ->]]. by exists e.
  - intros k Hk Hle Hann. eapply handleClusterTimeout_decides; [done|done|]. unfold install_timeout.
    by rewrite Hann, ParseDuration_String.
Qed.

(** C18: the time-out decision.  An installation that was already reported as timed
    out stays so without any request.  Otherwise the time-out is the value of the
    annotation if there is one (an error if it cannot be parsed, again without any
    request), else the default; the clock is read once, and the installation has
    timed out exactly when more than the time-out has passed since the boot.  Only
    then are the conditions written, and the answer does not depend on whether
    that write succeeds. *)
Theorem timeout_decision ici dt t ici' r :
  exec (handleClusterTimeout ici dt) t (ici', r) →
  (Conditions.installationTimedout ici = true → t = [] ∧ ici' = ici ∧ r = Ok true) ∧
  (Conditions.installationTimedout ici = false → ∀ e, install_timeout ici dt = Err e →
     t = [] ∧ ici' = ici ∧ r = Err e) ∧
  (Conditions.installationTimedout ici = false → ∀ d, install_timeout ici dt = Ok d →
     ∃ now t', t = Ev TimeNow now :: t' ∧ (r = Ok true ∨ r = Ok false) ∧
       (r = Ok true ↔ (BootTime (ici_Status ici) + d < now)%Z) ∧
       (r = Ok false → t' = [] ∧ ici' = ici) ∧
       (r = Ok true → ∃ err, exec (Conditions.set_progress (Conditions.TimedOut (duration_String d)) ici)
                                  t' (ici', err))).
Proof.
  rewrite handleClusterTimeout_eq. destruct (Conditions.installationTimedout ici).
  { intros [-> [= -> ->]]. split_and!; [done|discriminate|discriminate]. }
  destruct (install_timeout ici dt) as [d|e].
  - intros (now&t'&->&H). cbn [prog_bind] in H. split_and!; [discriminate|discriminate|].
    intros _ d' [= <-]. exists now, t'. split; [done|]. case_bool_decide as Hlate.
    + apply prog_bind_assoc_exec in H as (t1&t2&[i err]&->&Hx&[-> [= -> ->]]).
      rewrite app_nil_r. split_and!; [by left|done|discriminate|by eauto].
    + destruct H as [-> [= -> ->]]. split_and!; [by right|by split; [discriminate|]|done|discriminate].
  - intros [-> [= -> ->]]. split_and!; [discriminate| |discriminate]. by intros _ ? [= <-].
Qed.

Context (spoke_reads : ∀ k, emits (λ a, hub_write a = false ∧ fs_write a = false) (GetSpokeClusterInstallStatus k)).

(** The spoke cluster, reached with the kubeconfig of the object's secret,
    reported to be installed. *)
Definition spoke_installed (i : ImageClusterInstall) (h : trace) : Prop :=
  ∃ cm secret kubeconfig h1 ts h2 status,
    Spec_ClusterMetadata (ici_Spec i) = Some cm ∧
    h = h1 ++ ts ++ h2 ∧ exec (GetSpokeClusterInstallStatus kubeconfig) ts status ∧
    SpokeStatus.Installed status = true ∧
    Ev (GetSecret CachedClient (mkKey (om_Namespace (ici_Meta i)) (AdminKubeconfigSecretRef cm))) (Ok secret) ∈ h1 ∧
    entries (secret_Data secret) !! "kubeconfig" = Some kubeconfig.

Lemma spoke_installed_app i h t : spoke_installed i h → spoke_installed i (h ++ t).
Proof.
  intros (cm&s&k&h1&ts&h2&st&?&->&?). exists cm, s, k, h1, ts, (h2 ++ t), st.
  split; [done|]. split; [by rewrite <- !app_assoc|done].
Qed.

(** The host of the object was seen powered on. *)
Definition powered_on (i : ImageClusterInstall) (b : BareMetalHost) (h : trace) : Prop :=
  ∃ ref, Status_BareMetalHostRef (ici_Status i) = Some ref ∧
    Ev (GetBMH (mkKey (bmhref_Namespace ref) (bmhref_Name ref))) (Ok b) ∈ h ∧ bmh_PoweredOn b = true.

Lemma powered_on_app i b h t : powered_on i b h → powered_on i b (h ++ t).
Proof. intros (ref&?&?&?). exists ref. split_and!; [done|hist|done]. Qed.

(** The DataImage of the host was removed, and the last look did not find it
    still being deleted. *)
Definition image_withdrawn (key : NamespacedName) (h : trace) : Prop :=
  (Common.image_gone key h ∨ ∃ d, Common.image_deleting key d h) ∧
  ∃ h1 x t, h = h1 ++ Ev (GetDataImage key) x :: t ∧
    match x with
    | Ok d => om_DeletionTimestamp (di_Meta d) = 0%Z
    | Err e => IsNotFound e = true
    end.

Lemma image_withdrawn_app k h t : image_withdrawn k h → image_withdrawn k (h ++ t).
Proof.
  intros [Hg (h1&x&t1&->&Hx)]. split; [|exists h1, x, (t1 ++ t); by rewrite <- app_assoc].
  destruct Hg as [?|[d ?]]; [left; by apply Common.image_gone_app|right; exists d; by apply Common.image_deleting_app].
Qed.

(** What a round of the monitor may change for the object [i] it has read. *)
Definition monitor_guard (i : ImageClusterInstall) (h : trace) (a : call) : Prop :=
  match a with
  | StatusPatchICI p n => p = i ∧
      ((∃ m, Conditions.progress_written (Conditions.Installing m) i n) ∨
       (∃ d now, Ev TimeNow now ∈ h ∧ overdue i DefaultInstallTimeout d now ∧
          Conditions.progress_written (Conditions.TimedOut (duration_String d)) i n) ∨
       (Conditions.progress_written Conditions.Succeeded i n ∧ spoke_installed i h ∧
        ∃ b, powered_on i b h ∧ image_withdrawn (meta_key (bmh_Meta b)) h))
  | DeleteDataImage _ | PatchBMH _ _ =>
      spoke_installed i h ∧
      ∃ b, powered_on i b h ∧ Common.removal_guard (meta_key (bmh_Meta b)) h a
  | _ => hub_write a = false ∧ fs_write a = false
  end.

Lemma read_monitor_guard i h a : hub_write a = false ∧ fs_write a = false → monitor_guard i h a.
Proof. by destruct a; intros [??]. Qed.

Lemma wp_progress_guard p i h :
  (∀ n t, Conditions.progress_written p i n → monitor_guard i (h ++ t) (StatusPatchICI i n)) →
  wp (monitor_guard i) (Conditions.set_progress p i) h (λ _ _, True).
Proof.
  intros Hg. pose proof (Conditions.wp_set_progress p i h) as Hw.
  eapply (wp_invariant _ (λ h', ∃ t, h' = h ++ t)) in Hw;
    [|intros h' a x [t ->] _; eexists; by rewrite <- app_assoc|by exists []; rewrite app_nil_r].
  eapply wp_mono; [|by intros|exact Hw].
  intros h' a [[->|(n&->&Hn)] [t ->]]; [done|auto].
Qed.

Lemma wp_in_progress i m h : wp (monitor_guard i) (in_progress i m) h (λ _ _, True).
Proof.
  assert (Hinst : ∀ h, wp (monitor_guard i) (let* _ := Conditions.setClusterInstallingConditions i m in
    Ret (Ok (requeue_after Minute) : result Result)) h (λ _ _, True)).
  { intros h0. rewrite wp_bind. eapply wp_wand; [apply (wp_progress_guard (Conditions.Installing m))|done].
    intros n t Hn. split; [done|]. left. by exists m. }
  unfold in_progress. rewrite handleClusterTimeout_eq.
  destruct (Conditions.installationTimedout i); [done|].
  destruct (install_timeout i DefaultInstallTimeout) as [d|e] eqn:Hd; [|done].
  wp_call; [done|]. case_bool_decide as Hlate; [|apply Hinst].
  rewrite !wp_bind. eapply wp_wand.
  - apply (wp_progress_guard (Conditions.TimedOut (duration_String d))). intros n t Hn. split; [done|].
    right. left. exists d, x. split; [hist|]. done.
  - by intros [i' err] h' _.
Qed.

Lemma wp_handleDataImageDeletion i key h :
  wp (monitor_guard i) (handleDataImageDeletion i key) h (λ r h',
    r.2.1.2 = false → r.2.2 = None → r.1 = i ∧
      ∃ x, h' = h ++ [Ev (GetDataImage key) x] ∧
        match x with
        | Ok d => om_DeletionTimestamp (di_Meta d) = 0%Z
        | Err e => IsNotFound e = true
        end).
Proof.
  unfold handleDataImageDeletion, Common.getDataImage. destruct key as [ns name]. wp_call; [done|].
  destruct x as [d|e].
  - unfold IsZeroTime. case_bool_decide as Hz; cbn [negb].
    + intros _ _. split; [done|]. by exists (Ok d).
    + rewrite wp_bind. eapply wp_wand.
      * apply (wp_progress_guard (Conditions.Installing "Waiting for DataImage to be deleted")).
        intros n t Hn. split; [done|]. left. eauto.
      * by intros [i' err] h' _.
  - destruct (IsNotFound e) eqn:He; cbn [negb wp]; [|done]. intros _ _. split; [done|]. by exists (Err e).
Qed.

Lemma spokeClient_reads i :
  emits (λ a, hub_write a = false ∧ fs_write a = false) (spokeClient i).
Proof. unfold spokeClient. emits_run done. Qed.

Lemma exec_spokeClient i t kubeconfig :
  exec (spokeClient i) t (Ok kubeconfig) →
  ∃ cm secret, Spec_ClusterMetadata (ici_Spec i) = Some cm ∧
    Ev (GetSecret CachedClient (mkKey (om_Namespace (ici_Meta i)) (AdminKubeconfigSecretRef cm))) (Ok secret) ∈ t ∧
    entries (secret_Data secret) !! "kubeconfig" = Some kubeconfig.
Proof.
  unfold spokeClient. destruct (Spec_ClusterMetadata (ici_Spec i)) as [cm|]; [|by intros [_ [=]]].
  case_bool_decide; [by intros [_ [=]]|]. intros (x&t'&->&H1). cbn [prog_bind] in H1.
  destruct x as [s|e]; [|by destruct H1 as [_ [=]]].
  destruct (secret_Data s) as [data|] eqn:Hdata; [|by destruct H1 as [_ [=]]].
  destruct (data !! "kubeconfig") as [k|] eqn:Hk; [|by destruct H1 as [_ [=]]].
  case_bool_decide; [by destruct H1 as [_ [=]]|].
  exists cm, s. split; [done|]. split; [apply list_elem_of_here|]. rewrite Hdata. simpl. rewrite Hk. f_equal.
  destruct H1 as (x&t1&->&H1). cbn [prog_bind] in H1. destruct x; [by destruct H1 as [_ [=]]|].
  destruct H1 as (x&t2&->&H1). cbn [prog_bind] in H1. destruct x; [by destruct H1 as [_ [=]]|].
  destruct H1 as (x&t3&->&H1). cbn [prog_bind] in H1. destruct x; [by destruct H1 as [_ [=]]|].
  by destruct H1 as [_ [= ->]].
Qed.

Lemma wp_finish_install i b h :
  spoke_installed i h → powered_on i b h →
  wp (monitor_guard i) (finish_install i (meta_key (bmh_Meta b))) h (λ _ _, True).
Proof.
  intros Hs Hp. unfold finish_install. set (key := meta_key (bmh_Meta b)). rewrite wp_bind.
  pose proof (Common.wp_removeBMHDataImage key h) as Hw.
  eapply (wp_invariant _ (λ h', spoke_installed i h' ∧ powered_on i b h')) in Hw;
    [|intros h' a x [??] _; split; [by apply spoke_installed_app|by apply powered_on_app]|done].
  eapply wp_mono; [| |exact Hw].
  { intros h' a [Ha [??]]. destruct a; try done; simpl in *; (split; [done|]); by exists b. }
  clear Hw Hs Hp. intros [di err] h1 [Hgone [Hs Hp]]. destruct err as [e|]; [done|].
  rewrite wp_bind. eapply wp_wand; [apply wp_handleDataImageDeletion|].
  intros [i' [[res stop] err]] h2 Hr. simpl in Hr. destruct err as [e|]; [done|].
  destruct stop; [done|]. destruct (Hr eq_refl eq_refl) as [-> (x&->&Hx)].
  rewrite wp_bind. eapply wp_wand.
  - apply (wp_progress_guard Conditions.Succeeded). intros n t Hn. split; [done|]. do 2 right.
    split; [done|]. split; [by do 2 apply spoke_installed_app|]. exists b.
    split; [by do 2 apply powered_on_app|]. split.
    + rewrite <- app_assoc. destruct di as [d|]; [right; exists d; by apply Common.image_deleting_app|].
      left. by apply Common.image_gone_app.
    + exists h1, x, t. by rewrite <- app_assoc.
  - intros [i' [e|]] h3 _; done.
Qed.

Lemma wp_checkClusterStatus i b h :
  powered_on i b h →
  wp (monitor_guard i) (checkClusterStatus i b) h (λ _ _, True).
Proof.
  intros Hp. unfold checkClusterStatus. rewrite wp_bind.
  eapply wp_wand; [apply wp_prefix, wp_handleDataImageDeletion|].
  intros [i' [[res stop] err]] h1 [Hr [t1 ->]]. simpl in Hr. destruct err as [e|]; [done|].
  destruct stop; [done|]. destruct (Hr eq_refl eq_refl) as [-> _]. apply (powered_on_app _ _ _ t1) in Hp.
  rewrite wp_bind. eapply wp_intro; [apply spokeClient_reads|intros; by apply read_monitor_guard|].
  intros t2 [kubeconfig|e] Hclient; [|done].
  apply exec_spokeClient in Hclient as (cm&secret&Hcm&Hsecret&Hk).
  rewrite wp_bind. eapply wp_intro; [apply spoke_reads|intros; by apply read_monitor_guard|].
  intros ts status Hst. destruct (SpokeStatus.Installed status) eqn:Hinst; cbn [negb]; [|apply wp_in_progress].
  apply wp_finish_install; [|by do 2 apply powered_on_app].
  exists cm, secret, kubeconfig, ((h ++ t1) ++ t2), ts, [], status. rewrite app_nil_r.
  by split_and!; try hist.
Qed.

Lemma wp_monitorInstallationProgress i h :
  wp (monitor_guard i) (monitorInstallationProgress i) h (λ r _,
    (∃ m, r = XPanic m) ↔ Status_BareMetalHostRef (ici_Status i) = None).
Proof.
  unfold monitorInstallationProgress. destruct (Status_BareMetalHostRef (ici_Status i)) as [ref|] eqn:Href.
  2:{ cbn [wp]. split; [done|eauto]. }
  unfold Common.getBMH. wp_call; [done|]. destruct x as [b|e]; [|cbn [wp]; split; [by intros [? [=]]|done]].
  rewrite wp_bind. eapply wp_wand; [|intros r h' _; cbn [wp]; split; [by intros [? [=]]|done]].
  destruct (bmh_PoweredOn b) eqn:Hon; cbn [negb]; [|apply wp_in_progress].
  apply wp_checkClusterStatus. exists ref. split_and!; [done|hist|done].
Qed.

Lemma exec_MonitorReconcile req t r :
  exec (MonitorReconcile req) t r →
  (∃ x, t = [Ev (GetICI req) x] ∧ (∀ m, r ≠ XPanic m) ∧
     ∀ i, x = Ok i → BootTime (ici_Status i) = 0%Z ∨ Conditions.InstallationCompleted i = true) ∨
  (∃ i t', t = Ev (GetICI req) (Ok i) :: t' ∧ BootTime (ici_Status i) ≠ 0%Z ∧
     Conditions.InstallationCompleted i = false ∧ exec (monitorInstallationProgress i) t' r).
Proof.
  unfold MonitorReconcile. intros (x&t'&->&H). cbn [prog_bind] in H. destruct x as [i|e].
  - unfold IsZeroTime in H. case_bool_decide as Hb.
    + destruct H as [-> ->]. left. exists (Ok i). split_and!; [done..|]. intros ? [= <-]. by left.
    + destruct (Conditions.InstallationCompleted i) eqn:Hc.
      * destruct H as [-> ->]. left. exists (Ok i). split_and!; [done..|]. intros ? [= <-]. by right.
      * right. by exists i, t'.
  - destruct H as [-> ->]. left. by exists (Err e).
Qed.

Lemma monitor_event req t r t1 ev t2 :
  exec (MonitorReconcile req) t r → t = t1 ++ ev :: t2 →
  ev_call ev = GetICI req ∨
  ∃ i t', t1 = Ev (GetICI req) (Ok i) :: t' ∧ BootTime (ici_Status i) ≠ 0%Z ∧
    Conditions.InstallationCompleted i = false ∧ monitor_guard i t1 (ev_call ev).
Proof.
  intros [(x&->&_)|(i&t'&->&Hb&Hc&He)]%exec_MonitorReconcile Ht.
  - left. destruct t1 as [|? [|??]]; by simplify_eq/=.
  - destruct t1 as [|e1 t1]; simplify_eq/=; [by left|]. right. exists i, t1. split_and!; [done..|].
    destruct (wp_exec _ _ [Ev (GetICI req) (Ok i)] _ _ _ (wp_monitorInstallationProgress i _) He) as [_ HG].
    by apply (HG t1 ev t2).
Qed.

(** The guard of a whole run. *)
Definition monitor_run_guard (req : NamespacedName) (h : trace) (a : call) : Prop :=
  a = GetICI req ∨
  ∃ i h', h = Ev (GetICI req) (Ok i) :: h' ∧ BootTime (ici_Status i) ≠ 0%Z ∧
    Conditions.InstallationCompleted i = false ∧ monitor_guard i h a.

Lemma wp_MonitorReconcile req :
  wp (monitor_run_guard req) (MonitorReconcile req) [] (λ _ _, True).
Proof.
  apply wp_of_exec; [apply answer_inhabited|]. intros t r He. split; [done|].
  intros t1 ev t2 Ht. destruct (monitor_event _ _ _ _ _ _ He Ht) as [->|(i&t'&?&?&?&?)]; [by left|].
  right. by exists i, t'.
Qed.

(** C9: the monitor reports an installation as completed only when it is.  In
    every run, a status patch that sets Completed is only sent for an object with
    a boot time that was not completed when it was read, after: the host of its
    status was seen powered on; the spoke cluster, reached with the kubeconfig of
    the object's own secret, reported to be installed; the DataImage of the host
    was removed (it was not found, or its deletion was accepted); and a last look
    did not find the DataImage still being deleted. *)
Theorem completed_only_when_installed req t r t1 p n x t2 :
  exec (MonitorReconcile req) t r → t = t1 ++ Ev (StatusPatchICI p n) x :: t2 →
  Conditions.InstallationCompleted n = true →
  BootTime (ici_Status p) ≠ 0%Z ∧ Conditions.InstallationCompleted p = false ∧
  (∃ t', t1 = Ev (GetICI req) (Ok p) :: t') ∧ spoke_installed p t1 ∧
  ∃ b, powered_on p b t1 ∧ image_withdrawn (meta_key (bmh_Meta b)) t1.
Proof.
  intros He Ht Hn. destruct (monitor_event _ _ _ _ _ _ He Ht) as [[=]|(i&t'&Hi&Hb&Hc&->&Hg)].
  split_and!; [done..|by eauto| |]; destruct Hg as [(m&Hw)|[(d&now&_&_&Hw)|(_&?&?)]]; try done; exfalso;
    destruct Hw as (cs&->&(c&Hf&Hs&_)&_); unfold Conditions.InstallationCompleted in Hn; simpl in *;
    rewrite Hf, Hs in Hn; done.
Qed.

(** C17: what a round of the monitor changes.  In every run, only for an object
    with a boot time that is not completed: status patches change nothing but the
    conditions, and their Completed, Stopped and Failed values are one of the
    three reports (installing, timed out, succeeded); the time-out is reported
    only when the clock read before shows that it has passed; a DataImage is
    deleted, and a host marked for a reboot, only after the spoke cluster reported
    to be installed.  Nothing else is changed. *)
Theorem monitor_changes req t r t1 ev t2 :
  exec (MonitorReconcile req) t r → t = t1 ++ ev :: t2 →
  hub_write (ev_call ev) = true ∨ fs_write (ev_call ev) = true →
  ∃ i t', t1 = Ev (GetICI req) (Ok i) :: t' ∧ BootTime (ici_Status i) ≠ 0%Z ∧
    Conditions.InstallationCompleted i = false ∧ monitor_guard i t1 (ev_call ev).
Proof.
  intros He Ht Hw. destruct (monitor_event _ _ _ _ _ _ He Ht) as [Hk|?]; [|done].
  rewrite Hk in Hw. by destruct Hw.
Qed.

(** C20: the monitor ends in a panic exactly when the object it reads has a boot
    time, is not completed and has no host reference in its status; every other
    run returns. *)
Theorem monitor_panics_without_host req t r :
  exec (MonitorReconcile req) t r →
  (∃ m, r = XPanic m) ↔
  ∃ i t', t = Ev (GetICI req) (Ok i) :: t' ∧ BootTime (ici_Status i) ≠ 0%Z ∧
    Conditions.InstallationCompleted i = false ∧ Status_BareMetalHostRef (ici_Status i) = None.
Proof.
  intros [(x&->&Hr&Hx)|(i&t'&->&Hb&Hc&He)]%exec_MonitorReconcile.
  - split; [by intros [m ->]; destruct (Hr m)|]. intros (i&t'&Heq&Hb&Hc&_). exfalso.
    apply (f_equal (fmap ici_answer)) in Heq. simpl in Heq.
    destruct x as [j|e]; simplify_eq. by destruct (Hx i eq_refl) as [?|?]; congruence.
  - destruct (wp_exec _ _ [] _ _ _ (wp_monitorInstallationProgress i _) He) as [-> _]. split.
    + intros ?. by exists i, t'.
    + intros (j&t''&Heq&_&_&Hj). apply (f_equal (fmap ici_answer)) in Heq. simpl in Heq. by simplify_eq.
Qed.

(** *** The end of a round *)

Lemma set_progress_calls p i : within 4 (Conditions.set_progress p i).
Proof.
  rewrite Conditions.set_progress_eq. destruct (Conditions.progress_report p) as [[c1 c2] c3].
  unfold Conditions.set_progress_conditions, Conditions.set_ici_condition, Conditions.setClusterInstallCondition,
    Conditions.status_patch. within_run.
Qed.

Lemma in_progress_calls i m : within 5 (in_progress i m).
Proof.
  unfold in_progress. rewrite handleClusterTimeout_eq.
  destruct (Conditions.installationTimedout i); [done|].
  destruct (install_timeout i DefaultInstallTimeout); [|done]. cbn [within prog_bind perform]. intros now.
  case_bool_decide; cbn [prog_bind within].
  - apply (within_bind_exec 4 0).
    + apply (within_bind 4 0); [apply set_progress_calls|by intros [? ?]].
    + by intros t r (t1&t2&[??]&_&_&[_ ->])%prog_bind_assoc_exec.
  - apply (within_bind 4 0); [apply (set_progress_calls (Conditions.Installing m))|done].
Qed.

Lemma handleDataImageDeletion_calls i key : within 5 (handleDataImageDeletion i key).
Proof.
  unfold handleDataImageDeletion, Common.getDataImage. destruct key as [ns name].
  cbn [within prog_bind perform]. intros [d|e]; cbn [prog_bind]; destruct (negb _); try done. apply (within_bind 4 0); [|by intros [? ?]].
  apply (set_progress_calls (Conditions.Installing "Waiting for DataImage to be deleted")).
Qed.

Context (spoke_calls : nat) (spoke_within : ∀ k, within spoke_calls (GetSpokeClusterInstallStatus k)).

Lemma checkClusterStatus_calls i b : within (spoke_calls + 22) (checkClusterStatus i b).
Proof.
  unfold checkClusterStatus. apply (within_mono (5 + (4 + (spoke_calls + 13)))); [lia|].
  apply within_bind; [apply handleDataImageDeletion_calls|]. intros [i' [[res stop] [e|]]]; [done|].
  destruct stop; [done|]. apply within_bind; [unfold spokeClient; within_run|].
  intros [k|e]; [|by apply (within_mono 0); [lia|]]. apply within_bind; [apply spoke_within|]. intros status.
  destruct (negb _); [eapply within_mono; [|apply in_progress_calls]; lia|].
  unfold finish_install. apply (within_bind 4 9).
  { unfold Common.removeBMHDataImage, Common.deleteDataImage, Common.rebootBMH. within_run. }
  intros [d [e|]]; [done|]. apply (within_bind 5 4); [apply handleDataImageDeletion_calls|].
  intros [i2 [[res2 stop2] [e|]]]; [done|]. destruct stop2; [done|].
  apply (within_bind 4 0); [apply (set_progress_calls Conditions.Succeeded)|]. by intros [? [?|]].
Qed.

Lemma MonitorReconcile_calls req : within (spoke_calls + 24) (MonitorReconcile req).
Proof.
  unfold MonitorReconcile. apply (within_mono (1 + (1 + ((spoke_calls + 22) + 0)))); [lia|].
  apply (within_bind 1); [done|]. intros [i|e]; [|done].
  destruct (IsZeroTime _); [done|]. destruct (Conditions.InstallationCompleted i); [done|].
  unfold monitorInstallationProgress. destruct (Status_BareMetalHostRef _); [|done].
  apply (within_bind 1); [done|]. intros [bmh|e]; [|done]. apply within_bind; [|done].
  destruct (negb _); [|apply checkClusterStatus_calls].
  eapply within_mono; [|apply in_progress_calls]. lia.
Qed.

(** How a round for a booted, uncompleted object may end: by another round in a
    minute; in an hour once the time-out has passed; or with no further round,
    the installation having been reported as completed. *)
Definition round_end (i : ImageClusterInstall) (res : Result) (h : trace) : Prop :=
  res = requeue_after Minute ∨
  (res = requeue_after Hour ∧
     (Conditions.installationTimedout i = true ∨
      ∃ d now, Ev TimeNow now ∈ h ∧ overdue i DefaultInstallTimeout d now)) ∨
  (res = res0 ∧ ∃ n n', Ev (StatusPatchICI i n) (Ok n') ∈ h ∧ Conditions.progress_written Conditions.Succeeded i n).

Definition ends (i : ImageClusterInstall) (r : result Result) (h : trace) : Prop :=
  match r with Err _ => True | Ok res => round_end i res h end.

Lemma wp_progress_end p i h :
  returns (Conditions.set_progress p i) h (λ r h', (∃ t, h' = h ++ t) ∧
    (r.2 = None → Conditions.progress_written p i i ∨
       ∃ n n', Ev (StatusPatchICI i n) (Ok n') ∈ h' ∧ Conditions.progress_written p i n)).
Proof.
  apply wp_of_exec; [apply answer_inhabited|]. intros t [i' err] Hx. split; [|done]. split; [by eexists|].
  apply Conditions.exec_set_progress in Hx as (n1&n2&n3&[(_&_&_&?)|(n&x&->&?&Hr)]); [by left|].
  intros Herr. right. destruct x as [n'|e]; simplify_eq/=. exists n, n'. split; [hist|done].
Qed.

Lemma wp_in_progress_end i m h : returns (in_progress i m) h (ends i).
Proof.
  unfold in_progress. rewrite handleClusterTimeout_eq.
  destruct (Conditions.installationTimedout i) eqn:Ht; [right; left; by split; [|left]|].
  destruct (install_timeout i DefaultInstallTimeout) as [d|e] eqn:Hd; [|done].
  wp_call; [done|]. case_bool_decide as Hlate.
  - rewrite !wp_bind. eapply wp_wand; [apply wp_progress_end|].
    intros [i' err] h' [[t ->] _]. right. left. split; [done|]. right. exists d, x. split; [hist|done].
  - cbn [prog_bind]. rewrite wp_bind. eapply wp_wand; [apply (wp_progress_end (Conditions.Installing m))|].
    intros [i' err] h' _. by left.
Qed.

(** A round either stops early, to be repeated in a minute or with an error, or
    goes on with the object it started with. *)
Lemma wp_handleDataImageDeletion_end i key h :
  returns (handleDataImageDeletion i key) h (λ r _,
    r.2.2 = None → if r.2.1.2 then r.2.1.1 = requeue_after Minute else r.1 = i).
Proof.
  unfold handleDataImageDeletion, Common.getDataImage. destruct key as [ns name]. wp_call; [done|].
  destruct x as [d|e]; cbn [prog_bind]; destruct (negb _); try done.
  rewrite wp_bind. eapply wp_wand; [apply (wp_progress_end (Conditions.Installing "Waiting for DataImage to be deleted"))|].
  by intros [i' err] h' _.
Qed.

Lemma wp_checkClusterStatus_end i b h :
  Conditions.InstallationCompleted i = false → returns (checkClusterStatus i b) h (ends i).
Proof.
  intros Hc. unfold checkClusterStatus. rewrite wp_bind. eapply wp_wand; [apply wp_handleDataImageDeletion_end|].
  intros [i' [[res stop] [e|]]] h1 Hr; [done|]. specialize (Hr eq_refl). simpl in Hr.
  destruct stop; [by left|]. subst i'. rewrite wp_bind. eapply wp_wand; [apply returns_any|].
  intros [k|e] h2 _; [|done]. rewrite wp_bind. eapply wp_wand; [apply returns_any|]. intros status h3 _.
  destruct (negb _); [apply wp_in_progress_end|].
  unfold finish_install. rewrite wp_bind. eapply wp_wand; [apply returns_any|]. intros [d [e|]] h4 _; [done|].
  rewrite wp_bind. eapply wp_wand; [apply wp_handleDataImageDeletion_end|].
  intros [i' [[res' stop'] [e|]]] h5 Hr; [done|]. specialize (Hr eq_refl). simpl in Hr.
  destruct stop'; [by left|]. subst i'. rewrite wp_bind.
  eapply wp_wand; [apply (wp_progress_end Conditions.Succeeded)|].
  intros [i' [e|]] h6 [_ Hw]; [done|]. right. right. split; [done|]. destruct (Hw eq_refl) as [Hw'|?]; [|done].
  exfalso. destruct Hw' as (cs&Hi&(c&Hf&Hs&_)&_).
  apply (f_equal (λ j, Conditions (ici_Status j))) in Hi. simpl in Hi, Hf, Hs.
  unfold Conditions.InstallationCompleted in Hc. by rewrite Hi, Hf, Hs in Hc.
Qed.

Lemma wp_monitorInstallationProgress_end i h :
  Conditions.InstallationCompleted i = false →
  returns (monitorInstallationProgress i) h (λ r h', ∀ r', r = XRet r' → ends i r' h').
Proof.
  intros Hc. unfold monitorInstallationProgress.
  destruct (Status_BareMetalHostRef (ici_Status i)) as [ref|]; [|done]. unfold Common.getBMH. wp_call; [done|].
  destruct x as [b|e]; [|by intros ? [= <-]]. rewrite wp_bind. eapply wp_wand.
  - destruct (negb (bmh_PoweredOn b)); [apply wp_in_progress_end|by apply wp_checkClusterStatus_end].
  - by intros r h' He ? [= <-].
Qed.

End monitor.

(** C21: an installation is followed to its end.  A round of the monitor makes at
    most 27 requests, whatever is answered.  If it reads a booted object that is
    not completed, it ends in a panic only when the object has no host reference,
    else with an error (and is retried), or with a further round in a minute, or
    in an hour when the installation was reported as timed out or the clock shows
    that it is overdue; it asks for no further round only after the API server has
    accepted its report of Completed.  A round for an object that is gone, not
    booted or completed ends after its read. *)
Theorem monitor_keeps_polling dt req t r :
  exec (MonitorReconcile SpokeStatus.GetClusterInstallStatus dt req) t r →
  length t ≤ 27 ∧
  ∃ x t', t = Ev (GetICI req) x :: t' ∧
    match x with
    | Ok i =>
        if IsZeroTime (BootTime (ici_Status i)) || Conditions.InstallationCompleted i
        then t' = [] ∧ r = XRet (Ok res0)
        else match r with
             | XPanic _ => Status_BareMetalHostRef (ici_Status i) = None
             | XRet (Err _) => True
             | XRet (Ok res) => round_end dt i res t
             end
    | Err e => t' = [] ∧ r = XRet (if IsNotFound e then Ok res0 else Err e)
    end.
Proof.
  intros He. split.
  { eapply (within_exec (3 + 24)); [|exact He]. apply MonitorReconcile_calls, SpokeStatus.GetClusterInstallStatus_calls. }
  unfold MonitorReconcile in He. destruct He as (x&t'&->&He). exists x, t'. split; [done|]. cbn [prog_bind] in He.
  destruct x as [i|e]; [|by destruct He as [-> ->]].
  destruct (IsZeroTime _); [by destruct He as [-> ->]|].
  destruct (Conditions.InstallationCompleted i) eqn:Hc; [by destruct He as [-> ->]|]. cbn [orb].
  destruct (wp_exec _ _ [Ev (GetICI req) (Ok i)] _ _ _ (wp_monitorInstallationProgress_end _ dt i _ Hc) He) as [Hend _].
  destruct (wp_exec _ _ [] _ _ _ (wp_monitorInstallationProgress _ dt SpokeStatus.GetClusterInstallStatus_reads i _) He) as [Hp _].
  destruct r as [[res|e]|m]; [by apply (Hend _ eq_refl)|done|]. apply Hp. by exists m.
Qed.

(** *** Scenarios: a booted object whose cluster is installed *)

Definition ici_booted : ImageClusterInstall :=
  set_BootTime (10 * Second)%Z (set_Status_BareMetalHostRef (Spec_BareMetalHostRef Sim.spec0) Sim.ici1).
Definition world_booted : Sim.world :=
  Sim.with_icis [ici_booted]
    (Sim.with_secrets [Sim.secret0 "cd-admin-kubeconfig" "kubeconfig" "kc"]
       (Sim.with_spoke ([mkCVCondition "Available" "True" 5%Z "" ""],
                        [mkNode "n" [mkNodeCondition "Ready" "True" "" ""]]) Sim.world0)).
Definition monitor0 := MonitorReconcile SpokeStatus.GetClusterInstallStatus Hour Sim.req0.

(** An object with a time-out of 90 minutes. *)
Definition ici_timeout : ImageClusterInstall :=
  mkICI (set_Annotations (Some {[installTimeoutAnnotation := "1h30m0s"]}) (ici_Meta ici_booted))
    (ici_Spec ici_booted) (ici_Status ici_booted).

Lemma install_timeout_bounds_witness :
  ∃ t now t' i, exec (handleClusterTimeout ici_timeout Hour) t (i, Ok (bool_decide (10 * Second + 5400 * Second < now)%Z)) ∧
    t = Ev TimeNow now :: t'.
Proof.
  assert (Hr : (- two63 <= Hour < two63)%Z) by (split; [discriminate|reflexivity]).
  pose proof (exec_run Sim.handle (handleClusterTimeout ici_timeout Hour) world_booted) as Hx.
  destruct (run Sim.handle (handleClusterTimeout ici_timeout Hour) world_booted).1.2 as [i r].
  destruct (proj2 (install_timeout_bounds _ _ _ _ _ Hr Hx ltac:(reflexivity)) 5400%Z) as (now&t'&Ht&Hdec);
    [discriminate|reflexivity|vm_compute; reflexivity|].
  exists (run Sim.handle (handleClusterTimeout ici_timeout Hour) world_booted).1.1, now, t', i.
  rewrite Hdec in Hx. exact (conj Hx Ht).
Defined.

Lemma completed_only_when_installed_witness :
  ∃ t1 p n x t2, (run Sim.handle monitor0 world_booted).1.1 = t1 ++ Ev (StatusPatchICI p n) x :: t2 ∧
    spoke_installed SpokeStatus.GetClusterInstallStatus p t1.
Proof.
  assert (Hk : ∃ k, position (λ ev, match ev_call ev with
    | StatusPatchICI p n => Conditions.InstallationCompleted n | _ => false end)
    (run Sim.handle monitor0 world_booted).1.1 = Some k) by (eexists; vm_compute; reflexivity).
  destruct Hk as [k Hk]. destruct (position_split _ _ _ Hk) as (t1&[a x]&t2&Ht&Hf).
  destruct a; try discriminate Hf.
  destruct (completed_only_when_installed _ _ SpokeStatus.GetClusterInstallStatus_reads
              _ _ _ _ _ _ x _ (exec_run Sim.handle monitor0 world_booted) Ht Hf) as (_&_&_&Hs&_).
  eexists _, _, _, x, _. split; [exact Ht|exact Hs].
Defined.

Lemma monitor_changes_witness :
  ∃ t1 p n x t2, (run Sim.handle monitor0 world_booted).1.1 = t1 ++ Ev (StatusPatchICI p n) x :: t2 ∧
    ∃ i, monitor_guard SpokeStatus.GetClusterInstallStatus Hour i t1 (StatusPatchICI p n).
Proof.
  assert (Hk : ∃ k, position (λ ev, match ev_call ev with StatusPatchICI p n => true | _ => false end)
    (run Sim.handle monitor0 world_booted).1.1 = Some k) by (eexists; vm_compute; reflexivity).
  destruct Hk as [k Hk]. destruct (position_split _ _ _ Hk) as (t1&[a x]&t2&Ht&Hf).
  destruct a; try discriminate Hf.
  destruct (monitor_changes _ _ SpokeStatus.GetClusterInstallStatus_reads
              _ _ _ _ _ _ (exec_run Sim.handle monitor0 world_booted) Ht (or_introl eq_refl))
    as (i&_&_&_&_&Hg).
  eexists _, _, _, x, _. split; [exact Ht|]. exists i. exact Hg.
Defined.

Lemma monitor_panics_without_host_witness :
  let w := Sim.with_icis [set_BootTime 1%Z Sim.ici0] Sim.world0 in
  ∃ m, (run Sim.handle monitor0 w).1.2 = XPanic m.
Proof.
  intros w. pose proof (exec_run Sim.handle monitor0 w) as Hx.
  apply (monitor_panics_without_host _ _ SpokeStatus.GetClusterInstallStatus_reads _ _ _ Hx).
  eexists (set_BootTime 1%Z Sim.ici0), _. split; [vm_compute; reflexivity|].
  split; [discriminate|]. split; reflexivity.
Defined.

Lemma timeout_decision_witness :
  ∃ t ici' r, exec (handleClusterTimeout ici_booted Hour) t (ici', r) ∧
    ∃ now t', t = Ev TimeNow now :: t'.
Proof.
  set (p := handleClusterTimeout ici_booted Hour).
  pose proof (exec_run Sim.handle p Sim.world0) as Hx. rewrite (surjective_pairing (_.1.2)) in Hx.
  destruct (timeout_decision _ _ _ _ _ Hx) as (_&_&Hd).
  destruct (Hd eq_refl Hour eq_refl) as (now&t'&Ht&_).
  eexists _, _, _. split; [exact Hx|]. exists now, t'. exact Ht.
Defined.

Lemma monitor_keeps_polling_witness :
  ∃ t r, exec monitor0 t r ∧ length t ≤ 27 ∧ ∃ x t', t = Ev (GetICI Sim.req0) x :: t'.
Proof.
  pose proof (exec_run Sim.handle monitor0 world_booted) as Hx.
  destruct (monitor_keeps_polling _ _ _ _ Hx) as [Hl (x&t'&Ht&_)].
  eexists _, _. split; [exact Hx|]. split; [exact Hl|]. exists x, t'. exact Ht.
Defined.

End Monitor.
