(* ===== verification/Watches.v ===== *)
(** * Event mapping of the reconciler
    ([controllers/imageclusterinstall_controller.go], [mapBMHToICI],
    [mapCDToICI], the field indexes) *)
From stdpp Require Import base gmap strings list.
From Stdlib Require Import ZArith Lia.
From S2P Require Import Prelude Types World Common Sim.
Local Open Scope go_scope.

Module Watches.

(** A reconcile request is the key of an ImageClusterInstall. *)
Definition request_of (ici : ImageClusterInstall) : NamespacedName :=
  mkKey (om_Namespace (ici_Meta ici)) (om_Name (ici_Meta ici)).

Definition mapBMHToICI (bmhNamespace bmhName : string) : io (list NamespacedName) :=
  try _ := perform (GetBMH (mkKey bmhNamespace bmhName)) else _e => Ret [] in
  try items := perform (ListICI (ByBareMetalHost bmhName bmhNamespace)) else _e => Ret [] in
  Ret (request_of <$> filter (λ ici, IsZeroTime (BootTime (ici_Status ici)) = true) items).

Definition mapCDToICI (cdNamespace cdName : string) : io (list NamespacedName) :=
  try cd := perform (GetCD (mkKey cdNamespace cdName)) else _e => Ret [] in
  match cd_ClusterInstallRef cd with
  | None => Ret []
  | Some ref =>
      if bool_decide (ciref_Group ref = Common.Group)
         && bool_decide (ciref_Kind ref = "ImageClusterInstall")
      then Ret [mkKey cdNamespace (ciref_Name ref)] else Ret []
  end.

(** The two index functions; [None] is an object of another type. *)
Definition index_bmh_name (rawObj : option ImageClusterInstall) : list string :=
  match rawObj with
  | None => []
  | Some ici => match Spec_BareMetalHostRef (ici_Spec ici) with
                | None => [] | Some ref => [bmhref_Name ref] end
  end.
Definition index_bmh_namespace (rawObj : option ImageClusterInstall) : list string :=
  match rawObj with
  | None => []
  | Some ici => match Spec_BareMetalHostRef (ici_Spec ici) with
                | None => [] | Some ref => [bmhref_Namespace ref] end
  end.

(** What a field selector on both indexes selects. *)
Definition selected (f : listfilter) (ici : ImageClusterInstall) : bool :=
  match f with
  | AllICIs => true
  | ByBareMetalHost name ns =>
      bool_decide (name ∈ index_bmh_name (Some ici))
      && bool_decide (ns ∈ index_bmh_namespace (Some ici))
  end.

(** ** Properties *)

(** The field selector on the two indexes selects the objects that refer to the
    host. *)
Lemma selected_spec name ns ici :
  selected (ByBareMetalHost name ns) ici = true ↔ Spec_BareMetalHostRef (ici_Spec ici) = Some (mkBMHRef name ns).
Proof.
  simpl. destruct (Spec_BareMetalHostRef (ici_Spec ici)) as [[n s]|]; simpl.
  - rewrite andb_true_iff, !bool_decide_eq_true, !list_elem_of_singleton. split; [by intros [-> ->]|by intros [= -> ->]].
  - by split.
Qed.

(** A change of a BareMetalHost wakes exactly the installations it concerns.
    If the host can be read and the API server answers the list request with the
    objects of [all] that the field selector selects, the requests are the keys
    of exactly those objects of [all] that refer to this host in their spec and
    have not been booted; if the host cannot be read there are none. *)
Theorem mapBMHToICI_spec ns name all t r :
  exec (mapBMHToICI ns name) t r →
  (∀ x, Ev (ListICI (ByBareMetalHost name ns)) x ∈ t →
     x = Ok (filter (λ ici, selected (ByBareMetalHost name ns) ici = true) all)) →
  ((∃ b, Ev (GetBMH (mkKey ns name)) (Ok b) ∈ t) ∧
   (∀ key, key ∈ r ↔ ∃ ici, ici ∈ all ∧ Spec_BareMetalHostRef (ici_Spec ici) = Some (mkBMHRef name ns) ∧
      BootTime (ici_Status ici) = 0%Z ∧ key = request_of ici)) ∨
  (∃ e, t = [Ev (GetBMH (mkKey ns name)) (Err e)] ∧ r = []).
Proof.
  unfold mapBMHToICI. intros (x&t1&->&H) Hlist. cbn [prog_bind] in H.
  destruct x as [b|e]; [|right; exists e; by destruct H as [-> ->]]. left.
  split; [exists b; apply list_elem_of_here|].
  destruct H as (x&t2&->&H). cbn [prog_bind] in H. rewrite (Hlist x) in H by hist.
  destruct H as [_ ->]. intros key. rewrite list_elem_of_fmap. setoid_rewrite list_elem_of_filter.
  setoid_rewrite list_elem_of_filter. setoid_rewrite selected_spec. unfold IsZeroTime.
  setoid_rewrite bool_decide_eq_true.
  split; [intros (i&->&?&?&?)|intros (i&?&?&?&->)]; exists i; by split_and!.
Qed.

Lemma mapBMHToICI_spec_witness :
  ∃ t, exec (mapBMHToICI "bmh-ns" "bmh") t [mkKey "ns" "ici"] ∧
    (mkKey "ns" "ici" ∈ [mkKey "ns" "ici"] ↔ ∃ ici, ici ∈ [Sim.ici0] ∧
       Spec_BareMetalHostRef (ici_Spec ici) = Some (mkBMHRef "bmh" "bmh-ns") ∧
       BootTime (ici_Status ici) = 0%Z ∧ mkKey "ns" "ici" = request_of ici).
Proof.
  set (p := mapBMHToICI "bmh-ns" "bmh").
  assert (Hx : exec p [Ev (GetBMH (mkKey "bmh-ns" "bmh")) (Ok Sim.bmh0);
      Ev (ListICI (ByBareMetalHost "bmh" "bmh-ns")) (Ok [Sim.ici0])] [mkKey "ns" "ici"]).
  { eexists _, _. split; [reflexivity|]. eexists _, _. split; [reflexivity|]. split; reflexivity. }
  eexists. split; [exact Hx|].
  destruct (mapBMHToICI_spec "bmh-ns" "bmh" [Sim.ici0] _ _ Hx) as [[_ Hk]|(e&He&_)].
  - intros x [Heq|[Heq|Hin]%elem_of_cons]%elem_of_cons.
    + apply (f_equal ev_call) in Heq. discriminate Heq.
    + apply (f_equal (λ ev : event answer, match ev with Ev a x =>
        match a return answer a → option (result (list ImageClusterInstall)) with
        | ListICI _ => λ x, Some x | _ => λ _, None end x end)) in Heq. injection Heq as ->. reflexivity.
    + by apply elem_of_nil in Hin.
  - exact (Hk _).
  - apply (f_equal length) in He. discriminate He.
Defined.

End Watches.
