(* ===== verification/ImageServer.v ===== *)
(** * The image server ([internal/imageserver/imageserver.go]) *)
From stdpp Require Import base gmap strings list.
From Stdlib Require Import ZArith Lia Ascii.
From S2P Require Import Prelude Types World GoStd InputData Sim.
Local Open Scope go_scope.

Module ImageServer.

(** What the client gets: [http.NotFound], the 400 of [http.ServeFile], a file. *)
Inductive response := NotFound | BadRequest | File (path : string).

(** Splits at the last slash that has text on both sides. *)
Fixpoint split_last (s : list ascii) : option (list ascii * list ascii) :=
  match s with
  | [] => None
  | c :: r =>
      match split_last r with
      | Some (a, b) => Some (c :: a, b)
      | None =>
          match r with
          | d :: e :: r' => if bool_decide (d = "/"%char) then Some ([c], e :: r') else None
          | _ => None
          end
      end
  end.

(** [pathRegexp.FindStringSubmatch]: the two groups of
    [^/images/(.+)/(.+)\.iso$]; the first group is greedy and a dot does not
    match a line break. *)
Definition match_image_path (path : string) : option (string * string) :=
  let bs := bytes_of path in
  let prefix := bytes_of "/images/" in
  let suffix := bytes_of ".iso" in
  if bool_decide (take 8 bs = prefix) && bool_decide (8 + 4 ≤ length bs)
     && bool_decide (drop (length bs - 4) bs = suffix) then
    let body := drop 8 (take (length bs - 4) bs) in
    if existsb (λ c, bool_decide (c = ascii_of_nat 10)) body then None
    else match split_last body with
         | None => None
         | Some (a, b) => Some (of_bytes a, of_bytes b)
         end
  else None.

(** [containsDotDot] of net/http: the path has an element [..] between slashes
    or backslashes. *)
Definition containsDotDot (path : string) : bool :=
  existsb (λ w, bool_decide (w = bytes_of ".."))
    (mjoin (split_bytes (ascii_of_nat 92) <$> split_bytes "/"%char (bytes_of path))).

Definition image_file (configsDir namespace name : string) : string :=
  filepath_Join [InputData.GetClusterConfigDir configsDir namespace name; InputData.IsoName].

Definition ServeHTTP (configsDir urlPath : string) : io response :=
  match match_image_path urlPath with
  | None => Ret NotFound
  | Some (namespace, name) =>
      let outPath := image_file configsDir namespace name in
      let* st := perform (OsStat outPath) in
      if negb (stat_ok st) then Ret NotFound
      else if containsDotDot urlPath then Ret BadRequest
      else Ret (File outPath)
  end.

(** ** Properties *)

Lemma split_last_spec s a b : split_last s = Some (a, b) → s = a ++ "/"%char :: b ∧ a ≠ [] ∧ b ≠ [].
Proof.
  revert a b. induction s as [|c r IH]; intros a b; cbn [split_last]; [done|].
  destruct (split_last r) as [[a' b']|].
  - intros [= <- <-]. destruct (IH a' b' eq_refl) as (->&?&?). done.
  - destruct r as [|d [|e r']]; [done..|]. case_bool_decide; [|done]. intros [= <- <-]. by subst.
Qed.

Lemma split_last_free b : "/"%char ∉ b → split_last b = None.
Proof.
  induction b as [|c r IH]; cbn [split_last]; [done|]. rewrite not_elem_of_cons. intros [_ Hr].
  rewrite IH by done. destruct r as [|d [|e r']]; [done..|].
  apply not_elem_of_cons in Hr as [Hd _]. by rewrite bool_decide_eq_false_2 by congruence.
Qed.

Lemma split_last_slash a b :
  a ≠ [] → b ≠ [] → "/"%char ∉ b → split_last (a ++ "/"%char :: b) = Some (a, b).
Proof.
  intros Ha Hb Hfree. induction a as [|c a IH]; [done|]. cbn [app split_last].
  destruct a as [|c' a].
  - cbn [app split_last]. rewrite split_last_free by done. destruct b as [|e b]; [done|].
    assert (Hnone : match b with
      | [] => None | e0 :: r' => if bool_decide (e = "/"%char) then Some (["/"%char], e0 :: r') else None end
      = (None : option (list ascii * list ascii))).
    { apply not_elem_of_cons in Hfree as [He _]. destruct b; [done|]. by rewrite bool_decide_eq_false_2 by congruence. }
    by rewrite Hnone.
  - by rewrite IH.
Qed.

(** A path the handler accepts, taken apart. *)
Lemma match_image_path_spec path ns name :
  match_image_path path = Some (ns, name) →
  path = "/images/" +:+ ns +:+ "/" +:+ name +:+ ".iso" ∧ ns ≠ "" ∧ name ≠ "".
Proof.
  unfold match_image_path. set (bs := bytes_of path). destruct (_ && _) eqn:Hb; [|done]. bools.
  set (body := drop 8 (take (length bs - 4) bs)).
  destruct (existsb _ body); [done|]. destruct (split_last body) as [[a b]|] eqn:Hs; [|done].
  intros [= <- <-]. apply split_last_spec in Hs as (Hbody&Ha&Hb).
  assert (Hbs : bs = (bytes_of "/images/" ++ (a ++ "/"%char :: b) ++ bytes_of ".iso")%list).
  { rewrite <- Hbody. rewrite <- (take_drop (length bs - 4) bs) at 1.
    match goal with H : drop _ bs = _ |- _ => rewrite H end. rewrite app_assoc. f_equal.
    rewrite <- (take_drop 8 (take (length bs - 4) bs)) at 1. f_equal. rewrite take_take.
    rewrite Nat.min_l by lia. done. }
  split.
  - apply bytes_of_inj. fold bs. rewrite Hbs, !bytes_of_app, !String.list_ascii_of_string_of_list_ascii.
    by rewrite <- app_assoc.
  - split; [by destruct a|by destruct b].
Qed.

Lemma containsDotDot_elem path : ".." ∈ path_elems path → containsDotDot path = true.
Proof.
  intros (w&Hw&Hin)%list_elem_of_fmap. unfold containsDotDot. apply existsb_elem.
  exists (bytes_of ".."). split; [|by apply bool_decide_eq_true_2].
  assert (Hww : w = bytes_of "..") by (rewrite Hw; by rewrite String.list_ascii_of_string_of_list_ascii).
  apply list_elem_of_join. exists (split_bytes (ascii_of_nat 92) w). split.
  - rewrite Hww. vm_compute. apply list_elem_of_here.
  - by apply list_elem_of_fmap_2.
Qed.

(** [p] lies in the directory [dir]: it has the elements of [dir] and then
    elements none of which leads upwards. *)
Definition below (dir p : string) : Prop :=
  is_rooted p = is_rooted dir ∧ ∃ rest, path_stack p = (rest ++ path_stack dir)%list ∧ ".." ∉ rest.

(** What the image server gives away.  A file is only served for a path of the
    form [/images/NS/NAME.iso], and then it is the image file of that name, which
    was found to exist; no element of [NS] leads upwards; and unless [NAME] itself
    contains an upward element, the file lies in the configuration directory. *)
Theorem served_file_is_an_image configsDir urlPath t r :
  exec (ServeHTTP configsDir urlPath) t r → configsDir ≠ "" →
  ∀ p, r = File p → ∃ ns name,
    urlPath = "/images/" +:+ ns +:+ "/" +:+ name +:+ ".iso" ∧ ns ≠ "" ∧ name ≠ "" ∧
    p = image_file configsDir ns name ∧ t = [Ev (OsStat p) StatOk] ∧
    (".." ∉ path_elems ns) ∧ ((".." ∉ path_elems name) → below configsDir p).
Proof.
  intros He Hdir p ->. unfold ServeHTTP in He.
  destruct (match_image_path urlPath) as [[ns name]|] eqn:Hm; [|by destruct He as [_ [=]]].
  apply match_image_path_spec in Hm as (->&Hns&Hname). destruct He as (st&t'&->&He). cbn [prog_bind] in He.
  destruct st as [|e|e]; cbn [stat_ok negb] in He; [|by destruct He as [_ [=]]..].
  destruct (containsDotDot _) eqn:Hdd; [by destruct He as [_ [=]]|]. destruct He as [-> [= ->]].
  assert (Hnone : ".." ∉ path_elems ns).
  { intros Hin. apply not_true_iff_false in Hdd. apply Hdd, containsDotDot_elem.
    change ("/images/" +:+ ?x) with ("/images" +:+ "/" +:+ x). rewrite !path_elems_app, !elem_of_app. auto. }
  exists ns, name. split_and!; [done..|]. intros Hname'. unfold below, image_file, InputData.GetClusterConfigDir.
  rewrite Join_Join by done. apply (Join_extends configsDir); [done..|].
  cbn [app]. rewrite !strings_Join_cons by done. rewrite !path_elems_app, !not_elem_of_app.
  split_and!; try done; intros H; vm_compute in H; by apply list_elem_of_singleton in H.
Qed.

Lemma served_file_is_an_image_witness :
  ∃ t p, exec (ServeHTTP "/data/namespaces" "/images/ns/uid.iso") t (File p) ∧
    ∃ ns name, p = image_file "/data/namespaces" ns name ∧ t = [Ev (OsStat p) StatOk].
Proof.
  set (w := Sim.with_files {["/data/namespaces/ns/uid/files/cluster-configuration/imagebasedconfig.iso" := "iso"]}
              Sim.world0).
  set (s := ServeHTTP "/data/namespaces" "/images/ns/uid.iso").
  assert (Hr : (run Sim.handle s w).1.2
    = File "/data/namespaces/ns/uid/files/cluster-configuration/imagebasedconfig.iso") by (vm_compute; reflexivity).
  pose proof (exec_run Sim.handle s w) as Hx. rewrite Hr in Hx.
  destruct (served_file_is_an_image "/data/namespaces" "/images/ns/uid.iso" _ _ Hx ltac:(discriminate) _ eq_refl)
    as (ns&name&_&_&_&Hp&Ht&_).
  eexists _, _. split; [exact Hx|]. exists ns, name. exact (conj Hp Ht).
Defined.

(** A path with slash-free names is taken apart into them. *)
Lemma match_image_path_complete ns name :
  ns ≠ "" → name ≠ "" → slash_free name →
  (ascii_of_nat 10 ∉ bytes_of ns) → (ascii_of_nat 10 ∉ bytes_of name) →
  match_image_path ("/images/" +:+ ns +:+ "/" +:+ name +:+ ".iso") = Some (ns, name).
Proof.
  intros Hns Hname Hfree Hn1 Hn2. unfold match_image_path.
  set (body := (bytes_of ns ++ "/"%char :: bytes_of name)%list).
  assert (Hbs : bytes_of ("/images/" +:+ ns +:+ "/" +:+ name +:+ ".iso")
                = (bytes_of "/images/" ++ body ++ bytes_of ".iso")%list).
  { unfold body. rewrite !bytes_of_app. by rewrite <- app_assoc. }
  rewrite Hbs. set (bs := (bytes_of "/images/" ++ body ++ bytes_of ".iso")%list).
  assert (Hlen : length bs = 8 + (length body + 4)) by (unfold bs; by rewrite !length_app).
  assert (Hbody : body ≠ []) by (unfold body; by destruct (bytes_of ns)).
  assert (Htake : take (length bs - 4) bs = (bytes_of "/images/" ++ body)%list).
  { unfold bs. rewrite app_assoc, take_app_length'; [done|]. rewrite !length_app. simpl. lia. }
  assert (Hdrop : drop (length bs - 4) bs = bytes_of ".iso").
  { unfold bs. rewrite app_assoc, drop_app_length'; [done|]. rewrite !length_app. simpl. lia. }
  rewrite Htake, Hdrop. rewrite (bool_decide_eq_true_2 (8 + 4 ≤ length bs)) by lia.
  rewrite (bool_decide_eq_true_2 (take 8 bs = _)) by done. rewrite bool_decide_eq_true_2 by done.
  cbn [andb]. change (drop 8 (bytes_of "/images/" ++ body)%list) with body.
  destruct (existsb _ body) eqn:Hnl.
  { apply existsb_elem in Hnl as (c&Hc&Hb). bools. subst c. unfold body in Hc.
    apply elem_of_app in Hc as [?|[?|?]%elem_of_cons]; done. }
  unfold body. rewrite split_last_slash; [|by destruct ns|by destruct name|done].
  by rewrite !String.string_of_list_ascii_of_string.
Qed.

Lemma containsDotDot_none path :
  Forall (λ e, (ascii_of_nat 92 ∉ bytes_of e) ∧ e ≠ "..") (path_elems path) → containsDotDot path = false.
Proof.
  intros Hall. apply not_true_iff_false. unfold containsDotDot. intros H.
  apply existsb_elem in H as (w&(l&Hl&Hin)%list_elem_of_join&Hw). bools. subst w.
  apply list_elem_of_fmap in Hin as (e&->&He).
  assert (Hmem : of_bytes e ∈ path_elems path) by by apply list_elem_of_fmap_2.
  rewrite Forall_forall in Hall. destruct (Hall _ Hmem) as [Hbs Hne].
  rewrite String.list_ascii_of_string_of_list_ascii in Hbs. rewrite split_bytes_free in Hl by done.
  apply list_elem_of_singleton in Hl. apply Hne. by rewrite <- Hl.
Qed.

(** The name [..] passes the check of net/http: the extension hides it. *)
Example dotdot_name :
  match_image_path "/images/ns/...iso" = Some ("ns", "..") ∧
  containsDotDot "/images/ns/...iso" = false ∧
  image_file "/data/namespaces" "ns" ".." = "/data/namespaces/files/cluster-configuration/imagebasedconfig.iso".
Proof. split_and!; by vm_compute. Qed.

End ImageServer.
