(* ===== verification/Manager.v ===== *)
(** * Start-up of the manager and of the image server ([cmd/*/main.go]) *)
From stdpp Require Import base gmap strings list.
From Stdlib Require Import ZArith Lia Ascii.
From S2P Require Import Prelude Types World GoStd Codec URL Libs InputData Conditions Reconciler ImageServer Sim.
Local Open Scope go_scope.

Module Manager.

Definition serviceURL (opts : Reconciler.Options) : result string :=
  if bool_decide (Reconciler.ServiceName opts = "")
     || bool_decide (Reconciler.ServiceNamespace opts = "")
     || bool_decide (Reconciler.ServiceScheme opts = "")
  then Err (ErrNew "SERVICE_NAME, SERVICE_NAMESPACE, and SERVICE_SCHEME must be set")
  else
    let host := Reconciler.ServiceName opts +:+ "." +:+ Reconciler.ServiceNamespace opts +:+ ".svc" in
    let host := if negb (bool_decide (Reconciler.ServicePort opts = ""))
                then host +:+ ":" +:+ Reconciler.ServicePort opts else host in
    Ok (url_String (host_url (bytes_of (Reconciler.ServiceScheme opts)) (bytes_of host))).

(** The loop over the listed objects; a failed update is only logged. *)
Fixpoint enqueue_loop (items : list ImageClusterInstall) : io unit :=
  match items with
  | [] => Ret tt
  | ici :: rest =>
      if negb (Conditions.InstallationCompleted ici) then
        let* _ := perform (StatusUpdateICI ici) in enqueue_loop rest
      else enqueue_loop rest
  end.

(** [EnqueueExistingImageClusterInstall] after the cache has synced; the process
    exits ([false]) when the objects cannot be listed. *)
Definition EnqueueExistingImageClusterInstall : io bool :=
  try items := perform (ListICI AllICIs) else _e => Ret false in
  let* _ := enqueue_loop items in
  Ret true.

(** [ConfigsDir] of the image server. *)
Definition server_ConfigsDir (dataDir : string) : string := filepath_Join [dataDir; "namespaces"].

(** ** Properties *)

(** At start-up the manager touches exactly the installations that are not
    completed, once each and in the order of the list, so that each of them is
    reconciled again; a failed update does not keep the others from being
    touched. *)
Theorem enqueue_uncompleted items t r :
  exec (enqueue_loop items) t r →
  ev_call <$> t = StatusUpdateICI <$> filter (λ ici, Conditions.InstallationCompleted ici = false) items.
Proof.
  revert t. induction items as [|ici items IH]; intros t; cbn [enqueue_loop]; [by intros [-> _]|].
  rewrite filter_cons. destruct (Conditions.InstallationCompleted ici); cbn [negb].
  - rewrite decide_False by done. apply IH.
  - rewrite decide_True by done. intros (x&t'&->&H). cbn [prog_bind] in H. csimpl. f_equal. by apply IH.
Qed.

Lemma enqueue_uncompleted_witness :
  ∃ t, exec (enqueue_loop [Sim.ici0; set_Conditions [Conditions.cond_lit ClusterInstallCompleted ConditionTrue "" ""] Sim.ici1]) t tt
       ∧ ev_call <$> t = [StatusUpdateICI Sim.ici0].
Proof.
  set (p := enqueue_loop _). pose proof (exec_run Sim.handle p Sim.world0) as Hx.
  assert (Hr : (run Sim.handle p Sim.world0).1.2 = tt) by (vm_compute; reflexivity). rewrite Hr in Hx.
  eexists. split; [exact Hx|]. exact (enqueue_uncompleted _ _ _ Hx).
Defined.

(** A name as Kubernetes gives it to a namespace or an object: letters, digits,
    dots and dashes, and not only dots. *)
Definition plain_name (s : string) : Prop :=
  s ≠ "" ∧ s ≠ "." ∧ s ≠ ".." ∧ forallb name_char (bytes_of s) = true.

Lemma plain_free c s : name_char c = false → plain_name s → c ∉ bytes_of s.
Proof.
  intros Hc (_&_&_&Hs) Hin. rewrite forallb_forall in Hs. rewrite Hs in Hc; [done|by apply list_elem_of_In].
Qed.

(** The service the manager is configured with: a lower-case scheme, DNS names,
    and a port of digits, if any. *)
Definition plain_service (o : Reconciler.Options) : Prop :=
  forallb lower (bytes_of (Reconciler.ServiceScheme o)) = true ∧
  forallb name_char (bytes_of (Reconciler.ServiceName o)) = true ∧
  forallb name_char (bytes_of (Reconciler.ServiceNamespace o)) = true ∧
  forallb is_digit (bytes_of (Reconciler.ServicePort o)) = true.

(** The host of the service URL. *)
Definition service_host (o : Reconciler.Options) : string :=
  Reconciler.ServiceName o +:+ "." +:+ Reconciler.ServiceNamespace o +:+ ".svc" +:+
  (if bool_decide (Reconciler.ServicePort o = "") then "" else ":" +:+ Reconciler.ServicePort o).

Lemma string_app_nil (a : string) : a +:+ "" = a.
Proof. apply bytes_of_inj. rewrite bytes_of_app. apply app_nil_r. Qed.

Lemma service_host_plain o : plain_service o → plain_host (bytes_of (service_host o)).
Proof.
  intros (_&Hn&Hns&Hp). unfold service_host. rewrite !bytes_of_app.
  exists (bytes_of (Reconciler.ServiceName o) ++ "."%char :: bytes_of (Reconciler.ServiceNamespace o) ++ bytes_of ".svc")%list.
  eexists. split; [by rewrite <- !app_assoc; cbn [app bytes_of]; rewrite <- !app_assoc|].
  split; [by destruct (bytes_of (Reconciler.ServiceName o))|].
  split; [rewrite forallb_app; cbn [forallb]; by rewrite forallb_app, Hn, Hns|].
  case_bool_decide; [done|]. by rewrite bytes_of_app.
Qed.

Lemma serviceURL_eq o base :
  plain_service o → serviceURL o = Ok base →
  bytes_of (Reconciler.ServiceScheme o) ≠ [] ∧
  base = of_bytes (bytes_of (Reconciler.ServiceScheme o) ++ bytes_of "://" ++ bytes_of (service_host o))%list.
Proof.
  intros Hplain. unfold serviceURL. destruct (_ || _ || _) eqn:Hset; [done|]. bools. intros [= <-].
  set (host := if negb _ then _ else _).
  assert (Hh : host = service_host o).
  { unfold host, service_host. case_bool_decide; cbn [negb]; rewrite ?string_app_nil; [done|].
    by rewrite !string_app_assoc. }
  rewrite Hh. assert (Hne : bytes_of (Reconciler.ServiceScheme o) ≠ [])
    by (destruct (Reconciler.ServiceScheme o); done).
  split; [done|].
  change (host_url ?s ?h) with (set_path [] [] (host_url s h)).
  rewrite String_host_url; [|done|by apply service_host_plain|done|done].
  rewrite bool_decide_eq_true_2 by done. by rewrite app_nil_r.
Qed.

(** The path of an image on the server. *)
Definition image_path (ns uid : string) : string := "/images/" +:+ ns +:+ "/" +:+ uid +:+ ".iso".

Lemma plain_iso uid : plain_name uid → plain_name (uid +:+ ".iso").
Proof.
  intros (Hne&_&_&Hs). unfold plain_name. rewrite bytes_of_app, forallb_app, Hs.
  assert (Hlen : ∀ e, uid +:+ ".iso" = e → String.length e = String.length uid + 4).
  { intros e <-. clear. induction uid as [|c uid IH]; [done|].
    change (String c uid +:+ ".iso") with (String c (uid +:+ ".iso")). simpl. by rewrite IH. }
  split_and!; [..|done]; intros H; specialize (Hlen _ H); simpl in Hlen; lia.
Qed.

Lemma path_elems_image ns uid :
  slash_free ns → slash_free (uid +:+ ".iso") →
  path_elems (image_path ns uid) = [""; "images"; ns; uid +:+ ".iso"].
Proof.
  intros Hns Huid. unfold image_path.
  change ("/images/" +:+ ?x) with ("" +:+ "/" +:+ "images" +:+ "/" +:+ x).
  rewrite !path_elems_app. by rewrite (path_elems_free ns), (path_elems_free (uid +:+ ".iso")) by done.
Qed.

Lemma join_image ns uid :
  plain_name ns → plain_name (uid +:+ ".iso") →
  filepath_Join ["/"; "images"; ns; uid +:+ ".iso"] = image_path ns uid.
Proof.
  intros Pns Puid. pose proof (plain_free "/" _ eq_refl Pns) as N4. pose proof (plain_free "/" _ eq_refl Puid) as U4.
  destruct Pns as (N1&N2&N3&_). destruct Puid as (U1&U2&U3&_). rewrite Join_eq by done.
  rewrite Clean_eq. set (p := strings_Join _ "/").
  assert (Hp : p = "/" +:+ image_path ns uid) by done.
  assert (Hr : is_rooted p = true) by done. rewrite Hr.
  assert (Hs : path_stack p = [uid +:+ ".iso"; ns; "images"]).
  { unfold path_stack. rewrite Hr, Hp. change ("/" +:+ ?x) with ("" +:+ "/" +:+ x).
    rewrite path_elems_app, path_elems_image by done. cbn [app path_elems strings_Split].
    change (path_elems "") with [""]. cbn [app clean_elems].
    repeat (first [ rewrite (bool_decide_eq_true_2 ("" = "")) by done
                  | rewrite bool_decide_eq_false_2 by done ]; cbn [orb]). done. }
  rewrite Hs. done.
Qed.

Lemma joined_url o base ns uid :
  plain_service o → serviceURL o = Ok base → plain_name ns → plain_name (uid +:+ ".iso") →
  url_JoinPath base ["images"; ns; uid +:+ ".iso"] = Ok (base +:+ image_path ns uid).
Proof.
  intros Hplain Hbase Pns Piso. destruct (serviceURL_eq _ _ Hplain Hbase) as [Hscheme ->].
  set (path := (bytes_of "images/" ++ bytes_of ns ++ "/"%char :: bytes_of (uid +:+ ".iso"))%list).
  assert (Himg : image_path ns uid = of_bytes ("/"%char :: path)).
  { apply bytes_of_inj. rewrite String.list_ascii_of_string_of_list_ascii. unfold image_path, path.
    by rewrite !bytes_of_app. }
  rewrite (JoinPath_plain _ _ _ path); try done.
  - f_equal. rewrite Himg, <- of_bytes_app. by rewrite <- !app_assoc.
  - apply Hplain.
  - by apply service_host_plain.
  - rewrite join_image by done. done.
  - unfold path. rewrite !forallb_app. destruct Pns as (_&_&_&Hn), Piso as (_&_&_&Hu).
    assert (Hw : ∀ l, forallb name_char l = true → forallb (λ c, name_char c || char_is 47 c) l = true) by (intros; by_chars).
    rewrite (Hw _ Hn). cbn [forallb bytes_of andb]. rewrite (Hw _ Hu). done.
  - exists (uid +:+ ".iso"), ["images"; ns], "o"%char. split; [done|]. split; [|done].
    rewrite bytes_of_app. by rewrite last_app.
Qed.

(** The image file of an object, and its URL. *)
Definition iso_file (dataDir : string) (ici : ImageClusterInstall) : string :=
  filepath_Join [filepath_Join [filepath_Join [InputData.lock_dir dataDir ici; InputData.FilesDir];
                                InputData.ClusterConfigDir]; InputData.IsoName].

Lemma image_url_plain o req ici base :
  plain_service o → serviceURL o = Ok base → Reconciler.BaseURL o = base →
  key_Namespace req = om_Namespace (ici_Meta ici) →
  plain_name (om_Namespace (ici_Meta ici)) → plain_name (om_UID (ici_Meta ici)) →
  Reconciler.image_url o req ici = Ok (base +:+ image_path (om_Namespace (ici_Meta ici)) (om_UID (ici_Meta ici))).
Proof.
  intros Hplain Hbase HB Hns Pns Puid. pose proof (plain_iso _ Puid) as Piso.
  unfold Reconciler.image_url. rewrite HB, Hns. by apply (joined_url o).
Qed.

Lemma image_request dataDir ici t r :
  dataDir ≠ "" → plain_name (om_Namespace (ici_Meta ici)) → plain_name (om_UID (ici_Meta ici)) →
  exec (ImageServer.ServeHTTP (server_ConfigsDir dataDir)
          (image_path (om_Namespace (ici_Meta ici)) (om_UID (ici_Meta ici)))) t r →
  ∃ st, t = [Ev (OsStat (iso_file dataDir ici)) st] ∧
        r = if stat_ok st then ImageServer.File (iso_file dataDir ici) else ImageServer.NotFound.
Proof.
  intros Hdir Pns Puid He. pose proof (plain_iso _ Puid) as Piso.
  set (ns := om_Namespace (ici_Meta ici)) in *. set (uid := om_UID (ici_Meta ici)) in *.
  assert (Hiso : ImageServer.image_file (server_ConfigsDir dataDir) ns uid = iso_file dataDir ici).
  { unfold ImageServer.image_file, InputData.GetClusterConfigDir, server_ConfigsDir, iso_file, InputData.lock_dir.
    by repeat (rewrite (Join_Join dataDir) by done; cbn [app]). }
  unfold ImageServer.ServeHTTP in He.
  change (image_path ns uid) with ("/images/" +:+ ns +:+ "/" +:+ uid +:+ ".iso") in He.
  rewrite ImageServer.match_image_path_complete, Hiso in He
    by (first [apply Pns|apply Puid|by apply plain_free]).
  destruct He as (st&t'&->&He). cbn [prog_bind] in He. exists st.
  destruct (stat_ok st) eqn:Hst; cbn [negb] in He; [|by destruct He as [-> ->]].
  rewrite ImageServer.containsDotDot_none in He; [by destruct He as [-> ->]|].
  fold (image_path ns uid).
  rewrite path_elems_image by (by apply (plain_free "/")).
  repeat (apply Forall_cons; split; [split|]); try done; try apply Pns; try apply Piso;
    try (by apply plain_free).
  all: intros H; vm_compute in H; repeat (apply elem_of_cons in H as [H|H]; [done|]); by apply elem_of_nil in H.
Qed.

(** C37: the link between the reconciler and the image server.  With the base URL
    the manager computes for a service with plain names, and for objects with
    plain names, the URL the reconciler puts into a DataImage is the base followed
    by [/images/NS/UID.iso]; and a request for that path is answered with exactly
    the file the reconciler has the installer write into the image directory of
    the object, if it exists, and with "not found" otherwise. *)
Theorem image_url_served o req ici base :
  plain_service o → serviceURL o = Ok base → Reconciler.BaseURL o = base →
  Reconciler.DataDir o ≠ "" → key_Namespace req = om_Namespace (ici_Meta ici) →
  plain_name (om_Namespace (ici_Meta ici)) → plain_name (om_UID (ici_Meta ici)) →
  let path := image_path (om_Namespace (ici_Meta ici)) (om_UID (ici_Meta ici)) in
  let iso := iso_file (Reconciler.DataDir o) ici in
  Reconciler.image_url o req ici = Ok (base +:+ path) ∧
  ∀ t r, exec (ImageServer.ServeHTTP (server_ConfigsDir (Reconciler.DataDir o)) path) t r →
    ∃ st, t = [Ev (OsStat iso) st] ∧
          r = if stat_ok st then ImageServer.File iso else ImageServer.NotFound.
Proof.
  intros. split; [by apply image_url_plain|]. intros t r. by apply image_request.
Qed.

Lemma image_url_served_witness :
  let o := Reconciler.mkOptions "svc" "ns" "8000" "http" "/data" 1%Z Second "http://svc.ns.svc:8000" in
  Reconciler.image_url o Sim.req0 Sim.ici0 = Ok "http://svc.ns.svc:8000/images/ns/uid.iso".
Proof.
  intros o.
  assert (Hplain : ∀ s, (s = "ns" ∨ s = "uid") → plain_name s).
  { intros s [->| ->]; unfold plain_name; split_and!; first [discriminate|vm_compute; reflexivity]. }
  assert (Hservice : plain_service o) by (unfold plain_service; split_and!; vm_compute; reflexivity).
  assert (Hbase : serviceURL o = Ok "http://svc.ns.svc:8000") by (vm_compute; reflexivity).
  destruct (image_url_served o Sim.req0 Sim.ici0 "http://svc.ns.svc:8000" Hservice Hbase
    eq_refl ltac:(discriminate) eq_refl (Hplain _ (or_introl eq_refl)) (Hplain _ (or_intror eq_refl)))
    as [Hu _].
  exact Hu.
Defined.

End Manager.
