(* ===== verification/TLS.v ===== *)
(** * TLS settings of the processes ([internal/tlsconfig] and the watch of [cmd/server])

    The operator's processes serve with the TLS profile of the cluster's API
    server object and shut down, to be restarted, when it changes.  The calls of
    a starting process are those of [sys_call], which [Startup] shares. *)
From stdpp Require Import base gmap strings list.
From Stdlib Require Import ZArith Lia.
From S2P Require Import Prelude.
Local Open Scope go_scope.

Module TLS.

(** [configv1.TLSProfileSpec]; [DeepEqual] is [equality.Semantic.DeepEqual],
    which does not tell a nil slice from an empty one. *)
Record TLSProfileSpec := mkTLSProfileSpec { Ciphers : slice string; MinTLSVersion : string }.
Definition DeepEqual (a b : TLSProfileSpec) : bool :=
  bool_decide (elems (Ciphers a) = elems (Ciphers b))
  && bool_decide (MinTLSVersion a = MinTLSVersion b).

(** What the TLS libraries provide: the profile of
    [configv1.TLSProfiles[libgocrypto.DefaultTLSProfileType]], the policy test,
    the translation of a profile into settings of [crypto/tls] (with the ciphers
    it cannot translate), which panics on a version it does not know, and the reading of a profile setting. *)
Class TLSLibs := {
  tls_settings : Type;
  TLSSecurityProfile : Type;
  DefaultTLSProfile : TLSProfileSpec;
  ShouldHonorClusterTLSProfile : string → bool;
  NewTLSConfigFromProfile : TLSProfileSpec → xres (tls_settings * list string);
  GetTLSProfileSpec : option TLSSecurityProfile → result TLSProfileSpec;
}.

Section tls.
Context `{L : TLSLibs}.

Record TLSConfigResult := mkTLSConfigResult {
  TLSConfig : option tls_settings;
  TLSAdherencePolicy : string;
  TLSProfile : TLSProfileSpec;
}.

(** The fields of an [APIServer] object the code reads, and watch events; the
    object of an event is [None] if it is not an [APIServer]. *)
Record APIServer := mkAPIServer {
  Spec_TLSAdherence : string;
  Spec_TLSSecurityProfile : option TLSSecurityProfile;
}.
Inductive event_type := Added | Modified | Deleted | Bookmark | ErrorEvent.
Record watch_event := mkWatchEvent { ev_Type : event_type; ev_Object : option APIServer }.

(** The calls of this file: scheme and client construction, the two fetches of
    [crtls], and the watch, answered with the events it delivers until it is
    closed. *)
Inductive tls_call :=
| AddToScheme
| NewClient
| FetchAPIServerTLSAdherencePolicy
| FetchAPIServerTLSProfile
| WatchAPIServers.
Definition tls_answer (a : tls_call) : Type :=
  match a with
  | AddToScheme | NewClient => option goerror
  | FetchAPIServerTLSAdherencePolicy => result string
  | FetchAPIServerTLSProfile => result TLSProfileSpec
  | WatchAPIServers => result (list watch_event)
  end.
#[export] Instance tls_call_eq_dec : EqDecision tls_call.
Proof. solve_decision. Defined.
Abbreviation tls_io := (prog tls_answer).

Definition TLSAdherencePolicyNoOpinion := "".

Definition ResolveTLSConfig : tls_io (xres (result TLSConfigResult)) :=
  check perform AddToScheme else e =>
    Ret (XRet (Err (ErrWrap "unable to add config.openshift.io/v1 to scheme: " e))) in
  check perform NewClient else e =>
    Ret (XRet (Err (ErrWrap "unable to create Kubernetes client: " e))) in
  let* policy := perform FetchAPIServerTLSAdherencePolicy in
  let tlsAdherencePolicy :=
    match policy with Ok p => p | Err _ => TLSAdherencePolicyNoOpinion end in
  let* profile := perform FetchAPIServerTLSProfile in
  let tlsProfileSpec := match profile with Ok p => p | Err _ => DefaultTLSProfile end in
  let appliedProfile :=
    if ShouldHonorClusterTLSProfile tlsAdherencePolicy then tlsProfileSpec else DefaultTLSProfile in
  match NewTLSConfigFromProfile appliedProfile with
  | XPanic m => Ret (XPanic m)
  | XRet (tlsConfig, _unsupportedCiphers) =>
      Ret (XRet (Ok (mkTLSConfigResult (Some tlsConfig) tlsAdherencePolicy tlsProfileSpec)))
  end.

(** A buffered channel of signals: its capacity and how many are waiting. *)
Record channel := mkChannel { ch_cap : nat; ch_len : nat }.

(** The send of a [select] with an empty [default]. *)
Definition requestGracefulShutdown (ch : channel) : channel :=
  if bool_decide (ch_len ch < ch_cap ch) then mkChannel (ch_cap ch) (S (ch_len ch)) else ch.

(** The loop over the result channel of the watch; the events that are left when
    it returns are never received. *)
Fixpoint watch_loop (current : TLSConfigResult) (events : list watch_event) (ch : channel)
    : channel * list watch_event :=
  match events with
  | [] => (ch, [])
  | event :: rest =>
      match ev_Type event, ev_Object event with
      | Modified, Some updated =>
          if negb (bool_decide (TLSAdherencePolicy current = Spec_TLSAdherence updated))
          then (requestGracefulShutdown ch, rest)
          else
            match GetTLSProfileSpec (Spec_TLSSecurityProfile updated) with
            | Err _ => watch_loop current rest ch
            | Ok profile =>
                if negb (DeepEqual (TLSProfile current) profile)
                then (requestGracefulShutdown ch, rest)
                else watch_loop current rest ch
            end
      | _, _ => watch_loop current rest ch
      end
  end.

Definition watchAndExitOnTLSChange (current : TLSConfigResult) (ch : channel) : tls_io channel :=
  try events := perform WatchAPIServers else _e => Ret ch in
  Ret (watch_loop current events ch).1.

(** ** Properties *)

(** The event is a modification of the object to settings other than [current]. *)
Definition settings_changed (current : TLSConfigResult) (e : watch_event) : Prop :=
  ev_Type e = Modified ∧ ∃ updated, ev_Object e = Some updated ∧
    (TLSAdherencePolicy current ≠ Spec_TLSAdherence updated ∨
     ∃ p, GetTLSProfileSpec (Spec_TLSSecurityProfile updated) = Ok p ∧
          (elems (Ciphers (TLSProfile current)) ≠ elems (Ciphers p) ∨
           MinTLSVersion (TLSProfile current) ≠ MinTLSVersion p)).

Lemma DeepEqual_false a b :
  DeepEqual a b = false ↔ elems (Ciphers a) ≠ elems (Ciphers b) ∨ MinTLSVersion a ≠ MinTLSVersion b.
Proof. unfold DeepEqual. rewrite andb_false_iff, !bool_decide_eq_false. done. Qed.

#[export] Instance settings_changed_dec current e : Decision (settings_changed current e).
Proof.
  unfold settings_changed. destruct (ev_Type e) eqn:Ht; try (right; by intros [[=] _]).
  destruct (ev_Object e) as [u|]; [|right; by intros (_&?&[=]&_)].
  destruct (decide (TLSAdherencePolicy current = Spec_TLSAdherence u)) as [Hp|Hp];
    [|left; split; [done|]; exists u; auto].
  destruct (GetTLSProfileSpec (Spec_TLSSecurityProfile u)) as [p|er] eqn:Hg.
  - destruct (DeepEqual (TLSProfile current) p) eqn:Hd.
    + right. intros (_&?&[= <-]&[?|(q&Hq&Hn)]); [done|]. apply DeepEqual_false in Hn. congruence.
    + left. split; [done|]. exists u. split; [done|]. right. exists p. by rewrite <- DeepEqual_false.
  - right. intros (_&?&[= <-]&[?|(q&Hq&Hn)]); [done|congruence].
Defined.

(** One round of the loop: the first change ends it. *)
Lemma watch_loop_step current e rest ch :
  watch_loop current (e :: rest) ch =
    if decide (settings_changed current e) then (requestGracefulShutdown ch, rest)
    else watch_loop current rest ch.
Proof.
  cbn [watch_loop]. destruct (decide _) as [(Ht&u&Ho&Hc)|Hn].
  - rewrite Ht, Ho. case_bool_decide as Hp; cbn [negb]; [|done].
    destruct Hc as [?|(p&->&Hd%DeepEqual_false)]; [done|]. by rewrite Hd.
  - destruct (ev_Type e) eqn:Ht; try done. destruct (ev_Object e) as [u|] eqn:Ho; [|done].
    case_bool_decide as Hp; cbn [negb].
    + destruct (GetTLSProfileSpec _) as [p|er] eqn:Hg; [|done].
      destruct (DeepEqual _ _) eqn:Hd; cbn [negb]; [done|]. destruct Hn. split; [done|].
      exists u. split; [done|]. right. exists p. by rewrite <- DeepEqual_false.
    + destruct Hn. split; [done|]. exists u. auto.
Qed.

(** The whole loop: it ends at the first change, with one request to shut down,
    and otherwise receives every event. *)
Lemma watch_loop_spec current events ch :
  (Forall (λ e, ¬ settings_changed current e) events ∧ watch_loop current events ch = (ch, [])) ∨
  (∃ es e rest, events = es ++ e :: rest ∧ Forall (λ e, ¬ settings_changed current e) es ∧
     settings_changed current e ∧ watch_loop current events ch = (requestGracefulShutdown ch, rest)).
Proof.
  induction events as [|e rest IH]; [by left|]. rewrite watch_loop_step.
  destruct (decide _) as [Hc|Hn]; [right; by exists [], e, rest|].
  destruct IH as [[? ->]|(es&e'&rest'&->&?&?&->)]; [left; split; [by constructor|done]|].
  right. exists (e :: es), e', rest'. split_and!; [done|by constructor|done|done].
Qed.

(** The answer of each fetch. *)
Definition policy_answer (ev : event tls_answer) : option (result string) :=
  match ev with
  | Ev a x => match a return tls_answer a → option (result string) with
              | FetchAPIServerTLSAdherencePolicy => Some | _ => λ _, None end x
  end.
Definition profile_answer (ev : event tls_answer) : option (result TLSProfileSpec) :=
  match ev with
  | Ev a x => match a return tls_answer a → option (result TLSProfileSpec) with
              | FetchAPIServerTLSProfile => Some | _ => λ _, None end x
  end.

(** Both answers of a resolution are the settings of [api]. *)
Definition read_from (t : list (event tls_answer)) (api : APIServer) : Prop :=
  Ev FetchAPIServerTLSAdherencePolicy (Ok (Spec_TLSAdherence api)) ∈ t ∧
  ∃ p, GetTLSProfileSpec (Spec_TLSSecurityProfile api) = Ok p ∧
       Ev FetchAPIServerTLSProfile (Ok p) ∈ t.

(** The result for a policy and a profile. *)
Definition resolved (policy : string) (profile : TLSProfileSpec) : xres (result TLSConfigResult) :=
  match NewTLSConfigFromProfile
          (if ShouldHonorClusterTLSProfile policy then profile else DefaultTLSProfile) with
  | XPanic m => XPanic m
  | XRet (conf, _) => XRet (Ok (mkTLSConfigResult (Some conf) policy profile))
  end.

Lemma exec_ResolveTLSConfig t r :
  exec ResolveTLSConfig t r →
  ((∃ e, r = XRet (Err e)) ∧ Forall (λ ev, policy_answer ev = None) t) ∨
  ∃ policy profile,
    t = [Ev AddToScheme None; Ev NewClient None;
         Ev FetchAPIServerTLSAdherencePolicy policy; Ev FetchAPIServerTLSProfile profile] ∧
    r = resolved match policy with Ok p => p | Err _ => TLSAdherencePolicyNoOpinion end
          match profile with Ok p => p | Err _ => DefaultTLSProfile end.
Proof.
  intros ([e|]&t1&->&He).
  { destruct He as [-> ->]. left. split; [by eexists|]. by repeat constructor. }
  destruct He as ([e|]&t2&->&He).
  { destruct He as [-> ->]. left. split; [by eexists|]. by repeat constructor. }
  destruct He as (policy&t3&->&profile&t4&->&He). cbn [prog_bind] in He.
  right. exists policy, profile. unfold resolved.
  destruct (NewTLSConfigFromProfile _) as [[conf unsup]|m]; by destruct He as [-> ->].
Qed.

Lemma resolved_ok policy profile res :
  resolved policy profile = XRet (Ok res) →
  TLSAdherencePolicy res = policy ∧ TLSProfile res = profile ∧
  ∃ conf unsup, TLSConfig res = Some conf ∧
    NewTLSConfigFromProfile (if ShouldHonorClusterTLSProfile policy then profile else DefaultTLSProfile)
      = XRet (conf, unsup).
Proof.
  unfold resolved. destruct (NewTLSConfigFromProfile _) as [[conf unsup]|m] eqn:Hn; [|done].
  intros [= <-]. split_and!; [done..|]. by exists conf, unsup.
Qed.

Lemma resolved_from t r api :
  exec ResolveTLSConfig t r → read_from t api →
  ∃ p, GetTLSProfileSpec (Spec_TLSSecurityProfile api) = Ok p ∧ r = resolved (Spec_TLSAdherence api) p.
Proof.
  intros [[_ Hno]|(policy&profile&->&->)]%exec_ResolveTLSConfig (Hp&p&Hg&Hpr).
  { by apply (Forall_forall _ _) with (x := Ev FetchAPIServerTLSAdherencePolicy (Ok (Spec_TLSAdherence api))) in Hno. }
  rewrite !elem_of_cons, elem_of_nil in Hp, Hpr.
  destruct Hp as [?|[?|[Hp|[?|[]]]]]; try congruence.
  destruct Hpr as [?|[?|[?|[Hpr|[]]]]]; try congruence.
  apply (f_equal policy_answer) in Hp. apply (f_equal profile_answer) in Hpr. simplify_eq/=. by exists p.
Qed.

Hypothesis NewTLSConfigFromProfile_DeepEqual : ∀ a b,
  DeepEqual a b = true → NewTLSConfigFromProfile a = NewTLSConfigFromProfile b.

(** C38: a process never keeps serving with outdated TLS settings, and is never
    restarted without need.  Once its settings are resolved and the watch
    delivers [events], one shutdown is requested exactly if some event modifies
    the API server object to other settings.  So it is requested whenever a
    process that resolved its settings from a modified object would serve with
    others, or would panic on them; and it is not requested if all modifications carry the settings the
    process itself was started with. *)
Theorem tls_reload t res events ch' :
  exec ResolveTLSConfig t (XRet (Ok res)) →
  exec (watchAndExitOnTLSChange res (mkChannel 1 0)) [Ev WatchAPIServers (Ok events)] ch' →
  (ch_len ch' = 1 ↔ ∃ e, e ∈ events ∧ settings_changed res e) ∧ ch_len ch' ≤ 1 ∧
  (∀ e api t2 r2, e ∈ events → ev_Type e = Modified → ev_Object e = Some api →
     exec ResolveTLSConfig t2 r2 → read_from t2 api →
     (∀ res2, r2 = XRet (Ok res2) → TLSConfig res2 ≠ TLSConfig res) → ch_len ch' = 1) ∧
  (∀ api, read_from t api →
     (∀ e updated, e ∈ events → ev_Type e = Modified → ev_Object e = Some updated → updated = api) →
     ch_len ch' = 0).
Proof.
  intros Hres [_ ->]%exec_cons.
  assert (Hch : ch_len (watch_loop res events (mkChannel 1 0)).1 ≤ 1 ∧
    (ch_len (watch_loop res events (mkChannel 1 0)).1 = 1 ↔
     ∃ e, e ∈ events ∧ settings_changed res e)).
  { destruct (watch_loop_spec res events (mkChannel 1 0)) as [[Hn ->]|(es&e&rest&->&Hn&Hc&->)]; cbn.
    - split; [lia|]. split; [done|]. intros (e&?&?). by eapply Forall_forall in Hn.
    - split; [done|]. split; [|done]. intros _. exists e.
      split; [apply elem_of_app; right; left|done]. }
  destruct Hch as [Hle Hch]. split_and!; [done..| |].
  - intros e api t2 r2 He Ht Ho Hres2 Hread Hne. apply Hch. exists e. split; [done|].
    apply dec_stable. intros Hn.
    destruct (resolved_from _ _ _ Hres2 Hread) as (p&Hprof&->).
    apply exec_ResolveTLSConfig in Hres as [[[? [=]] _]|(policy&profile&_&Hres)].
    symmetry in Hres. apply resolved_ok in Hres as (Hpol&Hpro&conf&unsup&Hconf&Hnew).
    rewrite <- Hpol, <- Hpro in Hnew.
    assert (Hp : TLSAdherencePolicy res = Spec_TLSAdherence api).
    { apply dec_stable. intros Hd. apply Hn. split; [done|]. exists api. auto. }
    assert (Hd : DeepEqual p (TLSProfile res) = true).
    { destruct (DeepEqual p (TLSProfile res)) eqn:Hd; [done|].
      destruct Hn. split; [done|]. exists api. split; [done|]. right. exists p.
      split; [done|]. apply DeepEqual_false in Hd as [Hd|Hd]; [left|right]; congruence. }
    apply (Hne (mkTLSConfigResult (Some conf) (Spec_TLSAdherence api) p)); [|by rewrite Hconf]. unfold resolved. rewrite <- Hp.
    destruct (ShouldHonorClusterTLSProfile _).
    + rewrite (NewTLSConfigFromProfile_DeepEqual _ _ Hd). by rewrite Hnew.
    + by rewrite Hnew.
  - intros api Hread Hall. destruct (resolved_from _ _ _ Hres Hread) as (p0&Hprof&Hr0).
    symmetry in Hr0. apply resolved_ok in Hr0 as (Hpol&Hpro&_).
    destruct (decide (ch_len (watch_loop res events (mkChannel 1 0)).1 = 1)) as [H1|]; [|lia].
    apply Hch in H1 as (e&He&Ht&u&Ho&Hc). rewrite (Hall e u He Ht Ho) in Hc.
    destruct Hc as [?|(p&Hp&Hd)]; [done|]. rewrite Hprof in Hp. injection Hp as <-. rewrite Hpro in Hd.
    by destruct Hd.
Qed.
End tls.

(** A concrete instance: settings are the cipher lists, and the profile setting of
    the API server is a profile. *)
Definition StubTLS : TLSLibs := {|
  tls_settings := list string * string;
  TLSSecurityProfile := TLSProfileSpec;
  DefaultTLSProfile := mkTLSProfileSpec (Some ["ECDHE-ECDSA-AES128-GCM-SHA256"]) "VersionTLS12";
  ShouldHonorClusterTLSProfile p := negb (bool_decide (p = "") || bool_decide (p = "LegacyAdheringComponentsOnly"));
  NewTLSConfigFromProfile p :=
    if bool_decide (MinTLSVersion p ∈ [""; "VersionTLS10"; "VersionTLS11"; "VersionTLS12"; "VersionTLS13"])
    then XRet ((elems (Ciphers p), MinTLSVersion p), []) else XPanic "unknown tls version";
  GetTLSProfileSpec p :=
    match p with
    | Some q => Ok q
    | None => Ok (mkTLSProfileSpec (Some ["ECDHE-ECDSA-AES128-GCM-SHA256"]) "VersionTLS12")
    end;
|}.

(** The watch first sends the object as it is, then a change of the policy. *)
Definition stub_watch : event (tls_answer (L := StubTLS)) :=
  Ev (answer := tls_answer (L := StubTLS)) WatchAPIServers
    (Ok [mkWatchEvent Added (Some (mkAPIServer (L := StubTLS) "" None));
         mkWatchEvent Modified (Some (mkAPIServer (L := StubTLS) "StrictAllComponents" None))]).
Definition stub_result : TLSConfigResult (L := StubTLS) :=
  mkTLSConfigResult (L := StubTLS) (Some (["ECDHE-ECDSA-AES128-GCM-SHA256"], "VersionTLS12")) ""
    (mkTLSProfileSpec (Some ["ECDHE-ECDSA-AES128-GCM-SHA256"]) "VersionTLS12").

Lemma tls_reload_witness :
  ∃ t ch', exec (ResolveTLSConfig (L := StubTLS)) t (XRet (Ok stub_result)) ∧
    exec (watchAndExitOnTLSChange stub_result (mkChannel 1 0)) [stub_watch] ch' ∧ ch_len ch' = 1.
Proof.
  assert (Hr : ∃ t, exec (ResolveTLSConfig (L := StubTLS)) t (XRet (Ok stub_result))).
  { eexists [Ev AddToScheme None; Ev NewClient None; Ev FetchAPIServerTLSAdherencePolicy (Ok "");
             Ev FetchAPIServerTLSProfile (Ok (TLSProfile stub_result))].
    do 4 (eexists _, _; split; [reflexivity|]). split; reflexivity. }
  destruct Hr as [t Hr].
  assert (Hw : exec (watchAndExitOnTLSChange stub_result (mkChannel 1 0)) [stub_watch] (mkChannel 1 1)).
  { eexists _, _. split; [reflexivity|]. split; reflexivity. }
  exists t, (mkChannel 1 1). split; [exact Hr|]. split; [exact Hw|].
  refine (proj2 (proj1 (tls_reload (L := StubTLS) _ _ _ _ _ Hr Hw)) _).
  - intros a b Hd. unfold DeepEqual in Hd. apply andb_true_iff in Hd as [H1 H2].
    apply bool_decide_eq_true in H1, H2. cbn [NewTLSConfigFromProfile StubTLS]. by rewrite H1, H2.
  - eexists. split; [right; left|]. split; [done|]. eexists. split; [reflexivity|]. left. by vm_compute.
Defined.
End TLS.
