(* ===== verification/Startup.v ===== *)
(** * The two processes ([main] of [cmd/manager] and [cmd/server])

    The manager wires the controllers, the TLS watcher and the webhook and then
    starts them; the image server resolves its TLS settings in a goroutine that
    listens, while [main] waits for a signal and shuts the listener down.  The
    two threads of the server are interleaved call by call by [process]. *)
From stdpp Require Import base gmap strings list.
From Stdlib Require Import ZArith Lia.
From S2P Require Import Prelude Types GoStd Conditions Reconciler ImageServer Manager TLS.
Local Open Scope go_scope.

Module Startup.
Section startup.
Context `{L : TLS.TLSLibs}.

(** ** Environment *)

(** The options of the manager that [main] chooses. *)
Record manager_options := mkManagerOptions {
  HealthProbeBindAddress : string;
  LeaderElection : bool;
  WebhookTLS : option TLS.tls_settings;
}.

(** What is registered with the manager; [Watches] names the types whose events
    are mapped to requests. *)
Inductive registration :=
| ImageClusterInstallReconciler (Options : Reconciler.Options) (Watches : list string)
| ImageClusterInstallMonitor (Options : Reconciler.Options) (DefaultInstallTimeout : duration)
| SecurityProfileWatcher (policy : string) (profile : TLS.TLSProfileSpec)
| ImageClusterInstallWebhook.

(** [Options] of the image server. *)
Record ServerOptions := mkServerOptions {
  srv_DataDir : string;
  srv_Port : string;
  srv_HTTPSKeyFile : string;
  srv_HTTPSCertFile : string;
}.
(** [imageserver.Handler]. *)
Record Handler := mkHandler { WorkDir : string; ConfigsDir : string }.

(** How [ListenAndServe] ends, and what ends the wait of [main]. *)
Inductive listen_end := ErrServerClosed | ListenError (e : goerror).
Inductive wake := Signal | TLSProfileChanged.

Inductive boot_call :=
| TLSCall (c : TLS.tls_call)
(* the manager *)
| GoStartPPROF
| NewManager (o : manager_options)
| ProcessManagerEnv
| IndexField (field : string)
| Register (r : registration)
| AddHealthzCheck
| AddReadyzCheck
| GoEnqueueExisting
| MgrStart
(* the image server *)
| ProcessServerEnv
| MkdirAll (path : string)
| HandleHTTP (pattern : string) (h : Handler)
| GoWatchTLS (current : TLS.TLSConfigResult)
| ListenAndServe (addr : string)
| ListenAndServeTLS (addr : string) (config : option TLS.tls_settings) (cert key : string)
| Select
| WatchCancel
| ServerShutdown
| ServerClose.
Definition boot_answer (a : boot_call) : Type :=
  match a with
  | TLSCall c => TLS.tls_answer c
  | NewManager _ | IndexField _ | Register _ | AddHealthzCheck | AddReadyzCheck | MgrStart
  | MkdirAll _ | ServerShutdown | ServerClose => option goerror
  | ProcessManagerEnv => result Reconciler.Options
  | ProcessServerEnv => result ServerOptions
  | GoStartPPROF | GoEnqueueExisting | HandleHTTP _ _ | GoWatchTLS _ | WatchCancel => unit
  | ListenAndServe _ | ListenAndServeTLS _ _ _ _ => listen_end
  | Select => wake
  end.
Abbreviation boot_io := (prog boot_answer).
Abbreviation boot_trace := (list (event boot_answer)).

Fixpoint lift {A} (p : prog TLS.tls_answer A) : boot_io A :=
  match p with
  | Ret r => Ret r
  | Act a k => Act (TLSCall a) (λ x, lift (k x))
  end.
Definition lift_ev (ev : event TLS.tls_answer) : event boot_answer :=
  match ev with Ev a x => Ev (answer := boot_answer) (TLSCall a) x end.

(** How a thread ends: [os.Exit] and [log.Fatal] end the process, and so does a
    panic, with code 2. *)
Inductive ending := Returned | Exit (code : nat).

(** ** The manager *)

Definition set_BaseURL (url : string) (o : Reconciler.Options) : Reconciler.Options :=
  Reconciler.mkOptions (Reconciler.ServiceName o) (Reconciler.ServiceNamespace o)
    (Reconciler.ServicePort o) (Reconciler.ServiceScheme o) (Reconciler.DataDir o)
    (Reconciler.MaxConcurrentReconciles o) (Reconciler.DataImageCoolDownPeriod o) url.

Definition addIndexforBaremetalHostRef : boot_io (option goerror) :=
  check perform (IndexField ".spec.bareMetalHostRef.name") else e => Ret (Some e) in
  check perform (IndexField ".spec.bareMetalHostRef.namespace") else e => Ret (Some e) in
  Ret None.

(** [SetupWithManager] of the reconciler. *)
Definition SetupReconciler (o : Reconciler.Options) : boot_io (option goerror) :=
  check addIndexforBaremetalHostRef else e => Ret (Some e) in
  perform (Register (ImageClusterInstallReconciler o ["BareMetalHost"; "ClusterDeployment"])).

Definition manager_main (probeAddr : string) (enableLeaderElection runWithPPROF : bool) : boot_io ending :=
  let* _ := (if runWithPPROF then perform GoStartPPROF else Ret tt) in
  let* r := lift TLS.ResolveTLSConfig in
  match r with
  | XPanic _ => Ret (Exit 2)
  | XRet (Err _) => Ret (Exit 1)
  | XRet (Ok tlsResult) =>
  check perform (NewManager (mkManagerOptions probeAddr enableLeaderElection (TLS.TLSConfig tlsResult)))
    else _e => Ret (Exit 1) in
  try controllerOptions := perform ProcessManagerEnv else _e => Ret (Exit 1) in
  match Manager.serviceURL controllerOptions with
  | Err _ => Ret (Exit 1)
  | Ok baseURL =>
      check SetupReconciler (set_BaseURL baseURL controllerOptions) else _e => Ret (Exit 1) in
      check perform (Register (ImageClusterInstallMonitor controllerOptions Hour)) else _e => Ret (Exit 1) in
      check perform (Register (SecurityProfileWatcher (TLS.TLSAdherencePolicy tlsResult) (TLS.TLSProfile tlsResult)))
        else _e => Ret (Exit 1) in
      check perform (Register ImageClusterInstallWebhook) else _e => Ret (Exit 1) in
      check perform AddHealthzCheck else _e => Ret (Exit 1) in
      check perform AddReadyzCheck else _e => Ret (Exit 1) in
      let* _ := perform GoEnqueueExisting in
      check perform MgrStart else _e => Ret (Exit 1) in
      Ret Returned
  end end.

(** ** The image server *)

(** [main] up to the start of the listener goroutine. *)
Definition server_setup : boot_io (ending + ServerOptions) :=
  try o := perform ProcessServerEnv else _e => Ret (inl (Exit 1)) in
  let workDir := filepath_Join [srv_DataDir o; "iso-workdir"] in
  check perform (MkdirAll workDir) else _e => Ret (inl (Exit 1)) in
  let* _ := perform (HandleHTTP "/images/" (mkHandler workDir (Manager.server_ConfigsDir (srv_DataDir o)))) in
  Ret (inr o).

(** The listener goroutine; [log.Fatal] exits with code 1. *)
Definition server_listen (o : ServerOptions) : boot_io ending :=
  let addr := ":" +:+ srv_Port o in
  let finish (err : listen_end) : boot_io ending :=
    match err with ErrServerClosed => Ret Returned | ListenError _ => Ret (Exit 1) end in
  if negb (bool_decide (srv_HTTPSKeyFile o = "")) && negb (bool_decide (srv_HTTPSCertFile o = "")) then
    let* r := lift TLS.ResolveTLSConfig in
    match r with
    | XPanic _ => Ret (Exit 2)
    | XRet (Err _) => Ret (Exit 1)
    | XRet (Ok tlsResult) =>
        let* _ := perform (GoWatchTLS tlsResult) in
        let* err := perform (ListenAndServeTLS addr (TLS.TLSConfig tlsResult) (srv_HTTPSCertFile o)
                               (srv_HTTPSKeyFile o)) in
        finish err
    end
  else
    let* err := perform (ListenAndServe addr) in finish err.

(** [main] from the [select] on. *)
Definition server_wait : boot_io ending :=
  let* _ := perform Select in
  let* _ := perform WatchCancel in
  let* err := perform ServerShutdown in
  match err with
  | Some _ => check perform ServerClose else _e => Ret (Exit 1) in Ret Returned
  | None => Ret Returned
  end.

(** A process of a main thread and a goroutine: the calls of the two are
    interleaved in any way; it ends when the main thread does, or when the
    goroutine exits the process. *)
Inductive process : boot_io ending → boot_io ending → boot_trace → ending → Prop :=
| process_end e q : process (Ret e) q [] e
| process_exit p c : process p (Ret (Exit c)) [] (Exit c)
| process_main a k q x t e : process (k x) q t e → process (Act a k) q (Ev a x :: t) e
| process_go a k p x t e : process p (k x) t e → process p (Act a k) (Ev a x :: t) e.

Definition server_main (t : boot_trace) (e : ending) : Prop :=
  ∃ t1 s, exec server_setup t1 s ∧
  match s with
  | inl e' => t = t1 ∧ e = e'
  | inr o => ∃ t2, process server_wait (server_listen o) t2 e ∧ t = t1 ++ t2
  end.

(** ** Properties *)

Lemma exec_lift {A} (p : prog TLS.tls_answer A) t r :
  exec (lift p) t r → ∃ tt, t = lift_ev <$> tt ∧ exec p tt r.
Proof.
  revert t. induction p as [r'|a k IH]; intros t; cbn.
  - intros [-> ->]. by exists [].
  - intros (x&t'&->&(tt&->&?)%IH). exists (Ev a x :: tt). split; [done|]. by exists x, tt.
Qed.

Lemma wp_lift {A} G (p : prog TLS.tls_answer A) h :
  (∀ h a, G h (TLSCall a)) →
  wp G (lift p) h (λ r h', ∃ tt, exec p tt r ∧ h' = h ++ (lift_ev <$> tt)).
Proof.
  intros HG. revert h. induction p as [r|a k IH]; intros h; cbn.
  - exists []. split; [done|]. by rewrite app_nil_r.
  - split; [done|]. intros x. eapply wp_wand; [apply IH|]. cbn. intros r h' (tt&?&->).
    exists (Ev a x :: tt). split; [by exists x, tt|]. by rewrite <- app_assoc.
Qed.

(** What every call of the process satisfies, if the guards of both threads only
    depend on what has happened, whoever did it. *)
Definition upward (G : boot_trace → boot_call → Prop) : Prop :=
  ∀ h h' a, (∀ ev, ev ∈ h → ev ∈ h') → G h a → G h' a.

Lemma wp_upward {R} G Q (p : boot_io R) h h' :
  upward G → (∀ r g g', (∀ ev, ev ∈ g → ev ∈ g') → Q r g → Q r g') →
  (∀ ev, ev ∈ h → ev ∈ h') → wp G p h Q → wp G p h' Q.
Proof.
  intros HG HQ. revert h h'. induction p as [r|a k IH]; intros h h' Hi; cbn; [by apply HQ|].
  intros [Ha Hk]. split; [by eapply HG|]. intros x. eapply IH, Hk.
  intros ev. rewrite !elem_of_app. intros [?|?]; auto.
Qed.

Lemma process_wp G Q p q h t e :
  upward G → (∀ r g g', (∀ ev, ev ∈ g → ev ∈ g') → Q r g → Q r g') →
  process p q t e → wp G p h Q → wp G q h (λ r _, r ≠ Exit 0) →
  (Q e (h ++ t) ∨ ∃ c, e = Exit c ∧ c ≠ 0) ∧
  ∀ t1 ev t2, t = t1 ++ ev :: t2 → G (h ++ t1) (ev_call ev).
Proof.
  intros HG HQ Hp. revert h. induction Hp as [e q|p c|a k q x t e Hp IH|a k p x t e Hp IH]; intros h Wp Wq.
  - rewrite app_nil_r. split; [by left|]. by intros [|??] ?? [=].
  - split; [right; exists c; split; [done|]; intros ->; by apply Wq|]. by intros [|??] ?? [=].
  - destruct Wp as [Ha Wk]. destruct (IH (h ++ [Ev a x])) as [H1 H2].
    + apply Wk.
    + eapply (wp_upward G (λ r _, r ≠ Exit 0)), Wq; [done|done|]. intros ev ?. hist.
    + rewrite <- app_assoc in H1. split; [done|]. intros [|e1 t1] ev t2 [= <- Heq].
      { by rewrite app_nil_r. }
      specialize (H2 _ _ _ Heq). by rewrite <- app_assoc in H2.
  - destruct Wq as [Ha Wk]. destruct (IH (h ++ [Ev a x])) as [H1 H2].
    + eapply wp_upward, Wp; [done|done|]. intros ev ?. hist.
    + apply Wk.
    + rewrite <- app_assoc in H1. split; [done|]. intros [|e1 t1] ev t2 [= <- Heq].
      { by rewrite app_nil_r. }
      specialize (H2 _ _ _ Heq). by rewrite <- app_assoc in H2.
Qed.

(** *** The image server *)

Definition happened (a : boot_call) (x : boot_answer a) (h : boot_trace) : Prop := Ev a x ∈ h.

(** The handler is registered for the directory of the options. *)
Definition handler_ready (o : ServerOptions) (h : boot_trace) : Prop :=
  happened ProcessServerEnv (Ok o) h ∧
  ∃ w, happened (HandleHTTP "/images/" (mkHandler w (Manager.server_ConfigsDir (srv_DataDir o)))) tt h.

Definition https (o : ServerOptions) : Prop := srv_HTTPSKeyFile o ≠ "" ∧ srv_HTTPSCertFile o ≠ "".

Definition server_guard (h : boot_trace) (a : boot_call) : Prop :=
  match a with
  | ListenAndServe addr => ∃ o, handler_ready o h ∧ ¬ https o ∧ addr = ":" +:+ srv_Port o
  | ListenAndServeTLS addr config cert key =>
      ∃ o res ts, handler_ready o h ∧ https o ∧ addr = ":" +:+ srv_Port o ∧
        cert = srv_HTTPSCertFile o ∧ key = srv_HTTPSKeyFile o ∧
        exec TLS.ResolveTLSConfig ts (XRet (Ok res)) ∧ (∀ ev, ev ∈ lift_ev <$> ts → ev ∈ h) ∧
        config = TLS.TLSConfig res ∧ happened (GoWatchTLS res) tt h
  | ServerShutdown => ∃ why, happened Select why h
  | ServerClose => ∃ e, happened ServerShutdown (Some e) h
  | _ => True
  end.

Lemma server_guard_upward : upward server_guard.
Proof.
  intros h h' a Hi. assert (Hr : ∀ o, handler_ready o h → handler_ready o h').
  { intros o (?&w&?). split; [by apply Hi|]. exists w. by apply Hi. }
  destruct a; cbn; try done.
  - intros (o&?&?&?). exists o. auto.
  - intros (o&res&ts&?&?&?&?&?&?&?&?&?). exists o, res, ts. unfold happened in *. split_and!; auto.
  - intros [w ?]. exists w. by apply Hi.
  - intros [w ?]. exists w. by apply Hi.
Qed.

Lemma wp_server_setup :
  wp server_guard server_setup []
    (λ s h, match s with inl e => e = Exit 1 | inr o => handler_ready o h end).
Proof.
  unfold server_setup. wp_call; [done|]. case_goal; [|done].
  wp_call; [done|]. case_goal; [done|]. wp_call; [done|]. cbn [wp prog_bind].
  split; unfold happened; [hist|]. eexists. match goal with x : boot_answer (HandleHTTP _ _) |- _ => destruct x end. hist.
Qed.

Lemma https_dec o :
  negb (bool_decide (srv_HTTPSKeyFile o = "")) && negb (bool_decide (srv_HTTPSCertFile o = "")) = true ↔ https o.
Proof. unfold https. rewrite andb_true_iff, !negb_true_iff, !bool_decide_eq_false. done. Qed.

Lemma wp_server_listen o h :
  handler_ready o h → wp server_guard (server_listen o) h (λ r _, r ≠ Exit 0).
Proof.
  intros Hr. unfold server_listen. destruct (_ && _) eqn:Hs.
  - apply https_dec in Hs. rewrite wp_bind. eapply wp_wand; [apply wp_lift; done|].
    intros res h' (ts&Hres&->). destruct res as [[res|e]|m]; [|done..].
    wp_call; [done|]. wp_call; [|by case_goal].
    assert (Hup : ∀ ev, ev ∈ h → ev ∈ (h ++ (lift_ev <$> ts)) ++ [Ev (GoWatchTLS res) x]) by (intros; hist).
    exists o, res, ts. destruct Hr as (?&w&?). unfold handler_ready, happened in *.
    split_and!; try done; [by apply Hup|exists w; by apply Hup|by intros; hist|].
    destruct x. hist.
  - wp_call; [|by case_goal]. exists o. split_and!; [done| |done].
    intros Hn%https_dec. congruence.
Qed.

(** What the main thread ends with: the listener was shut down or closed. *)
Definition listener_stopped (r : ending) (h : boot_trace) : Prop :=
  r = Exit 1 ∨ r = Returned ∧ (happened ServerShutdown None h ∨ happened ServerClose None h).

Lemma listener_stopped_upward r g g' :
  (∀ ev, ev ∈ g → ev ∈ g') → listener_stopped r g → listener_stopped r g'.
Proof. intros Hi [->|[-> [?|?]]]; [by left|right..]; (split; [done|]); [left|right]; by apply Hi. Qed.

Lemma wp_server_wait h : wp server_guard server_wait h listener_stopped.
Proof.
  unfold server_wait, listener_stopped. wp_call; [done|]. wp_call; [done|].
  wp_call; [eexists; unfold happened; hist|]. case_goal.
  - wp_call; [eexists; unfold happened; subst; hist|]. case_goal; cbn [wp]; [by left|].
    right. split; [done|]. right. unfold happened. subst. hist.
  - right. split; [done|]. left. unfold happened. subst. hist.
Qed.

(** C39: the life of the image server, however its two threads interleave and
    whatever they are answered.  It listens only after the handler for
    [/images/] was registered for the configuration directory; with HTTPS exactly
    if both the key and the certificate file are configured, and then with
    settings that were resolved before and that are being watched; the listener
    is shut down only after a signal or a change of the TLS settings, and forced
    to close only if that fails.  The process ends without an error code only
    after the listener was shut down or closed successfully. *)
Theorem server_lifecycle t e :
  server_main t e →
  (∀ t1 ev t2, t = t1 ++ ev :: t2 → server_guard t1 (ev_call ev)) ∧
  (e = Returned ∨ e = Exit 0 → happened ServerShutdown None t ∨ happened ServerClose None t).
Proof.
  intros (t1&s&Hs&Ht). destruct (wp_exec _ _ [] _ _ _ wp_server_setup Hs) as [Hs' Hg]. cbn in Hs', Hg.
  destruct s as [e'|o].
  { destruct Ht as [-> ->]. rewrite Hs'. split; [done|]. by intros [[=]|[=]]. }
  destruct Ht as (t2&Hp&->).
  destruct (process_wp server_guard listener_stopped _ _ t1 _ _ server_guard_upward
    listener_stopped_upward Hp (wp_server_wait t1) (wp_server_listen o t1 Hs'))
    as [He Hg2].
  split.
  - intros l1 ev l2 Heq. apply app_eq_app in Heq as (l&[[-> Hl]|[-> Hl]]).
    + destruct l as [|ev' l]; cbn in Hl.
      * specialize (Hg2 [] ev l2 (eq_sym Hl)). by rewrite !app_nil_r in Hg2.
      * injection Hl as -> ->. by eapply Hg.
    + by eapply Hg2.
  - intros Hend. destruct He as [[->|[_ ?]]|(c&->&?)]; [by destruct Hend as [[=]|[=]]|done|].
    by destruct Hend as [[=]|[= ->]].
Qed.

(** *** The manager *)

(** What has happened when the manager is started: in this order, and each step
    successfully. *)
Definition wired (probeAddr : string) (leader : bool) (res : TLS.TLSConfigResult)
    (opts : Reconciler.Options) (base : string) : boot_trace :=
  [ Ev (NewManager (mkManagerOptions probeAddr leader (TLS.TLSConfig res))) None;
    Ev ProcessManagerEnv (Ok opts);
    Ev (IndexField ".spec.bareMetalHostRef.name") None;
    Ev (IndexField ".spec.bareMetalHostRef.namespace") None;
    Ev (Register (ImageClusterInstallReconciler (set_BaseURL base opts) ["BareMetalHost"; "ClusterDeployment"])) None;
    Ev (Register (ImageClusterInstallMonitor opts Hour)) None;
    Ev (Register (SecurityProfileWatcher (TLS.TLSAdherencePolicy res) (TLS.TLSProfile res))) None;
    Ev (Register ImageClusterInstallWebhook) None;
    Ev AddHealthzCheck None;
    Ev AddReadyzCheck None;
    Ev GoEnqueueExisting tt ].

Definition not_started (t : boot_trace) : Prop := ∀ x, Ev MgrStart x ∉ t.

Lemma not_started_cons a x t : a ≠ MgrStart → not_started t → not_started (Ev a x :: t).
Proof. intros Ha Ht y [[= ? _]|?]%elem_of_cons; [done|by eapply Ht]. Qed.
Lemma not_started_nil : not_started [].
Proof. intros x H%elem_of_nil. done. Qed.
Lemma not_started_lift ts t : not_started t → not_started ((lift_ev <$> ts) ++ t).
Proof. intros. induction ts as [|[a x] ts IH]; [done|]. cbn. by apply not_started_cons. Qed.

(** A step of the set-up that fails, and one that reports an error or succeeds. *)
Ltac setup_failed He :=
  left; destruct He as [-> ->]; split; [done|];
  repeat (apply not_started_cons; [done|]); apply not_started_nil.
Ltac setup_step He :=
  destruct He as ([?|]&?&->&He); cbn [prog_bind perform] in He; [setup_failed He|].

(** C40: the manager runs only fully wired.  Every run of its [main] either ends
    with an error code (2 only if the TLS library panicked on the resolved
    profile) without having started the manager, or it resolved the TLS
    settings, gave them to the webhook server and to the TLS watcher, indexed both
    host fields, registered both controllers with the options of the environment
    (the reconciler with the base URL that [serviceURL] computes from them), the
    webhook and the health checks, sent off the requeueing of existing objects,
    all without error and in this order, and started the manager as its last
    call, whose error decides the exit code. *)
Theorem manager_starts_wired probeAddr leader pprof t e :
  exec (manager_main probeAddr leader pprof) t e →
  ((e = Exit 1 ∨ e = Exit 2 ∧ ∃ ts m, exec TLS.ResolveTLSConfig ts (XPanic m) ∧
        t = (if pprof then [Ev GoStartPPROF tt] else []) ++ (lift_ev <$> ts)) ∧ ∀ x, Ev MgrStart x ∉ t) ∨
  ∃ ts res opts base x,
    exec TLS.ResolveTLSConfig ts (XRet (Ok res)) ∧ Manager.serviceURL opts = Ok base ∧
    t = (if pprof then [Ev GoStartPPROF tt] else []) ++ (lift_ev <$> ts) ++
        wired probeAddr leader res opts base ++ [Ev MgrStart x] ∧
    e = match x with None => Returned | Some _ => Exit 1 end.
Proof.
  intros (t0&t1&[]&->&Hp&He)%prog_bind_assoc_exec.
  assert (Ht0 : t0 = if pprof then [Ev GoStartPPROF tt] else []).
  { destruct pprof; cbn in Hp; [|by destruct Hp]. destruct Hp as ([]&?&->&->&_). done. }
  assert (Hn : ∀ t, not_started t → not_started (t0 ++ t)).
  { intros t' ?. rewrite Ht0. destruct pprof; [by apply not_started_cons|done]. }
  apply prog_bind_assoc_exec in He as (?&t2&res&->&(ts&->&Hres)%exec_lift&He).
  destruct res as [[res|e1]|m].
  2:{ destruct He as [-> ->]. left. split; [by left|]. apply Hn, not_started_lift, not_started_nil. }
  2:{ destruct He as [-> ->]. left. split; [right; split; [done|exists ts, m; by rewrite app_nil_r, Ht0]|].
      apply Hn, not_started_lift, not_started_nil. }
  enough ((e = Exit 1 ∧ not_started t2) ∨ ∃ opts base x, Manager.serviceURL opts = Ok base ∧
            t2 = wired probeAddr leader res opts base ++ [Ev MgrStart x] ∧
            e = match x with None => Returned | Some _ => Exit 1 end) as [[-> Hs]|(opts&base&x&?&->&->)].
  { left. split; [by left|]. by apply Hn, not_started_lift. }
  { right. exists ts, res, opts, base, x. by rewrite Ht0. }
  clear -He. unfold SetupReconciler, addIndexforBaremetalHostRef in He. cbn [prog_bind perform] in He.
  setup_step He. destruct He as ([opts|]&?&->&He); [|setup_failed He].
  destruct (Manager.serviceURL opts) as [base|] eqn:Hb; cbn [prog_bind perform] in He; [|setup_failed He].
  do 8 setup_step He. destruct He as ([]&?&->&He), He as (y&?&->&He). cbn [prog_bind perform] in He.
  right. exists opts, base, y. destruct y; by destruct He as [-> ->].
Qed.
End startup.

(** *** A start that succeeds *)

Definition stub_tls_answer (a : TLS.tls_call) : TLS.tls_answer (L := TLS.StubTLS) a :=
  match a return TLS.tls_answer (L := TLS.StubTLS) a with
  | TLS.AddToScheme | TLS.NewClient => None
  | TLS.FetchAPIServerTLSAdherencePolicy => Ok ""
  | TLS.FetchAPIServerTLSProfile => Ok (TLS.mkTLSProfileSpec None "VersionTLS13")
  | TLS.WatchAPIServers => Ok []
  end.
Definition server_options : ServerOptions := mkServerOptions "/data" "8000" "" "".
Definition stub_answer (a : boot_call (L := TLS.StubTLS)) : boot_answer a :=
  match a return boot_answer a with
  | TLSCall c => stub_tls_answer c
  | NewManager _ | IndexField _ | Register _ | AddHealthzCheck | AddReadyzCheck | MgrStart
  | MkdirAll _ | ServerShutdown | ServerClose => None
  | ProcessManagerEnv => Ok Reconciler.opts0
  | ProcessServerEnv => Ok server_options
  | GoStartPPROF | GoEnqueueExisting | HandleHTTP _ _ | GoWatchTLS _ | WatchCancel => tt
  | ListenAndServe _ | ListenAndServeTLS _ _ _ _ => ErrServerClosed
  | Select => Signal
  end.
Definition stub_handle (a : boot_call (L := TLS.StubTLS)) (w : unit) : boot_answer a * unit :=
  (stub_answer a, w).

Lemma manager_starts_wired_witness :
  ∃ t, exec (manager_main (L := TLS.StubTLS) ":8081" true false) t Returned ∧
    ∃ opts base, Manager.serviceURL opts = Ok base ∧
      Ev (Register (L := TLS.StubTLS) (ImageClusterInstallReconciler (set_BaseURL base opts)
            ["BareMetalHost"; "ClusterDeployment"])) None ∈ t.
Proof.
  set (p := manager_main (L := TLS.StubTLS) ":8081" true false).
  pose proof (exec_run stub_handle p tt) as Hx.
  assert (Hr : (run stub_handle p tt).1.2 = Returned) by (vm_compute; reflexivity). rewrite Hr in Hx.
  eexists. split; [exact Hx|].
  destruct (manager_starts_wired (L := TLS.StubTLS) ":8081" true false _ _ Hx)
    as [[[[=]|[[=] _]] _]|(ts&res&opts&base&x&_&Hb&Ht&_)].
  exists opts, base. split; [exact Hb|]. rewrite Ht. cbn [app]. apply elem_of_app. right.
  unfold wired. hist.
Defined.

Lemma server_lifecycle_witness :
  ∃ t, server_main (L := TLS.StubTLS) t Returned ∧
    (happened ServerShutdown None t ∨ happened ServerClose None t).
Proof.
  assert (Hs : ∃ t1, exec (server_setup (L := TLS.StubTLS)) t1 (inr server_options)).
  { pose proof (exec_run stub_handle (server_setup (L := TLS.StubTLS)) tt) as Hx.
    assert (Hr : (run stub_handle (server_setup (L := TLS.StubTLS)) tt).1.2 = inr server_options)
      by (vm_compute; reflexivity).
    rewrite Hr in Hx. eexists. exact Hx. }
  destruct Hs as [t1 Hs].
  assert (Hm : server_main (L := TLS.StubTLS)
    (t1 ++ [Ev (ListenAndServe ":8000") ErrServerClosed; Ev Select Signal; Ev WatchCancel tt; Ev ServerShutdown None]) Returned).
  { exists t1, (inr server_options). split; [exact Hs|]. eexists. split; [|reflexivity].
    eapply (process_go (ListenAndServe ":8000")). do 3 eapply process_main. eapply process_end. }
  eexists. split; [exact Hm|]. exact (proj2 (server_lifecycle (L := TLS.StubTLS) _ _ Hm) (or_introl eq_refl)).
Defined.
End Startup.
