(* ===== verification/System.v ===== *)
(** * The running system: both controllers over one API server

    Any number of runs of the two controllers, and the user, interleave call by
    call over the stored ImageClusterInstalls.  Reads may be stale, requests may
    fail before or after they took effect, runs may be abandoned at any point.
    Everything else the controllers call answers arbitrarily.

    What is assumed of the API server is [api_answer]: a read returns some stored
    version of the object; a patch of the main resource leaves the status alone;
    a patch of the status resource is the JSON merge patch that
    [client.MergeFrom] computes, which sends a list as a whole if it differs. *)
From stdpp Require Import base gmap strings list.
From Stdlib Require Import ZArith Lia.
From S2P Require Import Prelude Types World GoStd Libs Conditions Common InputData Host Reconciler SpokeStatus Monitor Sim.
Local Open Scope go_scope.

Module System.

(** ** The API server *)

Definition key_of (i : ImageClusterInstall) : NamespacedName := meta_key (ici_Meta i).
Definition conditions_of (i : ImageClusterInstall) : list Condition := Conditions (ici_Status i).
Definition boot_of (i : ImageClusterInstall) : time := BootTime (ici_Status i).

(** The objects as they are stored now, and every version that was ever stored. *)
Record api := mkAPI { current : list ImageClusterInstall; seen : list ImageClusterInstall }.

Definition other_key (k : NamespacedName) (i : ImageClusterInstall) : bool :=
  negb (bool_decide (key_of i = k)).
Definition put (i : ImageClusterInstall) (s : api) : api :=
  mkAPI (i :: filter (λ j, other_key (key_of i) j = true) (current s)) (i :: seen s).
Definition drop_key (k : NamespacedName) (s : api) : api :=
  mkAPI (filter (λ j, other_key k j = true) (current s)) (seen s).

(** Conditions survive serialization up to their time stamps. *)
Definition same_condition (c d : Condition) : Prop :=
  c_Type c = c_Type d ∧ c_Status c = c_Status d ∧ c_Reason c = c_Reason d ∧ c_Message c = c_Message d.

(** The merge patch from [p] to [n], applied to the status of [cur]: what the
    patch changes comes from [n], the rest stays. *)
Definition status_patched (p n cur new : ImageClusterInstall) : Prop :=
  key_of new = key_of cur ∧ om_UID (ici_Meta new) = om_UID (ici_Meta cur) ∧
  Forall2 same_condition (conditions_of new)
    (if decide (conditions_of p = conditions_of n) then conditions_of cur else conditions_of n) ∧
  (boot_of p = boot_of n → boot_of new = boot_of cur).

(** A patch of the main resource. *)
Definition main_patched (cur new : ImageClusterInstall) : Prop :=
  key_of new = key_of cur ∧ om_UID (ici_Meta new) = om_UID (ici_Meta cur) ∧
  conditions_of new = conditions_of cur ∧ boot_of new = boot_of cur.

Definition concerns_ici (a : call) : bool :=
  match a with
  | GetICI _ | ListICI _ | PatchICI _ _ | StatusPatchICI _ _ | StatusUpdateICI _ => true
  | _ => false
  end.

(** The patch that a call sends, as a relation between stored versions. *)
Definition patches (a : call) (cur new : ImageClusterInstall) : Prop :=
  match a with
  | PatchICI p n => key_of cur = key_of p ∧ main_patched cur new
  | StatusPatchICI p n => key_of cur = key_of p ∧ status_patched p n cur new
  | _ => False
  end.

(** The answer of a patch request is the new version. *)
Definition patch_answer (a : call) : option (result ImageClusterInstall → answer a) :=
  match a return option (result ImageClusterInstall → answer a) with
  | PatchICI _ _ | StatusPatchICI _ _ => Some id
  | _ => None
  end.

Inductive api_answer (s : api) : ∀ a : call, answer a → api → Prop :=
| answer_get k i : i ∈ seen s → key_of i = k → api_answer s (GetICI k) (Ok i) s
| answer_get_error k e : api_answer s (GetICI k) (Err e) s
| answer_list f l : (∀ i, i ∈ l → i ∈ seen s) → api_answer s (ListICI f) (Ok l) s
| answer_list_error f e : api_answer s (ListICI f) (Err e) s
| answer_patch a f cur new :
    patch_answer a = Some f → cur ∈ current s → patches a cur new → api_answer s a (f (Ok new)) (put new s)
| answer_patch_lost a f cur new e :
    patch_answer a = Some f → cur ∈ current s → patches a cur new → api_answer s a (f (Err e)) (put new s)
| answer_patch_error a f e : patch_answer a = Some f → api_answer s a (f (Err e)) s
| answer_other a x : concerns_ici a = false → api_answer s a x s.

(** ** Runs and steps *)

Inductive controller := ReconcilerRun | MonitorRun.

Section system.
Context `{L : GoLibs} (o : Reconciler.Options).

(** The monitor as [main] sets it up. *)
Definition monitor_reconcile (req : NamespacedName) : io (xres (result Result)) :=
  Monitor.MonitorReconcile SpokeStatus.GetClusterInstallStatus Hour req.

Definition program (by_ : controller) (req : NamespacedName) : io unit :=
  match by_ with
  | ReconcilerRun => let* _ := Reconciler.Reconcile o req in Ret tt
  | MonitorRun => let* _ := monitor_reconcile req in Ret tt
  end.

(** A run: who runs for which object, what it has done, and what is left. *)
Record thread := mkThread {
  th_by : controller;
  th_req : NamespacedName;
  th_hist : trace;
  th_rem : io unit;
}.
Record system := mkSystem { sys_api : api; sys_threads : list thread }.

Definition sys0 : system := mkSystem (mkAPI [] []) [].

(** What happens besides the calls of the runs. *)
Inductive env_step : system → system → Prop :=
| step_start s ths by_ req :
    env_step (mkSystem s ths) (mkSystem s (ths ++ [mkThread by_ req [] (program by_ req)]))
(* a user creates an object, whose status starts out empty, or changes one *)
| step_create s ths i :
    conditions_of i = [] → boot_of i = 0%Z → Forall (λ j, other_key (key_of i) j = true) (current s) →
    env_step (mkSystem s ths) (mkSystem (put i s) ths)
| step_update s ths cur new :
    cur ∈ current s → main_patched cur new → env_step (mkSystem s ths) (mkSystem (put new s) ths)
| step_remove s ths k : env_step (mkSystem s ths) (mkSystem (drop_key k s) ths)
(* a stored version is restored from a backup, with its status *)
| step_restore s ths v i :
    v ∈ seen s → key_of i = key_of v → conditions_of i = conditions_of v → boot_of i = boot_of v →
    env_step (mkSystem s ths) (mkSystem (put i s) ths).

Inductive sys_step : system → system → Prop :=
| step_call s s' ths1 ths2 by_ req h a k x :
    api_answer s a x s' →
    sys_step (mkSystem s (ths1 ++ mkThread by_ req h (Act a k) :: ths2))
             (mkSystem s' (ths1 ++ mkThread by_ req (h ++ [Ev a x]) (k x) :: ths2))
| step_env st st' : env_step st st' → sys_step st st'.

Inductive reachable : system → Prop :=
| reachable_init : reachable sys0
| reachable_step s s' : reachable s → sys_step s s' → reachable s'.

(** ** Properties *)

(** A run of [by_] for [k] has the history [h]. *)
Definition did (st : system) (by_ : controller) (k : NamespacedName) (h : trace) : Prop :=
  ∃ rem, mkThread by_ k h rem ∈ sys_threads st.

(** A run of the reconciler for the object built its image and stored its
    secrets, saw the DataImage of its host settled, and started that host. *)
Definition booted_by (st : system) (k : NamespacedName) : Prop :=
  ∃ h ici cd b d, did st ReconcilerRun k h ∧ key_of ici = k ∧
    InputData.image_ready (Reconciler.DataDir o) ici cd h ∧ host_known b h ∧ Host.host_started b h ∧
    Host.image_settled (meta_key (bmh_Meta b)) (Reconciler.DataImageCoolDownPeriod o) d h.

(** A run of the monitor for the object saw its host powered on, learned from its
    spoke cluster that it is installed, and withdrew the DataImage. *)
Definition installed_by (st : system) (k : NamespacedName) : Prop :=
  ∃ h i b, did st MonitorRun k h ∧ key_of i = k ∧
    Monitor.spoke_installed SpokeStatus.GetClusterInstallStatus i h ∧
    Monitor.powered_on i b h ∧ Monitor.image_withdrawn (meta_key (bmh_Meta b)) h.

(** What a stored version may say. *)
Definition sound (st : system) (v : ImageClusterInstall) : Prop :=
  Conditions.wf_conditions (conditions_of v) ∧
  ¬ (claims ClusterInstallCompleted v ∧ claims ClusterInstallFailed v) ∧
  (boot_of v ≠ 0%Z → booted_by st (key_of v)) ∧
  (claims ClusterInstallCompleted v → installed_by st (key_of v) ∧ booted_by st (key_of v)).

(** Runs only ever add to their histories. *)
Definition extends (st st' : system) : Prop :=
  ∀ by_ k h, did st by_ k h → ∃ t, did st' by_ k (h ++ t).

#[local] Instance extends_preorder : PreOrder extends.
Proof.
  split; [intros st by_ k h ?; exists []; by rewrite app_nil_r|].
  intros s1 s2 s3 H12 H23 by_ k h (t&H)%H12. apply H23 in H as (t'&?).
  exists (t ++ t'). by rewrite app_assoc.
Qed.

Lemma booted_by_extends st st' k : extends st st' → booted_by st k → booted_by st' k.
Proof.
  intros Hx (h&ici&cd&b&d&(t&?)%Hx&?&?&?&?&?). exists (h ++ t), ici, cd, b, d.
  split_and!; [done..|by apply InputData.image_ready_app|by apply host_known_app|by apply Host.host_started_app|by apply Host.image_settled_app].
Qed.

Lemma installed_by_extends st st' k : extends st st' → installed_by st k → installed_by st' k.
Proof.
  intros Hx (h&i&b&(t&?)%Hx&?&?&?&?). exists (h ++ t), i, b.
  split_and!; [done..|by apply Monitor.spoke_installed_app|by apply Monitor.powered_on_app|by apply Monitor.image_withdrawn_app].
Qed.

Lemma sound_extends st st' v : extends st st' → sound st v → sound st' v.
Proof.
  intros Hx (?&?&Hb&Hc). split_and!; [done..| |].
  - intros Hv%Hb. by eapply booted_by_extends.
  - intros [? ?]%Hc. split; [by eapply installed_by_extends|by eapply booted_by_extends].
Qed.

(** Soundness only depends on the key, the boot time and the conditions. *)
Lemma claims_conditions ty i j : conditions_of i = conditions_of j → claims ty i → claims ty j.
Proof. unfold claims, conditions_of. by intros ->. Qed.

Lemma sound_same st v v' :
  key_of v' = key_of v → conditions_of v' = conditions_of v → boot_of v' = boot_of v →
  sound st v → sound st v'.
Proof.
  intros Hk Hc Hb (Hwf&Hcf&Hboot&Hcomp). unfold sound. rewrite Hk, Hc, Hb.
  split_and!; [done| |done|].
  - intros [??]. apply Hcf. split; by eapply claims_conditions.
  - intros ?. apply Hcomp. by eapply claims_conditions.
Qed.

Lemma sound_new st i : conditions_of i = [] → boot_of i = 0%Z → sound st i.
Proof.
  intros Hc Hb. assert (Hno : ∀ ty, ¬ claims ty i).
  { intros ty (c&Hin&_). unfold conditions_of in Hc. rewrite Hc in Hin. by apply not_elem_of_nil in Hin. }
  split_and!; [rewrite Hc; apply NoDup_nil_2|by intros [Hn%Hno _]|by rewrite Hb|by intros ?%Hno].
Qed.

(** Serialization keeps claims and the shape of a list. *)
Lemma same_conditions_claims ty i j :
  Forall2 same_condition (conditions_of i) (conditions_of j) → claims ty i → claims ty j.
Proof.
  intros HF (c&Hc&?&?). apply list_elem_of_lookup in Hc as [n Hn].
  destruct (Forall2_lookup_l _ _ _ _ _ HF Hn) as (d&Hd&?&?&_).
  exists d. split; [by eapply list_elem_of_lookup_2|split; congruence].
Qed.

Lemma same_conditions_wf cs ds :
  Forall2 same_condition cs ds → Conditions.wf_conditions ds → Conditions.wf_conditions cs.
Proof.
  intros HF. unfold Conditions.wf_conditions. assert (c_Type <$> cs = c_Type <$> ds) as ->; [|done].
  induction HF as [|c d cs ds [? _] _ IH]; [done|]. csimpl. by f_equal.
Qed.

(** A status patch whose target claims nothing unsound. *)
Lemma patched_sound st p n cur new :
  status_patched p n cur new → sound st cur → key_of cur = key_of p →
  (boot_of n = boot_of p ∨ booted_by st (key_of p)) →
  Conditions.wf_conditions (conditions_of n) →
  ¬ (claims ClusterInstallCompleted n ∧ claims ClusterInstallFailed n) →
  (claims ClusterInstallCompleted n → installed_by st (key_of p) ∧ booted_by st (key_of p)) →
  sound st new.
Proof.
  intros (Hk&_&Hcs&Hboot) (Hwf&Hcf&Hb&Hc) Hkey Hbn Hwf' Hcf' Hc'. unfold sound. rewrite Hk, Hkey.
  rewrite Hkey in Hb, Hc.
  assert (Hbooted : boot_of new ≠ 0%Z → booted_by st (key_of p)).
  { destruct Hbn as [Hbn|?]; [|done]. by rewrite Hboot. }
  destruct (decide _).
  - split_and!; [by eapply same_conditions_wf| |done|].
    + intros [??]. apply Hcf. split; by eapply same_conditions_claims.
    + intros ?. apply Hc. by eapply same_conditions_claims.
  - split_and!; [by eapply same_conditions_wf| |done|].
    + intros [??]. apply Hcf'. split; by eapply same_conditions_claims.
    + intros ?. apply Hc'. by eapply same_conditions_claims.
Qed.

(** *** The invariant *)

(** The guard of the calls of a run. *)
Definition run_may (by_ : controller) (req : NamespacedName) : trace → call → Prop :=
  match by_ with
  | ReconcilerRun => Reconciler.run_guard o req
  | MonitorRun => Monitor.monitor_run_guard SpokeStatus.GetClusterInstallStatus Hour req
  end.

(** The stored versions a run relies on. *)
Definition held (by_ : controller) (h : trace) (j : ImageClusterInstall) : Prop :=
  match by_ with
  | ReconcilerRun => ∃ ev, ev ∈ h ∧ ici_answer ev = Some j
  | MonitorRun => ∃ k h', h = Ev (GetICI k) (Ok j) :: h'
  end.

Definition thread_ok (s : api) (th : thread) : Prop :=
  wp (run_may (th_by th) (th_req th)) (th_rem th) (th_hist th) (λ _ _, True) ∧
  ∀ j, held (th_by th) (th_hist th) j → j ∈ seen s ∧ key_of j = th_req th.

Definition invariant (st : system) : Prop :=
  (∀ v, v ∈ current (sys_api st) → v ∈ seen (sys_api st)) ∧
  (∀ v, v ∈ seen (sys_api st) → sound st v) ∧
  (∀ th, th ∈ sys_threads st → thread_ok (sys_api st) th).

Lemma program_ok by_ req : wp (run_may by_ req) (program by_ req) [] (λ _ _, True).
Proof.
  destruct by_; cbn [program run_may]; rewrite wp_bind.
  - eapply wp_wand; [apply Reconciler.wp_Reconcile|done].
  - eapply wp_wand; [apply Monitor.wp_MonitorReconcile, SpokeStatus.GetClusterInstallStatus_reads|done].
Qed.

(** What a run of the reconciler knows was stored. *)
Lemma known_stored s th i :
  thread_ok s th → th_by th = ReconcilerRun → known i (th_hist th) →
  ∃ j, j ∈ seen s ∧ key_of j = th_req th ∧ similar i j.
Proof.
  intros [_ Hheld] Hby (j&ev&?&?&?). destruct (Hheld j) as [??]; [|by exists j].
  rewrite Hby. by exists ev.
Qed.

Lemma attached_booted s ths th :
  thread_ok s th → th_by th = ReconcilerRun → th ∈ ths →
  Reconciler.attached o (th_hist th) → booted_by (mkSystem s ths) (th_req th).
Proof.
  intros Hok Hby Hin ((i&cd&Hk&Hready)&b&d&?&?&?).
  destruct (known_stored s th i) as (j&_&Hj&Hsim&_); [done..|].
  exists (th_hist th), i, cd, b, d. split_and!; try done.
  - exists (th_rem th). destruct th. simpl in *. by subst.
  - by rewrite <- Hj.
Qed.

(** The status patches of the two controllers write sound versions. *)
Lemma reconciler_patch_sound s ths th p n cur new :
  th ∈ ths → th_by th = ReconcilerRun → thread_ok s th →
  (∀ v, v ∈ seen s → sound (mkSystem s ths) v) →
  Reconciler.run_guard o (th_req th) (th_hist th) (StatusPatchICI p n) →
  cur ∈ seen s → key_of cur = key_of p → status_patched p n cur new → sound (mkSystem s ths) new.
Proof.
  intros Hin Hby Hok Hsound Hg Hcur Hkey Hpatch. apply Reconciler.run_guard_ici in Hg as [Hp [i Hst]].
  destruct (known_stored s th p) as (j&Hj&Hkj&Hsim); [done..|].
  assert (Hkp : key_of p = th_req th) by (rewrite <- Hkj; apply Hsim).
  apply Reconciler.status_patch_similar in Hst as [Hnp Hboot].
  assert (Hnj : similar n j) by (by etrans). destruct Hnj as (_&_&_&Hcl&Hwf).
  destruct (Hsound j Hj) as (Hwfj&Hcfj&_&Hcj). rewrite Hkj in Hcj.
  eapply patched_sound; [done|by apply Hsound|done| |by apply Hwf| |].
  - destruct Hboot as [?|?]; [by left|right]. rewrite Hkp. by apply attached_booted.
  - intros [?%Hcl ?%Hcl]; [|done..]. by apply Hcfj.
  - rewrite Hkp. intros ?%Hcl; [|done]. by apply Hcj.
Qed.

Lemma monitor_patch_sound s ths th p n cur new :
  th ∈ ths → th_by th = MonitorRun → thread_ok s th →
  (∀ v, v ∈ seen s → sound (mkSystem s ths) v) →
  Monitor.monitor_run_guard SpokeStatus.GetClusterInstallStatus Hour (th_req th) (th_hist th) (StatusPatchICI p n) →
  cur ∈ seen s → key_of cur = key_of p → status_patched p n cur new → sound (mkSystem s ths) new.
Proof.
  intros Hin Hby [_ Hheld] Hsound [[=]|(i&h'&Hh&Hbi&_&->&Hw)] Hcur Hkey Hpatch.
  rewrite Hby in Hheld. destruct (Hheld i) as [Hi Hki]; [by exists (th_req th), h'|].
  destruct (Hsound i Hi) as (Hwfi&_&Hbooted&_). apply Hbooted in Hbi as Hbi'. rewrite Hki in Hbi'.
  assert (Hany : ∃ pr, Conditions.progress_written pr i n ∧ (pr = Conditions.Succeeded →
    installed_by (mkSystem s ths) (key_of i))).
  { destruct Hw as [[m ?]|[(d&now&_&_&?)|(?&Hspoke&b&?&?)]]; [by eexists..|]. exists Conditions.Succeeded.
    split; [done|]. intros _. exists (th_hist th), i, b. split_and!; try done.
    exists (th_rem th). destruct th. simpl in *. by subst. }
  destruct Hany as (pr&Hwr&Hinst). destruct (Conditions.progress_written_claims _ _ _ Hwfi Hwr) as (?&?&Hcomp).
  eapply patched_sound; [done|by apply Hsound|done|left|done|done|].
  - unfold Conditions.progress_written in Hwr. destruct (Conditions.progress_report pr) as [[??]?].
    by destruct Hwr as (cs&->&_).
  - intros ->%Hcomp. split; [auto|]. by rewrite Hki.
Qed.

(** The API server only ever adds to the versions that were stored, and what it
    adds is sound. *)
Definition grows (st : system) (s' : api) : Prop :=
  (∀ v, v ∈ seen (sys_api st) → v ∈ seen s') ∧ (∀ v, v ∈ current s' → v ∈ seen s') ∧
  (∀ v, v ∈ seen s' → sound st v).

Lemma grows_refl s ths : invariant (mkSystem s ths) → grows (mkSystem s ths) s.
Proof. by intros (?&?&_). Qed.

Lemma grows_put s ths i :
  invariant (mkSystem s ths) → sound (mkSystem s ths) i → grows (mkSystem s ths) (put i s).
Proof.
  intros (Hc&Hs&_) Hi. split_and!; simpl.
  - intros v ?. by right.
  - intros v [->|[_ Hv]%list_elem_of_filter]%elem_of_cons; [by left|right; by apply Hc].
  - intros v [->|?]%elem_of_cons; [done|by apply Hs].
Qed.

Lemma grows_drop_key s ths k : invariant (mkSystem s ths) → grows (mkSystem s ths) (drop_key k s).
Proof. intros (Hc&Hs&_). split_and!; [done| |done]. intros v [_ Hv]%list_elem_of_filter. by apply Hc. Qed.

Lemma thread_ok_grows st s' th : grows st s' → thread_ok (sys_api st) th → thread_ok s' th.
Proof. intros (Hs&_) [? Hh]. split; [done|]. intros j [??]%Hh. split; [by apply Hs|done]. Qed.

(** A step that moves the API server only. *)
Lemma invariant_grows s s' ths :
  invariant (mkSystem s ths) → grows (mkSystem s ths) s' → invariant (mkSystem s' ths).
Proof.
  intros (_&_&Ht) Hg. pose proof Hg as (_&?&Hs). split_and!; [done|exact Hs|].
  intros th ?%Ht. by eapply thread_ok_grows.
Qed.

Lemma patches_sound s ths th a cur new :
  invariant (mkSystem s ths) → th ∈ ths → run_may (th_by th) (th_req th) (th_hist th) a →
  cur ∈ current s → patches a cur new → sound (mkSystem s ths) new.
Proof.
  intros (Hc&Hs&Ht) Hin Hmay Hcur Hp. simpl in *. specialize (Hc _ Hcur). pose proof (Ht _ Hin) as Hok.
  destruct a; try done; destruct Hp as [Hkey Hp].
  - destruct Hp as (?&_&?&?). eapply sound_same; [done..|by apply Hs].
  - destruct (th_by th) eqn:Hby; [by eapply reconciler_patch_sound|by eapply monitor_patch_sound].
Qed.

Lemma call_grows s s' ths th a x :
  invariant (mkSystem s ths) → th ∈ ths → run_may (th_by th) (th_req th) (th_hist th) a →
  api_answer s a x s' → grows (mkSystem s ths) s'.
Proof.
  intros Hinv Hin Hmay Ha. destruct Ha; try by apply grows_refl.
  all: apply grows_put; [done|by eapply patches_sound].
Qed.

(** The object decoded from an answer. *)
Lemma answer_decoded s a x s' j :
  api_answer s a x s' → ici_answer (Ev a x) = Some j →
  j ∈ seen s' ∧ match a with
                | GetICI k => key_of j = k
                | PatchICI p _ | StatusPatchICI p _ => key_of j = key_of p
                | _ => False
                end.
Proof.
  intros Ha Hj. destruct Ha; simpl in Hj; simplify_eq; [done|..].
  - destruct a; simplify_eq/=; (split; [apply list_elem_of_here|]); destruct H1 as [<- (?&_)]; done.
  - by destruct a; simplify_eq/=.
  - by destruct a; simplify_eq/=.
  - by destruct a.
Qed.

(** What a run holds after one more call. *)
Lemma held_call s s' th a x j :
  thread_ok s th → run_may (th_by th) (th_req th) (th_hist th) a → api_answer s a x s' →
  held (th_by th) (th_hist th ++ [Ev a x]) j →
  held (th_by th) (th_hist th) j ∨ (j ∈ seen s' ∧ key_of j = th_req th).
Proof.
  intros Hok Hmay Ha Hj. destruct (th_by th) eqn:Hby; simpl in Hmay, Hj |- *.
  - destruct Hj as (ev&[Hev|Hev%list_elem_of_singleton]%elem_of_app&Hdec); [left; by exists ev|right].
    subst ev. apply Reconciler.run_guard_ici in Hmay. destruct (answer_decoded _ _ _ _ _ Ha Hdec) as [Hin Hkey].
    split; [done|]. destruct a; try done.
    + rewrite Hkey. apply Hmay.
    + destruct (known_stored s th orig) as (i&_&Hi&[Hs _]); [done..|]. unfold key_of in *. congruence.
    + destruct Hmay as [Hmay _].
      destruct (known_stored s th orig) as (i&_&Hi&[Hs _]); [done..|]. unfold key_of in *. congruence.
  - destruct Hj as (k&h'&Hj). destruct (th_hist th) as [|ev h] eqn:Hh; [right|].
    2:{ left. exists k, h. injection Hj as -> _. done. }
    destruct Hmay as [->|(?&?&[=]&_)]. apply (f_equal (fmap ici_answer)) in Hj. injection Hj as Hdec _.
    by apply (answer_decoded _ _ _ _ _ Ha).
Qed.

Lemma extends_call s s' ths1 ths2 by_ req h a k x :
  extends (mkSystem s (ths1 ++ mkThread by_ req h (Act a k) :: ths2))
          (mkSystem s' (ths1 ++ mkThread by_ req (h ++ [Ev a x]) (k x) :: ths2)).
Proof.
  intros b q g (rem&Hin). apply elem_of_app in Hin as [Hin|[Hth|Hin]%elem_of_cons].
  - exists []. rewrite app_nil_r. exists rem. apply elem_of_app. by left.
  - injection Hth as -> -> -> _. exists [Ev a x], (k x). apply elem_of_app. right. left.
  - exists []. rewrite app_nil_r. exists rem. apply elem_of_app. right. by right.
Qed.

Lemma invariant_env st st' : invariant st → env_step st st' → invariant st'.
Proof.
  intros Hinv Hstep. destruct Hstep as [s ths by_ req|s ths i Hc Hb _|s ths cur new Hcur (?&_&?&?)|s ths key|s ths v i Hv ???].
  - destruct Hinv as (Hc&Hs&Ht). split_and!; [done| |].
    + intros v Hv. eapply sound_extends; [|by apply Hs]. intros b q g (rem&?).
      exists []. rewrite app_nil_r. exists rem. apply elem_of_app. by left.
    + intros th [?|Hth%list_elem_of_singleton]%elem_of_app; [by apply Ht|]. subst th.
      split; [apply program_ok|]. intros j. destruct by_; simpl; [by intros (?&?%not_elem_of_nil&_)|by intros (?&?&[=])].
  - by apply invariant_grows with s, grows_put, sound_new.
  - destruct Hinv as (Hc&Hs&Ht). apply invariant_grows with s, grows_put; [done..|].
    eapply sound_same; [done..|]. by apply Hs, Hc.
  - by apply invariant_grows with s, grows_drop_key.
  - apply invariant_grows with s, grows_put; [done..|]. eapply sound_same; [done..|]. by apply Hinv.
Qed.

Lemma invariant_step st st' : invariant st → sys_step st st' → invariant st'.
Proof.
  intros Hinv Hstep. destruct Hstep as [s s' ths1 ths2 by_ req h a k x Ha|st st' Hstep]; [|by eapply invariant_env].
  set (th := mkThread by_ req h (Act a k)) in *.
  assert (Hin : th ∈ ths1 ++ th :: ths2) by (apply elem_of_app; right; left).
  pose proof Hinv as (_&_&Ht). pose proof (Ht _ Hin) as Hok. destruct Hok as [[Hmay Hrem] Hheld] eqn:Hok'.
  clear Hok'. pose proof (call_grows _ _ _ _ _ _ Hinv Hin Hmay Ha) as Hg. pose proof Hg as (Hgs&?&Hs).
  split_and!; [done|intros v Hv; eapply sound_extends; [apply extends_call|by apply Hs]|].
  intros th' [?|[->|?]%elem_of_cons]%elem_of_app.
  - eapply thread_ok_grows; [exact Hg|]. apply Ht, elem_of_app. by left.
  - split; [apply Hrem|]. intros j Hj. destruct (held_call _ _ th _ _ _ (Ht _ Hin) Hmay Ha Hj) as [Hold|?]; [|done].
    destruct (Hheld j Hold). split; [by apply Hgs|done].
  - eapply thread_ok_grows; [exact Hg|]. apply Ht, elem_of_app. right. by right.
Qed.

Lemma reachable_invariant st : reachable st → invariant st.
Proof.
  induction 1 as [|s s' _ IH Hstep]; [|by eapply invariant_step].
  split_and!; simpl; by intros ? ?%not_elem_of_nil.
Qed.

(** C1: the stored status is sound in every interleaving.  Whatever runs of the
    two controllers, users and restores do, in any order, with stale reads, lost
    answers and abandoned runs, every version of an ImageClusterInstall that is
    ever stored lists each condition type once and never claims Completed and
    Failed together; it has a boot time only if some run of the reconciler for
    this very object built the image, stored the secrets, saw the DataImage
    of its host settled and started that host; and it claims Completed only if moreover some
    run of the monitor for it saw the host powered on, learned from the spoke
    cluster that it is installed, and withdrew the DataImage. *)
Theorem system_sound st v : reachable st → v ∈ seen (sys_api st) → sound st v.
Proof. intros (_&Hs&_)%reachable_invariant. apply Hs. Qed.

(** ** A scheduler *)

(** The stored objects answered as a well-behaved server does, everything else by
    the simulated environment. *)
Definition pick {A} `{EqDecision A} (p n cur : A) : A := if decide (p = n) then cur else n.
Definition merged_status (p n cur : ICIStatus) : ICIStatus :=
  mkICIStatus (pick (Conditions p) (Conditions n) (Conditions cur))
    (pick (InstallRestarts p) (InstallRestarts n) (InstallRestarts cur))
    (pick (Status_BareMetalHostRef p) (Status_BareMetalHostRef n) (Status_BareMetalHostRef cur))
    (pick (BootTime p) (BootTime n) (BootTime cur)).
(** The identity of an object cannot be patched. *)
Definition merged_meta (n cur : ObjectMeta) : ObjectMeta :=
  mkMeta (om_Name cur) (om_Namespace cur) (om_UID cur) (om_Labels n) (om_Annotations n) (om_Finalizers n)
    (om_OwnerReferences n) (om_CreationTimestamp cur) (om_DeletionTimestamp cur).

Definition patch_with (f : ImageClusterInstall → ImageClusterInstall) (p : ImageClusterInstall) (s : api)
    : result ImageClusterInstall * api :=
  match Sim.lookup_obj ici_Meta (key_of p) (current s) with
  | Ok cur => (Ok (f cur), put (f cur) s)
  | Err e => (Err e, s)
  end.

Definition respond (a : call) (s : api) (w : Sim.world) : option (answer a * api * Sim.world) :=
  match a as a' return option (answer a' * api * Sim.world) with
  | GetICI k => Some (Sim.lookup_obj ici_Meta k (current s), s, w)
  | ListICI _ => Some (Ok (current s), s, w)
  | PatchICI p n =>
      Some (patch_with (λ cur, mkICI (merged_meta (ici_Meta n) (ici_Meta cur)) (ici_Spec n) (ici_Status cur)) p s, w)
  | StatusPatchICI p n =>
      Some (patch_with (λ cur, mkICI (ici_Meta cur) (ici_Spec cur)
              (merged_status (ici_Status p) (ici_Status n) (ici_Status cur))) p s, w)
  | StatusUpdateICI _ => None
  | a' => let '(x, w') := Sim.handle a' w in Some (x, s, w')
  end.

(** Up to [n] calls of the [i]th run. *)
Fixpoint run_thread (n i : nat) (st : system) (w : Sim.world) : option (system * Sim.world) :=
  match n with
  | O => Some (st, w)
  | S n' =>
      match sys_threads st !! i with
      | Some (mkThread by_ req h (Act a k)) =>
          match respond a (sys_api st) w with
          | Some (x, s', w') =>
              run_thread n' i (mkSystem s' (<[i := mkThread by_ req (h ++ [Ev a x]) (k x)]> (sys_threads st))) w'
          | None => None
          end
      | Some _ => Some (st, w)
      | None => None
      end
  end.

Inductive move := Start (by_ : controller) (req : NamespacedName) | Run (i calls : nat) | Create (i : ImageClusterInstall).

Definition make_move (m : move) (st : system) (w : Sim.world) : option (system * Sim.world) :=
  match m with
  | Start by_ req => Some (mkSystem (sys_api st) (sys_threads st ++ [mkThread by_ req [] (program by_ req)]), w)
  | Run i n => run_thread n i st w
  | Create i =>
      if bool_decide (conditions_of i = []) && bool_decide (boot_of i = 0%Z)
         && forallb (other_key (key_of i)) (current (sys_api st))
      then Some (mkSystem (put i (sys_api st)) (sys_threads st), w) else None
  end.

Fixpoint make_moves (ms : list move) (st : system) (w : Sim.world) : option (system * Sim.world) :=
  match ms with
  | [] => Some (st, w)
  | m :: ms' => match make_move m st w with Some (st', w') => make_moves ms' st' w' | None => None end
  end.

Lemma lookup_obj_Ok k l i : Sim.lookup_obj ici_Meta k l = Ok i → i ∈ l ∧ key_of i = k.
Proof.
  induction l as [|j l IH]; simpl; [done|]. case_bool_decide.
  - intros [= ->]. split; [left|done].
  - intros [? ?]%IH. split; [by right|done].
Qed.

Lemma same_conditions_refl cs : Forall2 same_condition cs cs.
Proof. by induction cs; constructor. Qed.

Lemma patch_with_answer a f g p s r s' :
  patch_answer a = Some f → (∀ cur, key_of cur = key_of p → patches a cur (g cur)) →
  patch_with g p s = (r, s') → api_answer s a (f r) s'.
Proof.
  intros Ha Hg. unfold patch_with. destruct (Sim.lookup_obj _ _ _) as [cur|e] eqn:Hl; intros [= <- <-].
  - apply lookup_obj_Ok in Hl as [??]. by eapply answer_patch; [..|by apply Hg].
  - by apply answer_patch_error.
Qed.

Lemma respond_answer a s w x s' w' :
  (∀ v, v ∈ current s → v ∈ seen s) → respond a s w = Some (x, s', w') → api_answer s a x s'.
Proof.
  intros Hcur Hr. destruct a; cbn [respond] in Hr;
    try (destruct (Sim.handle _ _) as [y w1]; injection Hr as <- <- _; by apply answer_other).
  - injection Hr as <- <- _. destruct (Sim.lookup_obj _ _ _) as [i|e] eqn:Hl; [|constructor].
    apply lookup_obj_Ok in Hl as [??]. constructor; auto.
  - injection Hr as <- <- _. by constructor.
  - destruct (patch_with _ _ _) as [r s1] eqn:Hp. injection Hr as <- <- _.
    eapply (patch_with_answer (PatchICI orig new) id); [done| |exact Hp]. by intros cur ?.
  - destruct (patch_with _ _ _) as [r s1] eqn:Hp. injection Hr as <- <- _.
    eapply (patch_with_answer (StatusPatchICI orig new) id); [done| |exact Hp]. intros cur ?.
    split; [done|]. split_and!; [done..|apply same_conditions_refl|].
    unfold boot_of. simpl. intros ->. unfold pick. by rewrite decide_True.
  - done.
Qed.

Lemma run_thread_reachable n i st w st' w' :
  reachable st → run_thread n i st w = Some (st', w') → reachable st'.
Proof.
  revert st w. induction n as [|n IH]; intros st w Hst Hrun; cbn [run_thread] in Hrun; [by simplify_eq|].
  destruct (sys_threads st !! i) as [[b req h [r|a k]]|] eqn:Hi; [by simplify_eq| |done].
  destruct (respond a (sys_api st) w) as [[[x s'] w1]|] eqn:Hr; [|done].
  eapply IH; [|exact Hrun]. apply (reachable_step st); [done|]. destruct st as [s ths]. simpl in *.
  rewrite insert_take_drop by (by eapply lookup_lt_Some). rewrite <- (take_drop_middle ths i _ Hi) at 1.
  apply step_call. eapply respond_answer; [|exact Hr]. by apply reachable_invariant in Hst as [? _].
Qed.

Lemma make_move_env m st w st' w' :
  (if m is Run _ _ then False else True) → make_move m st w = Some (st', w') → env_step st st'.
Proof.
  destruct m as [by_ req|i n|i]; [| |]; intros Hm Hmove; simpl in Hmove; [|done|].
  - simplify_eq. destruct st. apply step_start.
  - destruct (_ && _) eqn:Hc; [|done]. simplify_eq. bools. destruct st.
    apply step_create; [done..|]. apply Forall_forall. intros j Hj.
    match goal with H : forallb _ _ = true |- _ => rewrite forallb_forall in H; apply H end.
    by apply list_elem_of_In.
Qed.

Lemma make_moves_reachable ms st w st' w' :
  reachable st → make_moves ms st w = Some (st', w') → reachable st'.
Proof.
  revert st w. induction ms as [|m ms IH]; intros st w Hst Hrun; cbn [make_moves] in Hrun; [by simplify_eq|].
  destruct (make_move m st w) as [[st1 w1]|] eqn:Hm; [|done]. eapply IH; [|exact Hrun].
  destruct m as [by_ req|i n|i]; [|by eapply run_thread_reachable|].
  all: apply (reachable_step st); [done|]; apply step_env; eapply make_move_env; [|exact Hm]; done.
Qed.
End system.

(** *** Scenarios *)

(** The simulated environment with an installed spoke cluster. *)
Definition world_installed : Sim.world :=
  Sim.with_spoke ([mkCVCondition "Available" "True" 5%Z "" ""],
                  [mkNode "n" [mkNodeCondition "Ready" "True" "" ""]]) Sim.world0.
Definition after (ms : list move) : system :=
  match make_moves (L := StubLibs) Reconciler.opts0 ms sys0 world_installed with
  | Some (st, _) => st
  | None => sys0
  end.

(** Two rounds of the reconciler and one of the monitor install a cluster. *)
Definition install_moves (second_round : nat) : list move :=
  [Create Sim.ici0; Start ReconcilerRun Sim.req0; Run 0 500; Start ReconcilerRun Sim.req0;
   Run 1 second_round; Start MonitorRun Sim.req0; Run 2 500].

Lemma after_reachable ms : reachable (L := StubLibs) Reconciler.opts0 (after ms).
Proof.
  unfold after. destruct (make_moves _ _ _ _) as [[st w]|] eqn:Hm; [|constructor].
  eapply make_moves_reachable; [constructor|exact Hm].
Qed.

Lemma completed_claims i : Conditions.InstallationCompleted i = true → claims ClusterInstallCompleted i.
Proof.
  unfold Conditions.InstallationCompleted. destruct (Conditions.findCondition _ _) as [c|] eqn:Hc; [|done].
  intros ?%bool_decide_eq_true_1. apply Conditions.findCondition_Some in Hc as [??]. by exists c.
Qed.

Lemma system_sound_witness :
  ∃ st v, reachable (L := StubLibs) Reconciler.opts0 st ∧ v ∈ seen (sys_api st) ∧
    claims ClusterInstallCompleted v ∧ installed_by st (key_of v) ∧
    booted_by Reconciler.opts0 st (key_of v).
Proof.
  assert (Hk : ∃ k, position Conditions.InstallationCompleted (seen (sys_api (after (install_moves 500)))) = Some k)
    by (eexists; vm_compute; reflexivity).
  destruct Hk as [k Hk]. destruct (position_split _ _ _ Hk) as (l1&v&l2&Hl&Hv%completed_claims).
  assert (Hin : v ∈ seen (sys_api (after (install_moves 500)))).
  { rewrite Hl. apply elem_of_app. right. apply list_elem_of_here. }
  destruct (system_sound (L := StubLibs) Reconciler.opts0 _ v (after_reachable _) Hin) as (_&_&_&Hc).
  exists (after (install_moves 500)), v. exact (conj (after_reachable _) (conj Hin (conj Hv (Hc Hv)))).
Defined.

(** A completed installation can lose its report: if the monitor completes while
    the reconciler still has to write RequirementsMet, that patch, computed from
    the conditions the reconciler has read, puts the old Completed back.  (The
    update wakes the monitor, which completes the installation again.) *)
Lemma completed_can_be_lost :
  ∃ st v v' rest, reachable (L := StubLibs) Reconciler.opts0 st ∧
    current (sys_api st) = [v'] ∧ seen (sys_api st) = v' :: v :: rest ∧ key_of v' = key_of v ∧
    Conditions.InstallationCompleted v = true ∧ Conditions.InstallationCompleted v' = false.
Proof.
  set (st := after (install_moves 28 ++ [Run 1 1])).
  assert (Hst : match seen (sys_api st), current (sys_api st) with
    | v' :: v :: _, [c] => bool_decide (c = v') && bool_decide (key_of v' = key_of v)
        && Conditions.InstallationCompleted v && negb (Conditions.InstallationCompleted v')
    | _, _ => false end = true) by (vm_compute; reflexivity).
  pose proof (after_reachable (install_moves 28 ++ [Run 1 1])) as Hr. fold st in Hr. clearbody st.
  destruct (seen (sys_api st)) as [|v' [|v rest]] eqn:Hs; [done..|].
  destruct (current (sys_api st)) as [|c [|]] eqn:Hc; [done| |done]. bools.
  subst c. by exists st, v, v', rest.
Qed.
End System.
