(* ===== verification/Layers.v ===== *)
(** * The running system with further shared state

    [System] shares the stored ImageClusterInstalls between the runs.  A [Layer]
    is further state that the runs share through their calls: it restricts the
    answers of the calls that concern it, the n-th run getting answers according
    to the state, and may change by itself.  The scheduler of [System] carries
    over, with a check that the answers of the simulated environment are ones the
    layer allows. *)
From stdpp Require Import base gmap strings list.
From Stdlib Require Import ZArith Lia.
From S2P Require Import Prelude Types World GoStd Libs Reconciler System Sim.
Local Open Scope go_scope.

Module Layers.
Import System.

Class Layer (E : Type) := {
  layer_init : E;
  layer_answer : E → nat → ∀ a : call, answer a → E → Prop;
  layer_env : E → E → Prop;
  layer_check : E → nat → ∀ a : call, answer a → option E;
  layer_check_answer e n a x e' : layer_check e n a x = Some e' → layer_answer e n a x e';
}.

Record layered (E : Type) := mkLayered { base : system; extra : E }.
Arguments mkLayered {E} base extra.
Arguments base {E} _.
Arguments extra {E} _.

Section layer.
Context `{L : GoLibs} (o : Reconciler.Options) {E : Type} `{!Layer E}.

Inductive layer_step : layered E → layered E → Prop :=
| layer_call s s' e e' ths1 ths2 by_ req h a k x :
    api_answer s a x s' → layer_answer e (length ths1) a x e' →
    layer_step (mkLayered (mkSystem s (ths1 ++ mkThread by_ req h (Act a k) :: ths2)) e)
               (mkLayered (mkSystem s' (ths1 ++ mkThread by_ req (h ++ [Ev a x]) (k x) :: ths2)) e')
| layer_users st st' e : env_step o st st' → layer_step (mkLayered st e) (mkLayered st' e)
| layer_alone st e e' : layer_env e e' → layer_step (mkLayered st e) (mkLayered st e').

Inductive layer_reachable : layered E → Prop :=
| layer_start : layer_reachable (mkLayered sys0 layer_init)
| layer_next c c' : layer_reachable c → layer_step c c' → layer_reachable c'.

(** A layer only restricts [System]. *)
Lemma layer_step_system c c' : layer_step c c' → base c = base c' ∨ sys_step o (base c) (base c').
Proof. intros Hs. destruct Hs; simpl; [right; by apply step_call|right; by apply step_env|by left]. Qed.

Lemma layer_reachable_system c : layer_reachable c → reachable o (base c).
Proof.
  induction 1 as [|c c' _ IH Hs]; [constructor|].
  destruct (layer_step_system _ _ Hs) as [<-|?]; [done|]. by eapply reachable_step.
Qed.

(** What was ever stored stays known. *)
Lemma step_seen st st' v : sys_step o st st' → v ∈ seen (sys_api st) → v ∈ seen (sys_api st').
Proof.
  intros Hs Hv. destruct Hs as [s s' ths1 ths2 by_ req h a k x Ha|st st' He].
  - destruct Ha; simpl; auto using list_elem_of_further.
  - destruct He; simpl in *; auto using list_elem_of_further.
Qed.

Lemma layer_step_seen c c' v : layer_step c c' → v ∈ seen (sys_api (base c)) → v ∈ seen (sys_api (base c')).
Proof. intros [->|?]%layer_step_system; [done|]. by eapply step_seen. Qed.

Lemma env_extends st st' : env_step o st st' → extends st st'.
Proof.
  intros Hs b q g (rem&Hin). exists []. rewrite app_nil_r. exists rem. destruct Hs; simpl in *; [|done..].
  apply elem_of_app. by left.
Qed.

(** Later states: what was reachable, stored or done stays so. *)
Lemma layer_step_extends c c' : layer_step c c' → extends (base c) (base c').
Proof.
  intros Hs by_ q g Hd. destruct Hs as [s s' e e' ths1 ths2 b req h a k x Ha Hl|st st' e He|]; simpl in *.
  - revert Hd. apply extends_call.
  - by eapply env_extends.
  - exists []. by rewrite app_nil_r.
Qed.

Lemma layer_steps_extends c c' : rtc layer_step c c' → extends (base c) (base c').
Proof.
  induction 1 as [c|c d c' Hs _ IH]; [intros b q g ?; exists []; by rewrite app_nil_r|].
  intros b q g (t&H)%(layer_step_extends _ _ Hs). apply IH in H as (t'&?). exists (t ++ t'). by rewrite (assoc_L (++)).
Qed.

Lemma layer_steps_seen c c' v :
  rtc layer_step c c' → v ∈ seen (sys_api (base c)) → v ∈ seen (sys_api (base c')).
Proof. induction 1 as [|c d c' Hs _ IH]; [done|]. intros Hv. by eapply IH, layer_step_seen. Qed.

Lemma rtc_layer_reachable c c' : rtc layer_step c c' → layer_reachable c → layer_reachable c'.
Proof. induction 1 as [|c d c' Hs _ IH]; [done|]. intros Hc. by apply IH, (layer_next c). Qed.

(** *** A scheduler *)

Fixpoint layer_run (n i : nat) (c : layered E) (w : Sim.world) : option (layered E * Sim.world) :=
  match n with
  | O => Some (c, w)
  | S n' =>
      match sys_threads (base c) !! i with
      | Some (mkThread by_ req h (Act a k)) =>
          match respond a (sys_api (base c)) w with
          | Some (x, s', w') =>
              match layer_check (extra c) i a x with
              | Some e' =>
                  layer_run n' i (mkLayered (mkSystem s'
                    (<[i := mkThread by_ req (h ++ [Ev a x]) (k x)]> (sys_threads (base c)))) e') w'
              | None => None
              end
          | None => None
          end
      | Some _ => Some (c, w)
      | None => None
      end
  end.

Definition layer_move (m : move) (c : layered E) (w : Sim.world) : option (layered E * Sim.world) :=
  match m with
  | Run i n => layer_run n i c w
  | m => match make_move o m (base c) w with
         | Some (st, w') => Some (mkLayered st (extra c), w')
         | None => None
         end
  end.
Fixpoint layer_moves (ms : list move) (c : layered E) (w : Sim.world) : option (layered E * Sim.world) :=
  match ms with
  | [] => Some (c, w)
  | m :: ms' => match layer_move m c w with Some (c', w') => layer_moves ms' c' w' | None => None end
  end.

Lemma layer_run_reachable n i c w c' w' :
  layer_reachable c → layer_run n i c w = Some (c', w') → layer_reachable c'.
Proof.
  revert c w. induction n as [|n IH]; intros c w Hc Hrun; cbn [layer_run] in Hrun; [by simplify_eq|].
  destruct (sys_threads (base c) !! i) as [[b req h [r|a k]]|] eqn:Hi; [by simplify_eq| |done].
  destruct (respond a _ w) as [[[x s'] w1]|] eqn:Hr; [|done].
  destruct (layer_check (extra c) i a x) as [e'|] eqn:Hh; [|done].
  eapply IH; [|exact Hrun]. apply (layer_next c); [done|].
  pose proof (layer_reachable_system _ Hc) as [Hcur _]%reachable_invariant. destruct c as [[s ths] e]. simpl in *.
  pose proof (lookup_lt_Some _ _ _ Hi) as Hlt.
  rewrite insert_take_drop by done. rewrite <- (take_drop_middle ths i _ Hi) at 1.
  apply layer_call; [by eapply respond_answer|]. rewrite length_take_le by lia. by apply layer_check_answer.
Qed.

Lemma layer_move_reachable m c w c' w' :
  layer_reachable c → layer_move m c w = Some (c', w') → layer_reachable c'.
Proof.
  intros Hc Hm. destruct m as [by_ req|i n|i]; cbn [layer_move] in Hm; [|by eapply layer_run_reachable|].
  all: destruct (make_move o _ (base c) w) as [[st w1]|] eqn:Hmm; [|done]; injection Hm as <- _.
  all: apply (layer_next c); [done|]; destruct c as [st0 e]; apply layer_users.
  all: eapply make_move_env; [|exact Hmm]; done.
Qed.

Lemma layer_moves_reachable ms c w c' w' :
  layer_reachable c → layer_moves ms c w = Some (c', w') → layer_reachable c'.
Proof.
  revert c w. induction ms as [|m ms IH]; intros c w Hc Hrun; cbn [layer_moves] in Hrun; [by simplify_eq|].
  destruct (layer_move m c w) as [[c1 w1]|] eqn:Hm; [|done]. eapply IH; [|exact Hrun]. by eapply layer_move_reachable.
Qed.
End layer.

(** ** Two layers over one system *)

Section pair.
Context {E1 E2 : Type} (L1 : Layer E1) (L2 : Layer E2).

Definition pair_answer (e : E1 * E2) (n : nat) (a : call) (x : answer a) (e' : E1 * E2) : Prop :=
  layer_answer e.1 n a x e'.1 ∧ layer_answer e.2 n a x e'.2.
Definition pair_check (e : E1 * E2) (n : nat) (a : call) (x : answer a) : option (E1 * E2) :=
  match layer_check e.1 n a x, layer_check e.2 n a x with
  | Some e1, Some e2 => Some (e1, e2)
  | _, _ => None
  end.
Lemma pair_check_answer e n a x e' : pair_check e n a x = Some e' → pair_answer e n a x e'.
Proof.
  unfold pair_check. destruct (layer_check e.1 n a x) as [e1|] eqn:H1; [|done].
  destruct (layer_check e.2 n a x) as [e2|] eqn:H2; [|done]. intros [= <-].
  split; by apply layer_check_answer.
Qed.

(** Every call is answered according to both; either may change by itself. *)
Definition pair_layer : Layer (E1 * E2) := {|
  layer_init := (layer_init, layer_init);
  layer_answer := pair_answer;
  layer_env e e' := (layer_env e.1 e'.1 ∧ e'.2 = e.2) ∨ (layer_env e.2 e'.2 ∧ e'.1 = e.1);
  layer_check := pair_check;
  layer_check_answer := pair_check_answer;
|}.

Context `{L : GoLibs} (o : Reconciler.Options).

(** What holds with one of the layers holds with both. *)
Lemma pair_first (c : layered (E1 * E2)) :
  layer_reachable (Layer0 := pair_layer) o c → layer_reachable o (mkLayered (base c) (extra c).1).
Proof.
  induction 1 as [|c c' _ IH Hs]; [constructor|].
  destruct Hs as [s s' e e' ths1 ths2 by_ req h a k x Ha [Hl _]|st st' e He|st e e' [[He _]|[_ He]]]; simpl in *.
  - eapply layer_next; [exact IH|]. by apply layer_call.
  - eapply layer_next; [exact IH|]. by apply layer_users.
  - eapply layer_next; [exact IH|]. by apply layer_alone.
  - by rewrite He.
Qed.
Lemma pair_second (c : layered (E1 * E2)) :
  layer_reachable (Layer0 := pair_layer) o c → layer_reachable o (mkLayered (base c) (extra c).2).
Proof.
  induction 1 as [|c c' _ IH Hs]; [constructor|].
  destruct Hs as [s s' e e' ths1 ths2 by_ req h a k x Ha [_ Hl]|st st' e He|st e e' [[_ He]|[He _]]]; simpl in *.
  - eapply layer_next; [exact IH|]. by apply layer_call.
  - eapply layer_next; [exact IH|]. by apply layer_users.
  - by rewrite He.
  - eapply layer_next; [exact IH|]. by apply layer_alone.
Qed.
End pair.

(** The state after some moves, in the simulated environment with an installed
    spoke cluster. *)
Definition layer_after {E} `{!Layer E} (ms : list move) : layered E :=
  match layer_moves (L := StubLibs) Reconciler.opts0 ms (mkLayered sys0 layer_init) world_installed with
  | Some (c, _) => c
  | None => mkLayered sys0 layer_init
  end.

Lemma layer_after_reachable {E} `{!Layer E} ms :
  layer_reachable (L := StubLibs) Reconciler.opts0 (layer_after (E := E) ms).
Proof.
  unfold layer_after. destruct (layer_moves _ _ _ _) as [[c w]|] eqn:Hm; [|constructor].
  eapply layer_moves_reachable; [constructor|exact Hm].
Qed.
End Layers.
