(* ===== verification/Hosts.v ===== *)
(** * Hosts and DataImages shared by the runs

    [System] with the DataImages as shared state: every DataImage comes from a run
    of the reconciler, the host operator may change its status, reads may be
    stale, and a host keeps its name.  If no two installations refer to the same
    host, every host is booted with the image of its own installation; without
    that condition the code does not ensure it. *)
From stdpp Require Import base gmap strings list.
From Stdlib Require Import ZArith Lia.
From S2P Require Import Prelude Types World GoStd URL Libs Common InputData Host Conditions Reconciler System Layers Sim.
Local Open Scope go_scope.

Module Hosts.
Import System Layers.

(** ** The shared state *)

Definition same_image (d d' : DataImage) : Prop :=
  meta_key (di_Meta d) = meta_key (di_Meta d') ∧ di_URL d = di_URL d'.
#[local] Instance same_image_dec d d' : Decision (same_image d d').
Proof. unfold same_image. apply _. Defined.

Definition concerns_host (a : call) : bool :=
  match a with
  | GetDataImage _ | CreateDataImage _ | GetBMH _ | PatchBMH _ _ => true
  | _ => false
  end.

(** The answers about hosts and DataImages, given every version of a DataImage
    that was ever stored, and the versions stored afterwards. *)
Inductive host_answer (ims : list DataImage) : ∀ a : call, answer a → list DataImage → Prop :=
| host_get_image k d : d ∈ ims → meta_key (di_Meta d) = k → host_answer ims (GetDataImage k) (Ok d) ims
| host_get_image_error k e : host_answer ims (GetDataImage k) (Err e) ims
| host_create d new : same_image d new → host_answer ims (CreateDataImage d) (Ok new) (new :: ims)
| host_create_lost d new e : same_image d new → host_answer ims (CreateDataImage d) (Err e) (new :: ims)
| host_create_error d e : host_answer ims (CreateDataImage d) (Err e) ims
| host_get k b : meta_key (bmh_Meta b) = k → host_answer ims (GetBMH k) (Ok b) ims
| host_get_error k e : host_answer ims (GetBMH k) (Err e) ims
| host_patch p n b : meta_key (bmh_Meta b) = meta_key (bmh_Meta p) → host_answer ims (PatchBMH p n) (Ok b) ims
| host_patch_error p n e : host_answer ims (PatchBMH p n) (Err e) ims
| host_other a x : concerns_host a = false → host_answer ims a x ims.

(** The DataImages after an answer of the simulated environment, if the answer is
    one that [host_answer] allows. *)
Definition host_check (ims : list DataImage) (a : call) (x : answer a) : option (list DataImage) :=
  match a as a' return answer a' → option (list DataImage) with
  | GetDataImage k => λ x, match x with
      | Ok d => if bool_decide (d ∈ ims) && bool_decide (meta_key (di_Meta d) = k) then Some ims else None
      | Err _ => Some ims end
  | CreateDataImage d => λ x, match x with
      | Ok new => if bool_decide (same_image d new) then Some (new :: ims) else None
      | Err _ => Some ims end
  | GetBMH k => λ x, match x with
      | Ok b => if bool_decide (meta_key (bmh_Meta b) = k) then Some ims else None
      | Err _ => Some ims end
  | PatchBMH p _ => λ x, match x with
      | Ok b => if bool_decide (meta_key (bmh_Meta b) = meta_key (bmh_Meta p)) then Some ims else None
      | Err _ => Some ims end
  | _ => λ _, Some ims
  end x.

Lemma host_check_answer ims a x ims' : host_check ims a x = Some ims' → host_answer ims a x ims'.
Proof.
  destruct a; simpl; intros H; try (injection H as <-; by apply host_other);
    (destruct x; [|injection H as <-; constructor]);
    match type of H with (if ?c then _ else _) = _ => destruct c eqn:Hc; [|done] end;
    injection H as <-; bools; by constructor.
Qed.

(** The layer of the DataImages; the host operator may change the status of any. *)
#[export] Instance images : Layer (list DataImage) := {|
  layer_init := [];
  layer_answer ims _ a x ims' := host_answer ims a x ims';
  layer_env ims ims' := ∃ d d', d ∈ ims ∧ same_image d d' ∧ ims' = d' :: ims;
  layer_check ims _ a x := host_check ims a x;
  layer_check_answer ims _ a x ims' := host_check_answer ims a x ims';
|}.
Definition cluster : Type := layered (list DataImage).

Section hosts.
Context `{L : GoLibs} (o : Reconciler.Options).

(** ** Properties *)

(** What a run has been told about hosts and DataImages. *)
Definition event_ok (ims : list DataImage) (ev : event answer) : Prop :=
  match ev with
  | Ev a x =>
      match a return answer a → Prop with
      | GetDataImage k => λ x, match x with Ok d => d ∈ ims ∧ meta_key (di_Meta d) = k | Err _ => True end
      | GetBMH k => λ x, match x with Ok b => meta_key (bmh_Meta b) = k | Err _ => True end
      | PatchBMH p _ => λ x, match x with Ok b => meta_key (bmh_Meta b) = meta_key (bmh_Meta p) | Err _ => True end
      | _ => λ _, True
      end x
  end.

(** The DataImage was made by a run of the reconciler: with the URL of the image
    that the run had built, for the host of its object. *)
Definition made_by (st : system) (d : DataImage) : Prop :=
  ∃ req h, did st ReconcilerRun req h ∧ Reconciler.image_for o req d h.

Definition images_ok (c : cluster) : Prop :=
  (∀ th ev, th ∈ sys_threads (base c) → ev ∈ th_hist th → event_ok (extra c) ev) ∧
  (∀ d, d ∈ extra c → made_by (base c) d).

Lemma image_for_app req d h t : Reconciler.image_for o req d h → Reconciler.image_for o req d (h ++ t).
Proof.
  intros (i&cd&?&?&?&b&?&?). exists i, cd.
  split_and!; [by apply known_app|by apply InputData.image_ready_app|done|]. exists b. split; [by apply host_known_app|done].
Qed.

Lemma image_for_same req d d' h : same_image d d' → Reconciler.image_for o req d h → Reconciler.image_for o req d' h.
Proof. unfold Reconciler.image_for. by intros [-> ->]. Qed.

Lemma made_by_extends st st' d : extends st st' → made_by st d → made_by st' d.
Proof.
  intros Hx (req&h&(t&?)%Hx&?). exists req, (h ++ t). split; [done|by apply image_for_app].
Qed.

Lemma made_by_same st d d' : same_image d d' → made_by st d → made_by st d'.
Proof. intros Hd (req&h&?&?). exists req, h. split; [done|]. by eapply image_for_same. Qed.

Lemma event_ok_grows ims ims' ev : (∀ d, d ∈ ims → d ∈ ims') → event_ok ims ev → event_ok ims' ev.
Proof. intros Hi. destruct ev as [a x]. destruct a; try done. simpl. destruct x; [|done]. intros [? ?]. auto. Qed.

(** An answer is as promised, and a new DataImage is one the call creates. *)
Lemma host_answer_ok ims a x ims' :
  host_answer ims a x ims' →
  event_ok ims' (Ev a x) ∧ (∀ d, d ∈ ims → d ∈ ims') ∧
  ∀ d, d ∈ ims' → d ∈ ims ∨ ∃ d0, a = CreateDataImage d0 ∧ same_image d0 d.
Proof.
  intros Ha. destruct Ha; simpl; try (split_and!; [done|done|by intros; left]).
  1: by split_and!; [..|intros; left].
  1-2: split_and!; [done|by intros; right|]; intros d' [->|?]%elem_of_cons; [right; by exists d|by left].
  split_and!; [|done|by intros; left]. by destruct a.
Qed.

Lemma env_threads st st' th ev :
  env_step o st st' → th ∈ sys_threads st' → ev ∈ th_hist th → th ∈ sys_threads st.
Proof.
  intros Hs Hin Hev. destruct Hs; simpl in *; [|done..].
  apply elem_of_app in Hin as [?|Hth%list_elem_of_singleton]; [done|]. subst th. by apply not_elem_of_nil in Hev.
Qed.

Lemma images_step c c' : reachable o (base c) → images_ok c → layer_step o c c' → images_ok c'.
Proof.
  intros Hr [Hev Him] Hstep. destruct Hstep as [s s' ims ims' ths1 ths2 by_ req h a k x Ha Hh|st st' ims Hs|st ims ims' (d&d'&Hd&Hsame&->)].
  - apply host_answer_ok in Hh as (Hok&Hsub&Hnew). simpl in *.
    set (th := mkThread by_ req h (Act a k)) in *.
    assert (Hin : th ∈ ths1 ++ th :: ths2) by (apply elem_of_app; right; left). split; simpl.
    + assert (Hold : ∀ th' ev, th' ∈ ths1 ++ th :: ths2 → ev ∈ th_hist th' → event_ok ims' ev).
      { intros th' ev ??. eapply event_ok_grows; [exact Hsub|]. by eapply Hev. }
      intros th' ev [?|[->|?]%elem_of_cons]%elem_of_app He.
      * apply (Hold th'); [|done]. apply elem_of_app. by left.
      * apply elem_of_app in He as [?| ->%list_elem_of_singleton]; [by apply (Hold th)|done].
      * apply (Hold th'); [|done]. apply elem_of_app. right. by right.
    + intros d [?|(d0&->&Hsame)]%Hnew; [eapply made_by_extends; [apply extends_call|by apply Him]|].
      apply (made_by_extends (mkSystem s (ths1 ++ th :: ths2))); [apply extends_call|].
      eapply made_by_same; [exact Hsame|]. apply reachable_invariant in Hr as (_&_&Ht). destruct (Ht _ Hin) as [[Hmay _] _].
      exists req, h. destruct by_; simpl in Hmay.
      * split; [by exists (Act (CreateDataImage d0) k)|].
        destruct Hmay as [[_ [=]]|(i&h'&_&Hg)]. by apply Reconciler.reconcile_guard_create in Hg as (_&_&?&_).
      * by destruct Hmay as [Hget|(i&h'&_&_&_&[Hw _])].
  - split; simpl in *.
    + intros th ev Hin He. apply (Hev th); [by eapply env_threads|done].
    + intros d ?. eapply made_by_extends; [by eapply env_extends|by apply Him].
  - split; simpl in *.
    + intros th ev ??. eapply event_ok_grows; [|by eapply Hev]. intros ??. by right.
    + intros d0 [->|?]%elem_of_cons; [|by apply Him]. eapply made_by_same; [exact Hsame|by apply Him].
Qed.

Lemma images_invariant c : layer_reachable o c → images_ok c.
Proof.
  induction 1 as [|c c' Hr IH Hstep].
  - split; simpl; [by intros ?? ?%not_elem_of_nil|by intros ? ?%not_elem_of_nil].
  - eapply images_step; [by eapply layer_reachable_system|done..].
Qed.

(** No two installations ever referred to the same host. *)
Definition exclusive (s : api) : Prop :=
  ∀ v w rv rw, v ∈ seen s → w ∈ seen s →
    Spec_BareMetalHostRef (ici_Spec v) = Some rv → Spec_BareMetalHostRef (ici_Spec w) = Some rw →
    bmh_key rv = bmh_key rw → key_of v = key_of w.

Lemma host_from_key ims k h b :
  (∀ ev, ev ∈ h → event_ok ims ev) → host_from k h b → meta_key (bmh_Meta b) = k.
Proof.
  intros Hev. induction 1 as [b Hb|p n b _ IH Hb]; [by apply Hev in Hb|]. apply Hev in Hb. simpl in Hb. congruence.
Qed.

(** A host that a run knows belongs to a stored version of its object. *)
Lemma host_owner (c : cluster) req h b :
  layer_reachable o c → did (base c) ReconcilerRun req h → host_known b h →
  ∃ j ref, j ∈ seen (sys_api (base c)) ∧ key_of j = req ∧
    Spec_BareMetalHostRef (ici_Spec j) = Some ref ∧ meta_key (bmh_Meta b) = bmh_key ref.
Proof.
  intros Hc [rem Hin] (i&ref&Hk&Href&Hb). destruct (images_invariant _ Hc) as [Hev _].
  apply layer_reachable_system, reachable_invariant in Hc as (_&_&Ht).
  destruct (known_stored o _ _ _ (Ht _ Hin) eq_refl Hk) as (j&Hj&Hkey&_&_&Hsame&_).
  exists j, ref. apply (f_equal Spec_BareMetalHostRef) in Hsame. simpl in Hsame.
  split_and!; [done|done|congruence|].
  eapply host_from_key; [|done]. intros ev ?. by eapply Hev.
Qed.

(** Every host is booted with the image of its own installation.  In every
    interleaving of runs, users, restores and changes of the host operator, if no
    two installations ever refer to the same host, then behind every stored boot
    time there is a run of the reconciler for this object that started its host
    while the host had a DataImage whose URL is that of the image of this very
    object (of its UID, or of an earlier object of the same name), and that image
    had been built. *)
Theorem own_image (c : cluster) v :
  layer_reachable o c → exclusive (sys_api (base c)) → v ∈ seen (sys_api (base c)) → boot_of v ≠ 0%Z →
  ∃ h b d, did (base c) ReconcilerRun (key_of v) h ∧ host_known b h ∧ Host.host_started b h ∧
    Host.image_settled (meta_key (bmh_Meta b)) (Reconciler.DataImageCoolDownPeriod o) d h ∧
    meta_key (di_Meta d) = meta_key (bmh_Meta b) ∧
    ∃ h' i j cd, did (base c) ReconcilerRun (key_of v) h' ∧
      InputData.image_ready (Reconciler.DataDir o) i cd h' ∧
      j ∈ seen (sys_api (base c)) ∧ key_of j = key_of v ∧
      key_of i = key_of j ∧ om_UID (ici_Meta i) = om_UID (ici_Meta j) ∧
      Reconciler.image_url o (key_of v) j = Ok (di_URL d).
Proof.
  intros Hc Hex Hv Hboot. pose proof (layer_reachable_system o c Hc) as Hr.
  destruct (reachable_invariant _ _ Hr) as (_&Hs&Ht). destruct (images_invariant _ Hc) as [Hev Him].
  destruct (Hs v Hv) as (_&_&Hbooted&_). destruct (Hbooted Hboot) as (h&ici&cd&b&d&Hdid&Hkey&_&Hb&Hstart&Hset).
  destruct (host_owner _ _ _ _ Hc Hdid Hb) as (j&ref&Hj&Hkj&Href&Hbk).
  assert (Hd : d ∈ extra c ∧ meta_key (di_Meta d) = meta_key (bmh_Meta b)).
  { destruct Hset as (h1&h2&now&Hh&_), Hdid as [rem Hin].
    apply (Hev _ (Ev (GetDataImage (meta_key (bmh_Meta b))) (Ok d)) Hin). simpl. rewrite Hh. hist. }
  destruct Hd as [Hd Hdk]. destruct (Him d Hd) as (req'&h'&Hdid'&i'&cd'&Hk'&Hready'&Hurl&b'&Hb'&Hdk').
  destruct (host_owner _ _ _ _ Hc Hdid' Hb') as (j'&ref'&Hj'&Hkj'&Href'&Hbk').
  assert (req' = key_of v) as ->.
  { rewrite <- Hkj, <- Hkj'. apply (Hex j' j ref' ref); [done..|congruence]. }
  exists h, b, d. split_and!; [done..|]. destruct Hdid' as [rem' Hin'].
  destruct (known_stored o _ _ _ (Ht _ Hin') eq_refl Hk') as (j0&Hj0&Hkj0&Hki&Huid&_).
  exists h', i', j0, cd'. split_and!; [by exists rem'|done|done|done|done|done|].
  unfold Reconciler.image_url in *. by rewrite <- Huid.
Qed.
End hosts.

(** *** Scenarios *)

(** Versions of one object only. *)
Lemma exclusive_one s k : forallb (λ v, bool_decide (key_of v = k)) (seen s) = true → exclusive s.
Proof.
  intros H v w rv rw Hv Hw _ _ _. rewrite forallb_forall in H.
  assert (Hk : ∀ v, v ∈ seen s → key_of v = k).
  { intros u Hu%list_elem_of_In. apply H in Hu. by apply bool_decide_eq_true_1 in Hu. }
  by rewrite (Hk v Hv), (Hk w Hw).
Qed.

Lemma own_image_witness :
  ∃ (c : cluster) v d j, layer_reachable (L := StubLibs) Reconciler.opts0 c ∧ v ∈ seen (sys_api (base c)) ∧ boot_of v ≠ 0%Z ∧
    j ∈ seen (sys_api (base c)) ∧ Reconciler.image_url Reconciler.opts0 (key_of v) j = Ok (di_URL d).
Proof.
  set (c := layer_after (install_moves 500)).
  assert (Hk : ∃ k, position (λ v, negb (bool_decide (boot_of v = 0%Z))) (seen (sys_api (base c))) = Some k)
    by (eexists; vm_compute; reflexivity).
  assert (Hex : exclusive (sys_api (base c))) by (apply (exclusive_one _ Sim.req0); vm_compute; reflexivity).
  pose proof (layer_after_reachable (install_moves 500)) as Hc. fold c in Hc. clearbody c.
  destruct Hk as [k Hk]. destruct (position_split _ _ _ Hk) as (l1&v&l2&Hl&Hb%negb_true_iff%bool_decide_eq_false_1).
  assert (Hv : v ∈ seen (sys_api (base c))) by (rewrite Hl; apply elem_of_app; right; apply list_elem_of_here).
  destruct (own_image (L := StubLibs) _ c v Hc Hex Hv Hb) as (h&b&d&_&_&_&_&_&h'&i&j&cd&_&_&Hj&_&_&_&Hu).
  exists c, v, d, j. exact (conj Hc (conj Hv (conj Hb (conj Hj Hu)))).
Defined.

(** The condition of [own_image] is necessary: of two installations that refer to
    the same host, the second one finds the DataImage of the first, and is
    reported as attached and booted although only the first one's image is served
    to the host. *)
Definition rival : ImageClusterInstall :=
  mkICI (mkMeta "rival" "ns" "uid2" None None (om_Finalizers (ici_Meta Sim.ici0)) [] 1%Z 0%Z)
    (ici_Spec Sim.ici0) (ici_Status Sim.ici0).
Definition rival_moves : list move :=
  [Create Sim.ici0; Start ReconcilerRun Sim.req0; Run 0 500; Start ReconcilerRun Sim.req0; Run 1 500;
   Create rival; Start ReconcilerRun (key_of rival); Run 2 500; Start ReconcilerRun (key_of rival); Run 3 500].

(** The URL that the reconciler computes for [j] is that of [d]. *)
Definition has_image (j : ImageClusterInstall) (d : DataImage) : bool :=
  match Reconciler.image_url Reconciler.opts0 (key_of j) j with
  | Ok u => bool_decide (u = di_URL d)
  | Err _ => false
  end.
Definition attached_to_foreign (c : cluster) (v : ImageClusterInstall) : bool :=
  bool_decide (boot_of v ≠ 0%Z) &&
  existsb (λ cond, bool_decide (c_Type cond = ClusterInstallRequirementsMet) && bool_decide (c_Status cond = ConditionTrue))
    (conditions_of v) &&
  negb (existsb (λ d, existsb (λ j, bool_decide (key_of j = key_of v) && has_image j d)
                        (seen (sys_api (base c)))) (extra c)).

Lemma shared_host_wrong_image :
  ∃ (c : cluster) v, layer_reachable (L := StubLibs) Reconciler.opts0 c ∧ v ∈ current (sys_api (base c)) ∧
    boot_of v ≠ 0%Z ∧ claims ClusterInstallRequirementsMet v ∧
    ∀ d j, d ∈ extra c → j ∈ seen (sys_api (base c)) → key_of j = key_of v →
      Reconciler.image_url Reconciler.opts0 (key_of v) j ≠ Ok (di_URL d).
Proof.
  set (c := layer_after rival_moves).
  assert (Hk : ∃ k, position (attached_to_foreign c) (current (sys_api (base c))) = Some k)
    by (eexists; vm_compute; reflexivity).
  pose proof (layer_after_reachable rival_moves) as Hc. fold c in Hc. clearbody c.
  destruct Hk as [k Hk]. destruct (position_split _ _ _ Hk) as (l1&v&l2&Hl&Hv). unfold attached_to_foreign in Hv. bools.
  exists c, v. split_and!; [done| |done| |].
  - rewrite Hl. apply elem_of_app. right. left.
  - match goal with H : existsb _ (conditions_of v) = true |- _ => apply existsb_exists in H as (cond&Hin&Hcond) end.
    bools. exists cond. by rewrite list_elem_of_In.
  - intros d j Hd Hj Hkj Hu. match goal with H : existsb _ (extra c) = false |- _ => revert H end.
    apply not_false_iff_true, existsb_exists. exists d. rewrite <- list_elem_of_In. split; [done|].
    apply existsb_exists. exists j. rewrite <- list_elem_of_In. split; [done|].
    rewrite bool_decide_eq_true_2 by done. unfold has_image. by rewrite Hkj, Hu, bool_decide_eq_true_2.
Qed.
End Hosts.
