(* ===== verification/Locks.v ===== *)
(** * The locks of the configuration directories, shared by the runs

    [System] with the lock files as shared state.  The lock file of a directory is
    locked by at most one run; it is released by [Unlock] of that run, by the end
    of its process, and by the removal of the file.  Then all work on a
    configuration directory is done by one run at a time. *)
From stdpp Require Import base gmap strings list.
From Stdlib Require Import ZArith Lia.
From S2P Require Import Prelude Types World GoStd Libs FileLock InputData Host Common Conditions Reconciler Monitor System Layers Sim.
Local Open Scope go_scope.

Module Locks.
Import System Layers.

(** ** The shared state *)

(** The run that holds the lock of the file at a path, and the runs whose process
    has ended. *)
Record lock_state := mkLocks { holders : gmap string nat; ended : list nat }.

Definition released (n : nat) (m : gmap string nat) : gmap string nat := filter (λ kv, kv.2 ≠ n) m.

(** [os.MkdirTemp] creates a new directory in the temporary directory of the
    system, and the data directory lies elsewhere. *)
Definition separate (dataDir tmp : string) : Prop := ¬ path_inside tmp dataDir ∧ ¬ path_inside dataDir tmp.

Definition concerns_locks (a : call) : bool :=
  match a with
  | FlockTryLock _ | FlockUnlock _ | OsRemoveAll _ | OsMkdirTemp _ _ => true
  | _ => false
  end.

(** The answer of the operating system to the n-th run.  [TryLock] opens and locks
    the file in one step. *)
Inductive flock_answer (dataDir : string) (n : nat) (m : gmap string nat)
    : ∀ a : call, answer a → gmap string nat → Prop :=
| flock_acquired p : m !! p = None → flock_answer dataDir n m (FlockTryLock p) (Ok true) (<[p := n]> m)
| flock_busy p : flock_answer dataDir n m (FlockTryLock p) (Ok false) m
| flock_error p e : flock_answer dataDir n m (FlockTryLock p) (Err e) m
| flock_released p x : m !! p = Some n → flock_answer dataDir n m (FlockUnlock p) x (delete p m)
| flock_kept p x : flock_answer dataDir n m (FlockUnlock p) x m
| flock_removed d x m' :
    m' ⊆ m → (∀ p, ¬ path_inside d p → m' !! p = m !! p) → flock_answer dataDir n m (OsRemoveAll d) x m'
| flock_temp d pat tmp : separate dataDir tmp → flock_answer dataDir n m (OsMkdirTemp d pat) (Ok tmp) m
| flock_temp_error d pat e : flock_answer dataDir n m (OsMkdirTemp d pat) (Err e) m
| flock_other a x : concerns_locks a = false → flock_answer dataDir n m a x m.

(** One such answer per call, for the scheduler. *)
Definition flock_check (dataDir : string) (n : nat) (m : gmap string nat) (a : call) (x : answer a)
    : option (gmap string nat) :=
  match a as a' return answer a' → option (gmap string nat) with
  | FlockTryLock p => λ x, match x with
      | Ok true => if bool_decide (m !! p = None) then Some (<[p := n]> m) else None
      | _ => Some m end
  | FlockUnlock p => λ _, Some (if bool_decide (m !! p = Some n) then delete p m else m)
  | OsRemoveAll d => λ _, Some (filter (λ kv, ¬ path_inside d kv.1) m)
  | OsMkdirTemp _ _ => λ x, match x with
      | Ok tmp => if bool_decide (¬ path_inside tmp dataDir) && bool_decide (¬ path_inside dataDir tmp)
                  then Some m else None
      | Err _ => Some m end
  | _ => λ _, Some m
  end x.

Lemma flock_check_answer dataDir n m a x m' :
  flock_check dataDir n m a x = Some m' → flock_answer dataDir n m a x m'.
Proof.
  destruct a; simpl; intros H; try (injection H as <-; by apply flock_other).
  - injection H as <-. apply flock_removed; [apply map_filter_subseteq|]. intros p Hp.
    destruct (m !! p) as [k|] eqn:Hm; [by apply map_lookup_filter_Some|]. apply map_lookup_filter_None. by left.
  - destruct x; [|injection H as <-; constructor]. destruct (_ && _) eqn:Hs; [|done].
    injection H as <-. bools. by constructor.
  - destruct x as [[]|]; [|injection H as <-; constructor..].
    destruct (bool_decide _) eqn:Hd; [|done]. injection H as <-. bools. by constructor.
  - injection H as <-. destruct (bool_decide _) eqn:Hd; [|constructor]. bools. by constructor.
Qed.

Definition lock_check (dataDir : string) (e : lock_state) (n : nat) (a : call) (x : answer a)
    : option lock_state :=
  if bool_decide (n ∈ ended e) then None
  else match flock_check dataDir n (holders e) a x with
       | Some m => Some (mkLocks m (ended e))
       | None => None
       end.

Definition lock_answer (dataDir : string) (e : lock_state) (n : nat) (a : call) (x : answer a)
    (e' : lock_state) : Prop :=
  (n ∉ ended e) ∧ ended e' = ended e ∧ flock_answer dataDir n (holders e) a x (holders e').

Lemma lock_check_answer dataDir e n a x e' : lock_check dataDir e n a x = Some e' → lock_answer dataDir e n a x e'.
Proof.
  unfold lock_check. destruct (bool_decide _) eqn:Hn; [done|]. destruct (flock_check _ _ _ _ _) as [m|] eqn:Hm; [|done].
  intros [= <-]. bools. split_and!; [done..|]. by apply flock_check_answer.
Qed.

(** The layer of the locks; a process may end at any time. *)
Definition lock_layer (dataDir : string) : Layer lock_state := {|
  layer_init := mkLocks ∅ [];
  layer_answer := lock_answer dataDir;
  layer_env e e' := ∃ n, e' = mkLocks (released n (holders e)) (n :: ended e);
  layer_check := lock_check dataDir;
  layer_check_answer := lock_check_answer dataDir;
|}.

(** ** Properties *)

(** [p] stays locked through the call [a] of the run that holds it. *)
Definition keeps (p : string) (a : call) : Prop :=
  a ≠ FlockUnlock p ∧ ∀ d, a = OsRemoveAll d → ¬ path_inside d p.

(** The run has acquired the lock of [p], and has neither released it nor removed
    the file since. *)
Definition owns (p : string) (h : trace) : Prop :=
  ∃ h1 h2, h = h1 ++ Ev (FlockTryLock p) (Ok true) :: h2 ∧ Forall (λ ev, keeps p (ev_call ev)) h2.

Lemma owns_last p h : owns p (h ++ [Ev (FlockTryLock p) (Ok true)]).
Proof. by exists h, []. Qed.

Lemma owns_step p h a x :
  owns p (h ++ [Ev a x]) → Ev a x = Ev (FlockTryLock p) (Ok true) ∨ owns p h ∧ keeps p a.
Proof.
  intros (h1&h2&Heq&Hk). destruct h2 as [|ev h2 _] using rev_ind.
  - apply app_inj_tail in Heq as [_ ?]. by left.
  - rewrite app_comm_cons, app_assoc in Heq. apply app_inj_tail in Heq as [-> <-].
    apply Forall_app in Hk as [Hk [Ha _]%Forall_cons]. right. split; [by exists h1, h2|done].
Qed.

Lemma owns_keeps p h a x : owns p h → keeps p a → owns p (h ++ [Ev a x]).
Proof.
  intros (h1&h2&->&Hk) Ha. exists h1, (h2 ++ [Ev a x]). rewrite <- app_assoc. split; [done|].
  apply Forall_app. split; [done|]. by apply Forall_singleton.
Qed.

Lemma holds_lock_last p h a x :
  FileLock.holds_lock p (h ++ [Ev a x]) →
  Ev a x = Ev (FlockTryLock p) (Ok true) ∨ FileLock.holds_lock p h ∧ a ≠ FlockUnlock p.
Proof.
  intros (h1&h2&Heq&Hk). destruct h2 as [|ev h2 _] using rev_ind.
  - apply app_inj_tail in Heq as [_ ?]. by left.
  - rewrite app_comm_cons, app_assoc in Heq. apply app_inj_tail in Heq as [-> <-].
    apply Forall_app in Hk as [Hk [Ha _]%Forall_cons]. right. split; [by exists h1, h2|done].
Qed.

(** An object whose names are those of files. *)
Definition plain_object (v : ImageClusterInstall) : Prop :=
  plain_elem (om_Namespace (ici_Meta v)) ∧ plain_elem (om_UID (ici_Meta v)).

Section locks.
Context `{L : GoLibs} (o : Reconciler.Options).
Hypothesis data_dir : Reconciler.DataDir o ≠ "".
#[local] Instance locks : Layer lock_state := lock_layer (Reconciler.DataDir o).

Definition config_dir (v : ImageClusterInstall) : string := InputData.lock_dir (Reconciler.DataDir o) v.
Definition lock_path (v : ImageClusterInstall) : string := FileLock.lock_file (config_dir v).
Definition image_dir (v : ImageClusterInstall) : string :=
  filepath_Join [filepath_Join [config_dir v; InputData.FilesDir]; InputData.ClusterConfigDir].

(** Calls that change a configuration directory or the secrets made from it. *)
Definition works (a : call) : Prop :=
  match a with
  | FetchAndPersist _ | OsRemoveAll _ | CreateSecret _ | UpdateSecret _ => True
  | OsWriteFile p _ _ => ∀ v, p ≠ lock_path v
  | _ => False
  end.

(** *** Paths *)

Lemma join_below v m :
  plain_object v → Forall plain_elem m →
  is_rooted (filepath_Join ((Reconciler.DataDir o) :: "namespaces" :: om_Namespace (ici_Meta v) :: om_UID (ici_Meta v) :: m))
    = is_rooted (Reconciler.DataDir o) ∧
  path_stack (filepath_Join ((Reconciler.DataDir o) :: "namespaces" :: om_Namespace (ici_Meta v) :: om_UID (ici_Meta v) :: m))
    = (reverse m ++ om_UID (ici_Meta v) :: om_Namespace (ici_Meta v) :: "namespaces" :: path_stack (Reconciler.DataDir o))%list.
Proof.
  intros [Hns Huid] Hm.
  destruct (Join_plain_stack (Reconciler.DataDir o) ("namespaces" :: om_Namespace (ici_Meta v) :: om_UID (ici_Meta v) :: m))
    as [Hr Hs]; [done|done|..].
  - repeat (apply Forall_cons; split; [try done|]); [|done].
    unfold plain_elem. split_and!; [done..|]. vm_compute. intros H. repeat (apply elem_of_cons in H as [H|H]; [done|]).
    by apply elem_of_nil in H.
  - split; [done|]. rewrite Hs, !reverse_cons, <- !app_assoc. done.
Qed.

Lemma below_config_dir v m :
  m ≠ [] → filepath_Join (config_dir v :: m)
    = filepath_Join (Reconciler.DataDir o :: "namespaces" :: om_Namespace (ici_Meta v) :: om_UID (ici_Meta v) :: m).
Proof. intros Hm. unfold config_dir, InputData.lock_dir. by rewrite Join_Join. Qed.

Lemma config_dir_names v :
  plain_object v → is_rooted (config_dir v) = is_rooted (Reconciler.DataDir o) ∧
  path_stack (config_dir v)
    = om_UID (ici_Meta v) :: om_Namespace (ici_Meta v) :: "namespaces" :: path_stack (Reconciler.DataDir o).
Proof. intros Hv. by apply (join_below v []). Qed.

Lemma lock_path_names v :
  plain_object v → is_rooted (lock_path v) = is_rooted (Reconciler.DataDir o) ∧
  path_stack (lock_path v) = FileLock.lockFileName :: path_stack (config_dir v).
Proof.
  intros Hv. unfold lock_path, FileLock.lock_file. rewrite below_config_dir by done.
  rewrite (proj2 (config_dir_names v Hv)). apply (join_below v [FileLock.lockFileName]); [done|].
  by apply (bool_decide_unpack _); vm_compute.
Qed.

Lemma image_dir_names v :
  plain_object v → path_stack (image_dir v)
    = InputData.ClusterConfigDir :: InputData.FilesDir :: path_stack (config_dir v).
Proof.
  intros Hv. unfold image_dir. rewrite below_config_dir, Join_Join by done. cbn [app].
  rewrite (proj2 (config_dir_names v Hv)).
  apply (join_below v [InputData.FilesDir; InputData.ClusterConfigDir]); [done|].
  by apply (bool_decide_unpack _); vm_compute.
Qed.

(** No lock file lies in an image directory or in a temporary one, and a
    configuration directory contains no lock file but its own. *)
Lemma image_dir_apart i v : plain_object i → plain_object v → ¬ path_inside (image_dir i) (lock_path v).
Proof.
  intros Hi Hv [_ Hs%suffix_length]. rewrite (image_dir_names i Hi), (proj2 (lock_path_names v Hv)) in Hs.
  rewrite (proj2 (config_dir_names i Hi)), (proj2 (config_dir_names v Hv)) in Hs. simpl in Hs. lia.
Qed.

Lemma temp_apart tmp v : separate (Reconciler.DataDir o) tmp → plain_object v → ¬ path_inside tmp (lock_path v).
Proof.
  intros [H1 H2] Hv. destruct (lock_path_names v Hv) as [Hr Hs]. destruct (config_dir_names v Hv) as [_ Hd].
  intros [Hrt [k Hk]]. rewrite Hs, Hd in Hk. rewrite Hr in Hrt.
  apply (app_eq_inv [FileLock.lockFileName; om_UID (ici_Meta v); om_Namespace (ici_Meta v); "namespaces"]) in Hk
    as [(k'&_&Hk)|(k'&_&Hk)].
  - apply H2. split; [done|]. by exists k'.
  - apply H1. split; [done|]. by exists k'.
Qed.

Lemma config_dir_apart i v :
  plain_object i → plain_object v → path_inside (config_dir i) (lock_path v) → lock_path i = lock_path v.
Proof.
  intros Hi Hv [_ [k Hk]]. rewrite (proj2 (lock_path_names v Hv)), (proj2 (config_dir_names v Hv)),
    (proj2 (config_dir_names i Hi)) in Hk.
  destruct k as [|x [|y k]]; [..|apply (f_equal length) in Hk; rewrite length_app in Hk; simpl in Hk; lia].
  - apply (f_equal length) in Hk. simpl in Hk. lia.
  - injection Hk as _ Huid Hns. unfold lock_path, config_dir, InputData.lock_dir. by rewrite Huid, Hns.
Qed.

(** *** One run *)

(** The run works on an object that is being deleted. *)
Definition deleting (h : trace) : bool :=
  match h with
  | ev :: _ => match ici_answer ev with Some i => Reconciler.deleted i | None => false end
  | [] => false
  end.

(** A run of the reconciler works on the directory of an object it knows: it
    removes the directory of an object that is being deleted, right after it has
    locked it, or it holds the lock and removes only its temporary directory and,
    when a file is missing there, the image directory, where it runs the installer. *)
Definition removes_config (i : ImageClusterInstall) (h : trace) (a : call) : Prop :=
  deleting h = true ∧ held ReconcilerRun h i ∧ Reconciler.deleted i = true ∧ a = OsRemoveAll (config_dir i) ∧
  ∃ h', h = h' ++ [Ev (FlockTryLock (lock_path i)) (Ok true)].
Definition builds_image (i : ImageClusterInstall) (h : trace) (a : call) : Prop :=
  deleting h = false ∧ FileLock.holds_lock (lock_path i) h ∧
  (∀ d, a = OsRemoveAll d → (d = image_dir i ∧ InputData.found_missing (image_dir i) h) ∨
                            Ev (OsMkdirTemp "" "asset-generation-") (Ok d) ∈ h) ∧
  ∀ d, a = FetchAndPersist d → d = image_dir i.
Lemma works_guard req h a :
  Reconciler.run_guard o req h a → works a →
  ∃ i, known i h ∧ (removes_config i h a ∨ builds_image i h a).
Proof.
  unfold removes_config, builds_image. intros [[-> ->]|(i&h'&->&Hg)] Hw; [done|]. unfold Reconciler.reconcile_guard in Hg.
  destruct (Reconciler.deleted i) eqn:Hdel.
  - exists i. split; [eapply known_decoded; [apply list_elem_of_here|done]|]. left. split; [done|].
    split; [eexists; split; [apply list_elem_of_here|done]|]. split; [done|].
    destruct a; try done; cbn [Reconciler.deletion_guard works] in Hg, Hw.
    3: by destruct Hg as [-> ?].
    all: destruct Hg as [[Hg|Hg]|[Hg|Hg]]; try discriminate Hg.
    injection Hg as -> _ _. by destruct (Hw i).
  - destruct Hg as [(n&->&_)|(_&[[k ->]|[Hl|Hg]])]; [done|done|by destruct a|].
    destruct (Conditions.InstallationCompleted i); [by destruct Hg as (ref&_&_&Hr); destruct a|].
    assert (Hin : ∃ ici cd, known ici (Ev (GetICI req) (Ok i) :: h') ∧
      InputData.input_guard (Reconciler.DataDir o) ici cd (Ev (GetICI req) (Ok i) :: h') a).
    { destruct a; try done; (destruct Hg as [Hr|Hg]; [discriminate Hr|exact Hg]). }
    destruct Hin as (ici&cd&Hk&[->|[Hlc|[Hb Hh]]]); [done|..]; exists ici; (split; [done|]).
    + destruct Hlc as [[->| ->]|[->| ->]]; try done. by destruct (Hw ici).
    + right. split_and!; [done|done|by intros d ->|]. intros d ->. by destruct Hb as [-> _].
Qed.

(** *** The invariant *)

(** The file that an answer locks. *)
Definition acquires (ev : event answer) : option string :=
  match ev with
  | Ev a x =>
      match a return answer a → option string with
      | FlockTryLock p => λ x, match x with Ok true => Some p | _ => None end
      | _ => λ _, None
      end x
  end.

(** The temporary directory that an answer has made. *)
Definition made_temp (ev : event answer) : option string :=
  match ev with
  | Ev a x =>
      match a return answer a → option string with
      | OsMkdirTemp _ _ => λ x, match x with Ok tmp => Some tmp | Err _ => None end
      | _ => λ _, None
      end x
  end.

Lemma flock_acquires dataDir n m a x m' p :
  flock_answer dataDir n m a x m' → Ev a x = Ev (FlockTryLock p) (Ok true) → m' !! p = Some n.
Proof.
  intros Hf Heq%(f_equal acquires). destruct Hf as [p' _| | | | | | | |a x Ha]; try discriminate Heq.
  - injection Heq as ->. apply lookup_insert_eq.
  - by destruct a.
Qed.

Lemma flock_keeps dataDir n m a x m' p k :
  flock_answer dataDir n m a x m' → m !! p = Some k → (k = n → a ≠ FlockUnlock p) →
  (∀ d, a = OsRemoveAll d → ¬ path_inside d p) → m' !! p = Some k.
Proof.
  intros Hf Hp Hu Hr. destruct Hf as [p' Hm| | |p' x Hm|p' x|d x m' Hsub Hm| | |]; try done.
  - rewrite lookup_insert_ne; [done|]. intros ->. congruence.
  - rewrite lookup_delete_ne; [done|]. intros ->. apply (Hu ltac:(congruence)). done.
  - rewrite Hm; [done|]. by apply Hr.
Qed.

Definition temps_apart (h : trace) : Prop :=
  ∀ d pat tmp, Ev (OsMkdirTemp d pat) (Ok tmp) ∈ h → separate (Reconciler.DataDir o) tmp.

(** Only a run that has locked a directory to delete it removes its lock file. *)
Lemma removes_own by_ req h d v :
  run_may o by_ req h (OsRemoveAll d) → (by_ = ReconcilerRun → ∀ i, known i h → plain_object i) →
  temps_apart h → plain_object v → path_inside d (lock_path v) → deleting h = true ∧ owns (lock_path v) h.
Proof.
  intros Hmay Hplain Htemp Hv Hin. destruct by_; cbn [run_may] in Hmay.
  - destruct (works_guard _ _ _ Hmay I) as (i&Hk%Hplain&[(Hd&_&_&[= ->]&h'&->)|(_&_&Hd&_)]); [| |done].
    + split; [done|]. rewrite <- (config_dir_apart i v) by done. apply owns_last.
    + destruct (Hd d eq_refl) as [[-> _]|Ht]; [by apply image_dir_apart in Hin|].
      apply Htemp in Ht. by apply temp_apart in Hin.
  - destruct Hmay as [[=]|(i&h'&_&_&_&[_ [=]])].
Qed.

Definition run_ok (e : lock_state) (n : nat) (h : trace) : Prop :=
  temps_apart h ∧
  (∀ v, plain_object v → FileLock.holds_lock (lock_path v) h → owns (lock_path v) h ∨ deleting h = true) ∧
  (n ∉ ended e → ∀ v, plain_object v → owns (lock_path v) h → holders e !! lock_path v = Some n).

Definition locks_ok (c : layered lock_state) : Prop :=
  ∀ n th, sys_threads (base c) !! n = Some th → run_ok (extra c) n (th_hist th).

Lemma run_ok_nil e n : run_ok e n [].
Proof.
  split_and!.
  - by intros ??? ?%not_elem_of_nil.
  - by intros v _ ([|]&?&?&_).
  - by intros _ v _ ([|]&?&?&_).
Qed.

Lemma deleting_app h t : deleting h = true → deleting (h ++ t) = true.
Proof. by destruct h. Qed.

(** A call of the n-th run: what it does to the run itself and to the others. *)
Lemma run_ok_call by_ req h a x e n e' :
  run_may o by_ req h a → (by_ = ReconcilerRun → ∀ i, known i h → plain_object i) →
  lock_answer (Reconciler.DataDir o) e n a x e' → run_ok e n h → run_ok e' n (h ++ [Ev a x]).
Proof.
  intros Hmay Hplain (Hn&Hend&Hf) (Ht&Hown&Hlk).
  assert (Hrem : ∀ v, plain_object v → a ≠ FlockUnlock (lock_path v) → keeps (lock_path v) a ∨ deleting h = true).
  { intros v Hv Hu. destruct (deleting h) eqn:Hd; [by right|]. left. split; [done|]. intros d -> Hin.
    destruct (removes_own _ _ _ _ _ Hmay Hplain Ht Hv Hin). congruence. }
  split_and!.
  - intros d pat tmp [?|Hin%list_elem_of_singleton]%elem_of_app; [by eapply Ht|].
    apply (f_equal made_temp) in Hin. destruct Hf as [| | | | | |? ? tmp' Hs| |a x Ha]; try discriminate Hin.
    + by injection Hin as <-.
    + by destruct a.
  - intros v Hv [Heq|[Hh Hu]]%holds_lock_last; [rewrite Heq; left; apply owns_last|].
    destruct (Hown v Hv Hh) as [Ho|Hd]; [|by right; apply deleting_app].
    destruct (Hrem v Hv Hu) as [Hk|Hd]; [left; by apply owns_keeps|by right; apply deleting_app].
  - intros _ v Hv [Heq|[Ho [Hu Hr]]]%owns_step; [by eapply flock_acquires|]. by eapply flock_keeps; eauto.
Qed.

Lemma run_ok_other by_ req h a x e n e' m hm :
  run_may o by_ req h a → (by_ = ReconcilerRun → ∀ i, known i h → plain_object i) → run_ok e n h →
  lock_answer (Reconciler.DataDir o) e n a x e' → m ≠ n → run_ok e m hm → run_ok e' m hm.
Proof.
  intros Hmay Hplain (Ht&_&Hn) (Hne&Hend&Hf) Hmn (?&?&Hlk). split_and!; [done|done|].
  rewrite Hend. intros Hm v Hv Ho. eapply flock_keeps; [exact Hf|by apply Hlk|done|]. intros d -> Hin.
  destruct (removes_own _ _ _ _ _ Hmay Hplain Ht Hv Hin) as [_ Hown].
  pose proof (Hn Hne v Hv Hown) as H1. pose proof (Hlk Hm v Hv Ho) as H2. congruence.
Qed.

Lemma known_plain s th i :
  (∀ v, v ∈ seen s → plain_object v) → thread_ok o s th → th_by th = ReconcilerRun →
  known i (th_hist th) → plain_object i.
Proof.
  intros Hs Hth Hby Hk. destruct (known_stored o _ _ _ Hth Hby Hk) as (j&Hj&_&Hkey&Huid&_).
  injection Hkey as Hns _. unfold plain_object. rewrite Hns, Huid. by apply Hs.
Qed.

Lemma locks_step c c' :
  reachable o (base c) → (∀ v, v ∈ seen (sys_api (base c)) → plain_object v) →
  locks_ok c → layer_step o c c' → locks_ok c'.
Proof.
  intros Hr Hplain Hok Hs. destruct Hs as [s s' e e' ths1 ths2 by_ req h a k x Ha Hl|st st' e He|st e e' [n ->]].
  - set (th := mkThread by_ req h (Act a k)) in *. simpl in Hr, Hplain.
    assert (Hin : th ∈ ths1 ++ th :: ths2) by (apply elem_of_app; right; left).
    apply reachable_invariant in Hr as (_&_&Hth). pose proof (Hth _ Hin) as [[Hmay _] _].
    assert (Hk : by_ = ReconcilerRun → ∀ i, known i h → plain_object i).
    { intros Hby i. apply (known_plain s th); [done|by apply Hth|done]. }
    assert (Hn : run_ok e (length ths1) h) by (apply (Hok _ th); by apply list_lookup_middle).
    intros m thm Hm. simpl in Hm |- *. destruct (decide (m = length ths1)) as [->|Hne].
    + rewrite list_lookup_middle in Hm by done. injection Hm as <-. simpl.
      eapply run_ok_call; [exact Hmay|exact Hk|exact Hl|exact Hn].
    + eapply run_ok_other; [exact Hmay|done|done|exact Hl|done|]. apply (Hok m thm). simpl.
      rewrite lookup_app in Hm |- *. destruct (ths1 !! m) eqn:Hm1; [done|].
      apply lookup_ge_None in Hm1. destruct (m - length ths1)%nat as [|q] eqn:Hq; [lia|done].
  - intros m thm Hm. simpl in Hm |- *. destruct He; simpl in Hm; try (by apply (Hok m thm)).
    apply lookup_app_Some in Hm as [?|[_ Hm]]; [by apply (Hok m thm)|].
    apply list_elem_of_lookup_2, list_elem_of_singleton in Hm as ->. apply run_ok_nil.
  - intros m thm Hm. destruct (Hok m thm Hm) as (?&?&Hlk). split_and!; [done|done|]. simpl.
    intros [Hne ?]%not_elem_of_cons v Hv Ho. apply map_lookup_filter_Some. split; [by apply Hlk|done].
Qed.

Lemma locks_invariant c :
  layer_reachable o c → (∀ v, v ∈ seen (sys_api (base c)) → plain_object v) → locks_ok c.
Proof.
  induction 1 as [|c c' Hr IH Hs]; intros Hplain; [by intros n th ?|].
  assert (Hp : ∀ v, v ∈ seen (sys_api (base c)) → plain_object v)
    by (intros v ?; by eapply Hplain, layer_step_seen).
  eapply locks_step; [by eapply layer_reachable_system|done|by apply IH|done].
Qed.

Lemma owner_unique c n m thn thm v :
  locks_ok c → sys_threads (base c) !! n = Some thn → sys_threads (base c) !! m = Some thm →
  n ∉ ended (extra c) → m ∉ ended (extra c) → plain_object v →
  owns (lock_path v) (th_hist thn) → owns (lock_path v) (th_hist thm) → m = n.
Proof.
  intros Hok Hn Hm Hne Hme Hv Hon Hom. destruct (Hok n _ Hn) as (_&_&Hln), (Hok m _ Hm) as (_&_&Hlm).
  pose proof (Hlm Hme v Hv Hom). pose proof (Hln Hne v Hv Hon). congruence.
Qed.

(** A run that is about to work owns the lock of an object it knows. *)
Lemma worker_owns c n by_ req h a k :
  layer_reachable o c → (∀ v, v ∈ seen (sys_api (base c)) → plain_object v) →
  sys_threads (base c) !! n = Some (mkThread by_ req h (Act a k)) → works a →
  by_ = ReconcilerRun ∧
  ∃ i, known i h ∧ plain_object i ∧ owns (lock_path i) h ∧ (removes_config i h a ∨ builds_image i h a).
Proof.
  intros Hc Hplain Hn Hw. pose proof (locks_invariant c Hc Hplain) as Hok.
  pose proof (layer_reachable_system _ _ Hc) as (_&_&Hth)%reachable_invariant.
  pose proof (Hth _ (list_elem_of_lookup_2 _ _ _ Hn)) as Hthn. pose proof Hthn as [[Hmay _] _].
  destruct by_; cbn [run_may th_by th_req th_hist] in Hmay.
  2: { destruct Hmay as [Ha|(i&h'&_&_&_&Hg)]; [by subst a|]. destruct a; try done; by destruct Hg. }
  split; [done|]. destruct (works_guard _ _ _ Hmay Hw) as (i&Hk&Hi).
  pose proof (known_plain _ _ _ Hplain Hthn eq_refl Hk) as Hpi.
  exists i. split_and!; [done|done| |done].
  destruct (Hok n _ Hn) as (_&Hown&_). simpl in Hown.
  destruct Hi as [(_&_&_&_&h'&->)|(Hd&Hh&_)]; [apply owns_last|]. destruct (Hown i Hpi Hh) as [?|?]; congruence.
Qed.

(** C8: one run at a time works on a configuration directory.  In every
    interleaving of runs, also ones whose process ends at any point, of several
    runs for the same object, and with directories being deleted: when a run that
    is still alive is about to run the installer, to remove or write files other
    than a lock file, or to store a secret of a cluster, then it has locked the
    directory of an object with the name and the UID of a stored version of its
    object, has neither released the lock nor removed the lock file since, and no
    other live run holds this lock in that way. *)
Theorem one_worker_per_directory c n by_ req h a k :
  layer_reachable o c → (∀ v, v ∈ seen (sys_api (base c)) → plain_object v) →
  sys_threads (base c) !! n = Some (mkThread by_ req h (Act a k)) → n ∉ ended (extra c) → works a →
  ∃ v, v ∈ seen (sys_api (base c)) ∧ key_of v = req ∧ owns (lock_path v) h ∧
    ∀ m th, sys_threads (base c) !! m = Some th → m ∉ ended (extra c) →
      owns (lock_path v) (th_hist th) → m = n.
Proof.
  intros Hc Hplain Hn Hne Hw. destruct (worker_owns _ _ _ _ _ _ _ Hc Hplain Hn Hw) as (->&i&Hk&Hpi&Ho&_).
  pose proof (layer_reachable_system _ _ Hc) as (_&_&Hth)%reachable_invariant.
  destruct (known_stored o _ _ _ (Hth _ (list_elem_of_lookup_2 _ _ _ Hn)) eq_refl Hk) as (v&Hv&Hkv&Hkey&Huid&_).
  assert (Hlock : lock_path v = lock_path i).
  { unfold lock_path, config_dir, InputData.lock_dir. injection Hkey as Hns _. by rewrite Hns, Huid. }
  exists v. rewrite Hlock. split_and!; [done..|]. intros m th Hm Hme Hom.
  by eapply owner_unique; [apply locks_invariant|exact Hn|exact Hm| | |exact Hpi| |].
Qed.
End locks.

(** *** Scenarios *)

(** Two runs for one object: the second one has come up to the lock, the first one
    is about to run the installer. *)
Definition worker_moves : list move :=
  [Create Sim.ici0; Start ReconcilerRun Sim.req0; Start ReconcilerRun Sim.req0; Run 1 9; Run 0 33].

Definition plain_object_dec v : {plain_object v} + {¬ plain_object v}.
Proof. unfold plain_object, plain_elem, slash_free. apply (decide _). Defined.

(** The first run is about to run the installer. *)
Definition about_to_install (st : system) : bool :=
  match sys_threads st !! 0 with
  | Some (mkThread _ _ _ (Act (FetchAndPersist _) _)) => true
  | _ => false
  end.

Lemma one_worker_per_directory_witness :
  ∃ (c : layered lock_state) by_ req h d k v,
    layer_reachable (L := StubLibs) (Layer0 := lock_layer "/data") Reconciler.opts0 c ∧
    sys_threads (base c) !! 0 = Some (mkThread by_ req h (Act (FetchAndPersist d) k)) ∧
    v ∈ seen (sys_api (base c)) ∧ owns (lock_path Reconciler.opts0 v) h.
Proof.
  set (c := layer_after (Layer0 := lock_layer "/data") worker_moves).
  assert (Hn : about_to_install (base c) = true) by (vm_compute; reflexivity).
  assert (Hp : forallb (λ v, if plain_object_dec v then true else false) (seen (sys_api (base c))) = true)
    by (vm_compute; reflexivity).
  assert (He : bool_decide (0 ∈ ended (extra c)) = false) by (vm_compute; reflexivity).
  pose proof (layer_after_reachable (Layer0 := lock_layer "/data") worker_moves) as Hc. fold c in Hc. clearbody c.
  apply bool_decide_eq_false_1 in He. unfold about_to_install in Hn.
  destruct (sys_threads (base c) !! 0) as [[by_ req h [r|a k]]|] eqn:Hth; [discriminate Hn| |discriminate Hn].
  destruct a; try discriminate Hn.
  assert (Hplain : ∀ v, v ∈ seen (sys_api (base c)) → plain_object v).
  { intros v Hv%list_elem_of_In. rewrite forallb_forall in Hp. specialize (Hp v Hv). by destruct (plain_object_dec v). }
  assert (Hdir : Reconciler.DataDir Reconciler.opts0 ≠ "") by discriminate.
  destruct (one_worker_per_directory (L := StubLibs) Reconciler.opts0 Hdir c 0 _ _ _ _ _ Hc Hplain Hth He I)
    as (v&Hv&_&Ho&_).
  exists c, by_, req, h, dir, k, v. exact (conj Hc (conj Hth (conj Hv Ho))).
Defined.
End Locks.
