(* ===== verification/Images.v ===== *)
(** * The image files, shared by the runs and the image server

    [System] with the files of the data directory as shared state, next to the
    lock files of [Locks] and the DataImages of [Hosts].  Once the image of an
    object is complete, it stays so until the object is being deleted: a run that
    finds a file missing and builds the image anew holds the lock, and whoever
    completes the image holds it too.  So the URL in the DataImage of a booted
    host is served. *)
From stdpp Require Import base gmap strings list.
From Stdlib Require Import Ascii ZArith Lia.
From S2P Require Import Prelude Types World GoStd URL Libs FileLock InputData Host Common Conditions Reconciler ImageServer Manager System Layers Hosts Locks Sim.
Local Open Scope go_scope.

Module Images.
Import System Layers Hosts Locks.

(** ** The shared state *)

(** Calls that may take files away, or that tell of them. *)
Definition concerns_files (a : call) : bool :=
  match a with
  | OsStat _ | OsRemoveAll _ | FetchAndPersist _ => true
  | _ => false
  end.

(** The answers of the file system, which holds the paths [fs].  [Stat] tells
    whether there is a file; [RemoveAll] takes away nothing outside its directory;
    the installer works in its directory, consumes its input there, and leaves its
    output if it succeeds; everything else, and everybody else, may add files. *)
Inductive file_answer (fs : list string) : ∀ a : call, answer a → list string → Prop :=
| file_stat p x : (stat_ok x = true ↔ p ∈ fs) → file_answer fs (OsStat p) x fs
| file_removed d x fs' :
    (∀ p, p ∈ fs → ¬ path_inside d p → p ∈ fs') → file_answer fs (OsRemoveAll d) x fs'
| file_installed d x fs' :
    (∀ p, p ∈ fs → p ∈ fs' ∨ (path_inside d p ∧ p ∉ InputData.output_files d)) →
    (x = None → ∀ p, p ∈ InputData.output_files d → p ∈ fs') → file_answer fs (FetchAndPersist d) x fs'
| file_other a x fs' : concerns_files a = false → fs ⊆ fs' → file_answer fs a x fs'.

(** One such answer per call, for the scheduler. *)
Definition file_check (fs : list string) (a : call) (x : answer a) : option (list string) :=
  match a as a' return answer a' → option (list string) with
  | OsStat p => λ x, if bool_decide (stat_ok x = true ↔ p ∈ fs) then Some fs else None
  | OsRemoveAll d => λ _, Some (filter (λ p, ¬ path_inside d p) fs)
  | FetchAndPersist d => λ _, Some (InputData.output_files d ++ fs)
  | OsWriteFile p _ _ | OsMkdirAll p _ => λ _, Some (p :: fs)
  | _ => λ _, Some fs
  end x.

Lemma file_check_answer fs a x fs' : file_check fs a x = Some fs' → file_answer fs a x fs'.
Proof.
  destruct a; unfold file_check; intros H; try (injection H as <-; by apply file_other).
  - case_bool_decide; [|done]. injection H as <-. by constructor.
  - injection H as <-. apply file_other; [done|]. set_solver.
  - injection H as <-. apply file_removed. intros p ??. by apply list_elem_of_filter.
  - injection H as <-. apply file_other; [done|]. set_solver.
  - assert (fs' = InputData.output_files dir ++ fs) as -> by congruence.
    apply file_installed; [intros p ?; left|intros _ p ?]; apply elem_of_app; auto.
Qed.

(** The layer of the files; other writers may add some. *)
Definition file_layer : Layer (list string) := {|
  layer_init := [];
  layer_answer fs _ a x fs' := file_answer fs a x fs';
  layer_env fs fs' := fs ⊆ fs';
  layer_check fs _ a x := file_check fs a x;
  layer_check_answer fs _ a x fs' := file_check_answer fs a x fs';
|}.

(** ** Properties *)

Section images.
Context `{L : GoLibs} (o : Reconciler.Options).
Hypothesis data_dir : Reconciler.DataDir o ≠ "".
#[local] Instance locks_files : Layer (lock_state * list string) :=
  pair_layer (lock_layer (Reconciler.DataDir o)) file_layer.

Abbreviation config_dir := (Locks.config_dir o).
Abbreviation lock_path := (Locks.lock_path o).
Abbreviation image_dir := (Locks.image_dir o).

(** The files of the image of an object; its directory is that of [w]. *)
Definition image_files (v : ImageClusterInstall) : list string := InputData.output_files (image_dir v).
Definition same_directory (w v : ImageClusterInstall) : Prop :=
  om_Namespace (ici_Meta w) = om_Namespace (ici_Meta v) ∧ om_UID (ici_Meta w) = om_UID (ici_Meta v).

(** *** Paths *)

Lemma same_directory_paths w v :
  same_directory w v → config_dir w = config_dir v ∧ lock_path w = lock_path v ∧ image_dir w = image_dir v.
Proof.
  unfold Locks.lock_path, Locks.image_dir, Locks.config_dir, InputData.lock_dir. by intros [-> ->].
Qed.

(** Where the files of an image are. *)
Lemma image_file_names v f :
  plain_object v → f ∈ image_files v →
  is_rooted f = is_rooted (Reconciler.DataDir o) ∧
  ∃ m, path_stack f = m ++ path_stack (image_dir v).
Proof.
  intros Hv Hf. rewrite (image_dir_names o data_dir v Hv), (proj2 (config_dir_names o data_dir v Hv)).
  assert (Hm : ∃ m, m ≠ [] ∧ Forall plain_elem m ∧ f = filepath_Join (image_dir v :: m)).
  { unfold image_files, InputData.output_files in Hf.
    repeat (apply elem_of_cons in Hf as [->|Hf];
      [eexists; split; [|split; [|reflexivity]]; [done|by apply (bool_decide_unpack _); vm_compute]|]).
    by apply not_elem_of_nil in Hf. }
  destruct Hm as (m&Hne&Hm&->). unfold Locks.image_dir.
  rewrite below_config_dir by done. do 2 (rewrite (Join_Join (Reconciler.DataDir o)) by done; cbn [app]).
  destruct (join_below o data_dir v (InputData.FilesDir :: InputData.ClusterConfigDir :: m)) as [Hr Hs]; [done| |].
  - repeat (apply Forall_cons; split); [by apply (bool_decide_unpack _); vm_compute..|done].
  - split; [exact Hr|]. exists (reverse m). rewrite Hs, !reverse_cons, <- !app_assoc. done.
Qed.

Lemma path_inside_stack d p : path_inside d p → ∃ k, path_stack p = k ++ path_stack d.
Proof. intros [_ [k Hk]]. by exists k. Qed.

(** Lists that end alike, up to there. *)
Lemma same_end {A} (k1 k2 x1 x2 s : list A) :
  length x1 = length x2 → k1 ++ x1 ++ s = k2 ++ x2 ++ s → x1 = x2.
Proof.
  intros Hlen. rewrite !(assoc_L (++)). intros H%(inj (.++ s)). by apply app_inj_2 in H as [_ ?].
Qed.

(** A file of an image lies only in its own image and configuration directories,
    and in no temporary one. *)
Lemma image_file_inside i v f :
  plain_object i → plain_object v → f ∈ image_files v → path_inside (image_dir i) f → same_directory i v.
Proof.
  intros Hi Hv Hf [k Hk]%path_inside_stack. destruct (image_file_names v f Hv Hf) as (_&m&Hm).
  rewrite Hm, (image_dir_names o data_dir i Hi), (image_dir_names o data_dir v Hv) in Hk.
  rewrite (proj2 (config_dir_names o data_dir i Hi)), (proj2 (config_dir_names o data_dir v Hv)) in Hk.
  apply (same_end m k [_; _; _; _; _] [_; _; _; _; _]) in Hk; [|done]. split; congruence.
Qed.

Lemma image_file_config i v f :
  plain_object i → plain_object v → f ∈ image_files v → path_inside (config_dir i) f → same_directory i v.
Proof.
  intros Hi Hv Hf [k Hk]%path_inside_stack. destruct (image_file_names v f Hv Hf) as (_&m&Hm).
  rewrite Hm, (image_dir_names o data_dir v Hv) in Hk.
  rewrite (proj2 (config_dir_names o data_dir i Hi)), (proj2 (config_dir_names o data_dir v Hv)) in Hk.
  change (m ++ ?a :: ?b :: ?l) with (m ++ [a; b] ++ l) in Hk. rewrite (assoc_L (++)) in Hk.
  apply (same_end (m ++ [_; _]) k [_; _; _] [_; _; _]) in Hk; [split; congruence|done].
Qed.

Lemma image_file_temp tmp v f :
  separate (Reconciler.DataDir o) tmp → plain_object v → f ∈ image_files v → ¬ path_inside tmp f.
Proof.
  intros [H1 H2] Hv Hf [Hrt [k Hk]]. destruct (image_file_names v f Hv Hf) as (Hr&m&Hm).
  rewrite Hm, (image_dir_names o data_dir v Hv), (proj2 (config_dir_names o data_dir v Hv)) in Hk. rewrite Hr in Hrt.
  change (m ++ ?a :: ?b :: ?x :: ?y :: ?z :: ?l) with (m ++ [a; b; x; y; z] ++ l) in Hk. rewrite (assoc_L (++)) in Hk.
  apply app_eq_inv in Hk as [(k'&_&Hk)|(k'&_&Hk)].
  - apply H2. split; [done|]. by exists k'.
  - apply H1. split; [done|]. by exists k'.
Qed.

Lemma image_dir_inj i v : plain_object i → plain_object v → image_dir i = image_dir v → same_directory i v.
Proof.
  intros Hi Hv Heq%(f_equal path_stack).
  rewrite (image_dir_names o data_dir i Hi), (image_dir_names o data_dir v Hv) in Heq.
  rewrite (proj2 (config_dir_names o data_dir i Hi)), (proj2 (config_dir_names o data_dir v Hv)) in Heq.
  split; congruence.
Qed.

(** *** What a run has seen of an image *)

Abbreviation locked p := (Ev (answer := answer) (FlockTryLock p) (Ok true)).

Lemma found_app fs gs : InputData.found (fs ++ gs) = InputData.found fs ++ InputData.found gs.
Proof. apply fmap_app. Qed.

Lemma found_owns p h1 fs : owns p (h1 ++ locked p :: InputData.found fs).
Proof.
  exists h1, (InputData.found fs). split; [done|]. unfold InputData.found. apply Forall_fmap, Forall_forall.
  intros f _. split; [done|]. by intros d.
Qed.

Lemma found_last p h a x h1 fs :
  h ++ [Ev a x] = h1 ++ locked p :: InputData.found fs →
  fs = [] ∨ ∃ fs' f, fs = fs' ++ [f] ∧ Ev a x = Ev (OsStat f) StatOk ∧ h = h1 ++ locked p :: InputData.found fs'.
Proof.
  destruct fs as [|f fs' _] using rev_ind; [by left|]. intros Heq. right. exists fs', f. split; [done|].
  rewrite found_app, app_comm_cons, (assoc_L (++)) in Heq. by apply app_inj_tail in Heq as [-> <-].
Qed.

(** How an image comes to be known as complete. *)
Lemma image_present_last p iso h a x :
  InputData.image_present p iso (h ++ [Ev a x]) →
  InputData.image_present p iso h ∨ Ev a x = Ev (FetchAndPersist iso) None ∨
  ∃ h1 fs f, InputData.output_files iso = fs ++ [f] ∧ Ev a x = Ev (OsStat f) StatOk ∧
    h = h1 ++ locked p :: InputData.found fs.
Proof.
  intros [[?| ->%list_elem_of_singleton]%elem_of_app|(h1&h2&Heq)]; [by left; left|by right; left|].
  destruct h2 as [|ev h2 _] using rev_ind.
  - rewrite app_nil_r in Heq. apply found_last in Heq as [[=]|(fs&f&?&?&?)]. right. right. by exists h1, fs, f.
  - left. right. exists h1, h2. rewrite !app_comm_cons, !(assoc_L (++)) in Heq.
    apply app_inj_tail in Heq as [-> _]. by rewrite <- !(assoc_L (++)), <- app_comm_cons.
Qed.

Lemma file_answer_stat fs a x fs' f y :
  file_answer fs a x fs' → Ev a x = Ev (OsStat f) y → fs' = fs ∧ (stat_ok y = true ↔ f ∈ fs).
Proof.
  intros Hf Heq. set (P := λ ev : event answer, match ev with
    | Ev a x => match a return answer a → Prop with
                | OsStat p => λ x, fs' = fs ∧ (stat_ok x = true ↔ p ∈ fs)
                | _ => λ _, True end x end).
  assert (HP : P (Ev a x)) by (destruct Hf as [| | |a x fs' Ha]; [done|done|done|by destruct a]).
  by rewrite Heq in HP.
Qed.

Lemma file_answer_installed fs a x fs' d :
  file_answer fs a x fs' → Ev a x = Ev (FetchAndPersist d) None → InputData.output_files d ⊆ fs'.
Proof.
  intros Hf Heq. set (P := λ ev : event answer, match ev with
    | Ev a x => match a return answer a → Prop with
                | FetchAndPersist d => λ x, x = None → ∀ p, p ∈ InputData.output_files d → p ∈ fs'
                | _ => λ _, True end x end).
  assert (HP : P (Ev a x)) by (destruct Hf as [| | |a x fs' Ha]; [done|done|done|by destruct a]).
  rewrite Heq in HP. intros p. by apply HP.
Qed.

(** *** The invariant *)

Definition complete (fs : list string) (v : ImageClusterInstall) : Prop := image_files v ⊆ fs.
(** An object with this directory was being deleted. *)
Definition gone (s : api) (v : ImageClusterInstall) : Prop :=
  ∃ w, w ∈ seen s ∧ Reconciler.deleted w = true ∧ same_directory w v.
(** Some run knows the image of the object as complete. *)
Definition certified (ths : list thread) (v : ImageClusterInstall) : Prop :=
  ∃ th, th ∈ ths ∧ InputData.image_present (lock_path v) (image_dir v) (th_hist th).

Definition files_ok (c : layered (lock_state * list string)) : Prop :=
  (∀ v, plain_object v → certified (sys_threads (base c)) v →
     complete (extra c).2 v ∨ gone (sys_api (base c)) v) ∧
  ∀ n th v, sys_threads (base c) !! n = Some th → n ∉ ended (extra c).1 → plain_object v →
    (∀ h1 fs, fs `prefix_of` image_files v → th_hist th = h1 ++ locked (lock_path v) :: InputData.found fs →
       fs ⊆ (extra c).2) ∧
    (owns (lock_path v) (th_hist th) → InputData.found_missing (image_dir v) (th_hist th) →
       certified (sys_threads (base c)) v → gone (sys_api (base c)) v).

Definition plain_system (c : layered (lock_state * list string)) : Prop :=
  ∀ v, v ∈ seen (sys_api (base c)) → plain_object v.

Lemma locks_part c :
  layer_reachable o c → plain_system c →
  locks_ok o (mkLayered (base c) (extra c).1).
Proof. intros Hc Hp. apply (locks_invariant o data_dir); [by apply pair_first in Hc|done]. Qed.

(** A call takes a file of an image away only if the run owns the lock, and found
    a file of the image missing just now, or the object is being deleted. *)
Lemma file_kept c n by_ req h a k x fs' v f :
  layer_reachable o c → plain_system c →
  sys_threads (base c) !! n = Some (mkThread by_ req h (Act a k)) → n ∉ ended (extra c).1 →
  file_answer (extra c).2 a x fs' → plain_object v → f ∈ image_files v → f ∈ (extra c).2 →
  f ∈ fs' ∨ (owns (lock_path v) h ∧ (InputData.found_missing (image_dir v) h ∨ gone (sys_api (base c)) v)).
Proof.
  intros Hc Hp Hn Hne Hf Hv Hfv Hin.
  pose proof (locks_part _ Hc Hp n _ Hn) as (Htemp&_).
  assert (Hwork : works o a → ∃ i, plain_object i ∧ owns (lock_path i) h ∧
    ((a = OsRemoveAll (config_dir i) ∧ gone (sys_api (base c)) i) ∨ builds_image o i h a)).
  { intros Hw. apply pair_first in Hc as Hc1.
    destruct (worker_owns o data_dir _ _ _ _ _ _ _ Hc1 Hp Hn Hw) as (->&i&_&Hi&Ho&[Hr|Hb]); exists i.
    - split_and!; [done..|]. left. destruct Hr as (_&Hheld&Hdel&->&_). split; [done|]. exists i.
      apply layer_reachable_system, reachable_invariant in Hc as (_&_&Ht).
      destruct (Ht _ (list_elem_of_lookup_2 _ _ _ Hn)) as [_ Hh]. by destruct (Hh i Hheld).
    - split_and!; [done..|by right]. }
  destruct Hf as [p y Hst|d y fs' Hk|d y fs' Hk _|a y fs' _ Hsub]; [by left| | |by left; apply Hsub].
  - destruct (decide (path_inside d f)) as [Hd|Hd]; [right|left; by apply Hk].
    destruct (Hwork I) as (i&Hi&Ho&[[[= ->] Hg]|(_&_&Hr&_)]).
    + pose proof (image_file_config i v f Hi Hv Hfv Hd) as Hs. destruct (same_directory_paths _ _ Hs) as (_&<-&_).
      split; [done|]. right. destruct Hg as (w&?&?&?&?), Hs. exists w. split_and!; [done..|split; congruence].
    + destruct (Hr d eq_refl) as [[-> Hm]|Hm].
      * pose proof (image_file_inside i v f Hi Hv Hfv Hd) as Hs. destruct (same_directory_paths _ _ Hs) as (_&<-&<-).
        split; [done|by left].
      * apply Htemp in Hm. by apply (image_file_temp _ v f) in Hm.
  - destruct (Hk f Hin) as [?|[Hd Hno]]; [by left|]. destruct (Hwork I) as (i&Hi&Ho&[[[=] _]|(_&_&_&Hfp)]).
    rewrite (Hfp d eq_refl) in Hd, Hno. pose proof (image_file_inside i v f Hi Hv Hfv Hd) as Hs.
    destruct (same_directory_paths _ _ Hs) as (_&_&Heq). by rewrite Heq in Hno.
Qed.

(** A file of the image that [v] lacks. *)
Lemma complete_or_gone fs (P : Prop) v : (∀ f, f ∈ image_files v → f ∈ fs ∨ P) → complete fs v ∨ P.
Proof.
  unfold complete. generalize (image_files v). intros l. induction l as [|f l IH]; intros H; [left; apply list_subseteq_nil|].
  destruct IH as [?|?]; [by intros ??; apply H; right| |by right].
  destruct (H f); [by left| |by right]. left. by intros g [->|?]%elem_of_cons; auto.
Qed.

(** A call of the n-th run, in the middle of the others. *)
Section call.
Context (s s' : api) (e e' : lock_state) (fs fs' : list string) (ths1 ths2 : list thread)
  (by_ : controller) (req : NamespacedName) (h : trace) (a : call) (x : answer a) (k : answer a → io unit).
Let before := ths1 ++ mkThread by_ req h (Act a k) :: ths2.
Let after := ths1 ++ mkThread by_ req (h ++ [Ev a x]) (k x) :: ths2.
Let c : layered (lock_state * list string) := mkLayered (mkSystem s before) (e, fs).
Hypothesis (Hc : layer_reachable o c) (Hplain : plain_system c) (Hok : files_ok c).
Hypothesis (Hlock : lock_answer (Reconciler.DataDir o) e (length ths1) a x e') (Hfile : file_answer fs a x fs').
Hypothesis Hseen : ∀ v, v ∈ seen s → v ∈ seen s'.

Lemma this_run : sys_threads (base c) !! length ths1 = Some (mkThread by_ req h (Act a k)).
Proof. by apply list_lookup_middle. Qed.

Lemma this_alive : length ths1 ∉ ended e.
Proof. apply Hlock. Qed.

Lemma gone_grows v : gone s v → gone s' v.
Proof. intros (w&?&?&?). exists w. auto. Qed.

(** No other live run owns a lock that this one owns. *)
Lemma other_owner m th v :
  sys_threads (base c) !! m = Some th → m ∉ ended e → m ≠ length ths1 → plain_object v →
  owns (lock_path v) (th_hist th) → ¬ owns (lock_path v) h.
Proof.
  intros Hm Hme Hne Hv Hom Hon. apply Hne. pose proof (locks_part _ Hc Hplain) as Hl.
  exact (owner_unique o _ _ _ _ _ v Hl this_run Hm this_alive Hme Hv Hon Hom).
Qed.

Lemma certified_call v :
  certified after v → certified before v ∨ InputData.image_present (lock_path v) (image_dir v) (h ++ [Ev a x]).
Proof.
  intros (th&[Hin|[->|Hin]%elem_of_cons]%elem_of_app&Hi); [left|by right|left]; exists th; (split; [|done]);
    apply elem_of_app; [by left|right; by right].
Qed.

(** A run that certifies an image with this call owns its lock, and finds it complete. *)
Lemma certifying v :
  plain_object v → InputData.image_present (lock_path v) (image_dir v) (h ++ [Ev a x]) →
  certified before v ∨ (complete fs' v ∧ owns (lock_path v) h).
Proof.
  intros Hv [Hi|[Hev|(h1&gs&f&Hout&Hev&Hh)]]%image_present_last.
  - left. exists (mkThread by_ req h (Act a k)). split; [apply elem_of_app; right; left|done].
  - right. split; [exact (file_answer_installed _ _ _ _ _ Hfile Hev)|].
    assert (Ha : a = FetchAndPersist (image_dir v)) by exact (f_equal ev_call Hev). apply pair_first in Hc as Hc1.
    assert (Hw : works o a) by by rewrite Ha.
    destruct (worker_owns o data_dir _ _ _ _ _ _ _ Hc1 Hplain this_run Hw) as (_&i&_&Hi&Ho&[Hr|Hb]).
    + destruct Hr as (_&_&_&Hr&_). congruence.
    + destruct Hb as (_&_&_&Hb). apply Hb in Ha. symmetry in Ha. apply image_dir_inj in Ha as Hs; [|done..].
      by destruct (same_directory_paths _ _ Hs) as (_&<-&_).
  - right. assert (Hpre : gs `prefix_of` image_files v) by (unfold image_files; rewrite Hout; by exists [f]).
    destruct (file_answer_stat _ _ _ _ _ _ Hfile Hev) as [-> Hst]. split; [|rewrite Hh; apply found_owns].
    destruct (proj2 Hok _ _ v this_run this_alive Hv) as [Hgs _]. unfold complete, image_files. rewrite Hout.
    intros g [Hg| ->%list_elem_of_singleton]%elem_of_app; [by eapply Hgs|by apply Hst].
Qed.

Lemma call_complete v :
  plain_object v → certified after v → complete fs' v ∨ gone s v.
Proof.
  intros Hv Hcert. assert (certified before v ∨ complete fs' v) as [Hcb|?]; [|clear Hcert|by left].
  { destruct (certified_call v Hcert) as [?|Hi]; [by left|]. destruct (certifying v Hv Hi) as [?|[? _]]; auto. }
  destruct (proj1 Hok v Hv Hcb) as [Hall|?]; [|by right]. apply complete_or_gone. intros f Hf.
  destruct (file_kept c _ _ _ _ _ _ _ _ v f Hc Hplain this_run this_alive Hfile Hv Hf (Hall f Hf)) as [?|[Ho [Hm|?]]];
    [by left| |by right].
  right. by apply (proj2 Hok _ _ v this_run this_alive Hv).
Qed.

Lemma call_files_ok : files_ok (mkLayered (mkSystem s' after) (e', fs')).
Proof.
  split; [intros v Hv [?|?]%call_complete; [by left|by right; apply gone_grows|done]|].
  intros m th v Hm Hme Hv. simpl in *. assert (Hend : ended e' = ended e) by apply Hlock. rewrite Hend in Hme.
  destruct (decide (m = length ths1)) as [->|Hne].
  - unfold after in Hm. rewrite list_lookup_middle in Hm by done. injection Hm as <-. simpl. split.
    + intros h1 gs Hpre [->|(gs'&f&->&Hev&Hh)]%found_last; [by intros ? ?%not_elem_of_nil|].
      destruct (file_answer_stat _ _ _ _ _ _ Hfile Hev) as [-> Hst].
      destruct (proj2 Hok _ _ v this_run this_alive Hv) as [Hgs _].
      intros g [Hg| ->%list_elem_of_singleton]%elem_of_app; [|by apply Hst].
      eapply Hgs; [|exact Hh|exact Hg]. etrans; [|exact Hpre]. by exists [f].
    + intros _ (h'&f&y&Hf&Hy&Hh) Hcert. apply app_inj_tail in Hh as [_ Hev].
      destruct (call_complete v Hv Hcert) as [Hall|?]; [|by apply gone_grows].
      destruct (file_answer_stat _ _ _ _ _ _ Hfile Hev) as [-> Hst].
      apply Hall, Hst in Hf. congruence.
  - assert (Hm' : sys_threads (base c) !! m = Some th).
    { simpl. unfold after, before in *. rewrite lookup_app in Hm |- *. destruct (ths1 !! m) eqn:Hm1; [done|].
      apply lookup_ge_None in Hm1. destruct (m - length ths1)%nat as [|q] eqn:Hq; [lia|done]. }
    destruct (proj2 Hok _ _ v Hm' Hme Hv) as [Hgs Hmiss]. split.
    + intros h1 gs Hpre Hh f Hf. assert (Ho : owns (lock_path v) (th_hist th)) by (rewrite Hh; apply found_owns).
      assert (Hfv : f ∈ image_files v) by (destruct Hpre as [q ->]; apply elem_of_app; by left).
      pose proof (Hgs h1 gs Hpre Hh f Hf) as Hin.
      destruct (file_kept c _ _ _ _ _ _ _ _ v f Hc Hplain this_run this_alive Hfile Hv Hfv Hin) as [?|[Hon _]]; [done|].
      by destruct (other_owner _ _ _ Hm' Hme Hne Hv Ho).
    + intros Ho Hfm Hcert. apply gone_grows. apply Hmiss; [done..|].
      destruct (certified_call v Hcert) as [?|Hi]; [done|]. destruct (certifying v Hv Hi) as [?|[_ Hon]]; [done|].
      by destruct (other_owner _ _ _ Hm' Hme Hne Hv Ho).
Qed.
End call.

Lemma files_step c c' :
  layer_reachable o c → plain_system c → files_ok c → layer_step o c c' → files_ok c'.
Proof.
  intros Hc Hp Hok Hs. destruct Hs as [s s' [e fs] [e' fs'] ths1 ths2 by_ req h a k x Ha [Hl Hf]|st st' ee He|st [e fs] [e' fs'] He].
  - apply (call_files_ok s s' e e' fs fs'); try done. intros v Hv. destruct Ha; simpl; auto using list_elem_of_further.
  - assert (Hgone : ∀ v, gone (sys_api st) v → gone (sys_api st') v).
    { intros v (w&Hw&?&?). exists w. split; [|done]. eapply step_seen; [by apply step_env|done]. }
    assert (Hcert : ∀ v, certified (sys_threads st') v → certified (sys_threads st) v).
    { intros v (th&Hth&Hi). exists th. split; [|done]. destruct (th_hist th) as [|ev t] eqn:Hh.
      - exfalso. destruct Hi as [?%not_elem_of_nil|(h1&?&Heq)]; [done|by destruct h1].
      - eapply env_threads; [exact He|done|]. rewrite Hh. left. }
    split; [intros v Hv Hi%Hcert; destruct (proj1 Hok v Hv Hi); auto|].
    intros n th v Hn Hne Hv. simpl in *. assert (Hnew : sys_threads st !! n = Some th ∨ th_hist th = []).
    { destruct He; simpl in Hn; try by left. apply lookup_app_Some in Hn as [?|[_ Hn]]; [by left|right].
      by apply list_elem_of_lookup_2, list_elem_of_singleton in Hn as ->. }
    destruct Hnew as [Hn'|Hnil]; [|rewrite Hnil].
    + destruct (proj2 Hok n th v Hn' Hne Hv) as [H1 H2]. split; [exact H1|]. auto.
    + split; [by intros h1 gs _ Hh; destruct h1|]. by intros (h1&?&Hh&_); destruct h1.
  - assert (Hsub : ended e ⊆ ended e' ∧ fs ⊆ fs').
    { simpl in He. destruct He as [[[n Hn] Heq]|[Hf Heq]]; subst; [|done]. split; [|done]. by intros m ?; right. }
    destruct Hsub as [Hend Hsub]. destruct Hok as [Hok1 Hok2]. split; simpl in *.
    + intros v Hv [Hall|?]%Hok1; [left|by right|done]. intros f ?. by apply Hsub, Hall.
    + intros n th v Hn Hne Hv. destruct (Hok2 n th v Hn (λ H, Hne (Hend _ H)) Hv) as [H1 H2]. split; [|done].
      intros h1 gs Hpre Hh f ?. apply Hsub. by eapply H1.
Qed.

Lemma files_invariant c : layer_reachable o c → plain_system c → files_ok c.
Proof.
  induction 1 as [|c c' Hr IH Hs]; intros Hp.
  - split; [by intros v _ (th&?%not_elem_of_nil&_)|by intros n th v ?].
  - assert (Hp' : plain_system c) by (intros v ?; by eapply Hp, layer_step_seen).
    by eapply files_step; [| |apply IH|].
Qed.

(** *** The image server *)

(** The server asks the same file system. *)
Definition told_by (fs : list string) (ev : event answer) : Prop :=
  match ev with Ev a x => ∃ fs', file_answer fs a x fs' end.

(** Requests for the image of [v] are answered with its file. *)
Definition image_served (fs : list string) (v : ImageClusterInstall) : Prop :=
  ∀ t r, exec (ImageServer.ServeHTTP (Manager.server_ConfigsDir (Reconciler.DataDir o))
                 (Manager.image_path (om_Namespace (ici_Meta v)) (om_UID (ici_Meta v)))) t r →
    Forall (told_by fs) t → r = ImageServer.File (Manager.iso_file (Reconciler.DataDir o) v).

Definition plain_names (v : ImageClusterInstall) : Prop :=
  Manager.plain_name (om_Namespace (ici_Meta v)) ∧ Manager.plain_name (om_UID (ici_Meta v)).

Lemma plain_names_object v : plain_names v → plain_object v.
Proof.
  assert (H : ∀ x, Manager.plain_name x → plain_elem x).
  { intros x Hx. pose proof (Manager.plain_free "/"%char _ eq_refl Hx). by destruct Hx as (?&?&?&_). }
  intros [??]. split; by apply H.
Qed.

Lemma complete_served fs v : plain_names v → complete fs v → image_served fs v.
Proof.
  intros [Hns Huid] Hall t r He Ht.
  destruct (Manager.image_request _ _ _ _ data_dir Hns Huid He) as (st&->&->).
  apply Forall_singleton in Ht as [fs' Hf]. destruct (file_answer_stat _ _ _ _ _ _ Hf eq_refl) as [_ Hst].
  rewrite (proj2 Hst); [done|]. apply Hall. left.
Qed.

(** Everything shared: the objects, the DataImages, the locks and the files. *)
#[local] Instance everything : Layer (list DataImage * (lock_state * list string)) :=
  pair_layer images locks_files.

(** C3: a booted host can get its own image, until its installation is deleted.  In
    every interleaving of runs of both controllers, users, restores and changes of
    the host operator, over shared objects, DataImages, lock files and files, with
    processes that end at any point: if no two installations refer to the same host,
    then behind every stored boot time there is a run of the reconciler for the
    object that started its host while the host had a DataImage, the URL of which is
    that of an object [j] of this name on the service of the operator; and from now
    on, whatever happens, the image server answers requests for that URL with the
    image file of [j], unless an object with the namespace and the UID of [j] was
    stored as being deleted. *)
Theorem own_image_served (c : layered (list DataImage * (lock_state * list string))) v base_url :
  Manager.plain_service o → Manager.serviceURL o = Ok base_url → Reconciler.BaseURL o = base_url →
  layer_reachable o c → exclusive (sys_api (base c)) → (∀ w, w ∈ seen (sys_api (base c)) → plain_names w) →
  v ∈ seen (sys_api (base c)) → boot_of v ≠ 0%Z →
  ∃ h b d j, did (base c) ReconcilerRun (key_of v) h ∧ host_known b h ∧ Host.host_started b h ∧
    Host.image_settled (meta_key (bmh_Meta b)) (Reconciler.DataImageCoolDownPeriod o) d h ∧
    meta_key (di_Meta d) = meta_key (bmh_Meta b) ∧
    j ∈ seen (sys_api (base c)) ∧ key_of j = key_of v ∧
    di_URL d = base_url +:+ Manager.image_path (om_Namespace (ici_Meta j)) (om_UID (ici_Meta j)) ∧
    ∀ c', rtc (layer_step o) c c' → (∀ w, w ∈ seen (sys_api (base c')) → plain_names w) →
      image_served (extra c').2.2 j ∨ gone (sys_api (base c')) j.
Proof.
  intros Hservice Hbase HB Hc Hex Hnames Hv Hboot.
  pose proof (pair_first _ _ _ _ Hc) as Hc1. pose proof (pair_second _ _ _ _ Hc) as Hc2.
  destruct (own_image o _ v Hc1 Hex Hv Hboot)
    as (h&b&d&Hdid&Hb&Hstart&Hset&Hdk&h'&i&j&cd&Hdid'&[Hpresent _]&Hj&Hkj&Hkij&Huid&Hurl).
  exists h, b, d, j. split_and!; [done..| |].
  - destruct (Hnames j Hj). rewrite (Manager.image_url_plain _ _ _ base_url) in Hurl; [congruence|done..| |done|done].
    by rewrite <- Hkj.
  - clear Hnames. intros c' Hsteps Hnames. apply rtc_layer_reachable in Hsteps as Hc'; [|exact Hc].
    apply layer_steps_extends in Hsteps as Hext. apply pair_second in Hc'.
    assert (Hplain : plain_system (mkLayered (base c') (extra c').2)) by (intros w ?; by apply plain_names_object, Hnames).
    assert (Hj' : j ∈ seen (sys_api (base c'))) by by eapply layer_steps_seen.
    destruct (files_invariant _ Hc' Hplain) as [Hcert _]. apply Hext in Hdid' as (t&rem&Hin).
    assert (Hsame : same_directory i j) by (split; [by injection Hkij|done]).
    destruct (same_directory_paths _ _ Hsame) as (_&Hlock&Hdir).
    destruct (Hcert j) as [Hall|?]; [by apply plain_names_object, Hnames| |left|by right].
    + exists (mkThread ReconcilerRun (key_of v) (h' ++ t) rem). split; [done|]. simpl.
      apply InputData.image_present_app. rewrite <- Hlock, <- Hdir. exact Hpresent.
    + apply complete_served; [by apply Hnames|done].
Qed.
End images.

(** *** Scenarios *)

Definition all_layers (dataDir : string) : Layer (list DataImage * (lock_state * list string)) :=
  pair_layer images (pair_layer (lock_layer dataDir) file_layer).

Definition plain_names_dec v : {plain_names v} + {¬ plain_names v}.
Proof. unfold plain_names, Manager.plain_name. apply (decide _). Defined.

(** An installation that is reported as completed, in the simulated environment; the
    image is still served. *)
Lemma own_image_served_witness :
  ∃ (c : layered (list DataImage * (lock_state * list string))) v d j,
    layer_reachable (L := StubLibs) (Layer0 := all_layers "/data") Reconciler.opts0 c ∧
    v ∈ seen (sys_api (base c)) ∧ boot_of v ≠ 0%Z ∧
    di_URL d = "http://svc.ns.svc:8000" +:+ Manager.image_path (om_Namespace (ici_Meta j)) (om_UID (ici_Meta j)) ∧
    image_served Reconciler.opts0 (extra c).2.2 j.
Proof.
  set (c := layer_after (Layer0 := all_layers "/data") (install_moves 500)).
  assert (Hk : ∃ k, position (λ v, negb (bool_decide (boot_of v = 0%Z))) (seen (sys_api (base c))) = Some k)
    by (eexists; vm_compute; reflexivity).
  assert (Hex : exclusive (sys_api (base c))) by (apply (exclusive_one _ Sim.req0); vm_compute; reflexivity).
  assert (Hp : forallb (λ v, (if plain_names_dec v then true else false) && negb (Reconciler.deleted v))
                 (seen (sys_api (base c))) = true) by (vm_compute; reflexivity).
  pose proof (layer_after_reachable (Layer0 := all_layers "/data") (install_moves 500)) as Hc. fold c in Hc. clearbody c.
  destruct Hk as [k Hk]. destruct (position_split _ _ _ Hk) as (l1&v&l2&Hl&Hb%negb_true_iff%bool_decide_eq_false_1).
  assert (Hv : v ∈ seen (sys_api (base c))) by (rewrite Hl; apply elem_of_app; right; apply list_elem_of_here).
  assert (Hall : ∀ w, w ∈ seen (sys_api (base c)) → plain_names w ∧ Reconciler.deleted w = false).
  { intros w Hw%list_elem_of_In. rewrite forallb_forall in Hp. apply Hp, andb_prop in Hw as [Hw ?%negb_true_iff].
    by destruct (plain_names_dec w). }
  assert (Hservice : Manager.plain_service Reconciler.opts0)
    by (unfold Manager.plain_service; split_and!; vm_compute; reflexivity).
  assert (Hbase : Manager.serviceURL Reconciler.opts0 = Ok "http://svc.ns.svc:8000") by (vm_compute; reflexivity).
  destruct (own_image_served (L := StubLibs) Reconciler.opts0 ltac:(discriminate) c v _ Hservice Hbase eq_refl Hc Hex
    (λ w Hw, proj1 (Hall w Hw)) Hv Hb) as (_&_&d&j&_&_&_&_&_&_&_&Hurl&Hserved).
  exists c, v, d, j. split_and!; [done..|].
  destruct (Hserved c (rtc_refl _ _) (λ w Hw, proj1 (Hall w Hw))) as [?|(w&Hw&Hdel&_)]; [done|].
  destruct (Hall w Hw) as [_ Hno]. congruence.
Defined.
End Images.
